(* ===== verification/_CoqProject ===== *)
-Q . S2P
Prelude.v
Memory.v
Util.v
OrderedArray.v
Kernel.v
Paging.v
KHeap.v
KHeapInv.v
KHeapAlign.v
KHeapFree.v
KHeapGrow.v
KHeapPages.v
HeapSafety.v
HeapProps.v
Directories.v
CloneHeap.v
CloneTable.v
IdentityMap.v
PagingStart.v
Cleared.v
Ports.v
Descriptors.v
Interrupts.v
Syscall.v
Task.v
TaskInv.v
TaskProps.v
TaskStart.v
KernelStart.v
Screen.v
Printf.v
PrintfNumber.v
PrintfProps.v
Literals.v
Ps2.v
Kbc.v
Console.v
Faults.v
Clock.v
Board.v
Ps2Props.v
Boot.v
A20Props.v
Startup.v
BootProps.v
Symbols.v
Shell.v
ShellProps.v
Keyboard.v
CommandLine.v
MainRun.v
