(* ===== verification/Prelude.v ===== *)
(** * A verification development for the matanos kernel

    matanos is a small 32-bit x86 kernel in C: [main] of src/kernel/kernel.c
    sets up the processor's tables, the timer and the keyboard, paging with a
    heap, and tasks, and runs a test that forks; the keyboard interrupt feeds a
    command line.  This library models that code and proves what it does.

    ** How the program fits together

    - memory: the bump allocator, then the heap of src/cpu/kheap.c, whose index
      is the sorted array of src/cpu/ordered_array.c; the frames, tables and
      directories of src/cpu/paging.c, which allocate with [kmalloc] and which
      the heap calls to grow and shrink;
    - interrupts: the tables of src/cpu/idt.c and src/cpu/isr.c, the two
      interrupt controllers, the dispatch to registered handlers, the system
      calls of src/cpu/syscall.c on vector 0x80;
    - tasks: src/cpu/task.c and src/cpu/timer.c, a ready queue and a sleep
      queue linked through the tasks; the timer's interrupt wakes and switches;
      [fork] clones the address space of paging.c;
    - devices: src/drivers/ports.c below everything that talks to hardware, the
      text screen of src/drivers/screen.c, the keyboard controller and the
      keyboard interrupt of src/drivers/keyboard.c;
    - text: src/kernel/util.c, [printf] of src/kernel/printf.c over the screen,
      the command line of src/kernel/shell.c, which calls functions by name
      through the symbol table of src/kernel/symbols.c.

    ** Which file models what

    State is passed explicitly; a call returns an [outcome] (below).  Memory is
    a map from addresses to bytes (Memory.v) and pointers are integers; a
    32-bit word is a [Z] with its wrap-around written out ([u32], [i32], ...).

    - Prelude.v: outcomes, machine integers, [while] loops, tactics and hints;
      Memory.v: bytes, words, frames ([same_but]), C strings;
    - Util.v: kernel/util.c;
    - OrderedArray.v: cpu/ordered_array.c, [oa_rep] relating it to a list;
    - Kernel.v: [kernel], the globals of kheap.c and paging.c, with [heap_t];
    - Paging.v: the frame bitmap, page entries, [get_page_ptr_in_page_table] of
      cpu/paging.c, against any allocator;
    - KHeap.v: cpu/kheap.c; KHeapInv.v: [heap_inv], the heap as its list of
      blocks; KHeapAlign.v, KHeapFree.v and KHeapGrow.v: aligned allocation,
      [free], and [alloc] with the growth of the heap; KHeapPages.v: the pages
      that growth maps; HeapSafety.v: steps and runs of clients; HeapProps.v:
      the properties;
    - Directories.v: the rest of cpu/paging.c on top of both, with
      [copy_page_physical] of cpu/process.asm; CloneHeap.v: [clone_table] on
      the heap; CloneTable.v: a whole address space cloned; IdentityMap.v: the
      processor's page walk and the identity map; PagingStart.v: the whole of [initialise_paging];
    - Ports.v: drivers/ports.c against the class [PortDevice], and the interrupt
      controllers' class [TwoPics]; Descriptors.v: cpu/idt.c, the GDT and the
      TSS; Interrupts.v: cpu/isr.c; Syscall.v: cpu/syscall.c;
    - Task.v: cpu/task.c and cpu/timer.c on the state [sched]; TaskInv.v: the
      abstract scheduler [asched] and the refinement relation [sched_rel];
      TaskProps.v: the properties; TaskStart.v: [move_stack] and the first task;
      KernelStart.v: paging and tasking started one after the other, as [main]
      does;
    - Screen.v: drivers/screen.c against the class [HasCrtc], and the abstract
      [console]; Printf.v: kernel/printf.c; PrintfNumber.v and PrintfProps.v:
      the denotation of formats and what is printed; Literals.v: string
      literals, whose addresses are a parameter; Console.v: messages of the
      kernel on the console, the panics of util.c with what they print;
    - Ps2.v: the part of drivers/keyboard.c that talks to the controller; Kbc.v:
      that controller, with the devices behind it (class [HasKbc]), and what
      each function does to it; Ps2Props.v: polls, waits and the start-up;
      Keyboard.v: the interrupt; Symbols.v: kernel/symbols.c; Shell.v and
      ShellProps.v: kernel/shell.c; CommandLine.v: keyboard, console, shell and
      symbol table together;
    - Faults.v: [page_fault], [general_fault], [isr3_handler]; Clock.v:
      [init_timer] with the interval timer (class [HasPit]) and the clock
      interrupt on the machine of scheduler and devices; Boot.v and BootProps.v:
      kernel/kernel.c, system call stubs, user mode, the test;
    - Board.v: the devices as one machine, and what is relied on of them
      together ([KeyboardApart]); A20Props.v: the A20 line; Startup.v: [main] up
      to the first fork, devices and memory together; Cleared.v: a
      range of memory set at once, for evaluation; MainRun.v: the whole of [main]
      evaluated on one machine.

    ** What the theorems show

    - The heap: on every run of allocations (aligned or not) that find room,
      allocations that grow a heap which is full or ends in a hole, frees of
      blocks with a right neighbour in use, and writes of clients, live blocks
      keep their data and never overlap; each call's effect on the list of
      blocks, which hole it takes, and the pages that the growth of a heap maps
      when it ends with a page; [create_heap] establishes the invariant.  Closed
      counterexamples show the calls outside those conditions that break it, and
      a growth from within a page that leaves the last page unmapped.
    - Paging: the bitmap is a set; [alloc_frame] takes the least free frame and
      never gives one frame to two entries; [initialise_paging] as a whole ends
      with paging on, the memory in use mapped to itself, the heap mapped and
      well formed; a cloned address space shares the kernel's tables and has a
      frame of its own, with the same bytes, for every other page.
    - Tasks: ticks, switches, sleeps and forks refine the abstract scheduler; no
      task is lost on any run; round robin; sleepers wake; [initialise_tasking]
      starts in a good state, on a stack that was moved correctly, also after
      [initialise_paging], on the heap that that left; a clock interrupt through
      controller and dispatch is a tick.
    - The start: from a machine with its devices as they are at power-on, [main]
      gets to the first fork with the devices set up, the handlers registered,
      its reports on the screen, paging, heap and scheduler in good states.  On a
      machine that is written out the rest is evaluated as well: the forks, the
      message, the sleep, the line of the older child as it leaves [fork], and
      the heap as the forks leave it.  A comment of kernel.c says that a process
      in user mode does not work beside one in kernel mode; nothing is claimed
      of the children beyond that line.
    - Text: [printf] and [sprintf] print the denotation of their format on the
      abstract console; numbers have the value and the length they should;
      conversions round-trip; page faults and panics say what they say.
    - Input: the keyboard interrupt is a line editor; the command line calls the
      function it names with the values it lists; keys typed, an interrupt each,
      and Enter come to the call of the function that the line names.
    - Devices: the start-up of the keyboard controller for every outcome of its
      tests, the A20 line, the programming of the timer, the tables the processor
      reads, polling loops that end or do not.  A driver's theorem also says
      which ports it touches ([touches] of Ports.v), from which it follows that
      the other devices are as they were.

    ** Fuel and bounds

    A C loop is [while n], and a recursion a [Fixpoint] on a bound; [NoFuel] is
    never a normal result, and the theorems prove that the call returns with
    the bound given.  Loops over the tasks get as many steps as there are tasks,
    which is enough as a queue has no task twice; loops over tables and arrays
    get their length; the loops of strings get the caller's [fuel], which the
    theorems require to be at least the length (1024, the size of [printf]'s
    buffer, where a theorem fixes one); [alloc]'s recursion after growing gets
    [fuel]: an allocation that finds a hole needs none and one that grows the
    heap needs one step, as the hole it makes fits; the
    identity map needs 1024 turns, four megabytes of pages.  Polls of a device
    that may never be ready are proved to end within the retries of the code,
    or not to end; the loop that empties the keyboard controller's output buffer
    needs as many turns as bytes wait there, since the channels are disabled.

    ** Not modelled

    The boot sector and src/boot/ are 16-bit assembly and entry code that runs
    before the C program; of src/cpu/interrupt.asm the entry stubs push the
    registers that [registers_t] lists, and only [is_A20_on] is modelled.
    Segment registers, the instructions of the change to user mode, interrupt
    enabling and the translation cache have no counterpart: handlers run to
    their end, and the places where an interrupt may come between two parts of
    [sleep] are explicit steps.  Interrupts are off throughout [start].  A system
    call is its vector in the registers; the privilege level and the gate of the
    vector are not consulted.  CPUID and RDMSR are parameters of the shell, a
    call through an address of the symbol table is a parameter, and WRMSR is
    not used by the program.  [k_mem] is memory by virtual address, and a read or
    write of it is not checked against the page tables: what they say is read by
    [translate] and [entry_of], in theorems of their own, and a call that touches
    a page without an entry goes on here and faults on the machine.  Copying of
    frames goes to [k_phys].  Initial values of [ad] and of registers that the code reads
    uninitialised are parameters.  Endless loops are single turns. *)

From stdpp Require Export base gmap list numbers strings.
From Stdlib Require Export ZArith Lia.

#[global] Open Scope Z_scope.

(** ** Outcomes of a call

    [Ok] is a normal return.  [Panic] is [panic]/[panic_assert] of
    kernel/util.c, which print a message and then loop for ever with the
    interrupts off.  [Undef] is C behaviour the source leaves undefined (the
    end of a non-void function, a missing variadic argument, a write past the
    end of a local array).  [NoFuel] is a
    loop that did not finish within the iterations it was given. *)

Inductive outcome (A : Type) : Type :=
| Ok (a : A)
| Panic (msg : string) (file : string) (line : Z)
| Undef (why : string)
| NoFuel.

Arguments Ok {A} a.
Arguments Panic {A} msg file line.
Arguments Undef {A} why.
Arguments NoFuel {A}.

#[global] Instance outcome_ret : MRet outcome := fun A a => Ok a.
#[global] Instance outcome_bind : MBind outcome := fun A B k o =>
  match o with
  | Ok a => k a
  | Panic msg file line => Panic msg file line
  | Undef why => Undef why
  | NoFuel => NoFuel
  end.

(** One step of a composed call. *)
Lemma bind_ok {A B : Type} (a : A) (f : A -> outcome B) : (Ok a ≫= f) = f a.
Proof. reflexivity. Qed.

Lemma bind_inv {A B : Type} (x : outcome A) (f : A -> outcome B) y : (x ≫= f) = Ok y -> exists a, x = Ok a /\ f a = Ok y.
Proof. destruct x; simpl; intros H; try discriminate; eauto. Qed.

(** ** Machine integers

    A value of a w-bit C type is a [Z]; these are the conversions to the
    types [unsigned char], [unsigned short], [uint32_t], [char] (signed here,
    as gcc has it on x86), [short] and [int]. *)

Definition u8 (x : Z) : Z := x mod 0x100.

Definition u16 (x : Z) : Z := x mod 0x10000.

Definition u32 (x : Z) : Z := x mod 0x100000000.

Definition i8 (x : Z) : Z := (x + 0x80) mod 0x100 - 0x80.

Definition i16 (x : Z) : Z := (x + 0x8000) mod 0x10000 - 0x8000.

Definition i32 (x : Z) : Z := (x + 0x80000000) mod 0x100000000 - 0x80000000.

(** ** Loops

    [while fuel c body s] is [while (c) body]: [fuel] bounds the iterations,
    and a loop that needs more is [NoFuel].  [for_up n f i s] is a counted
    loop whose body cannot fail: [f i], [f (i+1)], ..., [n] times. *)

Fixpoint while {S : Type} (fuel : nat) (c : S -> bool)
    (body : S -> outcome S) (s : S) {struct fuel} : outcome S :=
  if c s then
    match fuel with
    | O => NoFuel
    | Datatypes.S f => s' ← body s; while f c body s'
    end
  else Ok s.

Fixpoint for_up {S : Type} (n : nat) (f : Z -> S -> S) (i : Z) (s : S) : S :=
  match n with
  | O => s
  | Datatypes.S n' => for_up n' f (i + 1) (f i s)
  end.

(** ** Tactics *)

Ltac unfold_ints := unfold u8, u16, u32, i8, i16, i32 in *.

(** [zlia]: linear arithmetic with [/], [mod] and the integer conversions. *)
Ltac zlia := unfold_ints; Z.to_euclidean_division_equations; lia.

(** [cases_lia]: split every test in the goal, close the impossible and the
    trivial branches. *)
Ltac cases_lia := repeat case_match; try lia; try reflexivity.

(** [ok_inv]: take apart hypotheses that say a composed call returned. *)
Ltac ok_inv :=
  repeat match goal with
  | H : (_ ≫= _) = Ok _ |- _ =>
      unfold mbind, outcome_bind in H
  | H : Ok _ = Ok _ |- _ => injection H as H; try subst
  | H : NoFuel = Ok _ |- _ => discriminate H
  | H : Undef _ = Ok _ |- _ => discriminate H
  | H : Panic _ _ _ = Ok _ |- _ => discriminate H
  | H : match ?o with Ok _ => _ | Panic _ _ _ => _ | Undef _ => _ | NoFuel => _ end = Ok _ |- _ =>
      let E := fresh "E" in destruct o eqn:E; try discriminate H
  end.

(** ** Integer lemmas *)

Create HintDb ints.
Create Rewrite HintDb ints.

Lemma u8_range x : 0 <= u8 x < 0x100.
Proof. apply Z.mod_pos_bound; lia. Qed.

Lemma u16_range x : 0 <= u16 x < 0x10000.
Proof. apply Z.mod_pos_bound; lia. Qed.

Lemma u32_range x : 0 <= u32 x < 0x100000000.
Proof. apply Z.mod_pos_bound; lia. Qed.

Lemma i8_range x : - 0x80 <= i8 x < 0x80.
Proof. zlia. Qed.

Lemma i32_range x : - 0x80000000 <= i32 x < 0x80000000.
Proof. zlia. Qed.

Lemma u8_small x : 0 <= x < 0x100 -> u8 x = x.
Proof. apply Z.mod_small. Qed.

Lemma u16_small x : 0 <= x < 0x10000 -> u16 x = x.
Proof. apply Z.mod_small. Qed.

Lemma u32_small x : 0 <= x < 0x100000000 -> u32 x = x.
Proof. apply Z.mod_small. Qed.

Lemma i8_small x : - 0x80 <= x < 0x80 -> i8 x = x.
Proof. intros. unfold i8. rewrite Z.mod_small; lia. Qed.

Lemma i32_small x : - 0x80000000 <= x < 0x80000000 -> i32 x = x.
Proof. intros. unfold i32. rewrite Z.mod_small; lia. Qed.

Lemma u32_idem x : u32 (u32 x) = u32 x.
Proof. apply Z.mod_mod; lia. Qed.

Lemma u8_idem x : u8 (u8 x) = u8 x.
Proof. apply Z.mod_mod; lia. Qed.

Lemma u32_i32 x : u32 (i32 x) = u32 x.
Proof. zlia. Qed.

Lemma i8_inj x y : 0 <= x < 0x100 -> 0 <= y < 0x100 -> i8 x = i8 y -> x = y.
Proof. intros. zlia. Qed.

Lemma i8_eqb x y : 0 <= x < 0x100 -> 0 <= y < 0x100 -> (i8 x =? i8 y) = (x =? y).
Proof. intros. apply Bool.eq_iff_eq_true. rewrite !Z.eqb_eq. split; [now apply i8_inj | congruence]. Qed.

#[export] Hint Resolve u8_range u16_range u32_range i8_range i32_range : ints.
#[export] Hint Rewrite u8_idem u32_idem u32_i32 : ints.
#[export] Hint Rewrite u8_small u16_small u32_small i8_small i32_small using lia : ints.

(** A mask of the low [n] bits is a remainder. *)
Lemma land_low_mod x n m : m = Z.ones n -> 0 <= n -> Z.land x m = x mod 2 ^ n.
Proof. intros -> Hn. apply Z.land_ones; lia. Qed.

Lemma land_FFF x : Z.land x 0xFFF = x mod 0x1000.
Proof. apply (land_low_mod x 12); [reflexivity | lia]. Qed.

Lemma land_FFFFF000 x : 0 <= x < 0x100000000 -> Z.land x 0xFFFFF000 = x - x mod 0x1000.
Proof.
  intros Hx. rewrite <- land_FFF.
  assert (Z.land x 0xFFFFF000 + Z.land x 0xFFF = x) as E; [|lia].
  assert (Z.land (Z.land x 0xFFFFF000) (Z.land x 0xFFF) = 0) as Hd.
  { rewrite (Z.land_comm x 0xFFF), Z.land_assoc, <- (Z.land_assoc x).
    change (Z.land 0xFFFFF000 0xFFF) with 0. now rewrite Z.land_0_r, Z.land_0_l. }
  rewrite Z.add_nocarry_lxor, Z.lxor_lor by exact Hd.
  rewrite <- Z.land_lor_distr_r. change (Z.lor 0xFFFFF000 0xFFF) with (Z.ones 32).
  rewrite Z.land_ones by lia. apply Z.mod_small. lia.
Qed.

(** ** Loop rules *)

(** A loop whose body, under the invariant, returns, keeps the invariant and
    makes a measure smaller, returns a state where the condition is false. *)
Lemma while_rule {S : Type} (I : S -> Prop) (mu : S -> nat) c body fuel (s : S) :
  (forall s, I s -> c s = true -> exists s', body s = Ok s' /\ I s' /\ (mu s' < mu s)%nat) ->
  I s -> (mu s <= fuel)%nat ->
  exists s', while fuel c body s = Ok s' /\ I s' /\ c s' = false.
Proof.
  intros Hstep. revert s. induction fuel as [|f IH]; intros s HI Hmu; simpl.
  - destruct (c s) eqn:Ec; [|eauto].
    destruct (Hstep s HI Ec) as (s' & _ & _ & Hlt). lia.
  - destruct (c s) eqn:Ec; [|eauto].
    destruct (Hstep s HI Ec) as (s' & Hb & HI' & Hlt). rewrite Hb. simpl.
    apply IH; [assumption | lia].
Qed.

Lemma while_done {S : Type} fuel c body (s : S) : c s = false -> while fuel c body s = Ok s.
Proof. destruct fuel; simpl; intros ->; reflexivity. Qed.

Lemma while_step {S : Type} fuel c body (s s' : S) :
  c s = true -> body s = Ok s' ->
  while (Datatypes.S fuel) c body s = while fuel c body s'.
Proof. intros Hc Hb. simpl. rewrite Hc, Hb. reflexivity. Qed.

(** More fuel does not change a result. *)
Lemma while_fuel_mono {S : Type} f1 f2 c body (s r : S) :
  (f1 <= f2)%nat -> while f1 c body s = Ok r -> while f2 c body s = Ok r.
Proof.
  revert f2 s. induction f1 as [|f1 IH]; intros f2 s Hle H; simpl in H.
  - destruct (c s) eqn:Ec; [discriminate|]. injection H as <-. now apply while_done.
  - destruct f2 as [|f2]; [lia|]. simpl. destruct (c s) eqn:Ec; [|exact H].
    destruct (body s) as [s'| | |] eqn:Eb; simpl in *; try discriminate.
    apply (IH f2 s'); [lia | exact H].
Qed.

Lemma for_up_rule {S : Type} (I : Z -> S -> Prop) (f : Z -> S -> S) n i (s : S) :
  (forall j s, i <= j < i + Z.of_nat n -> I j s -> I (j + 1) (f j s)) ->
  I i s -> I (i + Z.of_nat n) (for_up n f i s).
Proof.
  revert i s. induction n as [|n IH]; intros i s Hf HI; simpl for_up.
  - now rewrite Z.add_0_r.
  - replace (i + Z.of_nat (Datatypes.S n)) with ((i + 1) + Z.of_nat n) by lia.
    apply IH; [|apply Hf; [lia | assumption]].
    intros j s' Hj. apply Hf. lia.
Qed.
