(* ===== verification/Memory.v ===== *)
(** * Byte-addressed memory

    The address space the kernel's C code works on: bytes at addresses, with
    little-endian 32-bit words on top, C strings, and the frame relation the
    components use to say which bytes a call leaves alone.  An address that
    was never written reads as zero.  A pointer is a [Z]; arithmetic on
    pointers is not wrapped (it is undefined past the object), arithmetic the
    source does in [uint32_t] is wrapped where it is done, with [u32]. *)

From S2P Require Import Prelude.

(** Addresses to byte values. *)
Abbreviation mem := (gmap Z Z).

Definition load8 (m : mem) (a : Z) : Z := u8 (default 0 (m !! a)).

Definition store8 (m : mem) (a v : Z) : mem := <[a := u8 v]> m.

Definition load32 (m : mem) (a : Z) : Z :=
  load8 m a + 0x100 * load8 m (a + 1) + 0x10000 * load8 m (a + 2) + 0x1000000 * load8 m (a + 3).

Definition store32 (m : mem) (a v : Z) : mem :=
  store8 (store8 (store8 (store8 m a v) (a + 1) (v / 0x100)) (a + 2) (v / 0x10000)) (a + 3) (v / 0x1000000).

(** [store_bytes m a l] writes the bytes [l] from address [a] up. *)
Fixpoint store_bytes (m : mem) (a : Z) (l : list Z) : mem :=
  match l with
  | [] => m
  | x :: l' => store_bytes (store8 m a x) (a + 1) l'
  end.

(** [load_bytes m a n] reads [n] bytes from address [a] up. *)
Fixpoint load_bytes (m : mem) (a : Z) (n : nat) : list Z :=
  match n with
  | O => []
  | S n' => load8 m a :: load_bytes m (a + 1) n'
  end.

(** The bytes [l] are at [a]. *)
Definition bytes_at (m : mem) (a : Z) (l : list Z) : Prop :=
  load_bytes m a (length l) = l.

(** A NUL-terminated string of the (non-zero) bytes [l] is at [a]. *)
Definition cstring (m : mem) (a : Z) (l : list Z) : Prop :=
  bytes_at m a (l ++ [0]) /\ Forall (fun x => 0 < x < 0x100) l.

(** [m'] differs from [m] at most in the [n] bytes from [a]. *)
Definition same_but (a n : Z) (m m' : mem) : Prop :=
  forall x, x < a \/ a + n <= x -> load8 m' x = load8 m x.

Arguments load8 : simpl never.
Arguments store8 : simpl never.
Arguments load32 : simpl never.
Arguments store32 : simpl never.

(** ** Bytes *)

Create HintDb mem.
Create Rewrite HintDb mem.

Lemma load8_range m a : 0 <= load8 m a < 0x100.
Proof. apply u8_range. Qed.

Lemma load8_store8_eq m a v : load8 (store8 m a v) a = u8 v.
Proof. unfold load8, store8. rewrite lookup_insert_eq. apply u8_idem. Qed.

Lemma load8_store8_ne m a b v : a <> b -> load8 (store8 m a v) b = load8 m b.
Proof. intros. unfold load8, store8. now rewrite lookup_insert_ne. Qed.

Lemma load8_store8 m a b v :
  load8 (store8 m a v) b = if decide (a = b) then u8 v else load8 m b.
Proof. case_decide; subst; [apply load8_store8_eq | now apply load8_store8_ne]. Qed.

(** ** Words *)

Lemma load32_range m a : 0 <= load32 m a < 0x100000000.
Proof.
  unfold load32.
  pose proof (load8_range m a). pose proof (load8_range m (a + 1)).
  pose proof (load8_range m (a + 2)). pose proof (load8_range m (a + 3)). lia.
Qed.

(** The four bytes of a word make the word again. *)
Lemma bytes_of_word v :
  u8 v + 0x100 * u8 (v / 0x100) + 0x10000 * u8 (v / 0x10000) + 0x1000000 * u8 (v / 0x1000000) = u32 v.
Proof. zlia. Qed.

Lemma load32_store32_eq m a v : load32 (store32 m a v) a = u32 v.
Proof.
  unfold load32, store32. rewrite <- bytes_of_word.
  rewrite !load8_store8. repeat case_decide; lia.
Qed.

Lemma load8_store32_ne m a b v : b < a \/ a + 4 <= b -> load8 (store32 m a v) b = load8 m b.
Proof. intros. unfold store32. rewrite !load8_store8_ne by lia. reflexivity. Qed.

Lemma load32_store32_ne m a b v : a + 4 <= b \/ b + 4 <= a -> load32 (store32 m a v) b = load32 m b.
Proof. intros. unfold load32. rewrite !load8_store32_ne by lia. reflexivity. Qed.

Lemma load32_store8_ne m a b v : a < b \/ b + 4 <= a -> load32 (store8 m a v) b = load32 m b.
Proof. intros. unfold load32. rewrite !load8_store8_ne by lia. reflexivity. Qed.

#[export] Hint Resolve load8_range load32_range : mem.
#[export] Hint Rewrite load8_store8_eq load32_store32_eq : mem.
#[export] Hint Rewrite load8_store8_ne load8_store32_ne load32_store32_ne load32_store8_ne
  using lia : mem.

(** [mem_simpl]: read back what was written, past the writes elsewhere. *)
Ltac mem_simpl := autorewrite with mem.

(** ** Byte sequences *)

Lemma length_load_bytes m a n : length (load_bytes m a n) = n.
Proof. revert a. induction n; intros; simpl; auto. Qed.

Lemma load_bytes_lookup m a n i :
  (i < n)%nat -> load_bytes m a n !! i = Some (load8 m (a + Z.of_nat i)).
Proof.
  revert a i. induction n as [|n IH]; intros a i Hi; [lia|].
  destruct i as [|i]; simpl.
  - now rewrite Z.add_0_r.
  - rewrite IH by lia. do 2 f_equal. lia.
Qed.

Lemma bytes_at_lookup m a l :
  bytes_at m a l <-> forall i x, l !! i = Some x -> load8 m (a + Z.of_nat i) = x.
Proof.
  unfold bytes_at. split.
  - intros H i x Hi. pose proof (lookup_lt_Some _ _ _ Hi).
    rewrite <- H, load_bytes_lookup in Hi by lia. now injection Hi.
  - intros H. apply list_eq. intros i. destruct (l !! i) as [x|] eqn:E.
    + rewrite load_bytes_lookup by now apply lookup_lt_Some in E. now rewrite (H i x).
    + apply lookup_ge_None. rewrite length_load_bytes. now apply lookup_ge_None.
Qed.

Lemma bytes_at_app m a l1 l2 :
  bytes_at m a (l1 ++ l2) <-> bytes_at m a l1 /\ bytes_at m (a + Z.of_nat (length l1)) l2.
Proof.
  rewrite !bytes_at_lookup. split; [intros H; split|intros [H1 H2]]; intros i x Hi.
  - apply H. now apply lookup_app_l_Some.
  - specialize (H (length l1 + i)%nat x). rewrite lookup_app_r in H by lia.
    replace (length l1 + i - length l1)%nat with i in H by lia.
    rewrite <- (H Hi). f_equal. lia.
  - apply lookup_app_Some in Hi as [Hi | [Hlen Hi]].
    + now apply H1.
    + rewrite <- (H2 _ _ Hi). f_equal. lia.
Qed.

Lemma bytes_at_cons m a x l : bytes_at m a (x :: l) <-> load8 m a = x /\ bytes_at m (a + 1) l.
Proof.
  unfold bytes_at. simpl. split.
  - intros H. injection H. auto.
  - intros [-> ->]. reflexivity.
Qed.

Lemma load8_store_bytes_out m a l b :
  b < a \/ a + Z.of_nat (length l) <= b -> load8 (store_bytes m a l) b = load8 m b.
Proof.
  revert m a. induction l as [|x l IH]; intros m a Hb; simpl in *; [reflexivity|].
  rewrite IH by lia. apply load8_store8_ne. lia.
Qed.

Lemma load8_store_bytes_in m a l i x :
  l !! i = Some x -> load8 (store_bytes m a l) (a + Z.of_nat i) = u8 x.
Proof.
  revert m a i. induction l as [|y l IH]; intros m a [|i] Hi; simpl in *; try discriminate.
  - injection Hi as ->. rewrite load8_store_bytes_out by lia.
    rewrite Z.add_0_r. apply load8_store8_eq.
  - rewrite <- (IH (store8 m a y) (a + 1) i Hi). f_equal. lia.
Qed.

Lemma bytes_at_store_bytes m a l :
  Forall (fun x => 0 <= x < 0x100) l -> bytes_at (store_bytes m a l) a l.
Proof.
  intros Hl. apply bytes_at_lookup. intros i x Hi.
  rewrite (load8_store_bytes_in _ _ _ _ x) by assumption.
  apply u8_small. now apply (Forall_lookup_1 _ _ _ _ Hl Hi).
Qed.

Lemma store_bytes_app m a l1 l2 :
  store_bytes m a (l1 ++ l2) = store_bytes (store_bytes m a l1) (a + Z.of_nat (length l1)) l2.
Proof.
  revert m a. induction l1 as [|x l1 IH]; intros m a; simpl.
  - now rewrite Z.add_0_r.
  - rewrite IH. f_equal. lia.
Qed.

(** ** The frame relation *)

Lemma load32_zero m q : (forall x, q <= x < q + 4 -> load8 m x = 0) -> load32 m q = 0.
Proof. intros H. unfold load32. rewrite !H by lia. reflexivity. Qed.

Lemma same_but_refl a n m : same_but a n m m.
Proof. intros x _. reflexivity. Qed.

Lemma same_but_trans a n m1 m2 m3 :
  same_but a n m1 m2 -> same_but a n m2 m3 -> same_but a n m1 m3.
Proof. intros H1 H2 x Hx. rewrite H2, H1; auto. Qed.

Lemma same_but_widen a n b k m m' :
  b <= a -> a + n <= b + k -> same_but a n m m' -> same_but b k m m'.
Proof. intros ? ? H x Hx. apply H. lia. Qed.

Lemma same_but_store8 a n m b v : a <= b < a + n -> same_but a n m (store8 m b v).
Proof. intros ? x ?. apply load8_store8_ne. lia. Qed.

Lemma same_but_store32 a n m b v : a <= b -> b + 4 <= a + n -> same_but a n m (store32 m b v).
Proof. intros ? ? x ?. apply load8_store32_ne. lia. Qed.

Lemma same_but_store_bytes a n m b l :
  a <= b -> b + Z.of_nat (length l) <= a + n -> same_but a n m (store_bytes m b l).
Proof. intros ? ? x ?. apply load8_store_bytes_out. lia. Qed.

Lemma same_but_load32 a n m m' b :
  same_but a n m m' -> b + 4 <= a \/ a + n <= b -> load32 m' b = load32 m b.
Proof. intros H ?. unfold load32. rewrite !(H _) by lia. reflexivity. Qed.

Lemma same_but_bytes_at a n m m' b l :
  same_but a n m m' -> b + Z.of_nat (length l) <= a \/ a + n <= b ->
  bytes_at m b l -> bytes_at m' b l.
Proof.
  intros H Hd. rewrite !bytes_at_lookup. intros Hb i x Hi.
  pose proof (lookup_lt_Some _ _ _ Hi). rewrite H by lia. now apply Hb.
Qed.

#[export] Hint Resolve same_but_refl same_but_store8 same_but_store32 : mem.

(** ** C strings *)

Lemma cstring_nul m a l : cstring m a l -> load8 m (a + Z.of_nat (length l)) = 0.
Proof.
  intros [H _]. apply bytes_at_app in H as [_ H]. apply bytes_at_cons in H. tauto.
Qed.

Lemma cstring_byte m a l i x : cstring m a l -> l !! i = Some x -> load8 m (a + Z.of_nat i) = x.
Proof.
  intros [H _] Hi. apply bytes_at_app in H as [H _].
  rewrite bytes_at_lookup in H. now apply H.
Qed.

Lemma cstring_nonzero m a l i :
  cstring m a l -> 0 <= i < Z.of_nat (length l) -> load8 m (a + i) <> 0.
Proof.
  intros Hs Hi. destruct (lookup_lt_is_Some_2 l (Z.to_nat i)) as [x Hx]; [lia|].
  replace i with (Z.of_nat (Z.to_nat i)) by lia.
  rewrite (cstring_byte m a l _ x Hs Hx).
  destruct Hs as [_ Hnz]. pose proof (Forall_lookup_1 _ _ _ _ Hnz Hx). simpl in *. lia.
Qed.

Lemma cstring_frame a n m m' b l :
  same_but a n m m' -> b + Z.of_nat (length l) + 1 <= a \/ a + n <= b ->
  cstring m b l -> cstring m' b l.
Proof.
  intros H Hd [Hb Hnz]. split; [|assumption].
  eapply same_but_bytes_at; [exact H | | exact Hb]. rewrite length_app. simpl. lia.
Qed.

(** A string is determined by its address. *)
Lemma cstring_inj m a l1 l2 : cstring m a l1 -> cstring m a l2 -> l1 = l2.
Proof.
  intros H1 H2.
  assert (length l1 = length l2) as Hlen.
  { destruct (Z.lt_total (Z.of_nat (length l1)) (Z.of_nat (length l2))) as [H|[H|H]]; [|lia|].
    - exfalso. apply (cstring_nonzero m a l2 (Z.of_nat (length l1)) H2); [lia|].
      now apply cstring_nul.
    - exfalso. apply (cstring_nonzero m a l1 (Z.of_nat (length l2)) H1); [lia|].
      now apply cstring_nul. }
  apply (list_eq_same_length _ _ (length l1)); [lia | lia |].
  intros i x y _ Hx Hy.
  rewrite <- (cstring_byte _ _ _ _ _ H1 Hx), <- (cstring_byte _ _ _ _ _ H2 Hy). reflexivity.
Qed.

Lemma cstring_store_bytes m a l :
  Forall (fun x => 0 < x < 0x100) l -> cstring (store_bytes m a (l ++ [0])) a l.
Proof.
  intros Hl. split; [|exact Hl]. apply bytes_at_store_bytes.
  apply Forall_app. split; [|repeat constructor; lia].
  eapply Forall_impl; [exact Hl|]. simpl. lia.
Qed.
