(* ===== verification/Util.v ===== *)
(** * kernel/util.c: strings, memory blocks and panics

    The string routines walk memory at a pointer, so they take the memory and
    the pointer; those that loop on a NUL byte take fuel.  The reference
    functions ([render_int], [decimal_form], [parse_int], [lex_cmp]) say what the routines
    compute on lists of bytes. *)

From S2P Require Import Prelude Memory.

(** [ASSERT(b)] of kernel/util.h. *)
Definition panic {A} (message file : string) (line : Z) : outcome A :=
  Panic message file line.

Definition panic_assert {A} (file : string) (line : Z) (desc : string) : outcome A :=
  Panic desc file line.

Definition ASSERT (b : bool) (file : string) (line : Z) (desc : string) : outcome unit :=
  if b then Ok tt else panic_assert file line desc.

(** A [char] read from memory: signed. *)
Definition load_char (m : mem) (a : Z) : Z := i8 (load8 m a).

(** [memcpy(source, dest, nbytes)]: the source comes first. *)
Definition memcpy (m : mem) (source dest nbytes : Z) : mem :=
  for_up (Z.to_nat nbytes) (fun i m => store8 m (dest + i) (load8 m (source + i))) 0 m.

Definition memset (m : mem) (dest val len : Z) : mem :=
  for_up (Z.to_nat (u32 len)) (fun i m => store8 m (dest + i) val) 0 m.

Definition strlen (fuel : nat) (m : mem) (s : Z) : outcome Z :=
  while fuel (fun i => negb (load_char m (s + i) =? 0)) (fun i => Ok (i + 1)) 0.

(** The length bound [n] is not used. *)
Definition strnlen (fuel : nat) (m : mem) (s n : Z) : outcome Z :=
  while fuel (fun i => negb (load_char m (s + i) =? 0)) (fun i => Ok (i + 1)) 0.

Definition reverse_step (s : Z) : mem * Z * Z -> outcome (mem * Z * Z) := fun '(m, i, j) =>
  let c := load_char m (s + i) in
  let m := store8 m (s + i) (load_char m (s + j)) in
  let m := store8 m (s + j) c in
  Ok (m, i + 1, j - 1).

Definition reverse (fuel : nat) (m : mem) (s : Z) : outcome mem :=
  len ← strlen fuel m s;
  st ← while fuel (fun '(_, i, j) => i <? j) (reverse_step s) (m, 0, len - 1);
  Ok (st.1.1).

(** One turn of the digit loop: [str[i++] = n % 10 + '0'], then [n /= 10]. *)
Definition digit_step (str : Z) : mem * Z * Z -> mem * Z * Z := fun '(m, i, n) =>
  (store8 m (str + i) (Z.rem n 10 + 48), i + 1, Z.quot n 10).

Definition int_to_ascii (fuel : nat) (m : mem) (n str : Z) : outcome mem :=
  let sign := n in
  let n := if sign <? 0 then i32 (- n) else n in
  st ← while fuel (fun '(_, _, n) => 0 <? n) (fun st => Ok (digit_step str st))
         (digit_step str (m, 0, n));
  let '(m, i, _) := st in
  let '(m, i) := if sign <? 0 then (store8 m (str + i) 45, i + 1) else (m, i) in
  let m := store8 m (str + i) 0 in
  reverse fuel m str.

Definition append (fuel : nat) (m : mem) (s n : Z) : outcome mem :=
  len ← strlen fuel m s;
  let m := store8 m (s + len) n in
  Ok (store8 m (s + len + 1) 0).

Definition backspace (fuel : nat) (m : mem) (s : Z) : outcome mem :=
  len ← strlen fuel m s;
  Ok (store8 m (s + len - 1) 0).

(** One turn of the nibble loop of [hex_to_ascii]; [zeros] is set by the first
    nibble that is printed. *)
Definition nibble_step (fuel : nat) (n str : Z) : mem * bool * Z -> outcome (mem * bool * Z) :=
  fun '(m, zeros, i) =>
  let tmp := Z.land (Z.shiftr n i) 0xF in
  if (tmp =? 0) && negb zeros then Ok (m, zeros, i - 4)
  else
    m ← (if 0xA <? tmp then append fuel m str (tmp - 0xA + 97) else append fuel m str (tmp + 48));
    Ok (m, true, i - 4).

Definition hex_to_ascii (fuel : nat) (m : mem) (n str : Z) : outcome mem :=
  m ← append fuel m str 48;
  m ← append fuel m str 120;
  st ← while 7 (fun '(_, _, i) => 0 <? i) (nibble_step fuel n str) (m, false, 28);
  let m := st.1.1 in
  let tmp := Z.land n 0xF in
  if 0xA <=? tmp then append fuel m str (tmp - 0xA + 97) else append fuel m str (tmp + 48).

Fixpoint strcmp_from (fuel : nat) (m : mem) (s1 s2 i : Z) : outcome Z :=
  if load_char m (s1 + i) =? load_char m (s2 + i) then
    if load_char m (s1 + i) =? 0 then Ok 0
    else match fuel with O => NoFuel | S f => strcmp_from f m s1 s2 (i + 1) end
  else Ok (load_char m (s1 + i) - load_char m (s2 + i)).

Definition strcmp (fuel : nat) (m : mem) (s1 s2 : Z) : outcome Z :=
  strcmp_from fuel m s1 s2 0.

(** ** Reference functions on lists of bytes *)

(** The decimal digits of [n], least significant first, at most [k] of them. *)
Fixpoint dec_le (k : nat) (n : Z) : list Z :=
  match k with
  | O => []
  | S k' => (n mod 10 + 48) :: (if n / 10 =? 0 then [] else dec_le k' (n / 10))
  end.

Definition render_int (n : Z) : list Z :=
  (if n <? 0 then [45] else []) ++ rev (dec_le 10 (Z.abs n)).

(** The value of a little-endian list of decimal digits. *)
Fixpoint dec_val (l : list Z) : Z :=
  match l with
  | [] => 0
  | d :: l' => (d - 48) + 10 * dec_val l'
  end.

Definition parse_int (l : list Z) : Z :=
  match l with
  | 45 :: l' => - dec_val (rev l')
  | _ => dec_val (rev l)
  end.

(** A decimal digit. *)
Definition is_digit (c : Z) : Prop := 48 <= c <= 57.

(** [l] is the decimal form of [n]: a minus for a negative number, then its
    digits, one at least, the first no zero unless it is the only one. *)
Definition decimal_form (n : Z) (l : list Z) : Prop :=
  exists ds, l = (if n <? 0 then [45] else []) ++ ds /\ Forall is_digit ds /\ dec_val (rev ds) = Z.abs n /\
    (ds = [48] \/ exists d ds', ds = d :: ds' /\ d <> 48).

(** Byte-wise comparison of two strings, as signed characters, NUL last. *)
Fixpoint lex_cmp (l1 l2 : list Z) : Z :=
  match l1, l2 with
  | [], [] => 0
  | [], y :: _ => - i8 y
  | x :: _, [] => i8 x
  | x :: l1', y :: l2' => if x =? y then lex_cmp l1' l2' else i8 x - i8 y
  end.

(** The nibble of [n] with weight [16^i], and the nibbles [k], ..., 1 of [n]
    as [dig] prints them, without the leading zeros. *)
Definition nib (n i : Z) : Z := Z.land (Z.shiftr n (4 * i)) 0xF.

Fixpoint upper_nibbles (dig : Z -> Z) (k : nat) (zeros : bool) (n : Z) : list Z :=
  match k with
  | O => []
  | S k' =>
      let t := nib n (Z.of_nat k) in
      if (t =? 0) && negb zeros then upper_nibbles dig k' zeros n
      else dig t :: upper_nibbles dig k' true n
  end.

(** The digit of a nibble: ['0'..'9'], ['a'..'f']. *)
Definition hex_digit (d : Z) : Z := if d <? 10 then d + 48 else d - 10 + 97.

(** The digit [hex_to_ascii] prints for a nibble that is not the last. *)
Definition loop_digit (d : Z) : Z := if 10 <? d then d - 10 + 97 else d + 48.

(** [0x] and the hexadecimal digits of [n] without leading zeros. *)
Definition render_hex (n : Z) : list Z :=
  [48; 120] ++ upper_nibbles hex_digit 7 false n ++ [hex_digit (nib n 0)].

(** ** Lemmas *)

Lemma load_char_zero m a : (load_char m a =? 0) = (load8 m a =? 0).
Proof.
  unfold load_char. pose proof (load8_range m a). apply Bool.eq_iff_eq_true.
  rewrite !Z.eqb_eq. split; intros; zlia.
Qed.

Lemma store8_load_char m m' a b : store8 m a (load_char m' b) = store8 m a (load8 m' b).
Proof.
  unfold store8, load_char. f_equal. pose proof (load8_range m' b). zlia.
Qed.

Lemma strlen_spec fuel m s l :
  cstring m s l -> (length l <= fuel)%nat -> strlen fuel m s = Ok (Z.of_nat (length l)).
Proof.
  intros Hs Hf. unfold strlen.
  destruct (while_rule (fun i => 0 <= i <= Z.of_nat (length l)) (fun i => length l - Z.to_nat i)%nat
    (fun i => negb (load_char m (s + i) =? 0)) (fun i => Ok (i + 1)) fuel 0) as (r & E & HI & Hc);
    [ | lia | simpl; lia | ].
  - intros i Hi Hc. rewrite load_char_zero in Hc. exists (i + 1). split; [reflexivity|].
    assert (i <> Z.of_nat (length l)); [|lia].
    intros ->. rewrite (cstring_nul m s l Hs) in Hc. discriminate.
  - rewrite E. f_equal. rewrite load_char_zero in Hc.
    destruct (Z.eq_dec r (Z.of_nat (length l))) as [->|Hr]; [reflexivity|].
    exfalso. apply (cstring_nonzero m s l r Hs); [lia|].
    destruct (load8 m (s + r) =? 0) eqn:E0; [|discriminate]. now apply Z.eqb_eq.
Qed.

(** The memory after [append]: the byte and a new NUL over the old one. *)
Lemma append_spec fuel m s l c :
  cstring m s l -> (length l <= fuel)%nat -> 0 < c < 0x100 ->
  exists m', append fuel m s c = Ok m' /\ cstring m' s (l ++ [c]) /\
    same_but (s + Z.of_nat (length l)) 2 m m'.
Proof.
  intros Hs Hf Hc. unfold append. rewrite (strlen_spec _ _ _ l) by assumption. simpl.
  eexists. split; [reflexivity|]. set (n := Z.of_nat (length l)).
  assert (same_but (s + n) 2 m (store8 (store8 m (s + n) c) (s + n + 1) 0)) as Hfr.
  { eapply same_but_trans; apply same_but_store8; lia. }
  split; [|exact Hfr]. destruct Hs as [Hb Hnz]. split.
  - apply bytes_at_app in Hb as [Hb _]. rewrite <- app_assoc. apply bytes_at_app. split.
    + eapply same_but_bytes_at; [exact Hfr | lia | exact Hb].
    + fold n. simpl. rewrite !bytes_at_cons. mem_simpl. rewrite u8_small by lia.
      split_and!; reflexivity.
  - apply Forall_app. split; [exact Hnz|]. repeat constructor; lia.
Qed.

Lemma cstring_snoc_inv m s l c : cstring m s (l ++ [c]) ->
  bytes_at m s l /\ Forall (fun x => 0 < x < 0x100) l.
Proof.
  intros [Hb Hnz]. apply Forall_app in Hnz as [Hnz _]. split; [|exact Hnz].
  rewrite <- app_assoc in Hb. now apply bytes_at_app in Hb as [Hb _].
Qed.

Lemma backspace_spec fuel m s l c :
  cstring m s (l ++ [c]) -> (length l < fuel)%nat ->
  exists m', backspace fuel m s = Ok m' /\ cstring m' s l /\
    same_but (s + Z.of_nat (length l)) 1 m m'.
Proof.
  intros Hs Hf. unfold backspace.
  rewrite (strlen_spec _ _ _ (l ++ [c])) by (rewrite ?length_app; simpl; auto with lia). simpl.
  rewrite length_app. simpl.
  replace (s + Z.of_nat (length l + 1) - 1) with (s + Z.of_nat (length l)) by lia.
  eexists. split; [reflexivity|].
  assert (same_but (s + Z.of_nat (length l)) 1 m (store8 m (s + Z.of_nat (length l)) 0)) as Hfr
    by (apply same_but_store8; lia).
  split; [|exact Hfr]. apply cstring_snoc_inv in Hs as [Hb Hnz]. split; [|exact Hnz].
  apply bytes_at_app. split.
  - eapply same_but_bytes_at; [exact Hfr | lia | exact Hb].
  - rewrite bytes_at_cons. mem_simpl. split; reflexivity.
Qed.

(** *** reverse *)

(** What holds between two turns of [reverse]'s loop: the bytes outside the
    window [i..j] are swapped, those inside are as they were. *)
Definition reverse_inv (m0 : mem) (s len : Z) : mem * Z * Z -> Prop := fun '(m, i, j) =>
  i + j = len - 1 /\ 0 <= i <= j + 2 /\ same_but s len m0 m /\
  (forall k, 0 <= k < len ->
    load8 m (s + k) = if (k <? i) || (j <? k) then load8 m0 (s + (len - 1 - k)) else load8 m0 (s + k)).

Lemma reverse_step_inv m0 s len st :
  reverse_inv m0 s len st -> (let '(_, i, j) := st in i <? j) = true ->
  exists st', reverse_step s st = Ok st' /\ reverse_inv m0 s len st' /\
    (Z.to_nat (len - st'.1.2) < Z.to_nat (len - st.1.2))%nat.
Proof.
  destruct st as [[m i] j]. intros (Hij & Hi & Hfr & Hk) Hlt. simpl. rewrite !store8_load_char.
  eexists. split; [reflexivity|]. split; [|simpl; lia]. unfold reverse_inv.
  split_and!; [lia | lia | lia | | ].
  - eapply same_but_trans; [exact Hfr|].
    eapply same_but_trans; apply same_but_store8; lia.
  - intros k Hkl. rewrite !load8_store8. pose proof (Hk i) as Hki. pose proof (Hk j) as Hkj.
    specialize (Hk k Hkl). rewrite Hki, Hkj by lia.
    pose proof (load8_range m0 (s + i)). pose proof (load8_range m0 (s + j)).
    repeat case_decide; repeat case_match; try lia; rewrite ?u8_small by lia;
      rewrite ?Hk; f_equal; lia.
Qed.

Lemma reverse_spec fuel m s l :
  cstring m s l -> (length l <= fuel)%nat ->
  exists m', reverse fuel m s = Ok m' /\ cstring m' s (rev l) /\
    same_but s (Z.of_nat (length l)) m m'.
Proof.
  intros Hs Hf. unfold reverse. rewrite (strlen_spec _ _ _ l) by assumption. simpl.
  set (len := Z.of_nat (length l)).
  destruct (while_rule (reverse_inv m s len) (fun st => Z.to_nat (len - st.1.2))
    (fun '(_, i, j) => i <? j) (reverse_step s) fuel (m, 0, len - 1))
    as ([[m' i] j] & E & (Hij & Hi & Hfr & Hk) & Hc).
  - intros st. apply reverse_step_inv.
  - unfold reverse_inv. split_and!; try lia; [apply same_but_refl|].
    intros k Hk. destruct (k <? 0) eqn:E1, (len - 1 <? k) eqn:E2; simpl; lia.
  - simpl. lia.
  - rewrite E. simpl. exists m'. split; [reflexivity|]. split; [|exact Hfr]. split.
    + apply bytes_at_app. rewrite length_rev. fold len. split.
      * apply bytes_at_lookup. intros k x Hx.
        pose proof (lookup_lt_Some _ _ _ Hx) as Hlt. rewrite length_rev in Hlt.
        assert (l !! (length l - 1 - k)%nat = Some x) as Hx'.
        { rewrite rev_alt in Hx. change (rev_append l []) with (list.reverse l) in Hx.
          apply reverse_lookup_Some in Hx as [Hx _]. rewrite <- Hx. f_equal. lia. }
        rewrite <- (cstring_byte _ _ _ _ _ Hs Hx'). rewrite Hk by lia.
        destruct ((Z.of_nat k <? i) || (j <? Z.of_nat k)) eqn:E1; f_equal; lia.
      * rewrite bytes_at_cons. split; [|reflexivity]. rewrite Hfr by lia.
        now apply cstring_nul.
    + apply Forall_rev. apply Hs.
Qed.

(** *** Decimal digits *)

Lemma dec_le_digits k n : 0 <= n -> Forall is_digit (dec_le k n).
Proof.
  revert n. induction k as [|k IH]; intros n Hn; simpl; constructor.
  - unfold is_digit. zlia.
  - destruct (n / 10 =? 0); [constructor|]. apply IH. zlia.
Qed.

Lemma dec_le_val k n : 0 <= n < 10 ^ Z.of_nat k -> dec_val (dec_le k n) = n.
Proof.
  revert n. induction k as [|k IH]; intros n Hn; [simpl in *; lia|].
  rewrite Nat2Z.inj_succ, Z.pow_succ_r in Hn by lia. simpl.
  destruct (n / 10 =? 0) eqn:E; simpl.
  - zlia.
  - rewrite IH by zlia. zlia.
Qed.

Lemma dec_le_length k n : (length (dec_le k n) <= k)%nat.
Proof.
  revert n. induction k as [|k IH]; intros n; simpl; [lia|].
  destruct (n / 10 =? 0); simpl; [lia|]. specialize (IH (n / 10)). lia.
Qed.

Lemma dec_le_nonnil k n : (0 < k)%nat -> dec_le k n <> [].
Proof. destruct k; simpl; [lia | discriminate]. Qed.

(** The first digit of a positive number is not a zero. *)
Lemma dec_le_last k n : 0 < n < 10 ^ Z.of_nat k -> exists l d, dec_le k n = l ++ [d] /\ 49 <= d <= 57.
Proof.
  revert n. induction k as [|k IH]; intros n Hn; [simpl in *; lia|].
  rewrite Nat2Z.inj_succ, Z.pow_succ_r in Hn by lia. cbn [dec_le]. destruct (n / 10 =? 0) eqn:E.
  - exists [], (n mod 10 + 48). split; [reflexivity | zlia].
  - destruct (IH (n / 10)) as (l & d & -> & Hd); [zlia|]. exists ((n mod 10 + 48) :: l), d. auto.
Qed.

Lemma render_decimal_form n : - 0x80000000 <= n <= 0x80000000 -> decimal_form n (render_int n).
Proof.
  intros Hn. exists (rev (dec_le 10 (Z.abs n))). rewrite rev_involutive. split_and!; [reflexivity | | |].
  - apply Forall_rev, dec_le_digits. lia.
  - apply dec_le_val. change (10 ^ Z.of_nat 10) with 10000000000. lia.
  - destruct (decide (n = 0)) as [->|Hz]; [left; reflexivity|]. right.
    destruct (dec_le_last 10 (Z.abs n)) as (l & d & E & Hd); [change (10 ^ Z.of_nat 10) with 10000000000; lia|].
    exists d, (rev l). rewrite E, rev_app_distr. split; [reflexivity | lia].
Qed.

Lemma parse_render n : - 0x80000000 < n < 0x80000000 -> parse_int (render_int n) = n.
Proof.
  intros Hn. unfold render_int.
  assert (dec_val (dec_le 10 (Z.abs n)) = Z.abs n) as Hv by (apply dec_le_val; simpl; lia).
  destruct (n <? 0) eqn:En.
  - cbn [app parse_int]. rewrite rev_involutive, Hv. lia.
  - assert (Forall is_digit (rev (dec_le 10 (Z.abs n)))) as Hd
      by (apply Forall_rev, dec_le_digits; lia).
    rewrite app_nil_l. rewrite <- (rev_involutive (dec_le 10 (Z.abs n))) in Hv.
    unfold parse_int. destruct (rev (dec_le 10 (Z.abs n))) as [|c r].
    + simpl in *. lia.
    + apply Forall_cons_1 in Hd as [Hc _]. unfold is_digit in Hc.
      assert (dec_val (rev (c :: r)) = n) by lia.
      repeat (case_match; try assumption; try lia).
Qed.

(** The digit loop of [int_to_ascii] writes the digits, least significant
    first. *)
Lemma digit_loop k fuel m str i n :
  0 <= n < 10 ^ Z.of_nat k -> (0 < k)%nat -> (k <= fuel)%nat ->
  while fuel (fun '(_, _, n) => 0 <? n) (fun st => Ok (digit_step str st))
    (digit_step str (m, i, n)) =
  Ok (store_bytes m (str + i) (dec_le k n), i + Z.of_nat (length (dec_le k n)), 0).
Proof.
  revert fuel m i n. induction k as [|k IH]; intros fuel m i n Hn Hk Hf; [lia|].
  rewrite Nat2Z.inj_succ, Z.pow_succ_r in Hn by lia.
  unfold digit_step at 2. rewrite Z.rem_mod_nonneg, Z.quot_div_nonneg by lia.
  simpl dec_le. destruct (n / 10 =? 0) eqn:E.
  - rewrite while_done by (simpl; lia). simpl. repeat f_equal; lia.
  - destruct fuel as [|fuel]; [lia|]. erewrite while_step; [ | simpl; zlia | reflexivity].
    assert (0 < k)%nat by (destruct k; [change (10 ^ Z.of_nat 0) with 1 in Hn; zlia | lia]).
    rewrite IH by zlia.
    simpl. replace (str + (i + 1)) with (str + i + 1) by lia. do 3 f_equal. lia.
Qed.

(** [int_to_ascii] writes the decimal rendering of every [int] but INT_MIN,
    in at most twelve bytes. *)
Lemma int_to_ascii_spec fuel m n str :
  - 0x80000000 < n < 0x80000000 -> (12 <= fuel)%nat ->
  exists m', int_to_ascii fuel m n str = Ok m' /\ cstring m' str (render_int n) /\
    same_but str (Z.of_nat (length (render_int n)) + 1) m m'.
Proof.
  intros Hn Hf. unfold int_to_ascii.
  set (a := if n <? 0 then i32 (- n) else n).
  assert (a = Z.abs n) as -> by (subst a; destruct (n <? 0) eqn:E; rewrite ?i32_small; lia).
  set (l := dec_le 10 (Z.abs n)). set (sg := if n <? 0 then [45] else []).
  rewrite (digit_loop 10) by (simpl; lia). fold l. cbn [mbind outcome_bind].
  assert (forall m0 : mem, (let '(m, i) := if n <? 0 then (store8 m0 (str + (0 + Z.of_nat (length l))) 45, 0 + Z.of_nat (length l) + 1)
              else (m0, 0 + Z.of_nat (length l)) in store8 m (str + i) 0)
    = store_bytes m0 (str + Z.of_nat (length l)) (sg ++ [0])) as Hsg.
  { intros m0. subst sg. destruct (n <? 0); rewrite ?Z.add_0_l, ?Z.add_assoc; reflexivity. }
  assert (cstring (store_bytes m str ((l ++ sg) ++ [0])) str (l ++ sg)) as Hs.
  { apply cstring_store_bytes. apply Forall_app. split.
    - eapply Forall_impl; [apply dec_le_digits; lia|]. unfold is_digit. simpl. lia.
    - subst sg. destruct (n <? 0); repeat constructor; lia. }
  pose proof (dec_le_length 10 (Z.abs n)) as Hlen. fold l in Hlen.
  assert (length sg <= 1)%nat as Hsl by (subst sg; destruct (n <? 0); simpl; lia).
  assert (length (l ++ sg) <= 11)%nat as Hlen' by (rewrite length_app; lia).
  destruct (reverse_spec fuel _ str (l ++ sg) Hs) as (m' & E & Hs' & Hfr); [lia|].
  assert (rev (l ++ sg) = render_int n) as Hr.
  { unfold render_int. rewrite rev_app_distr. subst sg. destruct (n <? 0); reflexivity. }
  exists m'. rewrite <- Hr, length_rev. split_and!; [|exact Hs'|].
  - rewrite <- E. rewrite <- app_assoc, store_bytes_app, <- Hsg, Z.add_0_r.
    destruct (n <? 0); reflexivity.
  - eapply same_but_trans; [|eapply same_but_widen; [..|exact Hfr]; lia].
    apply same_but_store_bytes; rewrite ?length_app in *; simpl; lia.
Qed.

(** *** Hexadecimal digits *)

Lemma nib_range n i : 0 <= nib n i < 16.
Proof.
  unfold nib. rewrite (land_low_mod _ 4) by (reflexivity || lia). apply Z.mod_pos_bound. lia.
Qed.

(** What a call to [append] leaves behind, in the terms of the loop. *)
Lemma append_keeps fuel m m0 str (l0 l : list Z) c :
  cstring m str l -> (length l <= fuel)%nat -> 0 < c < 0x100 ->
  (length l0 <= length l)%nat ->
  same_but (str + Z.of_nat (length l0)) (Z.of_nat (length l) + 1 - Z.of_nat (length l0)) m0 m ->
  exists m', append fuel m str c = Ok m' /\ cstring m' str (l ++ [c]) /\
    same_but (str + Z.of_nat (length l0)) (Z.of_nat (length (l ++ [c])) + 1 - Z.of_nat (length l0)) m0 m'.
Proof.
  intros Hs Hf Hc Hle Hfr. destruct (append_spec _ _ _ _ c Hs Hf Hc) as (m' & E & Hs' & Hfr').
  exists m'. split_and!; [exact E | exact Hs' |].
  rewrite length_app; simpl. eapply same_but_trans.
  - eapply same_but_widen; [..|exact Hfr]; lia.
  - eapply same_but_widen; [..|exact Hfr']; lia.
Qed.

Lemma nibble_loop k f fuel m m0 str (l0 l : list Z) zeros n :
  (k <= f)%nat -> cstring m str l -> (length l + k < fuel)%nat -> (length l0 <= length l)%nat ->
  same_but (str + Z.of_nat (length l0)) (Z.of_nat (length l) + 1 - Z.of_nat (length l0)) m0 m ->
  exists m' z', while f (fun '(_, _, i) => 0 <? i) (nibble_step fuel n str) (m, zeros, 4 * Z.of_nat k)
      = Ok (m', z', 0) /\
    let l' := l ++ upper_nibbles loop_digit k zeros n in
    cstring m' str l' /\
    same_but (str + Z.of_nat (length l0)) (Z.of_nat (length l') + 1 - Z.of_nat (length l0)) m0 m'.
Proof.
  revert f m l zeros. induction k as [|k IH]; intros f m l zeros Hf Hs Hlen Hle Hfr.
  - exists m, zeros. rewrite while_done by reflexivity. simpl. rewrite app_nil_r. auto.
  - destruct f as [|f]; [lia|]. pose proof (nib_range n (Z.of_nat (S k))) as Hr.
    assert (4 * Z.of_nat (S k) - 4 = 4 * Z.of_nat k) as Hi by lia.
    destruct ((nib n (Z.of_nat (S k)) =? 0) && negb zeros) eqn:Ez.
    + erewrite while_step; [ | apply Z.ltb_lt; lia | unfold nibble_step; fold (nib n (Z.of_nat (S k)));
        rewrite Ez, Hi; reflexivity].
      destruct (IH f m l zeros) as (m' & z' & E & H); [lia | assumption | lia | lia | exact Hfr |].
      exists m', z'. cbn [upper_nibbles]. rewrite Ez. auto.
    + destruct (append_keeps fuel m m0 str l0 l (loop_digit (nib n (Z.of_nat (S k)))) Hs)
        as (m1 & E1 & Hs1 & Hfr1); [lia | | lia | exact Hfr |].
      { unfold loop_digit. destruct (10 <? _) eqn:E; lia. }
      erewrite while_step; [ | apply Z.ltb_lt; lia | unfold nibble_step; fold (nib n (Z.of_nat (S k)));
        rewrite Ez, Hi; unfold loop_digit in E1; destruct (10 <? _); rewrite E1; reflexivity].
      destruct (IH f m1 (l ++ [loop_digit (nib n (Z.of_nat (S k)))]) true)
        as (m' & z' & E & H); [lia | exact Hs1 | rewrite length_app; simpl; lia..| exact Hfr1 |].
      exists m', z'. cbn [upper_nibbles]. rewrite Ez. rewrite <- app_assoc in H. auto.
Qed.

(** [hex_to_ascii] appends [0x], the upper digits as its loop prints them and
    the last digit. *)
Lemma hex_to_ascii_spec fuel m str l n :
  cstring m str l -> (length l + 12 <= fuel)%nat ->
  exists m', hex_to_ascii fuel m n str = Ok m' /\
    let l' := l ++ [48; 120] ++ upper_nibbles loop_digit 7 false n ++ [hex_digit (nib n 0)] in
    cstring m' str l' /\
    same_but (str + Z.of_nat (length l)) (Z.of_nat (length l') + 1 - Z.of_nat (length l)) m m'.
Proof.
  intros Hs Hf. unfold hex_to_ascii.
  destruct (append_keeps fuel m m str l l 48 Hs) as (m1 & E1 & Hs1 & Hfr1);
    [lia.. | apply same_but_refl |].
  rewrite E1. cbn [mbind outcome_bind].
  destruct (append_keeps fuel m1 m str l _ 120 Hs1) as (m2 & E2 & Hs2 & Hfr2);
    [rewrite ?length_app; simpl; lia.. | exact Hfr1 |].
  rewrite E2. cbn [mbind outcome_bind].
  destruct (nibble_loop 7 7 fuel m2 m str l _ false n ltac:(lia) Hs2) as (m3 & z & E3 & Hs3 & Hfr3);
    [rewrite ?length_app; simpl; lia.. | exact Hfr2 |].
  change (4 * Z.of_nat 7) with 28 in E3. rewrite E3. cbn [mbind outcome_bind fst].
  assert (length (upper_nibbles loop_digit 7 false n) <= 7)%nat as Hlen.
  { generalize 7%nat false. intros k. induction k as [|k IH]; intros b; cbn [upper_nibbles]; [simpl; lia|].
    destruct (_ && _); cbn [length]; [specialize (IH b)|specialize (IH true)]; lia. }
  change (Z.land n 15) with (Z.land (Z.shiftr n (4 * 0)) 0xF). fold (nib n 0).
  pose proof (nib_range n 0) as Hr.
  destruct (append_keeps fuel m3 m str l _ (hex_digit (nib n 0)) Hs3) as (m4 & E4 & Hs4 & Hfr4);
    [rewrite !length_app; cbn [length]; lia | unfold hex_digit; case_match; lia
    | rewrite !length_app; lia | exact Hfr3 |].
  exists m4. rewrite <- !app_assoc in *. split; [|split; assumption].
  rewrite <- E4. unfold hex_digit.
  destruct (10 <=? nib n 0) eqn:Ea, (nib n 0 <? 10) eqn:Eb; try lia; reflexivity.
Qed.

(** *** strcmp *)

(** The first byte of a string, its NUL included. *)
Lemma cstring_head m a l : cstring m a l -> load8 m a = match l with [] => 0 | x :: _ => x end.
Proof. intros [H _]. destruct l; cbn [app] in H; now apply bytes_at_cons in H. Qed.

Lemma cstring_tail m a x l : cstring m a (x :: l) -> 0 < x < 0x100 /\ cstring m (a + 1) l.
Proof.
  intros [H Hnz]. cbn [app] in H. apply bytes_at_cons in H as [_ H].
  apply Forall_cons_1 in Hnz as [Hx Hnz]. repeat split; auto; lia.
Qed.

Lemma strcmp_from_spec fuel m s1 s2 i l1 l2 :
  cstring m (s1 + i) l1 -> cstring m (s2 + i) l2 -> (length l1 <= fuel)%nat ->
  strcmp_from fuel m s1 s2 i = Ok (lex_cmp l1 l2).
Proof.
  revert i l1 l2. induction fuel as [|fuel IH]; intros i l1 l2 H1 H2 Hf; simpl;
    rewrite load_char_zero; unfold load_char; rewrite i8_eqb by apply load8_range;
    rewrite (cstring_head _ _ _ H1), (cstring_head _ _ _ H2);
    (destruct l1 as [|x l1]; [clear H1|apply cstring_tail in H1 as [Hx H1]]);
    (destruct l2 as [|y l2]; [clear H2|apply cstring_tail in H2 as [Hy H2]]);
    simpl in *; try lia; try reflexivity.
  - destruct y; try lia; reflexivity.
  - destruct y; try lia; reflexivity.
  - destruct x; try lia. f_equal. zlia.
  - destruct (Z.eqb_spec x y) as [->|Hxy]; [|reflexivity].
    rewrite (proj2 (Z.eqb_neq y 0)) by lia.
    apply IH; [rewrite Z.add_assoc; assumption .. | lia].
Qed.

Lemma lex_cmp_zero l1 l2 :
  Forall (fun x => 0 < x < 0x100) l1 -> Forall (fun x => 0 < x < 0x100) l2 ->
  lex_cmp l1 l2 = 0 <-> l1 = l2.
Proof.
  revert l2. induction l1 as [|x l1 IH]; intros [|y l2] H1 H2; simpl;
    try apply Forall_cons_1 in H1 as [Hx H1]; try apply Forall_cons_1 in H2 as [Hy H2].
  - tauto.
  - split; [zlia | discriminate].
  - split; [zlia | discriminate].
  - destruct (Z.eqb_spec x y) as [->|Hxy].
    + rewrite IH by assumption. split; congruence.
    + split; [|congruence]. intros E. assert (i8 x = i8 y) as E' by lia. apply i8_inj in E'; lia.
Qed.

(** *** Memory blocks *)

(** Copying forward is right when the blocks are disjoint or the destination
    starts no later than the source. *)
Lemma memcpy_spec m source dest n :
  0 <= n -> dest <= source \/ source + n <= dest ->
  (forall k, 0 <= k < n -> load8 (memcpy m source dest n) (dest + k) = load8 m (source + k)) /\
  same_but dest n m (memcpy m source dest n).
Proof.
  intros Hn Hd. unfold memcpy.
  pose proof (for_up_rule (fun i m' => (forall k, 0 <= k < i -> load8 m' (dest + k) = load8 m (source + k)) /\
    same_but dest i m m') (fun i m => store8 m (dest + i) (load8 m (source + i))) (Z.to_nat n) 0 m) as H.
  rewrite Z.add_0_l, Z2Nat.id in H by lia. apply H; clear H.
  - intros j m' Hj [Hk Hfr]. split.
    + intros k Hkj. rewrite load8_store8. case_decide.
      * replace k with j by lia. rewrite u8_small by apply load8_range. apply Hfr. lia.
      * apply Hk. lia.
    + eapply same_but_trans; [eapply same_but_widen; [..|exact Hfr]; lia|].
      apply same_but_store8. lia.
  - split; [lia | apply same_but_refl].
Qed.

Lemma memset_spec m dest val len :
  0 <= len < 0x100000000 ->
  (forall k, 0 <= k < len -> load8 (memset m dest val len) (dest + k) = u8 val) /\
  same_but dest len m (memset m dest val len).
Proof.
  intros Hl. unfold memset. rewrite u32_small by lia.
  pose proof (for_up_rule (fun i m' => (forall k, 0 <= k < i -> load8 m' (dest + k) = u8 val) /\
    same_but dest i m m') (fun i m => store8 m (dest + i) val) (Z.to_nat len) 0 m) as H.
  rewrite Z.add_0_l, Z2Nat.id in H by lia. apply H; clear H.
  - intros j m' Hj [Hk Hfr]. split.
    + intros k Hkj. rewrite load8_store8. case_decide; [reflexivity|]. apply Hk. lia.
    + eapply same_but_trans; [eapply same_but_widen; [..|exact Hfr]; lia|].
      apply same_but_store8. lia.
  - split; [lia | apply same_but_refl].
Qed.

(** ** Properties *)

(** C26: [int_to_ascii] is right on every [int] but INT_MIN, and twelve bytes of
    buffer are enough: it writes the decimal form of the number, a string of at
    most eleven characters that parses back to the number, and nothing else. *)
Theorem int_to_ascii_roundtrip (m : mem) (n str : Z) (fuel : nat)
    (Hn : - 0x80000000 < n < 0x80000000) (Hfuel : (12 <= fuel)%nat) :
  exists m' l, int_to_ascii fuel m n str = Ok m' /\ cstring m' str l /\
    decimal_form n l /\ parse_int l = n /\ (length l <= 11)%nat /\ same_but str 12 m m'.
Proof.
  destruct (int_to_ascii_spec fuel m n str Hn Hfuel) as (m' & E & Hs & Hfr).
  assert (length (render_int n) <= 11)%nat as Hlen.
  { unfold render_int. rewrite length_app, length_rev.
    pose proof (dec_le_length 10 (Z.abs n)). destruct (n <? 0); cbn [length]; lia. }
  exists m', (render_int n). split_and!; [exact E | exact Hs | apply render_decimal_form; lia | now apply parse_render | exact Hlen |].
  eapply same_but_widen; [..|exact Hfr]; lia.
Qed.

Lemma int_to_ascii_roundtrip_witness :
  exists m' l, int_to_ascii 12 ∅ (-2041) 0x9000 = Ok m' /\ cstring m' 0x9000 l /\ decimal_form (-2041) l /\
    parse_int l = -2041 /\ (length l <= 11)%nat /\ same_but 0x9000 12 ∅ m'.
Proof. apply int_to_ascii_roundtrip; lia. Defined.

(** [hex_to_ascii] appends [0x] and the hexadecimal digits of [n], without
    leading zeros, to the string it is given, when no digit but the last is
    ten. *)
Theorem hex_to_ascii_correct (m : mem) (str n : Z) (l : list Z) (fuel : nat)
    (Hs : cstring m str l) (Hten : forall i, 1 <= i <= 7 -> nib n i <> 10)
    (Hfuel : (length l + 12 <= fuel)%nat) :
  exists m', hex_to_ascii fuel m n str = Ok m' /\ cstring m' str (l ++ render_hex n) /\
    same_but (str + Z.of_nat (length l)) (Z.of_nat (length (render_hex n)) + 1) m m'.
Proof.
  destruct (hex_to_ascii_spec fuel m str l n Hs Hfuel) as (m' & E & Hs' & Hfr).
  assert (upper_nibbles loop_digit 7 false n = upper_nibbles hex_digit 7 false n) as Hu.
  { assert (forall k z, (k <= 7)%nat -> upper_nibbles loop_digit k z n = upper_nibbles hex_digit k z n) as H;
      [|now apply H].
    induction k as [|k IH]; intros z Hk; [reflexivity|]. cbn [upper_nibbles].
    rewrite !IH by lia. specialize (Hten (Z.of_nat (S k)) ltac:(lia)).
    destruct (_ && _); [reflexivity|]. f_equal. unfold loop_digit, hex_digit.
    repeat case_match; lia. }
  rewrite Hu in *. exists m'. split_and!; [exact E | exact Hs' |].
  eapply same_but_widen; [..|exact Hfr]; unfold render_hex; rewrite ?length_app in *; lia.
Qed.

Lemma hex_to_ascii_correct_witness :
  exists m', hex_to_ascii 12 ∅ 0x7F40B 0x9000 = Ok m' /\ cstring m' 0x9000 ([] ++ render_hex 0x7F40B) /\
    same_but (0x9000 + 0) (Z.of_nat (length (render_hex 0x7F40B)) + 1) ∅ m'.
Proof.
  apply hex_to_ascii_correct.
  - split; [reflexivity | constructor].
  - intros i Hi. assert (i = 1 \/ i = 2 \/ i = 3 \/ i = 4 \/ i = 5 \/ i = 6 \/ i = 7) as Hc by lia.
    destruct Hc as [->|[->|[->|[->|[->|[->| ->]]]]]]; vm_compute; discriminate.
  - simpl. lia.
Defined.

(** a digit ten that is not the last is printed by [hex_to_ascii] as [:]
    (the loop compares with [>] where the last digit compares with [>=]): for
    every [0xA0 <= n < 0xB0] the three bytes after the old string are ['0'],
    ['x'] and [':']. *)
Theorem hex_to_ascii_ten_is_colon (m : mem) (str n : Z) (l : list Z) (fuel : nat)
    (Hs : cstring m str l) (Hn : 0xA0 <= n < 0xB0) (Hfuel : (length l + 12 <= fuel)%nat) :
  exists m', hex_to_ascii fuel m n str = Ok m' /\
    cstring m' str (l ++ [48; 120; 58; hex_digit (n - 0xA0)]).
Proof.
  destruct (hex_to_ascii_spec fuel m str l n Hs Hfuel) as (m' & E & Hs' & _).
  exists m'. split; [exact E|].
  assert (exists d, n = 0xA0 + d /\ 0 <= d < 16) as (d & -> & Hd) by (exists (n - 0xA0); lia).
  replace (0xA0 + d - 0xA0) with d by lia.
  assert (d ∈ seqZ 0 16) as Hin by (apply elem_of_seqZ; lia).
  assert (forall d, d ∈ seqZ 0 16 -> [48; 120] ++ upper_nibbles loop_digit 7 false (0xA0 + d) ++
    [hex_digit (nib (0xA0 + d) 0)] = [48; 120; 58; hex_digit d]) as Hall
    by (apply Forall_forall, (bool_decide_unpack _); vm_compute; exact I).
  rewrite <- (Hall d Hin). exact Hs'.
Qed.

Lemma hex_to_ascii_ten_is_colon_witness :
  exists m', hex_to_ascii 12 ∅ 0xA7 0x9000 = Ok m' /\ cstring m' 0x9000 ([] ++ [48; 120; 58; 55]).
Proof.
  apply (hex_to_ascii_ten_is_colon ∅ 0x9000 0xA7 [] 12); [split; [reflexivity | constructor] | lia | simpl; lia].
Defined.

(** C39: [strcmp] terminates on two strings, returns zero exactly when they are
    equal, and otherwise the difference of the first bytes that differ, taken
    as signed characters. *)
Theorem strcmp_correct (m : mem) (s1 s2 : Z) (l1 l2 : list Z) (fuel : nat)
    (H1 : cstring m s1 l1) (H2 : cstring m s2 l2) (Hfuel : (length l1 <= fuel)%nat) :
  exists r, strcmp fuel m s1 s2 = Ok r /\ r = lex_cmp l1 l2 /\ (r = 0 <-> l1 = l2).
Proof.
  exists (lex_cmp l1 l2). split_and!; [|reflexivity|].
  - apply strcmp_from_spec; rewrite ?Z.add_0_r; assumption.
  - apply lex_cmp_zero; [apply H1 | apply H2].
Qed.

Lemma strcmp_correct_witness :
  let m := store_bytes (store_bytes ∅ 0x100 [104; 105; 0]) 0x200 [104; 200; 0] in
  exists r, strcmp 2 m 0x100 0x200 = Ok r /\ r = 105 - (200 - 256) /\ (r = 0 <-> [104; 105] = [104; 200]).
Proof.
  apply (strcmp_correct _ 0x100 0x200 [104; 105] [104; 200] 2);
    [split; [reflexivity | repeat constructor; lia] .. | simpl; lia].
Defined.

(** [backspace] undoes [append]: after both, the string is the old one and
    only the two bytes [append] wrote may differ. *)
Theorem backspace_append (m : mem) (s c : Z) (l : list Z) (fuel : nat)
    (Hs : cstring m s l) (Hc : 0 < c < 0x100) (Hfuel : (length l < fuel)%nat) :
  exists m1 m2, append fuel m s c = Ok m1 /\ cstring m1 s (l ++ [c]) /\
    backspace fuel m1 s = Ok m2 /\ cstring m2 s l /\
    same_but (s + Z.of_nat (length l)) 2 m m2.
Proof.
  destruct (append_spec fuel m s l c Hs ltac:(lia) Hc) as (m1 & E1 & Hs1 & Hfr1).
  destruct (backspace_spec fuel m1 s l c Hs1 Hfuel) as (m2 & E2 & Hs2 & Hfr2).
  exists m1, m2. split_and!; try assumption.
  eapply same_but_trans; [exact Hfr1|]. eapply same_but_widen; [..|exact Hfr2]; lia.
Qed.

Lemma backspace_append_witness :
  let m := store_bytes ∅ 0x100 [108; 115; 0] in
  exists m1 m2, append 3 m 0x100 33 = Ok m1 /\ cstring m1 0x100 ([108; 115] ++ [33]) /\
    backspace 3 m1 0x100 = Ok m2 /\ cstring m2 0x100 [108; 115] /\
    same_but (0x100 + 2) 2 m m2.
Proof.
  apply (backspace_append _ 0x100 33 [108; 115] 3);
    [split; [reflexivity | repeat constructor; lia] | lia | simpl; lia].
Defined.
