(* ===== verification/OrderedArray.v ===== *)
(** * cpu/ordered_array.c: the insertion-sorted array

    The array's elements are 32-bit words in memory, its bookkeeping the record
    [ordered_array_t].  The ordering predicate is a C function pointer; it may
    read memory (the heap's reads block headers), so it takes the memory, and
    [None] is the null pointer.  [insert_list] and [delete] on Rocq lists are
    the abstract operations; [oa_rep] relates the two. *)

From S2P Require Import Prelude Memory Util.

Definition lessthan_predicate_t : Type := mem -> Z -> Z -> Z.

Record ordered_array_t := mk_ordered_array {
  oa_array : Z;
  oa_size : Z;
  oa_max_size : Z;
  oa_less_than : option lessthan_predicate_t;
}.

Definition standard_lessthan_predicate : lessthan_predicate_t := fun _ a b =>
  if a <? b then 1 else 0.

(** [array[i]], and [array[i] = x]. *)
Definition get_elem (m : mem) (arr i : Z) : Z := load32 m (arr + 4 * i).

Definition set_elem (m : mem) (arr i x : Z) : mem := store32 m (arr + 4 * i) x.

Definition place_ordered_array (m : mem) (addr max_size : Z) (less_than : option lessthan_predicate_t)
    : mem * ordered_array_t :=
  let m := memset m addr 0 (u32 (max_size * 4)) in
  (m, mk_ordered_array addr 0 max_size less_than).

(** The body of [destroy_ordered_array] is commented out. *)
Definition destroy_ordered_array (m : mem) (a : ordered_array_t) : mem := m.

(** The first loop of [insert_ordered_array]: the index of the first element
    that is not less than [item]. *)
Definition find_place (lt : lessthan_predicate_t) (m : mem) (item : Z) (a : ordered_array_t) : outcome Z :=
  while (Z.to_nat (oa_size a))
    (fun iterator => (iterator <? oa_size a) &&
       negb (lt m (get_elem m (oa_array a) iterator) item =? 0))
    (fun iterator => Ok (iterator + 1)) 0.

(** The second: the elements from [iterator] move up by one, [tmp] first. *)
Definition shift_up_step (arr : Z) : mem * Z * Z -> outcome (mem * Z * Z) :=
  fun '(m, iterator, tmp) =>
    let iterator := iterator + 1 in
    let tmp2 := get_elem m arr iterator in
    Ok (set_elem m arr iterator tmp, iterator, tmp2).

Definition insert_ordered_array (m : mem) (item : Z) (a : ordered_array_t)
    : outcome (mem * ordered_array_t) :=
  match oa_less_than a with
  | None => panic_assert "cpu/ordered_array.c" 41 "array->less_than"
  | Some lt =>
      iterator ← find_place lt m item a;
      let a' := mk_ordered_array (oa_array a) (u32 (oa_size a + 1)) (oa_max_size a) (oa_less_than a) in
      if iterator =? oa_size a then
        Ok (set_elem m (oa_array a) (oa_size a) item, a')
      else
        let tmp := get_elem m (oa_array a) iterator in
        let m := set_elem m (oa_array a) iterator item in
        st ← while (Z.to_nat (oa_size a)) (fun '(_, iterator, _) => iterator <? oa_size a)
               (shift_up_step (oa_array a)) (m, iterator, tmp);
        Ok (st.1.1, a')
  end.

Definition lookup_ordered_array (m : mem) (i : Z) (a : ordered_array_t) : outcome Z :=
  _ ← ASSERT (i <? oa_size a) "cpu/ordered_array.c" 64 "i < array->size";
  Ok (get_elem m (oa_array a) i).

Definition remove_ordered_array (m : mem) (i : Z) (a : ordered_array_t) : outcome (mem * ordered_array_t) :=
  st ← while (Z.to_nat (oa_size a)) (fun '(_, i) => i <? oa_size a)
         (fun '(m, i) => Ok (set_elem m (oa_array a) i (get_elem m (oa_array a) (i + 1)), i + 1)) (m, i);
  Ok (st.1, mk_ordered_array (oa_array a) (u32 (oa_size a - 1)) (oa_max_size a) (oa_less_than a)).

(** ** The abstract operations and the representation *)

Fixpoint insert_list (lt : Z -> Z -> bool) (item : Z) (l : list Z) : list Z :=
  match l with
  | [] => [item]
  | x :: l' => if lt x item then x :: insert_list lt item l' else item :: x :: l'
  end.

(** The words [l] are at [arr]. *)
Definition words_at (m : mem) (arr : Z) (l : list Z) : Prop :=
  forall i x, l !! i = Some x -> load32 m (arr + 4 * Z.of_nat i) = x.

(** [a] holds the list [l]. *)
Definition oa_rep (m : mem) (a : ordered_array_t) (l : list Z) : Prop :=
  oa_size a = Z.of_nat (length l) /\ words_at m (oa_array a) l.

(** The order the predicate decides, as a boolean. *)
Definition lt_of (lt : lessthan_predicate_t) (m : mem) (x y : Z) : bool := negb (lt m x y =? 0).

(** Sorted by a key. *)
Definition sorted_by (key : Z -> Z) (l : list Z) : Prop :=
  forall i j x y, (i < j)%nat -> l !! i = Some x -> l !! j = Some y -> key x <= key y.

(** ** Lists *)

Lemma insert_list_length lt item l : length (insert_list lt item l) = S (length l).
Proof. induction l as [|x l IH]; simpl; [reflexivity|]. destruct (lt x item); simpl; auto. Qed.

Lemma insert_list_perm lt item l : insert_list lt item l ≡ₚ item :: l.
Proof.
  induction l as [|x l IH]; simpl; [reflexivity|]. destruct (lt x item); [|reflexivity].
  rewrite IH. apply Permutation_swap.
Qed.

(** Where the item goes: before the first element not less than it. *)
Lemma insert_list_split lt item l p :
  (forall i x, (i < p)%nat -> l !! i = Some x -> lt x item = true) ->
  (p <= length l)%nat ->
  (forall x, l !! p = Some x -> lt x item = false) ->
  insert_list lt item l = take p l ++ item :: drop p l.
Proof.
  revert p. induction l as [|x l IH]; intros p Hlt Hp Hnot; destruct p as [|p]; simpl in *; try lia.
  - reflexivity.
  - rewrite (Hnot x eq_refl). reflexivity.
  - rewrite (Hlt 0%nat x) by (reflexivity || lia). f_equal. apply IH; [|lia|exact Hnot].
    intros i y Hi. apply (Hlt (S i) y). lia.
Qed.

Lemma sorted_by_cons key x l :
  sorted_by key (x :: l) <-> (forall y, y ∈ l -> key x <= key y) /\ sorted_by key l.
Proof.
  split.
  - intros H. split.
    + intros y Hy. apply list_elem_of_lookup in Hy as [j Hj]. now apply (H 0%nat (S j) x y); [lia| |].
    + intros i j y z Hij Hi Hj. now apply (H (S i) (S j) y z); [lia| |].
  - intros [Hx Hl] i j y z Hij Hi Hj. destruct j as [|j]; [lia|]. simpl in Hj.
    destruct i as [|i]; simpl in Hi.
    + injection Hi as ->. apply Hx. apply list_elem_of_lookup. eauto.
    + now apply (Hl i j y z); [lia| |].
Qed.

Lemma insert_list_sorted key lt item l :
  (forall x, lt x item = true <-> key x < key item) ->
  sorted_by key l -> sorted_by key (insert_list lt item l).
Proof.
  intros Hlt. induction l as [|x l IH]; simpl; intros Hl.
  - intros i j y z Hij Hi Hj. destruct i, j; simpl in *; try lia; discriminate.
  - apply sorted_by_cons in Hl as [Hx Hl]. destruct (lt x item) eqn:E.
    + apply sorted_by_cons. split; [|now apply IH]. intros y Hy.
      rewrite insert_list_perm in Hy. apply elem_of_cons in Hy as [->|Hy]; [|now apply Hx].
      apply Hlt in E. lia.
    + assert (key item <= key x).
      { destruct (Z.lt_ge_cases (key x) (key item)) as [H|H]; [|exact H].
        apply Hlt in H. congruence. }
      apply sorted_by_cons. split; [|now apply sorted_by_cons].
      intros y Hy. apply elem_of_cons in Hy as [->|Hy]; [assumption|]. specialize (Hx y Hy). lia.
Qed.

(** ** Words in memory *)

Lemma words_at_elem m arr l i x : words_at m arr l -> l !! i = Some x -> get_elem m arr (Z.of_nat i) = x.
Proof. intros H Hi. now apply H. Qed.

Lemma words_at_range m arr l : words_at m arr l -> Forall (fun x => 0 <= x < 0x100000000) l.
Proof.
  intros H. apply Forall_lookup_2. intros i x Hi. rewrite <- (H i x Hi). apply load32_range.
Qed.

Lemma words_at_frame m m' arr l a n :
  same_but a n m m' -> arr + 4 * Z.of_nat (length l) <= a \/ a + n <= arr ->
  words_at m arr l -> words_at m' arr l.
Proof.
  intros H Hd Hw i x Hi. pose proof (lookup_lt_Some _ _ _ Hi).
  rewrite (same_but_load32 _ _ _ _ _ H) by lia. now apply Hw.
Qed.

Lemma get_set_elem_eq m arr i x : get_elem (set_elem m arr i x) arr i = u32 x.
Proof. apply load32_store32_eq. Qed.

Lemma get_set_elem_ne m arr i j x : i <> j -> get_elem (set_elem m arr i x) arr j = get_elem m arr j.
Proof. intros. apply load32_store32_ne. lia. Qed.

Lemma words_at_ext m arr l :
  (forall k, (k < length l)%nat -> Some (get_elem m arr (Z.of_nat k)) = l !! k) -> words_at m arr l.
Proof.
  intros H i x Hi. pose proof (lookup_lt_Some _ _ _ Hi) as Hlt. specialize (H i Hlt).
  rewrite Hi in H. now injection H.
Qed.

(** ** The operations on a represented list *)

Lemma find_place_spec lt m item a l :
  oa_rep m a l ->
  exists p, find_place lt m item a = Ok (Z.of_nat p) /\ (p <= length l)%nat /\
    (forall i x, (i < p)%nat -> l !! i = Some x -> lt_of lt m x item = true) /\
    (forall x, l !! p = Some x -> lt_of lt m x item = false).
Proof.
  intros [Hsz Hw]. unfold find_place.
  destruct (while_rule (fun i => 0 <= i <= oa_size a /\
      forall k x, (Z.of_nat k < i) -> l !! k = Some x -> lt_of lt m x item = true)
    (fun i => Z.to_nat (oa_size a - i))
    (fun iterator => (iterator <? oa_size a) && negb (lt m (get_elem m (oa_array a) iterator) item =? 0))
    (fun iterator => Ok (iterator + 1)) (Z.to_nat (oa_size a)) 0) as (r & E & [Hr Hlt] & Hc).
  - intros i [Hi Hlt] Hc. apply andb_prop in Hc as [Hc1 Hc2]. exists (i + 1).
    split_and!; [reflexivity | lia | lia | | lia].
    intros k x Hk Hx. destruct (Z.eq_dec (Z.of_nat k) i) as [<-|Hne].
    + rewrite (words_at_elem _ _ _ _ _ Hw Hx) in Hc2. exact Hc2.
    + apply (Hlt k x); [lia | exact Hx].
  - split; [lia|]. intros k x Hk. lia.
  - lia.
  - exists (Z.to_nat r). rewrite Z2Nat.id by lia. split_and!; [exact E | lia | |].
    + intros i x Hi. apply Hlt. lia.
    + intros x Hx. pose proof (lookup_lt_Some _ _ _ Hx).
      replace (r <? oa_size a) with true in Hc by lia. simpl in Hc.
      rewrite <- (words_at_elem _ _ _ _ _ Hw Hx), Z2Nat.id by lia. exact Hc.
Qed.

(** Between two turns of the shifting loop: the item is at [p], the elements
    [p..it-1] have moved up by one, [tmp] is the one in the hand. *)
Definition shift_inv (m0 : mem) (arr item sz p : Z) : mem * Z * Z -> Prop := fun '(m, it, tmp) =>
  p <= it <= sz /\ tmp = get_elem m0 arr it /\ same_but arr (4 * (sz + 1)) m0 m /\
  forall k, 0 <= k <= sz ->
    get_elem m arr k = if k =? p then item
      else if (p <? k) && (k <=? it) then get_elem m0 arr (k - 1) else get_elem m0 arr k.

Lemma shift_step_inv m0 arr item sz p st :
  0 <= p -> shift_inv m0 arr item sz p st -> (let '(_, it, _) := st in it <? sz) = true ->
  exists st', shift_up_step arr st = Ok st' /\ shift_inv m0 arr item sz p st' /\
    (Z.to_nat (sz - st'.1.2) < Z.to_nat (sz - st.1.2))%nat.
Proof.
  destruct st as [[m it] tmp]. intros Hp (Hit & Htmp & Hfr & Hk) Hc. simpl.
  eexists. split; [reflexivity|]. split; [|simpl; lia]. unfold shift_inv. split_and!.
  - lia.
  - lia.
  - rewrite (Hk (it + 1)) by lia. cases_lia.
  - eapply same_but_trans; [exact Hfr|]. apply same_but_store32; lia.
  - intros k Hkr. destruct (Z.eq_dec (it + 1) k) as [<-|Hne].
    + rewrite get_set_elem_eq, u32_small by (subst tmp; apply load32_range).
      cases_lia. rewrite Htmp. f_equal. lia.
    + rewrite get_set_elem_ne by lia. rewrite Hk by lia. cases_lia.
Qed.

(** The list with the item behind all others, and with the item at [p]. *)
Lemma words_append m arr l item : words_at m arr l -> 0 <= item < 0x100000000 ->
  words_at (set_elem m arr (Z.of_nat (length l)) item) arr (l ++ [item]).
Proof.
  intros Hw Hitem. apply words_at_ext. rewrite length_app. simpl. intros k Hk. destruct (Nat.eq_dec k (length l)) as [->|Hne].
  - rewrite get_set_elem_eq, u32_small by lia. rewrite lookup_app_r, Nat.sub_diag by lia. reflexivity.
  - rewrite get_set_elem_ne by lia. rewrite lookup_app_l by lia. destruct (lookup_lt_is_Some_2 l k) as [x Hx]; [lia|].
    rewrite (words_at_elem _ _ _ _ _ Hw Hx). auto.
Qed.

Lemma words_shifted m m' arr l item p : words_at m arr l -> (p < length l)%nat ->
  (forall k, 0 <= k <= Z.of_nat (length l) ->
     get_elem m' arr k = if k <? Z.of_nat p then get_elem m arr k else if k =? Z.of_nat p then item else get_elem m arr (k - 1)) ->
  words_at m' arr (take p l ++ item :: drop p l).
Proof.
  intros Hw Hp Hk. apply words_at_ext. rewrite length_app, length_take. simpl. rewrite length_drop. intros k Hkl. rewrite Hk by lia.
  destruct (Nat.lt_total k p) as [Hkp|[->|Hkp]].
  - rewrite lookup_app_l by (rewrite length_take; lia). rewrite lookup_take_lt by lia.
    cases_lia. destruct (lookup_lt_is_Some_2 l k) as [x Hx]; [lia|]. rewrite (words_at_elem _ _ _ _ _ Hw Hx). auto.
  - rewrite lookup_app_r by (rewrite length_take; lia). rewrite length_take. replace (p - p `min` length l)%nat with 0%nat by lia. cases_lia.
  - rewrite lookup_app_r by (rewrite length_take; lia). rewrite length_take. replace (k - p `min` length l)%nat with (S (k - 1 - p)) by lia. simpl.
    rewrite lookup_drop. replace (p + (k - 1 - p))%nat with (k - 1)%nat by lia. cases_lia. destruct (lookup_lt_is_Some_2 l (k - 1)) as [x Hx]; [lia|].
    rewrite Hx. f_equal. rewrite <- (words_at_elem _ _ _ _ _ Hw Hx). f_equal. lia.
Qed.

Lemma insert_ordered_array_spec m a l item lt :
  oa_rep m a l -> oa_less_than a = Some lt ->
  0 <= item < 0x100000000 -> Z.of_nat (length l) + 1 < 0x100000000 ->
  exists m', insert_ordered_array m item a =
      Ok (m', mk_ordered_array (oa_array a) (oa_size a + 1) (oa_max_size a) (oa_less_than a)) /\
    words_at m' (oa_array a) (insert_list (lt_of lt m) item l) /\
    same_but (oa_array a) (4 * (oa_size a + 1)) m m'.
Proof.
  intros Hrep Hlt Hitem Hlen. destruct (find_place_spec lt m item a l Hrep) as (p & E & Hp & Hbelow & Hat).
  destruct Hrep as [Hsz Hw]. unfold insert_ordered_array. rewrite Hlt, E. cbn [mbind outcome_bind].
  rewrite (u32_small (oa_size a + 1)) by lia.
  rewrite (insert_list_split _ item l p Hbelow Hp Hat).
  destruct (Z.of_nat p =? oa_size a) eqn:Ep.
  - eexists. split; [reflexivity|]. split; [|apply same_but_store32; lia].
    assert (p = length l) as -> by lia. rewrite firstn_all, drop_all, Hsz. now apply words_append.
  - destruct (while_rule (shift_inv m (oa_array a) item (oa_size a) (Z.of_nat p))
      (fun st => Z.to_nat (oa_size a - st.1.2)) (fun '(_, it, _) => it <? oa_size a)
      (shift_up_step (oa_array a)) (Z.to_nat (oa_size a))
      (set_elem m (oa_array a) (Z.of_nat p) item, Z.of_nat p, get_elem m (oa_array a) (Z.of_nat p)))
      as ([[m' it] tmp] & E' & (Hit & _ & Hfr & Hk) & Hc).
    + intros st. apply shift_step_inv. lia.
    + unfold shift_inv. split_and!; try lia; [apply same_but_store32; lia|].
      intros k Hk. destruct (Z.eqb_spec k (Z.of_nat p)) as [->|Hne].
      * rewrite get_set_elem_eq, u32_small by lia. reflexivity.
      * rewrite get_set_elem_ne by lia. cases_lia.
    + simpl. lia.
    + rewrite E'. exists m'. split; [reflexivity|]. split; [|exact Hfr].
      apply (words_shifted m); [exact Hw | lia|]. intros k Hk'. rewrite Hk by lia. assert (it = oa_size a) as -> by lia. cases_lia.
Qed.

Lemma remove_ordered_array_spec m a l i :
  oa_rep m a l -> (i < length l)%nat -> Z.of_nat (length l) < 0x100000000 ->
  exists m', remove_ordered_array m (Z.of_nat i) a =
      Ok (m', mk_ordered_array (oa_array a) (oa_size a - 1) (oa_max_size a) (oa_less_than a)) /\
    words_at m' (oa_array a) (delete i l) /\
    same_but (oa_array a) (4 * oa_size a) m m'.
Proof.
  intros [Hsz Hw] Hi Hlen. unfold remove_ordered_array.
  destruct (while_rule (fun '(m', j) => Z.of_nat i <= j <= oa_size a /\
      same_but (oa_array a) (4 * oa_size a) m m' /\
      forall k, 0 <= k <= oa_size a -> get_elem m' (oa_array a) k =
        if (Z.of_nat i <=? k) && (k <? j) then get_elem m (oa_array a) (k + 1) else get_elem m (oa_array a) k)
    (fun st => Z.to_nat (oa_size a - st.2)) (fun '(_, j) => j <? oa_size a)
    (fun '(m, i) => Ok (set_elem m (oa_array a) i (get_elem m (oa_array a) (i + 1)), i + 1))
    (Z.to_nat (oa_size a)) (m, Z.of_nat i)) as ([m' j] & E & (Hj & Hfr & Hk) & Hc).
  - intros [m' j] (Hj & Hfr & Hk) Hc. eexists. split; [reflexivity|]. split; [|simpl; lia].
    split_and!; [lia | lia | |].
    + eapply same_but_trans; [exact Hfr|]. apply same_but_store32; lia.
    + intros k Hkr. destruct (Z.eq_dec j k) as [<-|Hne].
      * rewrite get_set_elem_eq, u32_small by apply load32_range. rewrite Hk by lia.
        cases_lia.
      * rewrite get_set_elem_ne by lia. rewrite Hk by lia. cases_lia.
  - split_and!; try lia; [apply same_but_refl|]. intros k Hk. cases_lia.
  - simpl. lia.
  - rewrite E. exists m'. cbn [mbind outcome_bind fst]. rewrite (u32_small (oa_size a - 1)) by lia.
    split_and!; [reflexivity | | exact Hfr].
    apply words_at_ext. rewrite length_delete by (apply lookup_lt_is_Some_2; lia). intros k Hkl.
    rewrite Hk by lia. assert (j = oa_size a) as -> by lia.
    destruct (Nat.lt_ge_cases k i) as [Hki|Hki].
    + rewrite list_lookup_delete_lt by lia. destruct (lookup_lt_is_Some_2 l k) as [x Hx]; [lia|].
      cases_lia. rewrite (words_at_elem _ _ _ _ _ Hw Hx). auto.
    + rewrite list_lookup_delete_ge by lia. destruct (lookup_lt_is_Some_2 l (S k)) as [x Hx]; [lia|].
      cases_lia. rewrite Hx. f_equal.
      rewrite <- (words_at_elem _ _ _ _ _ Hw Hx). f_equal. lia.
Qed.

Lemma oa_rep_inj m a l l' : oa_rep m a l -> oa_rep m a l' -> l = l'.
Proof.
  intros [Hs Hw] [Hs' Hw']. apply (list_eq_same_length _ _ (length l)); [lia | lia |].
  intros i x y _ Hx Hy. rewrite <- (Hw i x Hx), <- (Hw' i y Hy). reflexivity.
Qed.

Lemma sorted_by_ext key key' l : (forall x, x ∈ l -> key' x = key x) -> sorted_by key l -> sorted_by key' l.
Proof.
  intros He Hl i j x y Hij Hx Hy. rewrite !He by (eapply list_elem_of_lookup_2; eassumption). eauto.
Qed.

Lemma lookup_ordered_array_spec m a l i x :
  oa_rep m a l -> l !! i = Some x -> lookup_ordered_array m (Z.of_nat i) a = Ok x.
Proof.
  intros [Hsz Hw] Hx. unfold lookup_ordered_array. pose proof (lookup_lt_Some _ _ _ Hx).
  replace (Z.of_nat i <? oa_size a) with true by lia. simpl. f_equal.
  now apply (words_at_elem _ _ _ _ _ Hw).
Qed.

(** ** Sorted arrays

    The predicate decides an order when it compares a key of the elements; the
    key may be read from memory. *)

Class KeyOrder (lt : lessthan_predicate_t) (key : mem -> Z -> Z) : Prop :=
  key_order : forall m x y, lt_of lt m x y = true <-> key m x < key m y.

#[export] Instance standard_key_order : KeyOrder standard_lessthan_predicate (fun _ x => x).
Proof.
  intros m x y. unfold lt_of, standard_lessthan_predicate. destruct (x <? y) eqn:E; simpl; lia.
Qed.

(** The array stays where it is. *)
Lemma insert_keeps_array m x a m' a' : insert_ordered_array m x a = Ok (m', a') -> oa_array a' = oa_array a.
Proof.
  unfold insert_ordered_array. destruct (oa_less_than a); [|discriminate]. intros H. apply bind_inv in H as (i & _ & H).
  destruct (i =? oa_size a); [injection H as <- <-; reflexivity|]. apply bind_inv in H as (st & _ & H). injection H as <- <-. reflexivity.
Qed.

Lemma remove_keeps_array m i a r : remove_ordered_array m i a = Ok r -> oa_array r.2 = oa_array a.
Proof. unfold remove_ordered_array. intros H. apply bind_inv in H as (st & _ & H). injection H as <-. reflexivity. Qed.

Lemma sorted_by_delete key l i : sorted_by key l -> sorted_by key (delete i l).
Proof.
  intros Hl a b x y Hab Ha Hb. rewrite list_lookup_delete in Ha, Hb.
  case_decide; case_decide; eapply Hl; [| exact Ha | exact Hb | | exact Ha | exact Hb |
    | exact Ha | exact Hb | | exact Ha | exact Hb]; lia.
Qed.

(** C19: inserting into a sorted array leaves a sorted array that holds the old
    elements and the new one, whatever key the predicate compares, and writes
    only the array's words up to the new size. *)
Theorem insert_ordered_array_sorted (lt : lessthan_predicate_t) (key : mem -> Z -> Z)
    `{Hko : !KeyOrder lt key} (m : mem) (a : ordered_array_t) (l : list Z) (item : Z)
    (Hrep : oa_rep m a l) (Hlt : oa_less_than a = Some lt) (Hsorted : sorted_by (key m) l)
    (Hitem : 0 <= item < 0x100000000) (Hlen : Z.of_nat (length l) + 1 < 0x100000000) :
  exists m' a' l', insert_ordered_array m item a = Ok (m', a') /\ oa_rep m' a' l' /\
    l' ≡ₚ item :: l /\ sorted_by (key m) l' /\ same_but (oa_array a) (4 * (oa_size a + 1)) m m'.
Proof.
  destruct (insert_ordered_array_spec m a l item lt Hrep Hlt Hitem Hlen) as (m' & E & Hw & Hfr).
  exists m', (mk_ordered_array (oa_array a) (oa_size a + 1) (oa_max_size a) (oa_less_than a)),
    (insert_list (lt_of lt m) item l).
  split_and!; [exact E | | apply insert_list_perm | | exact Hfr].
  - split; simpl; [|exact Hw]. rewrite insert_list_length. destruct Hrep as [-> _]. lia.
  - apply insert_list_sorted; [|exact Hsorted]. intros x. apply key_order.
Qed.

Lemma insert_ordered_array_sorted_witness :
  let a := mk_ordered_array 0x1000 2 8 (Some standard_lessthan_predicate) in
  let m := store32 (store32 ∅ 0x1000 7) 0x1004 40 in
  exists m' a' l', insert_ordered_array m 12 a = Ok (m', a') /\ oa_rep m' a' l' /\
    l' ≡ₚ [12; 7; 40] /\ sorted_by (fun x => x) l' /\ same_but 0x1000 (4 * (2 + 1)) m m'.
Proof.
  refine (insert_ordered_array_sorted standard_lessthan_predicate (fun _ x => x)
    (store32 (store32 ∅ 0x1000 7) 0x1004 40)
    (mk_ordered_array 0x1000 2 8 (Some standard_lessthan_predicate)) [7; 40] 12 _ eq_refl _ _ _);
    [split; [reflexivity|] | | lia | simpl; lia].
  - intros [|[|i]] x Hx; simpl in Hx; try discriminate; injection Hx as <-; reflexivity.
  - intros [|[|i]] [|[|j]] x y Hij Hx Hy; simpl in *; try lia; try discriminate.
    injection Hx as <-. injection Hy as <-. lia.
Defined.

(** removing the element at an index that is in range implements deletion
    from the list, keeps the array sorted, and leaves the other elements
    readable at their new indices; looking up a valid index never panics. *)
Theorem remove_ordered_array_refines (key : Z -> Z) (m : mem) (a : ordered_array_t) (l : list Z) (i : nat)
    (Hrep : oa_rep m a l) (Hi : (i < length l)%nat) (Hlen : Z.of_nat (length l) < 0x100000000) :
  exists m' a', remove_ordered_array m (Z.of_nat i) a = Ok (m', a') /\ oa_rep m' a' (delete i l) /\
    (sorted_by key l -> sorted_by key (delete i l)) /\
    (forall j x, delete i l !! j = Some x -> lookup_ordered_array m' (Z.of_nat j) a' = Ok x) /\
    same_but (oa_array a) (4 * oa_size a) m m'.
Proof.
  destruct (remove_ordered_array_spec m a l i Hrep Hi Hlen) as (m' & E & Hw & Hfr).
  exists m', (mk_ordered_array (oa_array a) (oa_size a - 1) (oa_max_size a) (oa_less_than a)).
  assert (oa_size a - 1 = Z.of_nat (length (delete i l))) as Hsz.
  { rewrite length_delete by (apply lookup_lt_is_Some_2; lia). destruct Hrep as [-> _]. lia. }
  split_and!; [exact E | | apply sorted_by_delete | | exact Hfr].
  - split; simpl; [exact Hsz | exact Hw].
  - intros j x Hx. eapply lookup_ordered_array_spec; [|exact Hx]. split; simpl; [exact Hsz | exact Hw].
Qed.

Lemma remove_ordered_array_refines_witness :
  let a := mk_ordered_array 0x1000 2 8 (Some standard_lessthan_predicate) in
  let m := store32 (store32 ∅ 0x1000 7) 0x1004 40 in
  exists m' a', remove_ordered_array m 0 a = Ok (m', a') /\ oa_rep m' a' [40] /\
    (sorted_by (fun x => x) [7; 40] -> sorted_by (fun x => x) [40]) /\
    (forall j x, [40] !! j = Some x -> lookup_ordered_array m' (Z.of_nat j) a' = Ok x) /\
    same_but 0x1000 (4 * 2) m m'.
Proof.
  refine (remove_ordered_array_refines (fun x => x) (store32 (store32 ∅ 0x1000 7) 0x1004 40)
    (mk_ordered_array 0x1000 2 8 (Some standard_lessthan_predicate)) [7; 40] 0 _ _ _);
    [split; [reflexivity|] | simpl; lia | simpl; lia].
  intros [|[|i]] x Hx; simpl in Hx; try discriminate; injection Hx as <-; reflexivity.
Defined.
