(* ===== verification/Kernel.v ===== *)
(** * The kernel's memory-management state

    The structures of cpu/kheap.h and the globals of cpu/kheap.c and
    cpu/paging.c.  Page tables, page directories, the frame bitmap and the heap
    are bytes of [k_mem]; the scalar globals are fields of the record.  The one
    [heap_t] of the kernel is a record in the [k_kheap] field ([None] is the
    null pointer the global starts as), with its index's bookkeeping inside it,
    as in the C structure.  [k_phys] is memory by physical address, which only
    [copy_page_physical] uses. *)

From S2P Require Import Prelude Memory Util OrderedArray.

Record heap_t := mk_heap {
  h_index : ordered_array_t;
  h_start_address : Z;
  h_end_address : Z;
  h_max_address : Z;
  h_supervisor : Z;
  h_readonly : Z;
}.

Record kernel := mk_kernel {
  k_mem : mem;
  k_phys : mem;
  k_placement_address : Z;
  k_kheap : option heap_t;
  k_frames : Z;
  k_nframes : Z;
  k_kernel_directory : Z;
  k_current_directory : Z;
}.

Definition with_mem (m : mem) (k : kernel) : kernel :=
  mk_kernel m (k_phys k) (k_placement_address k) (k_kheap k) (k_frames k) (k_nframes k)
    (k_kernel_directory k) (k_current_directory k).

Definition with_phys (p : mem) (k : kernel) : kernel :=
  mk_kernel (k_mem k) p (k_placement_address k) (k_kheap k) (k_frames k) (k_nframes k)
    (k_kernel_directory k) (k_current_directory k).

Definition with_placement (p : Z) (k : kernel) : kernel :=
  mk_kernel (k_mem k) (k_phys k) p (k_kheap k) (k_frames k) (k_nframes k)
    (k_kernel_directory k) (k_current_directory k).

Definition with_kheap (h : option heap_t) (k : kernel) : kernel :=
  mk_kernel (k_mem k) (k_phys k) (k_placement_address k) h (k_frames k) (k_nframes k)
    (k_kernel_directory k) (k_current_directory k).

Definition with_frames (frames nframes : Z) (k : kernel) : kernel :=
  mk_kernel (k_mem k) (k_phys k) (k_placement_address k) (k_kheap k) frames nframes
    (k_kernel_directory k) (k_current_directory k).

Definition with_kernel_directory (d : Z) (k : kernel) : kernel :=
  mk_kernel (k_mem k) (k_phys k) (k_placement_address k) (k_kheap k) (k_frames k) (k_nframes k)
    d (k_current_directory k).

Definition with_current_directory (d : Z) (k : kernel) : kernel :=
  mk_kernel (k_mem k) (k_phys k) (k_placement_address k) (k_kheap k) (k_frames k) (k_nframes k)
    (k_kernel_directory k) d.

Lemma with_mem_id k : with_mem (k_mem k) k = k.
Proof. destruct k. reflexivity. Qed.
