(* ===== verification/Paging.v ===== *)
(** * cpu/paging.c: frames and page tables

    The bitmap of physical frames, page-table entries as 32-bit words with
    bit-fields, and the walk that finds the entry of an address.  The entry
    operations take the address of the entry, as the C functions take a
    [page_t *].  What the walk needs of [kmalloc_ap] is an argument. *)

From S2P Require Import Prelude Memory Util OrderedArray Kernel.

(** ** Bit-fields *)

(** [width] bits of [w] from bit [pos], and [w] with them replaced by the low
    bits of [v]. *)
Definition bf_get (pos width w : Z) : Z := Z.land (Z.shiftr w pos) (Z.ones width).

Definition bf_set (pos width v w : Z) : Z :=
  Z.lor (Z.ldiff w (Z.shiftl (Z.ones width) pos)) (Z.shiftl (Z.land v (Z.ones width)) pos).

(** The fields of [page_t]. *)
Definition page_present : Z -> Z := bf_get 0 1.

Definition page_rw : Z -> Z := bf_get 1 1.

Definition page_user : Z -> Z := bf_get 2 1.

Definition page_accessed : Z -> Z := bf_get 3 1.

Definition page_dirty : Z -> Z := bf_get 4 1.

Definition page_unused : Z -> Z := bf_get 5 7.

Definition page_frame : Z -> Z := bf_get 12 20.

Definition set_present (v : Z) : Z -> Z := bf_set 0 1 v.

Definition set_rw (v : Z) : Z -> Z := bf_set 1 1 v.

Definition set_user (v : Z) : Z -> Z := bf_set 2 1 v.

Definition set_accessed (v : Z) : Z -> Z := bf_set 3 1 v.

Definition set_dirty (v : Z) : Z -> Z := bf_set 4 1 v.

Definition set_page_frame (v : Z) : Z -> Z := bf_set 12 20 v.

(** ** The frame bitmap *)

Definition INDEX_FROM_BIT (a : Z) : Z := a / (8 * 4).

Definition OFFSET_FROM_BIT (a : Z) : Z := a mod (8 * 4).

Definition set_frame (frame_addr : Z) (k : kernel) : kernel :=
  let frame := frame_addr / 0x1000 in
  let idx := INDEX_FROM_BIT frame in
  let off := OFFSET_FROM_BIT frame in
  let p := k_frames k + 4 * idx in
  with_mem (store32 (k_mem k) p (Z.lor (load32 (k_mem k) p) (u32 (Z.shiftl 1 off)))) k.

Definition clear_frame (frame_addr : Z) (k : kernel) : kernel :=
  let frame := frame_addr / 0x1000 in
  let idx := INDEX_FROM_BIT frame in
  let off := OFFSET_FROM_BIT frame in
  let p := k_frames k + 4 * idx in
  with_mem (store32 (k_mem k) p (Z.land (load32 (k_mem k) p) (u32 (Z.lnot (Z.shiftl 1 off))))) k.

Definition test_frame (frame_addr : Z) (k : kernel) : Z :=
  let frame := frame_addr / 0x1000 in
  let idx := INDEX_FROM_BIT frame in
  let off := OFFSET_FROM_BIT frame in
  Z.land (load32 (k_mem k) (k_frames k + 4 * idx)) (u32 (Z.shiftl 1 off)).

(** The inner loop of [first_frame]: the first clear bit of [w] from [j], of
    [n]. *)
Fixpoint first_bit (w : Z) (n : nat) (j : Z) : option Z :=
  match n with
  | O => None
  | S n' =>
      let toTest := u32 (Z.shiftl 1 j) in
      if Z.land w toTest =? 0 then Some j else first_bit w n' (j + 1)
  end.

(** The outer loop, with [n] words to go from word [i].  Past the last word the
    function ends without a [return]. *)
Fixpoint first_frame_from (m : mem) (frames : Z) (n : nat) (i : Z) : outcome Z :=
  match n with
  | O => Undef "first_frame: no return value"
  | S n' =>
      let w := load32 m (frames + 4 * i) in
      if negb (w =? 0xFFFFFFFF) then
        match first_bit w 32 0 with
        | Some j => Ok (u32 (i * 4 * 8 + j))
        | None => first_frame_from m frames n' (i + 1)
        end
      else first_frame_from m frames n' (i + 1)
  end.

Definition first_frame (k : kernel) : outcome Z :=
  first_frame_from (k_mem k) (k_frames k) (Z.to_nat (INDEX_FROM_BIT (k_nframes k))) 0.

(** ** Page-table entries *)

(** The character [\n]. *)
Definition newline : Ascii.ascii := Ascii.ascii_of_nat 10.

Definition alloc_frame (page is_kernel is_writeable : Z) (k : kernel) : outcome kernel :=
  if negb (page_frame (load32 (k_mem k) page) =? 0) then Ok k
  else
    idx ← first_frame k;
    if idx =? u32 (-1) then panic ("No free frames" +:+ String newline "") "cpu/paging.c" 90
    else
      let k := set_frame (u32 (idx * 0x1000)) k in
      let w := load32 (k_mem k) page in
      let w := set_present 1 w in
      let w := set_rw (if is_writeable =? 0 then 0 else 1) w in
      let w := set_user (if is_kernel =? 0 then 1 else 0) w in
      let w := set_page_frame idx w in
      Ok (with_mem (store32 (k_mem k) page w) k).

Definition free_frame (page : Z) (k : kernel) : kernel :=
  let frame := page_frame (load32 (k_mem k) page) in
  if frame =? 0 then k
  else
    let k := clear_frame frame k in
    with_mem (store32 (k_mem k) page (set_page_frame 0 (load32 (k_mem k) page))) k.

(** ** Page directories

    [page_directory_t]: 1024 pointers to tables, their 1024 physical addresses
    with flags, and the physical address of the latter. *)

Definition dir_table (m : mem) (dir i : Z) : Z := load32 m (dir + 4 * i).

Definition dir_table_physical (m : mem) (dir i : Z) : Z := load32 m (dir + 0x1000 + 4 * i).

Definition dir_physicalAddr (m : mem) (dir : Z) : Z := load32 m (dir + 0x2000).

Definition SIZEOF_page_table : Z := 0x1000.

Definition SIZEOF_page_directory : Z := 0x2004.

(** [get_page_ptr_in_page_table], given the allocator it calls when it must
    make a table: the allocator returns the address and the physical address
    of the chunk. *)
Definition get_page_ptr_in_page_table (kmalloc_ap : Z -> kernel -> outcome (Z * Z * kernel))
    (address make dir : Z) (k : kernel) : outcome (Z * kernel) :=
  let address := address / 0x1000 in
  let table_idx := address / 1024 in
  if negb (dir_table (k_mem k) dir table_idx =? 0) then
    Ok (dir_table (k_mem k) dir table_idx + 4 * (address mod 1024), k)
  else if negb (make =? 0) then
    r ← kmalloc_ap SIZEOF_page_table k;
    let '(table, tmp, k) := r in
    let k := with_mem (store32 (k_mem k) (dir + 4 * table_idx) table) k in
    let k := with_mem (store32 (k_mem k) (dir + 0x1000 + 4 * table_idx) (Z.lor tmp 0x7)) k in
    Ok (dir_table (k_mem k) dir table_idx + 4 * (address mod 1024), k)
  else Ok (0, k).

(** The allocator of calls with [make = 0], which do not allocate. *)
Definition no_kmalloc (sz : Z) (k : kernel) : outcome (Z * Z * kernel) :=
  Undef "kmalloc_ap is not called when make is 0".

(** ** Frames as a set

    [frame_used k f]: the bit of frame [f] is set. *)

Definition frame_used (k : kernel) (f : Z) : bool :=
  Z.testbit (load32 (k_mem k) (k_frames k + 4 * (f / 32))) (f mod 32).

(** The frames the bitmap's search covers. *)
Definition frame_range (k : kernel) (f : Z) : Prop := 0 <= f < 32 * (k_nframes k / 32).

(** The bytes of the bitmap. *)
Definition bitmap_size (k : kernel) : Z := 4 * (k_nframes k / 32).

(** [q] is outside the bitmap. *)
Definition outside_bitmap (k : kernel) (q n : Z) : Prop :=
  q + n <= k_frames k \/ k_frames k + bitmap_size k <= q.

(** ** Bits *)

Lemma ones_bit n i : 0 <= n -> 0 <= i -> Z.testbit (Z.ones n) i = (i <? n).
Proof.
  intros. destruct (i <? n) eqn:E; [apply Z.ones_spec_low | apply Z.ones_spec_high]; lia.
Qed.

Lemma u32_bit x i : 0 <= i < 32 -> Z.testbit (u32 x) i = Z.testbit x i.
Proof. intros. unfold u32. change 0x100000000 with (2 ^ 32). apply Z.mod_pow2_bits_low. lia. Qed.

Lemma u32_shiftl_1 j : 0 <= j < 32 -> u32 (Z.shiftl 1 j) = 2 ^ j.
Proof.
  intros. rewrite Z.shiftl_mul_pow2, Z.mul_1_l by lia. apply u32_small.
  split; [lia|]. change 0x100000000 with (2 ^ 32). apply Z.pow_lt_mono_r; lia.
Qed.

Lemma land_pow2 w j : 0 <= j -> Z.land w (2 ^ j) = if Z.testbit w j then 2 ^ j else 0.
Proof.
  intros Hj. apply Z.bits_inj'. intros i Hi. rewrite Z.land_spec, Z.pow2_bits_eqb by lia.
  destruct (Z.eqb_spec j i) as [->|Hne].
  - destruct (Z.testbit w i) eqn:E; [now rewrite Z.pow2_bits_true | now rewrite Z.testbit_0_l].
  - rewrite andb_false_r. destruct (Z.testbit w j); [|now rewrite Z.testbit_0_l].
    now rewrite Z.pow2_bits_false.
Qed.

Lemma bf_get_bit pos width w i :
  0 <= pos -> 0 <= width -> 0 <= i ->
  Z.testbit (bf_get pos width w) i = (i <? width) && Z.testbit w (i + pos).
Proof.
  intros. unfold bf_get. rewrite Z.land_spec, Z.shiftr_spec, ones_bit by lia. apply andb_comm.
Qed.

Lemma bf_set_bit pos width v w i :
  0 <= pos -> 0 <= width -> 0 <= i ->
  Z.testbit (bf_set pos width v w) i =
    if (pos <=? i) && (i <? pos + width) then Z.testbit v (i - pos) else Z.testbit w i.
Proof.
  intros. unfold bf_set. rewrite Z.lor_spec, Z.ldiff_spec, !Z.shiftl_spec, Z.land_spec by lia.
  destruct (Z.leb_spec pos i).
  - rewrite ones_bit by lia. destruct (Z.ltb_spec (i - pos) width), (Z.ltb_spec i (pos + width)); try lia; simpl;
      destruct (Z.testbit w i); simpl; rewrite ?andb_true_r, ?andb_false_r; reflexivity.
  - rewrite !(Z.testbit_neg_r _ (i - pos)) by lia. simpl. now rewrite andb_true_r, orb_false_r.
Qed.

Lemma bf_get_set_eq pos width v w :
  0 <= pos -> 0 <= width -> bf_get pos width (bf_set pos width v w) = v mod 2 ^ width.
Proof.
  intros. rewrite <- Z.land_ones by lia. apply Z.bits_inj'. intros i Hi.
  rewrite bf_get_bit, bf_set_bit, Z.land_spec, ones_bit by lia.
  replace (i + pos - pos) with i by lia.
  destruct (i <? width) eqn:E; simpl; [|now rewrite andb_false_r].
  replace ((pos <=? i + pos) && (i + pos <? pos + width)) with true by lia. now rewrite andb_true_r.
Qed.

Lemma bf_get_set_ne pos width pos' width' v w :
  0 <= pos -> 0 <= width -> 0 <= pos' -> 0 <= width' ->
  pos + width <= pos' \/ pos' + width' <= pos ->
  bf_get pos' width' (bf_set pos width v w) = bf_get pos' width' w.
Proof.
  intros. apply Z.bits_inj'. intros i Hi. rewrite !bf_get_bit, bf_set_bit by lia.
  destruct (i <? width') eqn:E; [|reflexivity]. simpl.
  replace ((pos <=? i + pos') && (i + pos' <? pos + width)) with false by lia. reflexivity.
Qed.

Lemma bf_get_u32 pos width w :
  0 <= pos -> 0 <= width -> pos + width <= 32 -> bf_get pos width (u32 w) = bf_get pos width w.
Proof.
  intros. apply Z.bits_inj'. intros i Hi. rewrite !bf_get_bit by lia.
  destruct (i <? width) eqn:E; [|reflexivity]. simpl. apply u32_bit. lia.
Qed.

Ltac bf_simpl :=
  unfold page_present, page_rw, page_user, page_accessed, page_dirty, page_unused, page_frame,
    set_present, set_rw, set_user, set_accessed, set_dirty, set_page_frame;
  rewrite ?bf_get_u32, ?bf_get_set_ne by lia; rewrite ?bf_get_set_eq by lia.

(** ** The bitmap *)

Lemma set_frame_mem f k : k_mem (set_frame f k) = store32 (k_mem k) (k_frames k + 4 * (f / 0x1000 / 32))
  (Z.lor (load32 (k_mem k) (k_frames k + 4 * (f / 0x1000 / 32))) (u32 (Z.shiftl 1 (f / 0x1000 mod 32)))).
Proof. reflexivity. Qed.

Lemma frame_used_store k p w g :
  0 <= g -> p = k_frames k + 4 * (g / 32) ->
  frame_used (with_mem (store32 (k_mem k) p w) k) g = Z.testbit w (g mod 32).
Proof.
  intros Hg ->. unfold frame_used. simpl. rewrite load32_store32_eq, u32_bit by zlia. reflexivity.
Qed.

Lemma frame_used_store_ne k p w g :
  p + 4 <= k_frames k + 4 * (g / 32) \/ k_frames k + 4 * (g / 32) + 4 <= p ->
  frame_used (with_mem (store32 (k_mem k) p w) k) g = frame_used k g.
Proof. intros. unfold frame_used. simpl. rewrite load32_store32_ne by lia. reflexivity. Qed.

(** Setting the bit of frame [f] adds [f] to the used frames. *)
Lemma set_frame_used k f g :
  0 <= f -> 0 <= g -> frame_used (set_frame (f * 0x1000) k) g = (f =? g) || frame_used k g.
Proof.
  intros Hf Hg. unfold set_frame, INDEX_FROM_BIT, OFFSET_FROM_BIT. cbv zeta.
  rewrite Z.div_mul by lia. change (8 * 4) with 32.
  destruct (Z.eq_dec (f / 32) (g / 32)) as [E|E].
  - rewrite E, frame_used_store by (lia || reflexivity).
    rewrite Z.lor_spec, u32_bit, Z.shiftl_spec by zlia. unfold frame_used.
    destruct (Z.eqb_spec f g) as [->|Hne]; simpl.
    + rewrite Z.sub_diag. simpl. now rewrite orb_true_r.
    + replace (Z.testbit 1 (g mod 32 - f mod 32)) with false; [now rewrite orb_false_r|].
      destruct (Z.lt_total (g mod 32 - f mod 32) 0) as [H|[H|H]]; [| zlia |].
      * now rewrite Z.testbit_neg_r.
      * change 1 with (2 ^ 0). now rewrite Z.pow2_bits_false by lia.
  - rewrite frame_used_store_ne by lia. replace (f =? g) with false by zlia. reflexivity.
Qed.

(** Clearing it removes [f]. *)
Lemma clear_frame_used k f g :
  0 <= f -> 0 <= g -> frame_used (clear_frame (f * 0x1000) k) g = negb (f =? g) && frame_used k g.
Proof.
  intros Hf Hg. unfold clear_frame, INDEX_FROM_BIT, OFFSET_FROM_BIT. cbv zeta.
  rewrite Z.div_mul by lia. change (8 * 4) with 32.
  destruct (Z.eq_dec (f / 32) (g / 32)) as [E|E].
  - rewrite E, frame_used_store by (lia || reflexivity).
    rewrite Z.land_spec, u32_bit, Z.lnot_spec, Z.shiftl_spec by zlia. unfold frame_used.
    destruct (Z.eqb_spec f g) as [->|Hne]; simpl.
    + rewrite Z.sub_diag. simpl. now rewrite andb_false_r.
    + replace (Z.testbit 1 (g mod 32 - f mod 32)) with false; [now rewrite andb_true_r|].
      destruct (Z.lt_total (g mod 32 - f mod 32) 0) as [H|[H|H]]; [| zlia |].
      * now rewrite Z.testbit_neg_r.
      * change 1 with (2 ^ 0). now rewrite Z.pow2_bits_false by lia.
  - rewrite frame_used_store_ne by lia. replace (f =? g) with false by zlia. reflexivity.
Qed.

Lemma test_frame_used k f : 0 <= f -> (test_frame (f * 0x1000) k =? 0) = negb (frame_used k f).
Proof.
  intros Hf. unfold test_frame, INDEX_FROM_BIT, OFFSET_FROM_BIT. cbv zeta.
  rewrite Z.div_mul by lia. change (8 * 4) with 32. rewrite u32_shiftl_1, land_pow2 by zlia.
  unfold frame_used. destruct (Z.testbit _ _); simpl; [|reflexivity].
  apply Z.eqb_neq. apply Z.pow_nonzero; zlia.
Qed.

Lemma first_bit_some w n j r :
  0 <= j -> j + Z.of_nat n <= 32 -> first_bit w n j = Some r ->
  j <= r < j + Z.of_nat n /\ Z.testbit w r = false /\ forall i, j <= i < r -> Z.testbit w i = true.
Proof.
  revert j. induction n as [|n IH]; intros j Hj Hn H; simpl in H; [discriminate|].
  rewrite u32_shiftl_1, land_pow2 in H by lia. destruct (Z.testbit w j) eqn:E.
  - rewrite (proj2 (Z.eqb_neq _ _)) in H by (apply Z.pow_nonzero; lia).
    apply IH in H; [|lia..]. destruct H as (Hr & Hb & Hall). split_and!; [lia | lia | exact Hb |].
    intros i Hi. destruct (Z.eq_dec i j) as [->|Hne]; [exact E | apply Hall; lia].
  - simpl in H. injection H as <-. split_and!; [lia | lia | exact E | lia].
Qed.

Lemma first_bit_none w n j :
  0 <= j -> j + Z.of_nat n <= 32 -> first_bit w n j = None ->
  forall i, j <= i < j + Z.of_nat n -> Z.testbit w i = true.
Proof.
  revert j. induction n as [|n IH]; intros j Hj Hn H i Hi; simpl in H; [lia|].
  rewrite u32_shiftl_1, land_pow2 in H by lia. destruct (Z.testbit w j) eqn:E; [|discriminate].
  rewrite (proj2 (Z.eqb_neq _ _)) in H by (apply Z.pow_nonzero; lia).
  destruct (Z.eq_dec i j) as [->|Hne]; [exact E|]. apply (IH (j + 1)); lia || exact H.
Qed.

Lemma all_ones_bit i : 0 <= i < 32 -> Z.testbit 0xFFFFFFFF i = true.
Proof. intros. change 0xFFFFFFFF with (Z.ones 32). apply Z.ones_spec_low. lia. Qed.

(** The word loop: the least clear bit from word [i], or the end. *)
Lemma first_frame_from_spec m frames n i :
  0 <= i -> (i + Z.of_nat n) * 32 <= 0x100000000 ->
  let used f := Z.testbit (load32 m (frames + 4 * (f / 32))) (f mod 32) in
  match first_frame_from m frames n i with
  | Ok r => 32 * i <= r < 32 * (i + Z.of_nat n) /\ used r = false /\
      forall g, 32 * i <= g < r -> used g = true
  | Undef _ => forall g, 32 * i <= g < 32 * (i + Z.of_nat n) -> used g = true
  | _ => False
  end.
Proof.
  intros Hi Hn used. revert i Hi Hn. induction n as [|n IH]; intros i Hi Hn; cbn [first_frame_from]; [lia|].
  set (w := load32 m (frames + 4 * i)).
  assert (forall g, 32 * i <= g < 32 * i + 32 -> used g = Z.testbit w (g - 32 * i)) as Hword.
  { intros g Hg. unfold used, w. replace (g / 32) with i by zlia.
    replace (g mod 32) with (g - 32 * i) by zlia. reflexivity. }
  assert ((forall b, 0 <= b < 32 -> Z.testbit w b = true) ->
    match first_frame_from m frames n (i + 1) with
    | Ok r => 32 * i <= r < 32 * (i + Z.of_nat (S n)) /\ used r = false /\
        forall g, 32 * i <= g < r -> used g = true
    | Undef _ => forall g, 32 * i <= g < 32 * (i + Z.of_nat (S n)) -> used g = true
    | _ => False
    end) as Hskip.
  { intros Hall. assert (forall g, 32 * i <= g < 32 * i + 32 -> used g = true) as Hfull
      by (intros g Hg; rewrite Hword by lia; apply Hall; lia).
    specialize (IH (i + 1) ltac:(lia) ltac:(lia)).
    destruct (first_frame_from m frames n (i + 1)) as [r| | |]; try exact IH.
    - destruct IH as (Hr & Hu & Hg). split_and!; [lia | lia | exact Hu |].
      intros g Hgr. destruct (Z.lt_ge_cases g (32 * i + 32)); [apply Hfull | apply Hg]; lia.
    - intros g Hg. destruct (Z.lt_ge_cases g (32 * i + 32)); [apply Hfull | apply IH]; lia. }
  destruct (negb (w =? 0xFFFFFFFF)) eqn:Ew.
  - destruct (first_bit w 32 0) as [j|] eqn:Ej.
    + apply first_bit_some in Ej; [|lia..]. destruct Ej as (Hj & Hb & Hall).
      rewrite u32_small by lia. split_and!; [lia | lia | |].
      * rewrite Hword by lia. rewrite <- Hb. f_equal. lia.
      * intros g Hg. rewrite Hword by lia. apply Hall. lia.
    + apply Hskip. intros b Hb. apply (first_bit_none w 32 0); lia || exact Ej.
  - apply Hskip. assert (w = 0xFFFFFFFF) as -> by lia. apply all_ones_bit.
Qed.

Lemma first_frame_spec k :
  0 <= k_nframes k < 0x100000000 ->
  match first_frame k with
  | Ok r => frame_range k r /\ frame_used k r = false /\ forall g, 0 <= g < r -> frame_used k g = true
  | Undef _ => forall g, frame_range k g -> frame_used k g = true
  | _ => False
  end.
Proof.
  intros Hn. unfold first_frame, INDEX_FROM_BIT. change (8 * 4) with 32.
  pose proof (first_frame_from_spec (k_mem k) (k_frames k) (Z.to_nat (k_nframes k / 32)) 0) as H.
  rewrite Z2Nat.id, Z.mul_0_r, Z.add_0_l in H by zlia. specialize (H ltac:(lia) ltac:(zlia)).
  exact H.
Qed.

(** ** Allocating and freeing a page's frame *)

(** The entry [alloc_frame] writes over the entry [w]. *)
Definition page_entry (w idx is_kernel is_writeable : Z) : Z :=
  set_page_frame idx (set_user (if is_kernel =? 0 then 1 else 0)
    (set_rw (if is_writeable =? 0 then 0 else 1) (set_present 1 w))).

Lemma load32_set_frame f k q :
  frame_range k f -> outside_bitmap k q 4 -> load32 (k_mem (set_frame (f * 0x1000) k)) q = load32 (k_mem k) q.
Proof.
  unfold frame_range, outside_bitmap, bitmap_size. intros Hf Hq.
  rewrite set_frame_mem, Z.div_mul, load32_store32_ne by zlia. reflexivity.
Qed.

Lemma load32_clear_frame f k q :
  frame_range k (f / 0x1000) -> outside_bitmap k q 4 -> load32 (k_mem (clear_frame f k)) q = load32 (k_mem k) q.
Proof.
  unfold frame_range, outside_bitmap, bitmap_size, clear_frame, INDEX_FROM_BIT. cbv zeta.
  simpl k_mem. change (8 * 4) with 32. intros Hf Hq. rewrite load32_store32_ne by zlia. reflexivity.
Qed.

Lemma frame_used_outside k q w g :
  outside_bitmap k q 4 -> frame_range k g ->
  frame_used (with_mem (store32 (k_mem k) q w) k) g = frame_used k g.
Proof.
  unfold outside_bitmap, bitmap_size, frame_range. intros Hq Hg. apply frame_used_store_ne. zlia.
Qed.

(** The state after [alloc_frame] gave the frame [idx] to an empty entry. *)
Lemma alloc_frame_eq k page ik iw idx :
  page_frame (load32 (k_mem k) page) = 0 -> first_frame k = Ok idx ->
  0 <= idx < 0x100000 -> frame_range k idx -> outside_bitmap k page 4 ->
  alloc_frame page ik iw k =
    Ok (with_mem (store32 (k_mem (set_frame (idx * 0x1000) k)) page
          (page_entry (load32 (k_mem k) page) idx ik iw)) (set_frame (idx * 0x1000) k)).
Proof.
  intros Hf E Hidx Hr Hout. unfold alloc_frame. rewrite Hf, E. cbn [negb Z.eqb mbind outcome_bind].
  replace (idx =? u32 (-1)) with false by (change (u32 (-1)) with 0xFFFFFFFF; lia).
  rewrite (u32_small (idx * 0x1000)) by lia. cbv zeta. rewrite load32_set_frame by assumption. reflexivity.
Qed.

Lemma page_entry_fields w idx ik iw :
  0 <= idx < 0x100000 ->
  let e := u32 (page_entry w idx ik iw) in
  page_present e = 1 /\ page_rw e = (if iw =? 0 then 0 else 1) /\
  page_user e = (if ik =? 0 then 1 else 0) /\ page_frame e = idx /\
  page_accessed e = page_accessed w /\ page_dirty e = page_dirty w /\ page_unused e = page_unused w.
Proof.
  intros Hidx. cbv zeta. unfold page_entry. split_and!; bf_simpl; try reflexivity.
  - destruct (iw =? 0); reflexivity.
  - destruct (ik =? 0); reflexivity.
  - apply Z.mod_small. lia.
Qed.

Lemma frame_range_bound k f : k_nframes k <= 0x100000 -> frame_range k f -> 0 <= f < 0x100000.
Proof. unfold frame_range. intros. zlia. Qed.

(** What [alloc_frame] does to an empty entry when some frame is free. *)
Lemma alloc_frame_spec k page ik iw g :
  0 <= k_nframes k <= 0x100000 -> outside_bitmap k page 4 ->
  page_frame (load32 (k_mem k) page) = 0 -> frame_range k g -> frame_used k g = false ->
  exists idx k', alloc_frame page ik iw k = Ok k' /\ frame_range k idx /\
    frame_used k idx = false /\ (forall f, 0 <= f < idx -> frame_used k f = true) /\
    load32 (k_mem k') page = u32 (page_entry (load32 (k_mem k) page) idx ik iw) /\
    (forall f, frame_range k f -> frame_used k' f = (idx =? f) || frame_used k f) /\
    (forall q, outside_bitmap k q 4 -> q + 4 <= page \/ page + 4 <= q ->
       load32 (k_mem k') q = load32 (k_mem k) q) /\
    k_frames k' = k_frames k /\ k_nframes k' = k_nframes k /\ k_phys k' = k_phys k.
Proof.
  intros Hn Hout Hf Hg Hfree. pose proof (first_frame_spec k ltac:(lia)) as H.
  destruct (first_frame k) as [idx| | |] eqn:E; try tauto.
  2:{ rewrite H in Hfree by assumption. discriminate. }
  destruct H as (Hr & Hu & Hall). pose proof (frame_range_bound k idx ltac:(lia) Hr) as Hb.
  exists idx, (with_mem (store32 (k_mem (set_frame (idx * 0x1000) k)) page
     (page_entry (load32 (k_mem k) page) idx ik iw)) (set_frame (idx * 0x1000) k)).
  split_and!; try assumption; try reflexivity.
  - now apply alloc_frame_eq.
  - simpl. now rewrite load32_store32_eq.
  - intros f Hfr. rewrite frame_used_outside by assumption.
    apply set_frame_used; [lia | apply Hfr].
  - intros q Hq Hd. simpl. rewrite load32_store32_ne by lia. now apply load32_set_frame.
Qed.

(** ** Owned frames

    The invariant of the page-table entries: an entry with a frame holds a
    frame the bitmap marks used, and no two entries hold the same frame. *)

Record frames_owned (k : kernel) (pages : list Z) : Prop := {
  fo_outside : forall p, p ∈ pages -> outside_bitmap k p 4;
  fo_apart : forall p q, p ∈ pages -> q ∈ pages -> p = q \/ p + 4 <= q \/ q + 4 <= p;
  fo_used : forall p, p ∈ pages -> page_frame (load32 (k_mem k) p) <> 0 ->
    frame_range k (page_frame (load32 (k_mem k) p)) /\ frame_used k (page_frame (load32 (k_mem k) p)) = true;
  fo_distinct : forall p q, p ∈ pages -> q ∈ pages -> page_frame (load32 (k_mem k) p) <> 0 ->
    page_frame (load32 (k_mem k) p) = page_frame (load32 (k_mem k) q) -> p = q;
}.

(** ** Properties *)

(** the bitmap represents a set of frames: setting, clearing and testing
    a frame's bit are insertion, removal and membership, and leave every other
    frame's bit alone. *)
Theorem frame_bitmap_is_set (k : kernel) (f g : Z) (Hf : 0 <= f) (Hg : 0 <= g) :
  frame_used (set_frame (f * 0x1000) k) g = bool_decide (f = g) || frame_used k g /\
  frame_used (clear_frame (f * 0x1000) k) g = negb (bool_decide (f = g)) && frame_used k g /\
  (test_frame (f * 0x1000) (set_frame (f * 0x1000) k) <> 0 /\
   test_frame (f * 0x1000) (clear_frame (f * 0x1000) k) = 0).
Proof.
  assert ((f =? g) = bool_decide (f = g)) as E by (case_bool_decide; lia).
  split_and!.
  - now rewrite set_frame_used, E by assumption.
  - now rewrite clear_frame_used, E by assumption.
  - apply Z.eqb_neq. rewrite test_frame_used, set_frame_used, Z.eqb_refl by assumption. reflexivity.
  - apply Z.eqb_eq. rewrite test_frame_used, clear_frame_used, Z.eqb_refl by assumption. reflexivity.
Qed.

(** A state with a 64-frame bitmap at 0x1000 where frames 0 and 1 are used. *)
Definition example_kernel : kernel :=
  mk_kernel (store32 (store32 ∅ 0x1000 3) 0x5000 0) ∅ 0x100000 None 0x1000 64 0x8000 0x8000.

Lemma frame_bitmap_is_set_witness :
  frame_used (set_frame (33 * 0x1000) example_kernel) 1 = bool_decide (33 = 1) || frame_used example_kernel 1 /\
  frame_used (clear_frame (33 * 0x1000) example_kernel) 1 =
    negb (bool_decide (33 = 1)) && frame_used example_kernel 1 /\
  (test_frame (33 * 0x1000) (set_frame (33 * 0x1000) example_kernel) <> 0 /\
   test_frame (33 * 0x1000) (clear_frame (33 * 0x1000) example_kernel) = 0).
Proof. apply (frame_bitmap_is_set example_kernel 33 1); lia. Defined.

(** [first_frame] finds the least free frame; when every frame of the
    bitmap's whole words is used it ends without a return value, whatever the
    caller then compares with -1. *)
Theorem first_frame_least (k : kernel) (Hn : 0 <= k_nframes k < 0x100000000) :
  (exists f, first_frame k = Ok f /\ frame_range k f /\ frame_used k f = false /\
     forall g, 0 <= g < f -> frame_used k g = true) \/
  (first_frame k = Undef "first_frame: no return value" /\
     forall g, frame_range k g -> frame_used k g = true).
Proof.
  pose proof (first_frame_spec k Hn) as H.
  destruct (first_frame k) as [f|msg file line|why|] eqn:E; try contradiction.
  - left. exists f. tauto.
  - right. split; [|exact H].
    assert (forall m fr n i r, first_frame_from m fr n i = Undef r -> r = "first_frame: no return value") as Hu.
    { intros m fr n. induction n as [|n IH]; intros i r Hr; simpl in Hr; [congruence|].
      repeat case_match; try discriminate; eauto. }
    unfold first_frame in E. now rewrite (Hu _ _ _ _ _ E).
Qed.

Lemma first_frame_least_witness :
  (exists f, first_frame example_kernel = Ok f /\ frame_range example_kernel f /\
     frame_used example_kernel f = false /\ forall g, 0 <= g < f -> frame_used example_kernel g = true) \/
  (first_frame example_kernel = Undef "first_frame: no return value" /\
     forall g, frame_range example_kernel g -> frame_used example_kernel g = true).
Proof. apply first_frame_least. simpl. lia. Defined.

(** C11: on an entry without a frame, [alloc_frame] takes the least free frame:
    the entry becomes present with that frame and the requested permissions and
    keeps its other bits, exactly that frame becomes used, and no other word
    outside the bitmap changes.  On an entry that has a frame it does
    nothing. *)
Theorem alloc_frame_takes_least (k : kernel) (page is_kernel is_writeable : Z)
    (Hn : 0 <= k_nframes k <= 0x100000) (Hout : outside_bitmap k page 4)
    (Hfree : exists g, frame_range k g /\ frame_used k g = false) :
  let w := load32 (k_mem k) page in
  (page_frame w <> 0 -> alloc_frame page is_kernel is_writeable k = Ok k) /\
  (page_frame w = 0 -> exists idx k', alloc_frame page is_kernel is_writeable k = Ok k' /\
     frame_used k idx = false /\ (forall f, 0 <= f < idx -> frame_used k f = true) /\
     (let w' := load32 (k_mem k') page in
      page_present w' = 1 /\ page_rw w' = (if is_writeable =? 0 then 0 else 1) /\
      page_user w' = (if is_kernel =? 0 then 1 else 0) /\ page_frame w' = idx /\
      page_accessed w' = page_accessed w /\ page_dirty w' = page_dirty w /\
      page_unused w' = page_unused w) /\
     (forall f, frame_range k f -> frame_used k' f = (idx =? f) || frame_used k f) /\
     (forall q, outside_bitmap k q 4 -> q + 4 <= page \/ page + 4 <= q ->
        load32 (k_mem k') q = load32 (k_mem k) q)).
Proof.
  intros w. destruct Hfree as (g & Hg & Hu). split; intros Hf.
  - unfold alloc_frame. subst w. rewrite (proj2 (Z.eqb_neq _ _) Hf). reflexivity.
  - destruct (alloc_frame_spec k page is_kernel is_writeable g Hn Hout Hf Hg Hu)
      as (idx & k' & E & Hr & Hui & Hall & Hw & Hused & Hq & _).
    exists idx, k'. split_and!; try assumption.
    cbv zeta. rewrite Hw. apply page_entry_fields. now apply (frame_range_bound k).
Qed.

Lemma alloc_frame_takes_least_witness :
  let w := load32 (k_mem example_kernel) 0x5000 in
  (page_frame w <> 0 -> alloc_frame 0x5000 0 1 example_kernel = Ok example_kernel) /\
  (page_frame w = 0 -> exists idx k', alloc_frame 0x5000 0 1 example_kernel = Ok k' /\
     frame_used example_kernel idx = false /\ (forall f, 0 <= f < idx -> frame_used example_kernel f = true) /\
     (let w' := load32 (k_mem k') 0x5000 in
      page_present w' = 1 /\ page_rw w' = 1 /\ page_user w' = 1 /\ page_frame w' = idx /\
      page_accessed w' = page_accessed w /\ page_dirty w' = page_dirty w /\
      page_unused w' = page_unused w) /\
     (forall f, frame_range example_kernel f -> frame_used k' f = (idx =? f) || frame_used example_kernel f) /\
     (forall q, outside_bitmap example_kernel q 4 -> q + 4 <= 0x5000 \/ 0x5000 + 4 <= q ->
        load32 (k_mem k') q = load32 (k_mem example_kernel) q)).
Proof.
  apply (alloc_frame_takes_least example_kernel 0x5000 0 1); [simpl; lia | right; vm_compute; discriminate |].
  exists 2. split; [split; [lia | vm_compute; reflexivity] | vm_compute; reflexivity].
Defined.

Lemma frames_owned_distinct_from k pages p idx :
  frames_owned k pages -> p ∈ pages -> frame_used k idx = false ->
  page_frame (load32 (k_mem k) p) <> 0 -> page_frame (load32 (k_mem k) p) <> idx.
Proof.
  intros Ho Hp Hu Hne Heq. subst idx. destruct (fo_used _ _ Ho p Hp Hne) as [_ H]. congruence.
Qed.

(** C10: with frame 0 in use, [alloc_frame] keeps the ownership invariant of any
    set of entries that has the page: frames held are marked used, and no two
    entries hold one frame. *)
Theorem alloc_frame_keeps_ownership (k : kernel) (pages : list Z) (page is_kernel is_writeable : Z)
    (Hn : 0 <= k_nframes k <= 0x100000) (Hpage : page ∈ pages) (Howned : frames_owned k pages)
    (Hzero : frame_used k 0 = true) (Hfree : exists g, frame_range k g /\ frame_used k g = false) :
  exists k', alloc_frame page is_kernel is_writeable k = Ok k' /\ frames_owned k' pages /\
    page_frame (load32 (k_mem k') page) <> 0.
Proof.
  pose proof (fo_outside _ _ Howned page Hpage) as Hout.
  destruct (Z.eq_dec (page_frame (load32 (k_mem k) page)) 0) as [Hf|Hf].
  2:{ exists k. unfold alloc_frame. rewrite (proj2 (Z.eqb_neq _ _) Hf). auto. }
  destruct Hfree as (g & Hg & Hu).
  destruct (alloc_frame_spec k page is_kernel is_writeable g Hn Hout Hf Hg Hu)
    as (idx & k' & E & Hr & Hui & Hall & Hw & Hused & Hq & Hkf & Hkn & _).
  assert (page_frame (load32 (k_mem k') page) = idx) as Hidx.
  { rewrite Hw. apply page_entry_fields. now apply (frame_range_bound k). }
  assert (idx <> 0) as Hidx0 by congruence.
  assert (forall p, p ∈ pages -> p <> page -> load32 (k_mem k') p = load32 (k_mem k) p) as Hsame.
  { intros p Hp Hne. apply Hq; [now apply (fo_outside _ _ Howned)|].
    destruct (fo_apart _ _ Howned p page Hp Hpage); lia. }
  exists k'. split_and!; [exact E | | now rewrite Hidx]. constructor.
  - intros p Hp. unfold outside_bitmap, bitmap_size. rewrite Hkf, Hkn. now apply (fo_outside _ _ Howned).
  - apply (fo_apart _ _ Howned).
  - intros p Hp Hne. unfold frame_range. rewrite Hkn. fold (frame_range k (page_frame (load32 (k_mem k') p))).
    destruct (Z.eq_dec p page) as [->|Hpne].
    + rewrite Hidx. split; [exact Hr|]. now rewrite Hused, Z.eqb_refl.
    + rewrite Hsame in * by assumption. destruct (fo_used _ _ Howned p Hp Hne) as [Hrp Hup].
      split; [exact Hrp|]. rewrite Hused, Hup by exact Hrp. apply orb_true_r.
  - intros p q Hp Hq' Hne Heq.
    destruct (Z.eq_dec p page) as [->|Hpp], (Z.eq_dec q page) as [->|Hqp]; [reflexivity| | |].
    + rewrite Hidx, Hsame in Heq by assumption. exfalso.
      apply (frames_owned_distinct_from k pages q idx Howned Hq' Hui); congruence.
    + rewrite Hidx, Hsame in Heq by assumption. exfalso. rewrite Hsame in Hne by assumption.
      apply (frames_owned_distinct_from k pages p idx Howned Hp Hui); congruence.
    + rewrite !Hsame in * by assumption. now apply (fo_distinct _ _ Howned).
Qed.

Lemma alloc_frame_keeps_ownership_witness :
  exists k', alloc_frame 0x5000 0 1 example_kernel = Ok k' /\ frames_owned k' [0x5000; 0x5004] /\
    page_frame (load32 (k_mem k') 0x5000) <> 0.
Proof.
  apply alloc_frame_keeps_ownership; [simpl; lia | constructor | constructor | reflexivity |].
  - intros p Hp. right. vm_compute bitmap_size. simpl.
    repeat (apply elem_of_cons in Hp as [->|Hp]; [lia|]). now apply elem_of_nil in Hp.
  - intros p q Hp Hq.
    repeat (apply elem_of_cons in Hp as [->|Hp]; [repeat (apply elem_of_cons in Hq as [->|Hq]; [lia|]);
      now apply elem_of_nil in Hq|]). now apply elem_of_nil in Hp.
  - intros p Hp Hne. exfalso. apply Hne.
    repeat (apply elem_of_cons in Hp as [->|Hp]; [reflexivity|]). now apply elem_of_nil in Hp.
  - intros p q Hp _ Hne. exfalso. apply Hne.
    repeat (apply elem_of_cons in Hp as [->|Hp]; [reflexivity|]). now apply elem_of_nil in Hp.
  - exists 2. split; [split; [lia | vm_compute; reflexivity] | vm_compute; reflexivity].
Defined.

Lemma free_frame_mem k page f :
  page_frame (load32 (k_mem k) page) = f -> f <> 0 ->
  free_frame page k = with_mem (store32 (k_mem (clear_frame f k)) page
    (set_page_frame 0 (load32 (k_mem (clear_frame f k)) page))) (clear_frame f k).
Proof. intros E Hf. unfold free_frame. rewrite E, (proj2 (Z.eqb_neq _ _) Hf). reflexivity. Qed.

(** [free_frame] passes the frame number where [clear_frame] expects an
    address.  Freeing an entry whose frame is any of 1..4095 leaves that frame
    marked used, marks frame 0 free instead, and the next [alloc_frame] on an
    empty entry hands out frame 0: a present entry that maps physical page 0. *)
Theorem free_frame_frees_frame_zero (k : kernel) (page other is_kernel is_writeable f : Z)
    (Hn : 0 < 32 * (k_nframes k / 32)) (Hnmax : k_nframes k <= 0x100000)
    (Hout : outside_bitmap k page 4) (Hother : outside_bitmap k other 4)
    (Hapart : other + 4 <= page \/ page + 4 <= other)
    (Hf : page_frame (load32 (k_mem k) page) = f) (Hrange : 1 <= f < 0x1000)
    (Hempty : page_frame (load32 (k_mem k) other) = 0) :
  let k1 := free_frame page k in
  (forall g, frame_range k g -> frame_used k1 g = negb (g =? 0) && frame_used k g) /\
  page_frame (load32 (k_mem k1) page) = 0 /\
  exists k2, alloc_frame other is_kernel is_writeable k1 = Ok k2 /\
    page_present (load32 (k_mem k2) other) = 1 /\ page_frame (load32 (k_mem k2) other) = 0.
Proof.
  intros k1. assert (f / 0x1000 = 0) as Hf0 by zlia.
  assert (frame_range k 0) as H0 by (unfold frame_range; lia).
  assert (clear_frame f k = clear_frame (0 * 0x1000) k) as Hclr by (unfold clear_frame; now rewrite Hf0).
  assert (k1 = with_mem (store32 (k_mem (clear_frame f k)) page
    (set_page_frame 0 (load32 (k_mem (clear_frame f k)) page))) (clear_frame f k)) as Hk1
    by (apply free_frame_mem; lia).
  assert (forall g, frame_range k g -> frame_used k1 g = negb (g =? 0) && frame_used k g) as Hused.
  { intros g Hg. rewrite Hk1, frame_used_outside by assumption.
    rewrite Hclr, clear_frame_used by (apply Hg || lia). now rewrite Z.eqb_sym. }
  assert (forall q, outside_bitmap k q 4 -> load32 (k_mem (clear_frame f k)) q = load32 (k_mem k) q) as Hmem
    by (intros q Hq; apply load32_clear_frame; [now rewrite Hf0 | exact Hq]).
  split_and!; [exact Hused | rewrite Hk1; simpl; rewrite load32_store32_eq; now bf_simpl |].
  assert (page_frame (load32 (k_mem k1) other) = 0) as Hempty1.
  { rewrite Hk1. simpl. rewrite load32_store32_ne, Hmem by (assumption || lia). exact Hempty. }
  destruct (alloc_frame_spec k1 other is_kernel is_writeable 0) as (idx & k2 & E & Hr & _ & Hall & Hw & _).
  - rewrite Hk1. simpl. zlia.
  - rewrite Hk1. exact Hother.
  - exact Hempty1.
  - rewrite Hk1. exact H0.
  - now rewrite Hused.
  - assert (idx = 0) as ->.
    { destruct (Z.lt_ge_cases 0 idx) as [H|H]; [|unfold frame_range in Hr; lia].
      specialize (Hall 0 ltac:(lia)). rewrite Hused in Hall by assumption. discriminate. }
    exists k2. rewrite Hw. pose proof (page_entry_fields (load32 (k_mem k1) other) 0 is_kernel is_writeable) as Hp.
    split_and!; [exact E | apply Hp; lia | apply Hp; lia].
Qed.

Lemma free_frame_frees_frame_zero_witness :
  let k := with_mem (store32 (k_mem example_kernel) 0x5000 (1 * 0x1000 + 7)) example_kernel in
  let k1 := free_frame 0x5000 k in
  (forall g, frame_range k g -> frame_used k1 g = negb (g =? 0) && frame_used k g) /\
  page_frame (load32 (k_mem k1) 0x5000) = 0 /\
  exists k2, alloc_frame 0x5004 0 1 k1 = Ok k2 /\
    page_present (load32 (k_mem k2) 0x5004) = 1 /\ page_frame (load32 (k_mem k2) 0x5004) = 0.
Proof.
  apply (free_frame_frees_frame_zero
    (with_mem (store32 (k_mem example_kernel) 0x5000 (1 * 0x1000 + 7)) example_kernel) 0x5000 0x5004 0 1 1).
  all: try (right; vm_compute; discriminate); try reflexivity; vm_compute; first [reflexivity | discriminate | split; [discriminate | reflexivity]].
Defined.
