(* ===== verification/KHeap.v ===== *)
(** * cpu/kheap.c: the kernel heap

    Blocks and holes are runs of bytes with a [header_t] at their start and a
    [footer_t] at their end, all in [k_mem]; the index of holes is an ordered
    array of header addresses, sorted by the size in the header.  Addresses and
    sizes are [uint32_t], wrapped where the C arithmetic wraps.  [alloc], which
    calls itself after it has grown the heap, takes fuel for that.  No access is
    checked against the page tables: which pages [expand] maps is the matter of
    KHeapPages.v. *)

From S2P Require Import Prelude Memory Util OrderedArray Kernel Paging.

Definition KHEAP_START : Z := 0xC0000000.

Definition KHEAP_INITIAL_SIZE : Z := 0x100000.

Definition HEAP_INDEX_SIZE : Z := 0x20000.

Definition HEAP_MAGIC : Z := 0x123890AB.

Definition HEAP_MIN_SIZE : Z := 0x70000.

Definition SIZEOF_header : Z := 12.

Definition SIZEOF_footer : Z := 8.

Definition SIZEOF_heap : Z := 32.

(** The fields of [header_t] and [footer_t]. *)
Definition hdr_magic (m : mem) (h : Z) : Z := load32 m h.

Definition hdr_is_hole (m : mem) (h : Z) : Z := load8 m (h + 4).

Definition hdr_size (m : mem) (h : Z) : Z := load32 m (h + 8).

Definition ftr_magic (m : mem) (f : Z) : Z := load32 m f.

Definition ftr_header (m : mem) (f : Z) : Z := load32 m (f + 4).

Definition set_hdr_size (m : mem) (h size : Z) : mem := store32 m (h + 8) size.

Definition set_hdr_is_hole (m : mem) (h v : Z) : mem := store8 m (h + 4) v.

Definition write_header (m : mem) (h size is_hole : Z) : mem :=
  store32 (store8 (store32 m h HEAP_MAGIC) (h + 4) is_hole) (h + 8) size.

Definition write_footer (m : mem) (f h : Z) : mem :=
  store32 (store32 m f HEAP_MAGIC) (f + 4) h.

Definition header_t_less_than : lessthan_predicate_t := fun m a b =>
  if hdr_size m a <? hdr_size m b then 1 else 0.

Definition with_index (i : ordered_array_t) (h : heap_t) : heap_t :=
  mk_heap i (h_start_address h) (h_end_address h) (h_max_address h) (h_supervisor h) (h_readonly h).

Definition with_end_address (e : Z) (h : heap_t) : heap_t :=
  mk_heap (h_index h) (h_start_address h) e (h_max_address h) (h_supervisor h) (h_readonly h).

(** The comparison [x & 0xFFFFF000 != 0] of the source: [!=] binds tighter than
    [&], so it tests the lowest bit. *)
Definition page_bits_test (x : Z) : bool :=
  negb (Z.land x (if 0xFFFFF000 =? 0 then 0 else 1) =? 0).

(** ** Growing and shrinking *)

Definition expand_step (heap : heap_t) : kernel * Z -> outcome (kernel * Z) := fun '(k, i) =>
  r ← get_page_ptr_in_page_table no_kmalloc (u32 (h_start_address heap + i)) 0 (k_kernel_directory k) k;
  let '(page, k) := r in
  k ← alloc_frame page (if h_supervisor heap =? 0 then 0 else 1) (if h_readonly heap =? 0 then 1 else 0) k;
  Ok (k, u32 (i + 0x1000)).

Definition expand (new_size : Z) (k : kernel) (heap : heap_t) : outcome (kernel * heap_t) :=
  _ ← ASSERT (u32 (h_end_address heap - h_start_address heap) <? new_size)
        "cpu/kheap.c" 77 "new_size > heap->end_address - heap->start_address";
  let new_size :=
    if page_bits_test new_size then u32 (Z.land new_size 0xFFFFF000 + 0x1000) else new_size in
  _ ← ASSERT (u32 (h_start_address heap + new_size) <=? h_max_address heap)
        "cpu/kheap.c" 87 "heap->start_address+new_size <= heap->max_address";
  let old_size := u32 (h_end_address heap - h_start_address heap) in
  st ← while (Z.to_nat (new_size / 0x1000 + 1)) (fun '(_, i) => i <? new_size) (expand_step heap) (k, old_size);
  Ok (st.1, with_end_address (u32 (h_start_address heap + new_size)) heap).

Definition contract_step (heap : heap_t) : kernel * Z -> outcome (kernel * Z) := fun '(k, i) =>
  r ← get_page_ptr_in_page_table no_kmalloc (u32 (h_start_address heap + i)) 0 (k_kernel_directory k) k;
  let '(page, k) := r in
  Ok (free_frame page k, u32 (i - 0x1000)).

(** Returns the new size as well. *)
Definition contract (new_size : Z) (k : kernel) (heap : heap_t) : outcome (Z * kernel * heap_t) :=
  _ ← ASSERT (new_size <? u32 (h_end_address heap - h_start_address heap))
        "cpu/kheap.c" 105 "new_size < heap->end_address-heap->start_address";
  let new_size :=
    if negb (Z.land new_size 0x1000 =? 0) then u32 (Z.land new_size 0x1000 + 0x1000) else new_size in
  let new_size := if new_size <? HEAP_MIN_SIZE then HEAP_MIN_SIZE else new_size in
  let old_size := u32 (h_end_address heap - h_start_address heap) in
  let i := u32 (old_size - 0x1000) in
  st ← while (Z.to_nat (i / 0x1000 + 1)) (fun '(_, i) => new_size <? i) (contract_step heap) (k, i);
  Ok (new_size, st.1, with_end_address (u32 (h_start_address heap + new_size)) heap).

(** ** Searching the index *)

(** The page-aligned fit of [find_smallest_hole]: the size left after the
    header's data is moved up to a page boundary. *)
Definition aligned_hole_size (m : mem) (header : Z) : Z :=
  let location := header in
  let offset :=
    if page_bits_test (u32 (location + SIZEOF_header))
    then i32 (0x1000 - u32 (location + SIZEOF_header) mod 0x1000) else 0 in
  i32 (i32 (hdr_size m header) - offset).

Definition hole_fits (m : mem) (size page_align header : Z) : bool :=
  if 0 <? page_align then i32 size <=? aligned_hole_size m header
  else size <=? hdr_size m header.

(** The loop of [find_smallest_hole], with [n] entries to go from [iterator]. *)
Fixpoint find_hole_from (m : mem) (size page_align : Z) (a : ordered_array_t) (n : nat) (iterator : Z)
    : outcome Z :=
  match n with
  | O => Ok (-1)
  | S n' =>
      header ← lookup_ordered_array m iterator a;
      if hole_fits m size page_align header then Ok iterator
      else find_hole_from m size page_align a n' (iterator + 1)
  end.

Definition find_smallest_hole (size page_align : Z) (m : mem) (heap : heap_t) : outcome Z :=
  find_hole_from m size page_align (h_index heap) (Z.to_nat (oa_size (h_index heap))) 0.

(** The search of [alloc] for the endmost header: its index and address, -1 and
    0 when the index is empty. *)
Fixpoint endmost_from (m : mem) (a : ordered_array_t) (n : nat) (iterator idx value : Z) : outcome (Z * Z) :=
  match n with
  | O => Ok (idx, value)
  | S n' =>
      tmp ← lookup_ordered_array m iterator a;
      if value <? tmp then endmost_from m a n' (iterator + 1) iterator tmp
      else endmost_from m a n' (iterator + 1) idx value
  end.

(** The search of [free] for a header in the index: the size when absent. *)
Fixpoint index_of_from (m : mem) (a : ordered_array_t) (header : Z) (n : nat) (iterator : Z) : outcome Z :=
  match n with
  | O => Ok iterator
  | S n' =>
      x ← lookup_ordered_array m iterator a;
      if negb (x =? header) then index_of_from m a header n' (iterator + 1) else Ok iterator
  end.

Definition index_of (m : mem) (heap : heap_t) (header : Z) : outcome Z :=
  index_of_from m (h_index heap) header (Z.to_nat (oa_size (h_index heap))) 0.

(** ** alloc *)

(** The growth of the heap when no hole fits: [expand], then the endmost hole
    takes the new bytes, or they become a hole. *)
Definition alloc_grow (new_size : Z) (k : kernel) (heap : heap_t) : outcome (kernel * heap_t) :=
  let old_length := u32 (h_end_address heap - h_start_address heap) in
  let old_end_address := h_end_address heap in
  r ← expand (u32 (old_length + new_size)) k heap;
  let '(k, heap) := r in
  let new_length := u32 (h_end_address heap - h_start_address heap) in
  e ← endmost_from (k_mem k) (h_index heap) (Z.to_nat (oa_size (h_index heap))) 0 (u32 (-1)) 0;
  let '(idx, _) := e in
  if idx =? u32 (-1) then
    let header := old_end_address in
    let m := write_header (k_mem k) header (u32 (new_length - old_length)) 1 in
    let footer := u32 (old_end_address + hdr_size m header - SIZEOF_footer) in
    let m := write_footer m footer header in
    i ← insert_ordered_array m header (h_index heap);
    let '(m, index) := i in
    Ok (with_mem m k, with_index index heap)
  else
    header ← lookup_ordered_array (k_mem k) idx (h_index heap);
    let m := set_hdr_size (k_mem k) header (u32 (hdr_size (k_mem k) header + (new_length - old_length))) in
    let footer := u32 (header + hdr_size m header - SIZEOF_footer) in
    let m := write_footer m footer header in
    Ok (with_mem m k, heap).

(** The rest of [alloc], on the hole at index [iterator]. *)
Definition alloc_at (size new_size page_align iterator : Z) (k : kernel) (heap : heap_t)
    : outcome (Z * kernel * heap_t) :=
  orig_hole_header ← lookup_ordered_array (k_mem k) iterator (h_index heap);
  let orig_hole_pos := orig_hole_header in
  let orig_hole_size := hdr_size (k_mem k) orig_hole_header in
  let '(size, new_size) :=
    if u32 (orig_hole_size - new_size) <? SIZEOF_header + SIZEOF_footer
    then (u32 (size + (orig_hole_size - new_size)), orig_hole_size) else (size, new_size) in
  r ← (if negb (page_align =? 0) && negb (Z.land orig_hole_pos 0xFFFFF000 =? 0) then
         let new_location :=
           u32 (orig_hole_pos + 0x1000 - Z.land orig_hole_pos 0xFFF - SIZEOF_header) in
         let hole_header := orig_hole_pos in
         let m := write_header (k_mem k) hole_header
                    (u32 (0x1000 - Z.land orig_hole_pos 0xFFF - SIZEOF_header)) 1 in
         let m := write_footer m (u32 (new_location - SIZEOF_footer)) hole_header in
         Ok (m, h_index heap, new_location, u32 (orig_hole_size - hdr_size m hole_header))
       else
         i ← remove_ordered_array (k_mem k) iterator (h_index heap);
         Ok (i.1, i.2, orig_hole_pos, orig_hole_size));
  let '(m, index, orig_hole_pos, orig_hole_size) := r in
  let block_header := orig_hole_pos in
  let m := write_header m block_header new_size 0 in
  let block_footer := u32 (orig_hole_pos + SIZEOF_header + size) in
  let m := write_footer m block_footer block_header in
  h ← (if 0 <? u32 (orig_hole_size - new_size) then
         let hole_header := u32 (orig_hole_pos + SIZEOF_header + size + SIZEOF_footer) in
         let m := write_header m hole_header (u32 (orig_hole_size - new_size)) 1 in
         let hole_footer := u32 (hole_header + orig_hole_size - new_size - SIZEOF_footer) in
         let m := if hole_footer <? h_end_address heap then write_footer m hole_footer hole_header else m in
         insert_ordered_array m hole_header index
       else Ok (m, index));
  let '(m, index) := h in
  Ok (u32 (block_header + SIZEOF_header), with_mem m k, with_index index heap).

Fixpoint alloc (fuel : nat) (size page_align : Z) (k : kernel) (heap : heap_t)
    : outcome (Z * kernel * heap_t) :=
  let new_size := u32 (size + SIZEOF_header + SIZEOF_footer) in
  iterator ← find_smallest_hole new_size page_align (k_mem k) heap;
  if iterator =? -1 then
    r ← alloc_grow new_size k heap;
    let '(k, heap) := r in
    match fuel with
    | O => NoFuel
    | S fuel' => alloc fuel' size page_align k heap
    end
  else alloc_at size new_size page_align iterator k heap.

(** ** free *)

(** Unify left: the header, and whether it must be added to the index. *)
Definition unify_left (m : mem) (header footer : Z) : mem * Z * bool :=
  let test_footer := u32 (header - SIZEOF_footer) in
  if (ftr_magic m test_footer =? HEAP_MAGIC) && (hdr_is_hole m (ftr_header m test_footer) =? 1) then
    let cache_size := hdr_size m header in
    let header := ftr_header m test_footer in
    let m := store32 m (footer + 4) header in
    let m := set_hdr_size m header (u32 (hdr_size m header + cache_size)) in
    (m, header, false)
  else (m, header, true).

(** Unify right: the memory, the index, the footer and the [test_header]. *)
Definition unify_right (m : mem) (heap : heap_t) (header footer : Z)
    : outcome (mem * ordered_array_t * Z * Z) :=
  let test_header := u32 (footer + SIZEOF_footer) in
  if (hdr_magic m test_header =? HEAP_MAGIC) && negb (hdr_is_hole m test_header =? 0) then
    let m := set_hdr_size m header (u32 (hdr_size m header + hdr_size m test_header)) in
    let test_footer := u32 (test_header + hdr_size m test_header - SIZEOF_footer) in
    iterator ← index_of m heap test_header;
    _ ← ASSERT (iterator <? oa_size (h_index heap)) "cpu/kheap.c" 376 "iterator < heap->index.size";
    i ← remove_ordered_array m iterator (h_index heap);
    Ok (i.1, i.2, test_footer, test_header)
  else Ok (m, h_index heap, footer, test_header).

(** The contraction at the end of the heap. *)
Definition free_contract (k : kernel) (heap : heap_t) (header test_header : Z) : outcome (kernel * heap_t) :=
  let old_length := u32 (h_end_address heap - h_start_address heap) in
  r ← contract (u32 (header - h_start_address heap)) k heap;
  let '(new_length, k, heap) := r in
  if 0 <? u32 (hdr_size (k_mem k) header - (old_length - new_length)) then
    let m := set_hdr_size (k_mem k) header (u32 (hdr_size (k_mem k) header - (old_length - new_length))) in
    let footer := u32 (header + hdr_size m header - SIZEOF_footer) in
    Ok (with_mem (write_footer m footer header) k, heap)
  else
    iterator ← index_of (k_mem k) heap test_header;
    if iterator <? oa_size (h_index heap) then
      i ← remove_ordered_array (k_mem k) iterator (h_index heap);
      Ok (with_mem i.1 k, with_index i.2 heap)
    else Ok (k, heap).

Definition free (p : Z) (k : kernel) (heap : heap_t) : outcome (kernel * heap_t) :=
  if p =? 0 then Ok (k, heap)
  else
    let m := k_mem k in
    let header := u32 (p - SIZEOF_header) in
    let footer := u32 (header + hdr_size m header - SIZEOF_footer) in
    _ ← ASSERT (hdr_magic m header =? HEAP_MAGIC) "cpu/kheap.c" 337 "header->magic == HEAP_MAGIC";
    _ ← ASSERT (ftr_magic m footer =? HEAP_MAGIC) "cpu/kheap.c" 338 "footer->magic == HEAP_MAGIC";
    let m := set_hdr_is_hole m header 1 in
    let '(m, header, do_add) := unify_left m header footer in
    r ← unify_right m heap header footer;
    let '(m, index, footer, test_header) := r in
    let k := with_mem m k in
    let heap := with_index index heap in
    c ← (if u32 (footer + SIZEOF_footer) =? h_end_address heap
         then free_contract k heap header test_header else Ok (k, heap));
    let '(k, heap) := c in
    if (do_add : bool) then
      i ← insert_ordered_array (k_mem k) header (h_index heap);
      Ok (with_mem i.1 k, with_index i.2 heap)
    else Ok (k, heap).

(** ** kmalloc *)

(** [kmalloc_int(sz, align, phys)]: the address and, when [phys] is not null,
    the physical address stored through it. *)
Definition kmalloc_int (fuel : nat) (sz align : Z) (phys : bool) (k : kernel)
    : outcome (Z * option Z * kernel) :=
  match k_kheap k with
  | Some heap =>
      r ← alloc fuel sz (u8 align) k heap;
      let '(addr, k, heap) := r in
      let k := with_kheap (Some heap) k in
      if phys then
        g ← get_page_ptr_in_page_table no_kmalloc addr 0 (k_kernel_directory k) k;
        let '(page, k) := g in
        Ok (addr, Some (u32 (page_frame (load32 (k_mem k) page) * 0x1000 + Z.land addr 0xFFF)), k)
      else Ok (addr, None, k)
  | None =>
      let k := if (align =? 1) && negb (Z.land (k_placement_address k) 0xFFFFF000 =? 0)
               then with_placement (u32 (Z.land (k_placement_address k) 0xFFFFF000 + 0x1000)) k else k in
      let p := if phys then Some (k_placement_address k) else None in
      let tmp := k_placement_address k in
      Ok (tmp, p, with_placement (u32 (k_placement_address k + sz)) k)
  end.

Definition kfree (p : Z) (k : kernel) : outcome kernel :=
  match k_kheap k with
  | Some heap => r ← free p k heap; Ok (with_kheap (Some r.2) r.1)
  | None => if p =? 0 then Ok k else Undef "kfree before the heap exists"
  end.

Definition kmalloc_a (fuel : nat) (sz : Z) (k : kernel) : outcome (Z * kernel) :=
  r ← kmalloc_int fuel sz 1 false k; Ok (r.1.1, r.2).

Definition kmalloc_p (fuel : nat) (sz : Z) (k : kernel) : outcome (Z * Z * kernel) :=
  r ← kmalloc_int fuel sz 0 true k; Ok (r.1.1, default 0 r.1.2, r.2).

Definition kmalloc_ap (fuel : nat) (sz : Z) (k : kernel) : outcome (Z * Z * kernel) :=
  r ← kmalloc_int fuel sz 1 true k; Ok (r.1.1, default 0 r.1.2, r.2).

Definition kmalloc (fuel : nat) (sz : Z) (k : kernel) : outcome (Z * kernel) :=
  r ← kmalloc_int fuel sz 0 false k; Ok (r.1.1, r.2).

(** ** create_heap *)

(** The address of the [heap_t] is not kept: the structure is the record. *)
Definition create_heap (fuel : nat) (start end_addr max supervisor readonly : Z) (k : kernel) : outcome (heap_t * kernel) :=
  h ← kmalloc fuel SIZEOF_heap k;
  let k := h.2 in
  _ ← ASSERT (start mod 0x1000 =? 0) "cpu/kheap.c" 171 "start%0x1000 == 0";
  _ ← ASSERT (end_addr mod 0x1000 =? 0) "cpu/kheap.c" 172 "end_addr%0x1000 == 0";
  let '(m, index) := place_ordered_array (k_mem k) start HEAP_INDEX_SIZE (Some header_t_less_than) in
  let start := u32 (start + 4 * HEAP_INDEX_SIZE) in
  let start := if page_bits_test start then u32 (Z.land start 0xFFFFF000 + 0x1000) else start in
  let hole := start in
  let m := write_header m hole (u32 (end_addr - start)) 1 in
  r ← insert_ordered_array m hole index;
  let '(m, index) := r in
  Ok (mk_heap index start end_addr max supervisor readonly, with_mem m k).

Definition create_ordered_array (fuel : nat) (max_size : Z) (less_than : option lessthan_predicate_t)
    (k : kernel) : outcome (ordered_array_t * kernel) :=
  r ← kmalloc fuel (u32 (max_size * 4)) k;
  let '(addr, k) := r in
  let '(m, a) := place_ordered_array (k_mem k) addr max_size less_than in
  Ok (a, with_mem m k).
