(* ===== verification/KHeapInv.v ===== *)
(** * The kernel heap: layout, invariant and the calls that keep it

    The abstract heap is the list of its blocks in address order.  [heap_inv]
    says that the bytes, the index and the list agree.  [alloc] on a heap with
    a hole that fits and [free] of a block whose right neighbour is in use are
    shown to implement splitting and freeing on the list. *)

From S2P Require Import Prelude Memory Util OrderedArray Kernel Paging KHeap.

(** A block: its header's address, its size with header and footer, and
    whether it is a hole. *)
Record block := mk_block { b_addr : Z; b_size : Z; b_hole : bool }.

#[export] Instance block_eq_dec : EqDecision block.
Proof. solve_decision. Defined.

Definition b_end (b : block) : Z := b_addr b + b_size b.

(** The blocks fill the addresses from [a] to [e], each with room for its
    header and footer. *)
Fixpoint tiled (a e : Z) (bs : list block) : Prop :=
  match bs with
  | [] => a = e
  | b :: bs' => b_addr b = a /\ SIZEOF_header + SIZEOF_footer <= b_size b /\ tiled (b_end b) e bs'
  end.

(** The header and the footer of [b] are in memory.  A hole that ends the heap
    at [e] need not have its footer: [create_heap] writes none. *)
Definition header_ok (m : mem) (b : block) : Prop :=
  hdr_magic m (b_addr b) = HEAP_MAGIC /\ hdr_size m (b_addr b) = b_size b /\
  hdr_is_hole m (b_addr b) = (if b_hole b then 1 else 0).

Definition footer_ok (m : mem) (b : block) : Prop :=
  ftr_magic m (b_end b - SIZEOF_footer) = HEAP_MAGIC /\ ftr_header m (b_end b - SIZEOF_footer) = b_addr b.

Definition block_ok (m : mem) (e : Z) (b : block) : Prop :=
  header_ok m b /\ (footer_ok m b \/ (b_hole b = true /\ b_end b = e)).

(** The addresses of the holes. *)
Definition hole_addrs (bs : list block) : list Z := b_addr <$> filter (fun b => b_hole b = true) bs.

(** The invariant.  The last clauses leave room in the index for one more hole
    than the heap can have, and say that the word where a footer to the left
    of the first block would be is no footer. *)
Record heap_inv (m : mem) (h : heap_t) (bs : list block) : Prop := {
  hi_start : 0 <= h_start_address h;
  hi_end : h_end_address h < 0x100000000;
  hi_tiled : tiled (h_start_address h) (h_end_address h) bs;
  hi_blocks : forall b, b ∈ bs -> block_ok m (h_end_address h) b;
  hi_index : exists l, oa_rep m (h_index h) l /\ l ≡ₚ hole_addrs bs;
  hi_less_than : oa_less_than (h_index h) = Some header_t_less_than;
  hi_array : 0 <= oa_array (h_index h) /\
    oa_array (h_index h) + 4 * oa_max_size (h_index h) <= h_start_address h;
  hi_room : h_end_address h - h_start_address h <= 20 * (oa_max_size (h_index h) - 4);
  hi_left : load32 m (h_start_address h - SIZEOF_footer) <> HEAP_MAGIC;
}.

(** The index is sorted by the sizes of the holes. *)
Definition index_sorted (m : mem) (h : heap_t) : Prop :=
  forall l, oa_rep m (h_index h) l -> sorted_by (hdr_size m) l.

(** Where the index may be written. *)
Definition index_room (h : heap_t) : Z := 4 * (oa_max_size (h_index h) - 3).

(** [m'] agrees with [m] on [n] bytes from [a]. *)
Definition same_on (a n : Z) (m m' : mem) : Prop := forall x, a <= x < a + n -> load8 m' x = load8 m x.

(** ** The abstract operations *)

(** The blocks that replace a hole of which [need] bytes are allocated. *)
Definition split_hole (b : block) (need : Z) : list block :=
  if b_size b - need <? SIZEOF_header + SIZEOF_footer
  then [mk_block (b_addr b) (b_size b) false]
  else [mk_block (b_addr b) need false; mk_block (b_addr b + need) (b_size b - need) true].

(** ** Tilings *)

Lemma tiled_app a e bs1 bs2 :
  tiled a e (bs1 ++ bs2) <-> exists c, tiled a c bs1 /\ tiled c e bs2.
Proof.
  revert a. induction bs1 as [|b bs1 IH]; intros a; simpl.
  - split; [eauto|]. intros (c & -> & H). exact H.
  - rewrite IH. split.
    + intros (Ha & Hs & c & H1 & H2). exists c. auto.
    + intros (c & (Ha & Hs & H1) & H2). eauto.
Qed.

Lemma tiled_le a e bs : tiled a e bs -> a <= e.
Proof.
  revert a. induction bs as [|b bs IH]; intros a; simpl; [lia|].
  intros (<- & Hs & H). apply IH in H. unfold b_end, SIZEOF_header, SIZEOF_footer in *. lia.
Qed.

Lemma tiled_in a e bs b :
  tiled a e bs -> b ∈ bs -> a <= b_addr b /\ 20 <= b_size b /\ b_end b <= e.
Proof.
  intros H Hb. apply list_elem_of_split in Hb as (bs1 & bs2 & ->).
  apply tiled_app in H as (c & H1 & Ha & Hs & H2). apply tiled_le in H1, H2.
  unfold SIZEOF_header, SIZEOF_footer in Hs. lia.
Qed.

Lemma tiled_one b : 20 <= b_size b -> tiled (b_addr b) (b_addr b + b_size b) [b].
Proof. intros H. split_and!; [reflexivity | exact H | reflexivity]. Qed.

(** The bounds of a tiling are those of its blocks. *)
Lemma tiled_unique a e a' e' bs : bs <> [] -> tiled a e bs -> tiled a' e' bs -> a = a' /\ e = e'.
Proof.
  destruct bs as [|b bs]; [congruence|]. intros _ (Ha & _ & H) (Ha' & _ & H'). split; [congruence|].
  revert H H'. generalize (b_end b). induction bs as [|b' bs IH]; simpl; [intros; congruence|].
  intros z (_ & _ & H) (_ & _ & H'). eapply IH; eassumption.
Qed.

(** Two blocks of a tiling are the same or lie apart. *)
Lemma tiled_apart a e bs1 b bs2 c :
  tiled a e (bs1 ++ b :: bs2) -> c ∈ bs1 \/ c ∈ bs2 -> b_end c <= b_addr b \/ b_end b <= b_addr c.
Proof.
  intros H Hc. apply tiled_app in H as (x & H1 & Hx & _ & H2). destruct Hc as [Hc|Hc].
  - left. destruct (tiled_in _ _ _ _ H1 Hc). lia.
  - right. destruct (tiled_in _ _ _ _ H2 Hc). lia.
Qed.

Lemma hole_addrs_app bs1 bs2 : hole_addrs (bs1 ++ bs2) = hole_addrs bs1 ++ hole_addrs bs2.
Proof. unfold hole_addrs. rewrite filter_app. apply fmap_app. Qed.

Lemma hole_addrs_cons b bs :
  hole_addrs (b :: bs) = if b_hole b then b_addr b :: hole_addrs bs else hole_addrs bs.
Proof.
  unfold hole_addrs. rewrite filter_cons. destruct (b_hole b); case_decide; congruence || reflexivity.
Qed.

Lemma hole_addrs_in a bs : a ∈ hole_addrs bs <-> exists b, b ∈ bs /\ b_hole b = true /\ b_addr b = a.
Proof.
  unfold hole_addrs. rewrite list_elem_of_fmap. setoid_rewrite list_elem_of_filter.
  split; intros (b & H1 & H2); exists b; intuition congruence.
Qed.

Lemma hole_count a e bs : tiled a e bs -> 20 * Z.of_nat (length (hole_addrs bs)) <= e - a.
Proof.
  revert a. induction bs as [|b bs IH]; intros a; simpl.
  - intros ->. simpl. lia.
  - intros (<- & Hs & H). apply IH in H. rewrite hole_addrs_cons.
    unfold b_end, SIZEOF_header, SIZEOF_footer in *. destruct (b_hole b); simpl; lia.
Qed.

Lemma hole_addrs_nodup a e bs : tiled a e bs -> NoDup (hole_addrs bs).
Proof.
  revert a. induction bs as [|b bs IH]; intros a; simpl; [constructor|].
  intros (<- & Hs & H). specialize (IH _ H). rewrite hole_addrs_cons.
  destruct (b_hole b); [|exact IH]. constructor; [|exact IH].
  intros Hin. apply hole_addrs_in in Hin as (c & Hc & _ & Heq).
  destruct (tiled_in _ _ _ _ H Hc). unfold b_end, SIZEOF_header, SIZEOF_footer in *. lia.
Qed.

(** ** Headers and footers in memory *)

Lemma same_on_sub a n b k m m' : same_on a n m m' -> a <= b -> b + k <= a + n -> same_on b k m m'.
Proof. intros H ? ? x ?. apply H. lia. Qed.

Lemma same_on_trans a n m1 m2 m3 : same_on a n m1 m2 -> same_on a n m2 m3 -> same_on a n m1 m3.
Proof. intros H1 H2 x Hx. rewrite H2, H1; auto. Qed.

Lemma same_but_on a n b k m m' : same_but a n m m' -> b + k <= a \/ a + n <= b -> same_on b k m m'.
Proof. intros H Hd x Hx. apply H. lia. Qed.

Lemma same_on_load32 a n m m' b : same_on a n m m' -> a <= b -> b + 4 <= a + n -> load32 m' b = load32 m b.
Proof. intros H ? ?. unfold load32. rewrite !(H _) by lia. reflexivity. Qed.

Lemma header_same_on m m' h : same_on h 12 m m' ->
  hdr_magic m' h = hdr_magic m h /\ hdr_size m' h = hdr_size m h /\ hdr_is_hole m' h = hdr_is_hole m h.
Proof.
  intros H. unfold hdr_magic, hdr_size, hdr_is_hole.
  rewrite !(same_on_load32 _ _ _ _ _ H), (H (h + 4)) by lia. auto.
Qed.

Lemma block_ok_same_on m m' e b :
  20 <= b_size b -> same_on (b_addr b) (b_size b) m m' -> block_ok m e b -> block_ok m' e b.
Proof.
  intros Hs H [Hh Hf]. unfold block_ok, header_ok, footer_ok, ftr_magic, ftr_header, b_end, SIZEOF_footer in *.
  destruct (header_same_on m m' (b_addr b)) as (-> & -> & ->); [eapply same_on_sub; [exact H|lia..]|].
  split; [exact Hh|]. destruct Hf as [Hf|Hf]; [left | right; exact Hf].
  rewrite !(same_on_load32 _ _ _ _ _ H) by lia. exact Hf.
Qed.

Lemma write_header_frame m h s i : same_but h 12 m (write_header m h s i).
Proof.
  unfold write_header. eapply same_but_trans; [|apply same_but_store32; lia].
  eapply same_but_trans; [|apply same_but_store8; lia]. apply same_but_store32; lia.
Qed.

Lemma write_footer_frame m f h : same_but f 8 m (write_footer m f h).
Proof. unfold write_footer. eapply same_but_trans; apply same_but_store32; lia. Qed.

Lemma write_header_fields m h s i :
  hdr_magic (write_header m h s i) h = HEAP_MAGIC /\ hdr_size (write_header m h s i) h = u32 s /\
  hdr_is_hole (write_header m h s i) h = u8 i.
Proof.
  unfold write_header, hdr_magic, hdr_size, hdr_is_hole. mem_simpl. auto.
Qed.

Lemma write_footer_fields m f h :
  ftr_magic (write_footer m f h) f = HEAP_MAGIC /\ ftr_header (write_footer m f h) f = u32 h.
Proof. unfold write_footer, ftr_magic, ftr_header. mem_simpl. auto. Qed.

(** A header and a footer written for [b], and nothing in its extent written
    since, make it a good block. *)
Lemma written_block_ok m m' mf e b i :
  20 <= b_size b < 0x100000000 -> 0 <= b_addr b < 0x100000000 -> u8 i = (if b_hole b then 1 else 0) ->
  m' = write_footer (write_header m (b_addr b) (b_size b) i) (b_end b - SIZEOF_footer) (b_addr b) ->
  same_on (b_addr b) (b_size b) m' mf -> block_ok mf e b.
Proof.
  intros Hs Ha Hi -> H. apply (block_ok_same_on _ _ e b ltac:(lia) H).
  unfold block_ok, header_ok, footer_ok, b_end, SIZEOF_footer.
  set (m1 := write_header m (b_addr b) (b_size b) i).
  destruct (write_header_fields m (b_addr b) (b_size b) i) as (Hm & Hsz & Hh). fold m1 in Hm, Hsz, Hh.
  pose proof (write_footer_frame m1 (b_addr b + b_size b - 8) (b_addr b)) as Hfr.
  destruct (header_same_on m1 _ (b_addr b) (same_but_on _ _ (b_addr b) 12 _ _ Hfr ltac:(lia))) as (-> & -> & ->).
  destruct (write_footer_fields m1 (b_addr b + b_size b - 8) (b_addr b)) as [-> ->].
  rewrite Hm, Hsz, Hh, !u32_small by lia. auto.
Qed.

(** ** The index and the holes *)

Lemma index_length m h bs l :
  heap_inv m h bs -> oa_rep m (h_index h) l -> l ≡ₚ hole_addrs bs ->
  Z.of_nat (length l) <= oa_max_size (h_index h) - 4.
Proof.
  intros Hi _ Hp. rewrite Hp. pose proof (hole_count _ _ _ (hi_tiled _ _ _ Hi)).
  pose proof (hi_room _ _ _ Hi). lia.
Qed.

(** Replacing the blocks [old], which fill [a..c], by the blocks [new] keeps the
    invariant when only their bytes and the index changed and the index now
    holds the new list's holes. *)
Lemma heap_inv_replace m m' h idx bs1 old new bs2 a c :
  heap_inv m h (bs1 ++ old ++ bs2) -> tiled a c old -> tiled a c new ->
  old <> [] ->
  (forall x, (x < oa_array (h_index h) \/ oa_array (h_index h) + index_room h <= x) ->
     (x < a \/ c <= x) -> load8 m' x = load8 m x) ->
  (forall b, b ∈ new -> block_ok m' (h_end_address h) b) ->
  oa_array idx = oa_array (h_index h) -> oa_max_size idx = oa_max_size (h_index h) ->
  oa_less_than idx = oa_less_than (h_index h) ->
  (exists l, oa_rep m' idx l /\ l ≡ₚ hole_addrs (bs1 ++ new ++ bs2)) ->
  heap_inv m' (with_index idx h) (bs1 ++ new ++ bs2).
Proof.
  intros Hi Hold Hnew Hne Hfr Hblk Harr Hmax Hlt Hidx.
  pose proof (hi_tiled _ _ _ Hi) as Ht. apply tiled_app in Ht as (x & H1 & Ht).
  apply tiled_app in Ht as (y & Ho & H2).
  destruct (tiled_unique _ _ _ _ _ Hne Ho Hold) as [-> ->].
  destruct (hi_array _ _ _ Hi) as [Harr0 Harr1]. pose proof (tiled_le _ _ _ H1) as Hle1.
  pose proof (tiled_le _ _ _ H2) as Hle2. pose proof (tiled_le _ _ _ Ho) as Hle3.
  assert (oa_array (h_index h) + index_room h <= h_start_address h - 12) as Hroom
    by (unfold index_room; lia).
  constructor; cbn [with_index h_start_address h_end_address h_index].
  - apply (hi_start _ _ _ Hi).
  - apply (hi_end _ _ _ Hi).
  - apply tiled_app. exists a. split; [exact H1|]. apply tiled_app. exists c. split; assumption.
  - intros b Hb. apply elem_of_app in Hb as [Hb|Hb]; [|apply elem_of_app in Hb as [Hb|Hb]; [now apply Hblk|]].
    + destruct (tiled_in _ _ _ _ H1 Hb) as (? & ? & ?). unfold b_end in *.
      apply (block_ok_same_on m); [lia | intros z Hz; apply Hfr; lia |].
      apply (hi_blocks _ _ _ Hi). rewrite !elem_of_app. auto.
    + destruct (tiled_in _ _ _ _ H2 Hb) as (? & ? & ?). unfold b_end in *.
      apply (block_ok_same_on m); [lia | intros z Hz; apply Hfr; lia |].
      apply (hi_blocks _ _ _ Hi). rewrite !elem_of_app. auto.
  - exact Hidx.
  - rewrite Hlt. apply (hi_less_than _ _ _ Hi).
  - rewrite Harr, Hmax. split; assumption.
  - rewrite Hmax. apply (hi_room _ _ _ Hi).
  - assert (load32 m' (h_start_address h - SIZEOF_footer) = load32 m (h_start_address h - SIZEOF_footer)) as ->;
      [|apply (hi_left _ _ _ Hi)].
    unfold load32, SIZEOF_footer. rewrite !Hfr by lia. reflexivity.
Qed.

(** Taking the index entry of a hole out. *)
Lemma index_remove m h bs1 b bs2 l i :
  heap_inv m h (bs1 ++ b :: bs2) -> b_hole b = true ->
  oa_rep m (h_index h) l -> l ≡ₚ hole_addrs (bs1 ++ b :: bs2) -> l !! i = Some (b_addr b) ->
  exists m', remove_ordered_array m (Z.of_nat i) (h_index h) =
      Ok (m', mk_ordered_array (oa_array (h_index h)) (oa_size (h_index h) - 1)
                (oa_max_size (h_index h)) (oa_less_than (h_index h))) /\
    words_at m' (oa_array (h_index h)) (delete i l) /\
    oa_size (h_index h) - 1 = Z.of_nat (length (delete i l)) /\
    delete i l ≡ₚ hole_addrs (bs1 ++ bs2) /\
    same_but (oa_array (h_index h)) (index_room h) m m'.
Proof.
  intros Hi Hb Hrep Hp Hl. pose proof (index_length _ _ _ _ Hi Hrep Hp) as Hlen.
  pose proof (hi_array _ _ _ Hi). pose proof (hi_end _ _ _ Hi).
  pose proof (tiled_le _ _ _ (hi_tiled _ _ _ Hi)). pose proof (lookup_lt_Some _ _ _ Hl).
  destruct (remove_ordered_array_spec m (h_index h) l i Hrep) as (m' & E & Hw & Hfr); [lia.. |].
  exists m'. split_and!; [exact E | exact Hw | | |].
  - rewrite length_delete by eauto. destruct Hrep as [-> _]. lia.
  - apply delete_Permutation in Hl. rewrite hole_addrs_app, hole_addrs_cons, Hb in Hp.
    rewrite Hl, <- Permutation_middle in Hp. apply Permutation_cons_inv in Hp.
    now rewrite hole_addrs_app.
  - destruct Hrep as [Hsz _]. eapply same_but_widen; [..|exact Hfr]; unfold index_room; lia.
Qed.

(** ** The search *)

Lemma find_hole_from_spec m size a l n i :
  oa_rep m a l -> (i + n = length l)%nat ->
  (find_hole_from m size 0 a n (Z.of_nat i) = Ok (-1) /\
     forall j x, (i <= j)%nat -> l !! j = Some x -> hdr_size m x < size) \/
  (exists p x, find_hole_from m size 0 a n (Z.of_nat i) = Ok (Z.of_nat p) /\ l !! p = Some x /\
     size <= hdr_size m x /\ forall j y, (i <= j < p)%nat -> l !! j = Some y -> hdr_size m y < size).
Proof.
  intros Hrep. revert i. induction n as [|n IH]; intros i Hin; cbn [find_hole_from].
  - left. split; [reflexivity|]. intros j x Hj Hx. pose proof (lookup_lt_Some _ _ _ Hx). lia.
  - destruct (lookup_lt_is_Some_2 l i) as [x Hx]; [lia|].
    rewrite (lookup_ordered_array_spec _ _ _ _ _ Hrep Hx). cbn [mbind outcome_bind].
    unfold hole_fits. cbn [Z.ltb Z.compare]. destruct (Z.leb_spec size (hdr_size m x)) as [Hle|Hgt].
    + right. exists i, x. split_and!; [reflexivity | exact Hx | exact Hle | lia].
    + replace (Z.of_nat i + 1) with (Z.of_nat (S i)) by lia.
      assert (forall j y, (i <= j)%nat -> l !! j = Some y -> (j = i /\ y = x) \/ (S i <= j)%nat) as Hcase.
      { intros j y Hj Hy. destruct (Nat.eq_dec j i) as [->|]; [left; split; congruence | right; lia]. }
      destruct (IH (S i) ltac:(lia)) as [[E Hall] | (p & y & E & Hy & Hle & Hall)].
      * left. split; [exact E|]. intros j y Hj Hy.
        destruct (Hcase j y Hj Hy) as [[-> ->]|Hj']; [lia | now apply (Hall j)].
      * right. exists p, y. split_and!; [exact E | exact Hy | exact Hle |]. intros j z Hj Hz.
        destruct (Hcase j z ltac:(lia) Hz) as [[-> ->]|Hj']; [lia | apply (Hall j); [lia | exact Hz]].
Qed.

Lemma find_smallest_hole_spec m size h l :
  oa_rep m (h_index h) l ->
  (find_smallest_hole size 0 m h = Ok (-1) /\ forall x, x ∈ l -> hdr_size m x < size) \/
  (exists p x, find_smallest_hole size 0 m h = Ok (Z.of_nat p) /\ l !! p = Some x /\
     size <= hdr_size m x /\ forall j y, (j < p)%nat -> l !! j = Some y -> hdr_size m y < size).
Proof.
  intros Hrep. pose proof Hrep as [Hsz _]. unfold find_smallest_hole. rewrite Hsz, Nat2Z.id.
  destruct (find_hole_from_spec m size (h_index h) l (length l) 0 Hrep eq_refl)
    as [[E Hall] | (p & x & E & Hx & Hle & Hall)].
  - left. split; [exact E|]. intros x Hx. apply list_elem_of_lookup in Hx as [j Hj].
    apply (Hall j); [lia | exact Hj].
  - right. exists p, x. split_and!; try assumption. intros j y Hj. apply Hall. lia.
Qed.

(** ** alloc *)

#[export] Instance header_key_order : KeyOrder header_t_less_than hdr_size.
Proof.
  intros m x y. unfold lt_of, header_t_less_than. destruct (hdr_size m x <? hdr_size m y) eqn:E; simpl; lia.
Qed.

(** What is common to the calls that end well: the memory outside the index and
    outside [a..c] is as it was. *)
Definition heap_frame (h : heap_t) (a c : Z) (m m' : mem) : Prop :=
  forall x, (x < oa_array (h_index h) \/ oa_array (h_index h) + index_room h <= x) ->
    (x < a \/ c <= x) -> load8 m' x = load8 m x.

Lemma heap_frame_trans h a c m1 m2 m3 : heap_frame h a c m1 m2 -> heap_frame h a c m2 m3 -> heap_frame h a c m1 m3.
Proof. intros H1 H2 x Ha Hb. rewrite H2, H1; auto. Qed.

Lemma heap_frame_block h a c b n m m' : same_but b n m m' -> a <= b -> b + n <= c -> heap_frame h a c m m'.
Proof. intros H ? ? x _ Hx. apply H. lia. Qed.

Lemma heap_frame_index h a c m m' : same_but (oa_array (h_index h)) (index_room h) m m' -> heap_frame h a c m m'.
Proof. intros H x Hx _. apply H. exact Hx. Qed.

(** Putting a header in the index. *)
Lemma index_insert m h idx l x :
  oa_rep m idx l -> oa_less_than idx = Some header_t_less_than ->
  oa_array idx = oa_array (h_index h) -> oa_max_size idx = oa_max_size (h_index h) ->
  0 <= x < 0x100000000 -> Z.of_nat (length l) + 1 <= oa_max_size (h_index h) - 3 ->
  oa_max_size (h_index h) < 0x100000000 ->
  exists m' idx' l', insert_ordered_array m x idx = Ok (m', idx') /\ oa_rep m' idx' l' /\
    l' = insert_list (lt_of header_t_less_than m) x l /\
    oa_array idx' = oa_array (h_index h) /\ oa_max_size idx' = oa_max_size (h_index h) /\
    oa_less_than idx' = Some header_t_less_than /\
    same_but (oa_array (h_index h)) (index_room h) m m'.
Proof.
  intros Hrep Hlt Harr Hmax Hx Hlen Hbig.
  destruct (insert_ordered_array_spec m idx l x _ Hrep Hlt Hx ltac:(lia)) as (m' & E & Hw & Hfr).
  do 3 eexists. split_and!; [exact E | | reflexivity | exact Harr | exact Hmax | exact Hlt |].
  - split; [|exact Hw]. cbn [oa_size]. rewrite insert_list_length. destruct Hrep as [-> _]. lia.
  - rewrite <- Harr. destruct Hrep as [Hsz _].
    eapply same_but_widen; [..|exact Hfr]; unfold index_room; rewrite ?Harr; lia.
Qed.

Lemma words_frame_block m0 m m' h a n l bs :
  heap_inv m0 h bs -> same_but a n m m' -> h_start_address h <= a ->
  Z.of_nat (length l) <= oa_max_size (h_index h) ->
  words_at m (oa_array (h_index h)) l -> words_at m' (oa_array (h_index h)) l.
Proof.
  intros Hi Hfr Ha Hl. apply (words_at_frame _ _ _ _ _ _ Hfr). left.
  pose proof (hi_array _ _ _ Hi). lia.
Qed.

(** The hole [b] is taken whole. *)
Lemma alloc_at_whole k h bs1 b bs2 l i size :
  heap_inv (k_mem k) h (bs1 ++ b :: bs2) -> b_hole b = true ->
  oa_rep (k_mem k) (h_index h) l -> l ≡ₚ hole_addrs (bs1 ++ b :: bs2) -> l !! i = Some (b_addr b) ->
  0 <= size -> size + 20 <= b_size b -> b_size b - (size + 20) < 20 ->
  exists m' idx', alloc_at size (size + 20) 0 (Z.of_nat i) k h =
      Ok (b_addr b + 12, with_mem m' k, with_index idx' h) /\
    heap_inv m' (with_index idx' h) (bs1 ++ [mk_block (b_addr b) (b_size b) false] ++ bs2) /\
    heap_frame h (b_addr b) (b_end b) (k_mem k) m' /\
    words_at m' (oa_array (h_index h)) (delete i l) /\ oa_rep m' idx' (delete i l).
Proof.
  intros Hi Hb Hrep Hp Hl Hs Hfit Hrest.
  pose proof (tiled_in _ _ _ b (hi_tiled _ _ _ Hi) ltac:(rewrite elem_of_app, elem_of_cons; auto)) as (Hba & Hbs & Hbe).
  pose proof (hi_start _ _ _ Hi). pose proof (hi_end _ _ _ Hi). unfold b_end in *.
  destruct (hi_blocks _ _ _ Hi b ltac:(rewrite elem_of_app, elem_of_cons; auto)) as [(_ & Hsz & _) _].
  destruct (index_remove _ _ _ _ _ _ _ Hi Hb Hrep Hp Hl) as (m1 & E1 & Hw1 & Hlen1 & Hp1 & Hfr1).
  set (idx := mk_ordered_array _ _ _ _) in E1.
  set (m2 := write_header m1 (b_addr b) (b_size b) 0).
  set (m3 := write_footer m2 (b_end b - SIZEOF_footer) (b_addr b)).
  assert (same_but (b_addr b) (b_size b) m1 m3) as Hfr3.
  { apply (same_but_trans _ _ _ m2); [eapply same_but_widen; [..|apply write_header_frame]; lia|].
    eapply same_but_widen; [..|apply write_footer_frame]; unfold b_end, SIZEOF_footer; lia. }
  assert (words_at m3 (oa_array (h_index h)) (delete i l)) as Hw3.
  { eapply words_frame_block; [exact Hi | exact Hfr3 | lia | | exact Hw1].
    pose proof (index_length _ _ _ _ Hi Hrep Hp). destruct Hrep as [Hsz' _]. lia. }
  assert (heap_frame h (b_addr b) (b_addr b + b_size b) (k_mem k) m3) as Hframe.
  { eapply heap_frame_trans; [apply heap_frame_index; exact Hfr1|].
    eapply heap_frame_block; [exact Hfr3|lia..]. }
  exists m3, idx. split_and!.
  - unfold alloc_at. rewrite (lookup_ordered_array_spec _ _ _ _ _ Hrep Hl).
    cbn [mbind outcome_bind]. rewrite Hsz.
    rewrite (u32_small (b_size b - (size + 20))) by lia. unfold SIZEOF_header, SIZEOF_footer.
    replace (b_size b - (size + 20) <? 12 + 8) with true by lia. cbn [negb Z.eqb andb]. rewrite E1.
    cbn [mbind outcome_bind fst snd]. rewrite !(u32_small (size + (b_size b - (size + 20)))) by lia.
    rewrite Z.sub_diag. cbn [u32 Z.modulo Z.div_eucl Z.ltb Z.compare mbind outcome_bind].
    rewrite (u32_small (b_addr b + 12 + _)) by lia. rewrite (u32_small (b_addr b + 12)) by lia.
    subst m3 m2. unfold b_end, SIZEOF_footer.
    replace (b_addr b + 12 + (size + (b_size b - (size + 20)))) with (b_addr b + b_size b - 8) by lia.
    reflexivity.
  - eapply (heap_inv_replace _ _ _ _ _ [b] _ _ (b_addr b) (b_addr b + b_size b));
      [exact Hi | now apply tiled_one | exact (tiled_one (mk_block (b_addr b) (b_size b) false) Hbs) | discriminate | exact Hframe | | reflexivity.. |].
    + intros c Hc. apply list_elem_of_singleton in Hc as ->.
      eapply (written_block_ok m1 m3 m3 _ _ 0); simpl; [lia | lia | reflexivity | reflexivity | intros x _; reflexivity].
    + exists (delete i l). split; [split; [exact Hlen1 | exact Hw3]|].
      rewrite Hp1, !hole_addrs_app. reflexivity.
  - exact Hframe.
  - exact Hw3.
  - split; [exact Hlen1 | exact Hw3].
Qed.

(** The memory a split leaves before the new hole goes into the index. *)
Definition split_mem (m : mem) (b : block) (need : Z) : mem :=
  let m := write_header m (b_addr b) need 0 in
  let m := write_footer m (b_addr b + need - SIZEOF_footer) (b_addr b) in
  let m := write_header m (b_addr b + need) (b_size b - need) 1 in
  write_footer m (b_end b - SIZEOF_footer) (b_addr b + need).

Lemma split_mem_frame m b need :
  20 <= need -> need + 20 <= b_size b -> same_but (b_addr b) (b_size b) m (split_mem m b need).
Proof.
  intros Hn Hb. unfold split_mem, b_end, SIZEOF_footer. cbv zeta.
  set (m1 := write_header m _ _ _). set (m2 := write_footer m1 _ _). set (m3 := write_header m2 _ _ _).
  apply (same_but_trans _ _ _ m1); [eapply same_but_widen; [..|apply write_header_frame]; lia|].
  apply (same_but_trans _ _ _ m2); [eapply same_but_widen; [..|apply write_footer_frame]; lia|].
  apply (same_but_trans _ _ _ m3); [eapply same_but_widen; [..|apply write_header_frame]; lia|].
  eapply same_but_widen; [..|apply write_footer_frame]; lia.
Qed.

Lemma split_mem_blocks m mf e b need :
  20 <= need -> need + 20 <= b_size b -> 0 <= b_addr b -> b_end b < 0x100000000 ->
  same_on (b_addr b) (b_size b) (split_mem m b need) mf ->
  block_ok mf e (mk_block (b_addr b) need false) /\
  block_ok mf e (mk_block (b_addr b + need) (b_size b - need) true).
Proof.
  intros Hn Hb Ha He Hon. unfold split_mem, b_end, SIZEOF_footer in *. cbv zeta in Hon.
  set (m1 := write_header m _ _ _) in *. set (m2 := write_footer m1 _ _) in *.
  set (m3 := write_header m2 _ _ _) in *. set (m4 := write_footer m3 _ _) in *. split.
  - apply (written_block_ok m m2 mf _ _ 0); simpl; [lia | lia | reflexivity | reflexivity |].
    apply (same_on_trans _ _ _ m4).
    + apply (same_on_trans _ _ _ m3); eapply same_but_on; [apply write_header_frame | lia | apply write_footer_frame | lia].
    + eapply same_on_sub; [exact Hon | lia..].
  - apply (written_block_ok m2 m4 mf _ _ 1); simpl; [lia | lia | reflexivity | |].
    + subst m4 m3. unfold b_end, SIZEOF_footer. simpl.
      replace (b_addr b + need + (b_size b - need)) with (b_addr b + b_size b) by lia. reflexivity.
    + eapply same_on_sub; [exact Hon | lia..].
Qed.

(** What [alloc_at] computes once the hole is out of the index, at [m1], and
    its rest is in, at [m6]. *)
Lemma alloc_at_split_eq k h b l i size m1 idx m6 idx' :
  oa_rep (k_mem k) (h_index h) l -> l !! i = Some (b_addr b) -> hdr_size (k_mem k) (b_addr b) = b_size b ->
  0 <= b_addr b -> b_addr b + b_size b <= h_end_address h -> h_end_address h < 0x100000000 ->
  0 <= size -> 20 <= b_size b - (size + 20) ->
  remove_ordered_array (k_mem k) (Z.of_nat i) (h_index h) = Ok (m1, idx) ->
  insert_ordered_array (split_mem m1 b (size + 20)) (b_addr b + (size + 20)) idx = Ok (m6, idx') ->
  alloc_at size (size + 20) 0 (Z.of_nat i) k h = Ok (b_addr b + 12, with_mem m6 k, with_index idx' h).
Proof.
  intros Hrep Hl Hsz Hba Hbe Hend Hs Hrest E1 E6.
  unfold alloc_at. rewrite (lookup_ordered_array_spec _ _ _ _ _ Hrep Hl).
  cbn [mbind outcome_bind]. rewrite Hsz. set (need := size + 20) in *.
  rewrite (u32_small (b_size b - need)) by lia. unfold SIZEOF_header, SIZEOF_footer.
  replace (b_size b - need <? 12 + 8) with false by lia. cbn [negb Z.eqb andb]. rewrite E1.
  cbn [mbind outcome_bind fst snd]. rewrite (u32_small (b_size b - need)) by lia.
  replace (0 <? b_size b - need) with true by lia.
  rewrite (u32_small (b_addr b + 12 + size)), (u32_small (b_addr b + 12 + size + 8)),
    (u32_small (b_addr b + 12)) by lia.
  replace (b_addr b + 12 + size + 8) with (b_addr b + need) by lia.
  replace (b_addr b + 12 + size) with (b_addr b + need - 8) by lia.
  rewrite (u32_small (b_addr b + need + b_size b - need - 8)) by lia.
  replace (b_addr b + need + b_size b - need - 8) with (b_addr b + b_size b - 8) by lia.
  replace (b_addr b + b_size b - 8 <? h_end_address h) with true by lia.
  unfold split_mem, b_end, SIZEOF_footer in E6. rewrite E6. reflexivity.
Qed.

(** The hole [b] is split: the front is allocated, the rest stays a hole. *)
Lemma alloc_at_split k h bs1 b bs2 l i size :
  heap_inv (k_mem k) h (bs1 ++ b :: bs2) -> b_hole b = true ->
  oa_rep (k_mem k) (h_index h) l -> l ≡ₚ hole_addrs (bs1 ++ b :: bs2) -> l !! i = Some (b_addr b) ->
  0 <= size -> 20 <= b_size b - (size + 20) ->
  exists m' idx', alloc_at size (size + 20) 0 (Z.of_nat i) k h =
      Ok (b_addr b + 12, with_mem m' k, with_index idx' h) /\
    heap_inv m' (with_index idx' h) (bs1 ++ [mk_block (b_addr b) (size + 20) false;
      mk_block (b_addr b + (size + 20)) (b_size b - (size + 20)) true] ++ bs2) /\
    heap_frame h (b_addr b) (b_end b) (k_mem k) m' /\
    exists m5 lf, lf = insert_list (lt_of header_t_less_than m5) (b_addr b + (size + 20)) (delete i l) /\
      oa_rep m' idx' lf /\ heap_frame h (b_addr b) (b_end b) (k_mem k) m5 /\
      same_but (oa_array (h_index h)) (index_room h) m5 m'.
Proof.
  intros Hi Hb Hrep Hp Hl Hs Hrest.
  pose proof (tiled_in _ _ _ b (hi_tiled _ _ _ Hi) ltac:(rewrite elem_of_app, elem_of_cons; auto)) as (Hba & Hbs & Hbe).
  pose proof (hi_start _ _ _ Hi). pose proof (hi_end _ _ _ Hi). pose proof (hi_array _ _ _ Hi). unfold b_end in *.
  destruct (hi_blocks _ _ _ Hi b ltac:(rewrite elem_of_app, elem_of_cons; auto)) as [(_ & Hsz & _) _].
  pose proof (index_length _ _ _ _ Hi Hrep Hp) as Hlen.
  destruct (index_remove _ _ _ _ _ _ _ Hi Hb Hrep Hp Hl) as (m1 & E1 & Hw1 & Hlen1 & Hp1 & Hfr1).
  set (idx := mk_ordered_array _ _ _ _) in E1. set (need := size + 20).
  set (m5 := split_mem m1 b need).
  pose proof (split_mem_frame m1 b need ltac:(lia) ltac:(lia)) as Hfr5. fold m5 in Hfr5.
  assert (words_at m5 (oa_array (h_index h)) (delete i l)) as Hw5.
  { eapply words_frame_block; [exact Hi | exact Hfr5 | lia | | exact Hw1].
    destruct Hrep as [Hsz' _]. lia. }
  assert (heap_frame h (b_addr b) (b_addr b + b_size b) (k_mem k) m5) as Hframe5.
  { eapply heap_frame_trans; [apply heap_frame_index; exact Hfr1|].
    eapply heap_frame_block; [exact Hfr5|lia..]. }
  assert (Z.of_nat (length (delete i l)) + 1 <= oa_max_size (h_index h) - 3) as Hroom
    by (destruct Hrep as [Hsz' _]; lia).
  destruct (index_insert m5 h idx (delete i l) (b_addr b + need)) as
    (m6 & idx' & lf & E6 & Hrep6 & Hlf & Harr6 & Hmax6 & Hlt6 & Hfr6);
    [split; [exact Hlen1 | exact Hw5] | apply (hi_less_than _ _ _ Hi) | reflexivity.. | lia | exact Hroom | lia |].
  assert (heap_frame h (b_addr b) (b_addr b + b_size b) (k_mem k) m6) as Hframe6
    by (eapply heap_frame_trans; [exact Hframe5 | apply heap_frame_index; exact Hfr6]).
  exists m6, idx'. split_and!.
  - apply (alloc_at_split_eq k h b l i size m1 idx); try assumption; lia.
  - eapply (heap_inv_replace _ _ _ _ _ [b] _ _ (b_addr b) (b_addr b + b_size b));
      [exact Hi | now apply tiled_one | | discriminate | exact Hframe6 | | exact Harr6 | exact Hmax6 | | ].
    + simpl. unfold b_end, SIZEOF_header, SIZEOF_footer. simpl. split_and!; [reflexivity | lia | reflexivity | lia | lia].
    + destruct (split_mem_blocks m1 m6 (h_end_address h) b need) as [Hb1 Hb2]; [unfold b_end; lia..| |].
      { eapply same_but_on; [exact Hfr6|]. unfold index_room. lia. }
      intros c Hc. apply elem_of_cons in Hc as [->|Hc]; [exact Hb1|].
      apply list_elem_of_singleton in Hc as ->. exact Hb2.
    + rewrite Hlt6. symmetry. apply (hi_less_than _ _ _ Hi).
    + exists lf. split; [exact Hrep6|]. rewrite Hlf, insert_list_perm, Hp1, !hole_addrs_app, !hole_addrs_cons.
      cbn [b_hole b_addr app]. apply Permutation_middle.
  - exact Hframe6.
  - exists m5, lf. split_and!; assumption.
Qed.

(** The sizes of the holes outside [a..c] survive a framed change. *)
Lemma hdr_size_frame m0 m m' h bs1 old bs2 a c x :
  heap_inv m0 h (bs1 ++ old ++ bs2) -> tiled a c old -> old <> [] ->
  heap_frame h a c m m' -> x ∈ hole_addrs (bs1 ++ bs2) -> hdr_size m' x = hdr_size m x.
Proof.
  intros Hi Hold Hne Hfr Hx. apply hole_addrs_in in Hx as (d & Hd & _ & <-).
  pose proof (hi_tiled _ _ _ Hi) as Ht. pose proof (hi_array _ _ _ Hi).
  pose proof (hi_start _ _ _ Hi).
  assert (h_start_address h <= b_addr d /\ 20 <= b_size d /\ (b_end d <= a \/ c <= b_addr d)) as (H1 & H2 & H3).
  { apply tiled_app in Ht as (y & Ht1 & Ht). apply tiled_app in Ht as (z & Hto & Ht2).
    destruct (tiled_unique _ _ _ _ _ Hne Hto Hold) as [-> ->].
    pose proof (tiled_le _ _ _ Ht1). pose proof (tiled_le _ _ _ Hto).
    apply elem_of_app in Hd as [Hd|Hd];
      [destruct (tiled_in _ _ _ _ Ht1 Hd) | destruct (tiled_in _ _ _ _ Ht2 Hd)]; unfold b_end in *; lia. }
  unfold hdr_size, load32, b_end, index_room in *. rewrite !Hfr by (unfold index_room; lia). reflexivity.
Qed.

(** The index without the entry [x] is sorted: what is left to ask when the
    size of [x] alone has changed. *)
Definition sorted_without (x : Z) (m : mem) (h : heap_t) : Prop :=
  forall l i, oa_rep m (h_index h) l -> l !! i = Some x -> sorted_by (hdr_size m) (delete i l).

Lemma index_sorted_without x m h : index_sorted m h -> sorted_without x m h.
Proof. intros H l i Hl _. now apply sorted_by_delete, H. Qed.

(** The hole that [alloc], without alignment, takes. *)
Lemma alloc_pick fuel k h bs size :
  heap_inv (k_mem k) h bs -> 0 <= size -> size + 20 < 0x100000000 ->
  (exists b, b ∈ bs /\ b_hole b = true /\ size + 20 <= b_size b) ->
  exists bs1 b bs2 l p, bs = bs1 ++ b :: bs2 /\ b_hole b = true /\ size + 20 <= b_size b /\
    (index_sorted (k_mem k) h ->
       forall c, c ∈ bs -> b_hole c = true -> size + 20 <= b_size c -> b_size b <= b_size c) /\
    alloc fuel size 0 k h = alloc_at size (size + 20) 0 (Z.of_nat p) k h /\
    oa_rep (k_mem k) (h_index h) l /\ l ≡ₚ hole_addrs bs /\ l !! p = Some (b_addr b).
Proof.
  intros Hi Hs Hmax (b0 & Hb0 & Hh0 & Hs0). destruct (hi_index _ _ _ Hi) as (l & Hrep & Hp).
  assert (forall c, c ∈ bs -> b_hole c = true -> b_addr c ∈ l /\ hdr_size (k_mem k) (b_addr c) = b_size c) as Hin.
  { intros c Hc Hh. split; [rewrite Hp; apply hole_addrs_in; eauto|]. now apply (hi_blocks _ _ _ Hi c Hc). }
  destruct (find_smallest_hole_spec (k_mem k) (size + 20) h l Hrep) as [[_ Hall] | (p & x & E & Hx & Hle & Hbelow)].
  { destruct (Hin b0 Hb0 Hh0) as [H1 H2]. specialize (Hall _ H1). lia. }
  assert (x ∈ hole_addrs bs) as Hxh by (rewrite <- Hp; eapply list_elem_of_lookup_2; exact Hx).
  apply hole_addrs_in in Hxh as (b & Hb & Hh & <-). destruct (Hin b Hb Hh) as [_ Hsz].
  apply list_elem_of_split in Hb as (bs1 & bs2 & ->). exists bs1, b, bs2, l, p.
  split_and!; try assumption; [reflexivity | lia | |].
  - intros Hsorted c Hc Hhc Hfc. destruct (Hin c Hc Hhc) as [Hcl Hcs].
    apply list_elem_of_lookup in Hcl as [j Hj]. rewrite <- Hsz, <- Hcs.
    destruct (Nat.lt_total j p) as [Hlt|[->|Hgt]].
    + specialize (Hbelow j _ Hlt Hj). lia.
    + replace (b_addr c) with (b_addr b) by congruence. lia.
    + now apply (Hsorted l Hrep p j).
  - destruct fuel; cbn [alloc]; unfold SIZEOF_header, SIZEOF_footer;
      replace (size + 12 + 8) with (size + 20) by lia; rewrite (u32_small (size + 20)) by lia;
      rewrite E; cbn [mbind outcome_bind]; rewrite (proj2 (Z.eqb_neq (Z.of_nat p) (-1))) by lia; reflexivity.
Qed.

(** The rest of [alloc] on a hole that fits, be it taken whole or split. *)
Lemma alloc_at_spec k h bs1 b bs2 l p size :
  heap_inv (k_mem k) h (bs1 ++ b :: bs2) -> b_hole b = true -> 0 <= size -> size + 20 <= b_size b ->
  oa_rep (k_mem k) (h_index h) l -> l ≡ₚ hole_addrs (bs1 ++ b :: bs2) -> l !! p = Some (b_addr b) ->
  exists m' idx', alloc_at size (size + 20) 0 (Z.of_nat p) k h = Ok (b_addr b + 12, with_mem m' k, with_index idx' h) /\
    heap_inv m' (with_index idx' h) (bs1 ++ split_hole b (size + 20) ++ bs2) /\
    heap_frame h (b_addr b) (b_end b) (k_mem k) m' /\
    (sorted_without (b_addr b) (k_mem k) h -> index_sorted m' (with_index idx' h)).
Proof.
  intros Hi Hh Hs Hfit Hrep Hp Hx.
  assert (tiled (b_addr b) (b_end b) [b]) as Htb.
  { pose proof (tiled_in _ _ _ b (hi_tiled _ _ _ Hi) ltac:(rewrite elem_of_app, elem_of_cons; auto)).
    simpl. unfold SIZEOF_header, SIZEOF_footer. split_and!; [reflexivity | lia | reflexivity]. }
  assert (delete p l ≡ₚ hole_addrs (bs1 ++ bs2)) as Hdel.
  { pose proof (delete_Permutation _ _ _ Hx) as Hd. rewrite hole_addrs_app, hole_addrs_cons, Hh in Hp.
    rewrite Hd, <- Permutation_middle in Hp. apply Permutation_cons_inv in Hp. now rewrite hole_addrs_app. }
  assert (forall m1, heap_frame h (b_addr b) (b_end b) (k_mem k) m1 -> sorted_without (b_addr b) (k_mem k) h ->
    sorted_by (hdr_size m1) (delete p l)) as Hdels.
  { intros m1 Hfr Hsorted. eapply sorted_by_ext; [|exact (Hsorted l p Hrep Hx)].
    intros y Hy. eapply (hdr_size_frame _ _ _ h bs1 [b] bs2); [exact Hi | exact Htb | discriminate | exact Hfr |].
    now rewrite <- Hdel. }
  unfold split_hole, SIZEOF_header, SIZEOF_footer. change (12 + 8) with 20.
  destruct (Z.ltb_spec (b_size b - (size + 20)) 20) as [Hlt|Hge].
  - destruct (alloc_at_whole k h bs1 b bs2 l p size Hi Hh Hrep Hp Hx) as
      (m' & idx' & Ea & Hi' & Hfr & _ & Hrep'); [lia..|].
    exists m', idx'. split_and!; try assumption.
    intros Hsorted l' Hl'. rewrite (oa_rep_inj _ _ _ _ Hl' Hrep'). now apply Hdels.
  - destruct (alloc_at_split k h bs1 b bs2 l p size Hi Hh Hrep Hp Hx) as
      (m' & idx' & Ea & Hi' & Hfr & m5 & lf & Hlf & Hrep' & Hfr5 & Hfr6); [lia..|].
    exists m', idx'. split_and!; try assumption.
    intros Hsorted l' Hl'. rewrite (oa_rep_inj _ _ _ _ Hl' Hrep').
    apply (sorted_by_ext (hdr_size m5)).
    + intros y Hy. pose proof (hi_array _ _ _ Hi).
      assert (h_start_address h <= y).
      { rewrite Hlf, insert_list_perm in Hy. pose proof (hi_tiled _ _ _ Hi) as Ht.
        apply elem_of_cons in Hy as [->|Hy].
        - destruct (tiled_in _ _ _ b Ht ltac:(rewrite elem_of_app, elem_of_cons; auto)). lia.
        - rewrite Hdel in Hy. apply hole_addrs_in in Hy as (d & Hd & _ & <-).
          apply (tiled_in _ _ _ d Ht). rewrite elem_of_app in *. rewrite elem_of_cons. tauto. }
      unfold hdr_size. apply (same_but_load32 _ _ _ _ _ Hfr6). unfold index_room. lia.
    + rewrite Hlf. apply insert_list_sorted; [|now apply Hdels]. intros y. apply key_order.
Qed.

(** [alloc], without alignment, when some hole fits. *)
Lemma alloc_spec fuel k h bs size :
  heap_inv (k_mem k) h bs -> 0 <= size -> size + 20 < 0x100000000 ->
  (exists b, b ∈ bs /\ b_hole b = true /\ size + 20 <= b_size b) ->
  exists bs1 b bs2 m' idx', bs = bs1 ++ b :: bs2 /\ b_hole b = true /\ size + 20 <= b_size b /\
    (index_sorted (k_mem k) h ->
       forall c, c ∈ bs -> b_hole c = true -> size + 20 <= b_size c -> b_size b <= b_size c) /\
    alloc fuel size 0 k h = Ok (b_addr b + 12, with_mem m' k, with_index idx' h) /\
    heap_inv m' (with_index idx' h) (bs1 ++ split_hole b (size + 20) ++ bs2) /\
    heap_frame h (b_addr b) (b_end b) (k_mem k) m' /\
    (index_sorted (k_mem k) h -> index_sorted m' (with_index idx' h)).
Proof.
  intros Hi Hs Hmax Hfit. destruct (alloc_pick fuel k h bs size Hi Hs Hmax Hfit) as (bs1 & b & bs2 & l & p & -> & Hh & Hb & Hbest & -> & Hrep & Hp & Hx).
  destruct (alloc_at_spec k h bs1 b bs2 l p size Hi Hh Hs Hb Hrep Hp Hx) as (m' & idx' & Ea & Hi' & Hfr & Hso).
  exists bs1, b, bs2, m', idx'. split_and!; try assumption; [reflexivity|]. intros H. now apply Hso, index_sorted_without.
Qed.

(** An allocation that does not grow the heap leaves the index where it is. *)
Lemma alloc_at_keeps_array size need al i k h p k' h' :
  alloc_at size need al i k h = Ok (p, k', h') -> oa_array (h_index h') = oa_array (h_index h).
Proof.
  unfold alloc_at. intros H. apply bind_inv in H as (hdr & _ & H). cbv zeta in H.
  destruct (if u32 _ <? _ then _ else _) as [sz nd]. apply bind_inv in H as ([[[m idx] pos] osz] & E1 & H).
  assert (oa_array idx = oa_array (h_index h)) as Ea.
  { destruct (negb (al =? 0) && _); [injection E1 as _ <- _ _; reflexivity|]. apply bind_inv in E1 as (r & Er & E1).
    injection E1 as _ <- _ _. exact (remove_keeps_array _ _ _ _ Er). }
  apply bind_inv in H as ([m2 idx2] & E2 & H). injection H as _ _ <-. rewrite <- Ea. cbn [h_index with_index].
  destruct (0 <? _); [exact (insert_keeps_array _ _ _ _ _ E2) | injection E2 as _ <-; reflexivity].
Qed.

Lemma alloc_keeps_array size al k h i p k' h' fuel :
  find_smallest_hole (u32 (size + SIZEOF_header + SIZEOF_footer)) al (k_mem k) h = Ok i -> i <> -1 ->
  alloc fuel size al k h = Ok (p, k', h') -> oa_array (h_index h') = oa_array (h_index h).
Proof.
  intros Ef Hne Ea. destruct fuel; cbn [alloc] in Ea; rewrite Ef, bind_ok, (proj2 (Z.eqb_neq _ _) Hne) in Ea; exact (alloc_at_keeps_array _ _ _ _ _ _ _ _ _ Ea).
Qed.
