(* ===== verification/KHeapAlign.v ===== *)
(** * The kernel heap: page-aligned allocation

    [alloc] with alignment cuts the hole it finds at the header's place for
    which the data starts a page; the part in front stays a hole, with its
    entry of the index.  When that part has room for a header and a footer, and
    what is left behind the block too (or nothing is left), this is a step of
    the abstract heap. *)

From S2P Require Import Prelude Memory Util OrderedArray Kernel Paging KHeap KHeapInv.

(** The bytes from [a] to the header of the next block whose data is aligned. *)
Definition align_pad (a : Z) : Z := 0x1000 - a mod 0x1000 - SIZEOF_header.

(** The hole [b] can be cut for an aligned block of [need] bytes. *)
Definition aligned_room (b : block) (need : Z) : Prop :=
  let pad := align_pad (b_addr b) in
  SIZEOF_header + SIZEOF_footer <= pad /\
  (b_size b = pad + need \/ pad + need + (SIZEOF_header + SIZEOF_footer) <= b_size b).

(** The block cut from the front of [b], and the hole behind it if any. *)
Definition carve (b : block) (need : Z) : list block :=
  if b_size b =? need then [mk_block (b_addr b) need false]
  else [mk_block (b_addr b) need false; mk_block (b_addr b + need) (b_size b - need) true].

(** The blocks that replace the hole [b]. *)
Definition split_aligned (b : block) (need : Z) : list block :=
  let pad := align_pad (b_addr b) in
  mk_block (b_addr b) pad true :: carve (mk_block (b_addr b + pad) (b_size b - pad) true) need.

(** ** Memory *)

Definition carve_mem (m : mem) (b : block) (need : Z) : mem :=
  if b_size b =? need
  then write_footer (write_header m (b_addr b) need 0) (b_addr b + need - SIZEOF_footer) (b_addr b)
  else split_mem m b need.

Lemma carve_mem_frame m b need :
  20 <= need -> (b_size b = need \/ need + 20 <= b_size b) -> same_but (b_addr b) (b_size b) m (carve_mem m b need).
Proof.
  intros Hn Hb. unfold carve_mem. destruct (Z.eqb_spec (b_size b) need) as [E|E]; [|apply split_mem_frame; lia].
  apply (same_but_trans _ _ _ (write_header m (b_addr b) need 0));
    [eapply same_but_widen; [..|apply write_header_frame] | eapply same_but_widen; [..|apply write_footer_frame]];
    unfold SIZEOF_footer; lia.
Qed.

Lemma carve_mem_blocks m mf e b need :
  20 <= need -> (b_size b = need \/ need + 20 <= b_size b) -> 0 <= b_addr b -> b_end b < 0x100000000 ->
  same_on (b_addr b) (b_size b) (carve_mem m b need) mf -> forall c, c ∈ carve b need -> block_ok mf e c.
Proof.
  intros Hn Hb Ha He Hon c Hc. unfold carve, carve_mem, b_end in *. destruct (Z.eqb_spec (b_size b) need) as [E|E].
  - apply list_elem_of_singleton in Hc as ->.
    eapply (written_block_ok m _ mf _ _ 0); simpl; [lia | lia | reflexivity | reflexivity |].
    unfold b_end. cbn [b_addr b_size]. rewrite <- E at 1. exact Hon.
  - destruct (split_mem_blocks m mf e b need) as [H1 H2]; [lia | lia | exact Ha | exact He | exact Hon |].
    apply elem_of_cons in Hc as [->|Hc]; [exact H1|]. apply list_elem_of_singleton in Hc as ->. exact H2.
Qed.

Lemma carve_tiled b need :
  20 <= need -> (b_size b = need \/ need + 20 <= b_size b) -> tiled (b_addr b) (b_end b) (carve b need).
Proof.
  intros Hn Hb. unfold carve, b_end. destruct (Z.eqb_spec (b_size b) need); simpl; unfold b_end, SIZEOF_header, SIZEOF_footer; simpl; lia.
Qed.

Lemma split_aligned_tiled b need :
  20 <= need -> aligned_room b need -> tiled (b_addr b) (b_end b) (split_aligned b need).
Proof.
  intros Hn [Hp Hb]. unfold split_aligned. set (pad := align_pad (b_addr b)) in *.
  unfold SIZEOF_header, SIZEOF_footer in *.
  pose proof (carve_tiled (mk_block (b_addr b + pad) (b_size b - pad) true) need Hn) as H.
  cbn [tiled b_addr b_size]. unfold SIZEOF_header, SIZEOF_footer, b_end in *. cbn [b_addr b_size] in *.
  replace (b_addr b + pad + (b_size b - pad)) with (b_addr b + b_size b) in H by lia. split_and!; [reflexivity | lia | apply H; lia].
Qed.

(** The front hole keeps its entry; the hole behind the block is new. *)
Lemma split_aligned_holes b need :
  hole_addrs (split_aligned b need) =
  b_addr b :: (if b_size b =? align_pad (b_addr b) + need then [] else [b_addr b + align_pad (b_addr b) + need]).
Proof.
  unfold split_aligned, carve. set (pad := align_pad (b_addr b)). cbn [b_addr b_size].
  replace (b_size b - pad =? need) with (b_size b =? pad + need) by lia. destruct (_ =? _); reflexivity.
Qed.

(** ** alloc_at *)

(** The front hole, as the aligned branch writes it. *)
Definition front_mem (m : mem) (b : block) : mem :=
  let pad := align_pad (b_addr b) in
  write_footer (write_header m (b_addr b) pad 1) (b_addr b + pad - SIZEOF_footer) (b_addr b).

Lemma front_mem_frame m b : 20 <= align_pad (b_addr b) -> same_but (b_addr b) (align_pad (b_addr b)) m (front_mem m b).
Proof.
  intros Hp. unfold front_mem. apply (same_but_trans _ _ _ (write_header m (b_addr b) (align_pad (b_addr b)) 1));
    [eapply same_but_widen; [..|apply write_header_frame] | eapply same_but_widen; [..|apply write_footer_frame]];
    unfold SIZEOF_footer; lia.
Qed.

(** The call up to the insertion of the hole behind the block. *)
Lemma alloc_at_aligned_eq k h b l i size :
  oa_rep (k_mem k) (h_index h) l -> l !! i = Some (b_addr b) -> hdr_size (k_mem k) (b_addr b) = b_size b ->
  0 <= size -> 0x1000 <= b_addr b -> b_end b <= h_end_address h -> h_end_address h < 0x100000000 ->
  aligned_room b (size + 20) ->
  let pad := align_pad (b_addr b) in
  let c := mk_block (b_addr b + pad) (b_size b - pad) true in
  let m5 := carve_mem (front_mem (k_mem k) b) c (size + 20) in
  alloc_at size (size + 20) 1 (Z.of_nat i) k h =
  (r ← (if b_size b =? pad + (size + 20) then Ok (m5, h_index h)
        else insert_ordered_array m5 (b_addr b + pad + (size + 20)) (h_index h));
   Ok (b_addr b + pad + 12, with_mem r.1 k, with_index r.2 h)).
Proof.
  intros Hrep Hl Hsz Hs Ha He Hend [Hp Hb]. cbv zeta. unfold b_end, SIZEOF_header, SIZEOF_footer in *.
  unfold alloc_at. rewrite (lookup_ordered_array_spec _ _ _ _ _ Hrep Hl), bind_ok. cbv iota beta. rewrite Hsz.
  set (need := size + 20) in *. unfold SIZEOF_header, SIZEOF_footer.
  rewrite (u32_small (b_size b - need)) by lia. replace (b_size b - need <? 12 + 8) with false by lia. cbv iota beta.
  rewrite land_FFFFF000, land_FFF by lia.
  replace (negb (1 =? 0) && negb (b_addr b - b_addr b mod 0x1000 =? 0)) with true
    by (symmetry; apply andb_true_intro; split; [reflexivity|]; zlia).
  set (pad := align_pad (b_addr b)) in *.
  assert (0x1000 - b_addr b mod 0x1000 - 12 = pad) as Epad by reflexivity. rewrite Epad, (u32_small pad) by lia.
  replace (b_addr b + 0x1000 - b_addr b mod 0x1000 - 12) with (b_addr b + pad) by lia.
  rewrite (u32_small (b_addr b + pad)), (u32_small (b_addr b + pad - 8)) by lia. rewrite bind_ok. cbv iota beta.
  change (write_footer (write_header (k_mem k) (b_addr b) pad 1) (b_addr b + pad - 8) (b_addr b)) with (front_mem (k_mem k) b).
  set (m0 := front_mem (k_mem k) b).
  assert (hdr_size m0 (b_addr b) = pad) as Hpad.
  { destruct (header_same_on (write_header (k_mem k) (b_addr b) pad 1) m0 (b_addr b)) as (_ & E & _).
    - eapply same_but_on; [apply write_footer_frame | unfold SIZEOF_footer; fold pad; lia].
    - destruct (write_header_fields (k_mem k) (b_addr b) pad 1) as (_ & E' & _). rewrite E, E'. apply u32_small. lia. }
  rewrite Hpad, (u32_small (b_size b - pad)) by lia.
  rewrite (u32_small (b_size b - pad - need)), (u32_small (b_addr b + pad + 12 + size)), (u32_small (b_addr b + pad + 12 + size + 8)),
    (u32_small (b_addr b + pad + 12)) by lia.
  replace (b_addr b + pad + 12 + size + 8) with (b_addr b + pad + need) by lia.
  replace (b_addr b + pad + 12 + size) with (b_addr b + pad + need - 8) by lia.
  unfold carve_mem. cbn [b_addr b_size]. replace (b_size b - pad =? need) with (b_size b =? pad + need) by lia.
  destruct (Z.eqb_spec (b_size b) (pad + need)) as [E|E].
  - replace (0 <? b_size b - pad - need) with false by lia. rewrite !bind_ok. unfold SIZEOF_footer. reflexivity.
  - replace (0 <? b_size b - pad - need) with true by lia.
    rewrite (u32_small (b_addr b + pad + need + (b_size b - pad) - need - 8)) by lia.
    replace (b_addr b + pad + need + (b_size b - pad) - need - 8) with (b_addr b + pad + (b_size b - pad) - 8) by lia.
    replace (b_addr b + pad + (b_size b - pad) - 8 <? h_end_address h) with true by lia.
    unfold split_mem, b_end, SIZEOF_footer. cbn [b_addr b_size].
    destruct (insert_ordered_array _ _ _) as [[m' idx']| | |]; reflexivity.
Qed.

(** The blocks of a cut hole, once they are in memory. *)
Lemma split_aligned_ok m m6 e b need :
  let pad := align_pad (b_addr b) in
  let m5 := carve_mem (front_mem m b) (mk_block (b_addr b + pad) (b_size b - pad) true) need in
  0 <= b_addr b -> b_addr b + b_size b < 0x100000000 -> 20 <= need -> aligned_room b need ->
  same_on (b_addr b) (b_size b) m5 m6 -> forall d, d ∈ split_aligned b need -> block_ok m6 e d.
Proof.
  cbv zeta. intros Ha He Hneed [Hpad Hsize] Hon d Hd. unfold SIZEOF_header, SIZEOF_footer in Hpad, Hsize.
  set (pad := align_pad (b_addr b)) in *. set (c := mk_block (b_addr b + pad) (b_size b - pad) true) in *. set (m0 := front_mem m b) in *.
  assert (same_but (b_addr c) (b_size c) m0 (carve_mem m0 c need)) as Hfr5 by (apply carve_mem_frame; simpl; lia). cbn [b_addr b_size c] in Hfr5.
  apply elem_of_cons in Hd as [->|Hd].
  - eapply (written_block_ok m m0 m6 _ _ 1); cbn [b_addr b_size b_hole]; fold pad; [lia | lia | reflexivity | reflexivity |].
    apply (same_on_trans _ _ _ (carve_mem m0 c need)); [eapply same_but_on; [exact Hfr5 | lia] | eapply same_on_sub; [exact Hon | lia | lia]].
  - apply (carve_mem_blocks m0 m6 _ c need); unfold b_end; cbn [b_addr b_size c]; try lia; [|exact Hd].
    eapply same_on_sub; [exact Hon | cbn; lia | cbn; lia].
Qed.

(** The writes to the hole leave the heap around it and the index. *)
Lemma carved_frame m h bs1 b bs2 l need : let pad := align_pad (b_addr b) in
  let m5 := carve_mem (front_mem m b) (mk_block (b_addr b + pad) (b_size b - pad) true) need in
  heap_inv m h (bs1 ++ b :: bs2) -> oa_rep m (h_index h) l -> l ≡ₚ hole_addrs (bs1 ++ b :: bs2) -> 20 <= need -> aligned_room b need ->
  heap_frame h (b_addr b) (b_addr b + b_size b) m m5 /\ oa_rep m5 (h_index h) l.
Proof.
  intros pad m5 Hi Hrep Hp Hneed Hroom. pose proof (index_length _ _ _ _ Hi Hrep Hp) as Hlen. assert (b ∈ bs1 ++ b :: bs2) as Hin by (rewrite elem_of_app, elem_of_cons; auto).
  pose proof (tiled_in _ _ _ b (hi_tiled _ _ _ Hi) Hin) as (Hba & Hbs & Hbe). unfold b_end in Hbe. pose proof (hi_array _ _ _ Hi).
  pose proof Hroom as [Hpad Hsize]. unfold SIZEOF_header, SIZEOF_footer in Hpad, Hsize. fold pad in Hpad, Hsize. subst m5.
  pose proof (front_mem_frame m b Hpad) as Hfr0. fold pad in Hfr0. set (m0 := front_mem m b) in *.
  set (c := mk_block (b_addr b + pad) (b_size b - pad) true). set (m5 := carve_mem m0 c need).
  assert (same_but (b_addr c) (b_size c) m0 m5) as Hfr5 by (apply carve_mem_frame; simpl; lia). cbn [b_addr b_size c] in Hfr5. split.
  - eapply heap_frame_trans; eapply heap_frame_block; [exact Hfr0 | lia | lia | exact Hfr5 | lia | lia].
  - destruct Hrep as [Hz Hw]. split; [exact Hz|]. eapply words_frame_block; [exact Hi | exact Hfr5 | lia | lia |].
    eapply words_frame_block; [exact Hi | exact Hfr0 | lia | lia | exact Hw].
Qed.

(** The hole [b] is cut. *)
Lemma alloc_at_aligned k h bs1 b bs2 l i size :
  heap_inv (k_mem k) h (bs1 ++ b :: bs2) -> b_hole b = true ->
  oa_rep (k_mem k) (h_index h) l -> l ≡ₚ hole_addrs (bs1 ++ b :: bs2) -> l !! i = Some (b_addr b) ->
  0 <= size -> 0x1000 <= b_addr b -> aligned_room b (size + 20) ->
  exists m' idx', alloc_at size (size + 20) 1 (Z.of_nat i) k h =
      Ok (b_addr b + align_pad (b_addr b) + 12, with_mem m' k, with_index idx' h) /\
    heap_inv m' (with_index idx' h) (bs1 ++ split_aligned b (size + 20) ++ bs2) /\
    heap_frame h (b_addr b) (b_end b) (k_mem k) m'.
Proof.
  intros Hi Hb Hrep Hp Hl Hs Ha Hroom.
  assert (b ∈ bs1 ++ b :: bs2) as Hin by (rewrite elem_of_app, elem_of_cons; auto).
  pose proof (tiled_in _ _ _ b (hi_tiled _ _ _ Hi) Hin) as (Hba & Hbs & Hbe).
  pose proof (hi_start _ _ _ Hi). pose proof (hi_end _ _ _ Hi). pose proof (hi_array _ _ _ Hi).
  destruct (hi_blocks _ _ _ Hi b Hin) as [(_ & Hsz & _) _]. pose proof (index_length _ _ _ _ Hi Hrep Hp) as Hlen.
  pose proof (split_aligned_tiled b (size + 20) ltac:(lia) Hroom) as Htile.
  rewrite (alloc_at_aligned_eq k h b l i size Hrep Hl Hsz Hs Ha Hbe H0 Hroom).
  pose proof Hroom as [Hpad Hsize]. unfold SIZEOF_header, SIZEOF_footer in Hpad, Hsize.
  set (pad := align_pad (b_addr b)) in *. set (need := size + 20) in *. unfold b_end in *.
  set (m5 := carve_mem _ _ need).
  destruct (carved_frame (k_mem k) h bs1 b bs2 l need Hi Hrep Hp ltac:(lia) Hroom) as [Hframe5 Hrep5]. fold pad m5 in Hframe5, Hrep5.
  assert (forall m6, same_on (b_addr b) (b_size b) m5 m6 -> forall d, d ∈ split_aligned b need -> block_ok m6 (h_end_address h) d) as Hblk.
  { intros m6. apply (split_aligned_ok (k_mem k)); lia || exact Hroom. }
  pose proof (tiled_one b Hbs) as Hold.
  assert (hole_addrs (bs1 ++ b :: bs2) ≡ₚ b_addr b :: hole_addrs (bs1 ++ bs2)) as Hholes.
  { rewrite !hole_addrs_app, hole_addrs_cons, Hb. symmetry. apply Permutation_middle. }
  pose proof (split_aligned_holes b need) as Hnew. fold pad in Hnew.
  destruct (Z.eqb_spec (b_size b) (pad + need)) as [E|E].
  - rewrite bind_ok. exists m5, (h_index h). cbn [fst snd]. split_and!; [reflexivity | | exact Hframe5].
    eapply (heap_inv_replace _ _ _ _ _ [b] _ _ (b_addr b) (b_addr b + b_size b));
      [exact Hi | exact Hold | exact Htile | discriminate | exact Hframe5 | | reflexivity.. |].
    + apply Hblk. intros x _. reflexivity.
    + exists l. split; [exact Hrep5|]. rewrite Hp, Hholes, !hole_addrs_app, Hnew. apply Permutation_middle.
  - destruct (index_insert m5 h (h_index h) l (b_addr b + pad + need)) as
      (m6 & idx' & lf & E6 & Hrep6 & Hlf & Harr6 & Hmax6 & Hlt6 & Hfr6);
      [exact Hrep5 | apply (hi_less_than _ _ _ Hi) | reflexivity.. | lia | lia | lia |].
    assert (heap_frame h (b_addr b) (b_addr b + b_size b) (k_mem k) m6) as Hframe6
      by (eapply heap_frame_trans; [exact Hframe5 | apply heap_frame_index; exact Hfr6]).
    rewrite E6, bind_ok. exists m6, idx'. cbn [fst snd]. split_and!; [reflexivity | | exact Hframe6].
    eapply (heap_inv_replace _ _ _ _ _ [b] _ _ (b_addr b) (b_addr b + b_size b));
      [exact Hi | exact Hold | exact Htile | discriminate | exact Hframe6 | | exact Harr6 | exact Hmax6 | |].
    + apply Hblk. eapply same_but_on; [exact Hfr6 | unfold index_room; lia].
    + rewrite Hlt6. symmetry. apply (hi_less_than _ _ _ Hi).
    + exists lf. split; [exact Hrep6|]. rewrite Hlf, insert_list_perm, Hp, Hholes, !hole_addrs_app, Hnew.
      cbn [app]. rewrite <- !Permutation_middle. apply perm_swap.
Qed.

(** ** alloc *)

(** The search ends at an entry that fits, whatever the alignment. *)
Lemma find_hole_from_fits m size al a l n i p :
  oa_rep m a l -> (i + n = length l)%nat -> find_hole_from m size al a n (Z.of_nat i) = Ok p -> p <> -1 ->
  exists j x, p = Z.of_nat j /\ l !! j = Some x /\ hole_fits m size al x = true.
Proof.
  intros Hrep. revert i. induction n as [|n IH]; intros i Hin; cbn [find_hole_from]; [intros [= <-]; congruence|].
  destruct (lookup_lt_is_Some_2 l i) as [x Hx]; [lia|]. rewrite (lookup_ordered_array_spec _ _ _ _ _ Hrep Hx), bind_ok.
  destruct (hole_fits m size al x) eqn:E; [intros [= <-]; eauto|].
  replace (Z.of_nat i + 1) with (Z.of_nat (S i)) by lia. apply IH. lia.
Qed.

(** [alloc], with alignment, when the hole it finds can be cut. *)
Lemma alloc_aligned_spec fuel k h bs size i :
  heap_inv (k_mem k) h bs -> 0 <= size -> size + 20 < 0x100000000 ->
  find_smallest_hole (size + 20) 1 (k_mem k) h = Ok i -> i <> -1 ->
  exists bs1 b bs2, bs = bs1 ++ b :: bs2 /\ b_hole b = true /\
    lookup_ordered_array (k_mem k) i (h_index h) = Ok (b_addr b) /\ hdr_size (k_mem k) (b_addr b) = b_size b /\
    (0x1000 <= b_addr b -> aligned_room b (size + 20) ->
     exists m' idx', alloc fuel size 1 k h =
         Ok (b_addr b + align_pad (b_addr b) + 12, with_mem m' k, with_index idx' h) /\
       heap_inv m' (with_index idx' h) (bs1 ++ split_aligned b (size + 20) ++ bs2) /\
       heap_frame h (b_addr b) (b_end b) (k_mem k) m').
Proof.
  intros Hi Hs Hb E Hne. destruct (hi_index _ _ _ Hi) as (l & Hrep & Hp). pose proof E as Ef.
  unfold find_smallest_hole in Ef. rewrite (proj1 Hrep), Nat2Z.id in Ef.
  destruct (find_hole_from_fits _ _ _ _ _ _ 0 _ Hrep eq_refl Ef Hne) as (j & x & -> & Hx & _). clear Ef.
  assert (x ∈ hole_addrs bs) as Hxh by (rewrite <- Hp; eapply list_elem_of_lookup_2; exact Hx).
  apply hole_addrs_in in Hxh as (b & Hbin & Hh & <-). pose proof (hi_blocks _ _ _ Hi b Hbin) as [(_ & Hsz & _) _].
  apply list_elem_of_split in Hbin as (bs1 & bs2 & ->).
  exists bs1, b, bs2. split_and!; [reflexivity | exact Hh | now rewrite (lookup_ordered_array_spec _ _ _ _ _ Hrep Hx) | exact Hsz |].
  intros Ha Hroom. destruct (alloc_at_aligned k h bs1 b bs2 l j size Hi Hh Hrep Hp Hx Hs Ha Hroom) as (m' & idx' & Ea & Hi' & Hfr).
  exists m', idx'. split_and!; [|exact Hi' | exact Hfr]. rewrite <- Ea.
  destruct fuel; cbn [alloc]; unfold SIZEOF_header, SIZEOF_footer;
    replace (size + 12 + 8) with (size + 20) by lia; rewrite (u32_small (size + 20)) by lia;
    rewrite E, bind_ok; rewrite (proj2 (Z.eqb_neq _ _)) by exact Hne; reflexivity.
Qed.

(** The aligned block starts a page, inside the hole. *)
Lemma align_pad_page a : (a + align_pad a + 12) mod 0x1000 = 0.
Proof. unfold align_pad, SIZEOF_header. zlia. Qed.

(** The block in use among the ones that replace the hole. *)
Lemma split_aligned_block b need :
  exists c, c ∈ split_aligned b need /\ b_hole c = false /\ b_addr c = b_addr b + align_pad (b_addr b) /\ b_size c = need.
Proof.
  exists (mk_block (b_addr b + align_pad (b_addr b)) need false). split; [|auto].
  unfold split_aligned, carve. right. destruct (_ =? _); left.
Qed.

(** ** The search with alignment *)

Lemma page_bits_odd x : 0 <= x -> page_bits_test x = Z.odd x.
Proof.
  intros Hx. unfold page_bits_test. cbn [Z.eqb]. rewrite (land_low_mod _ 1 1 eq_refl ltac:(lia)). change (2 ^ 1) with 2.
  rewrite Zmod_odd. destruct (Z.odd x); reflexivity.
Qed.

(** What the search takes for the room of the hole [b]: its whole size at an
    even address, and the size behind the first page boundary at an odd one. *)
Definition search_size (b : block) : Z :=
  b_size b - (if Z.odd (b_addr b) then 0x1000 - (b_addr b + SIZEOF_header) mod 0x1000 else 0).

(** The hole [b] passes the test of the search, and no smaller hole does. *)
Definition smallest_fit (bs : list block) (need : Z) (b : block) : Prop :=
  b ∈ bs /\ b_hole b = true /\ need <= search_size b /\
  forall c, c ∈ bs -> b_hole c = true -> need <= search_size c -> b_size b <= b_size c.

(** The test, on the hole [b] in memory. *)
Lemma hole_fits_aligned m e b need :
  block_ok m e b -> 0 <= b_addr b -> b_end b < 0x100000000 -> 20 <= b_size b < 0x80000000 -> 0 <= need < 0x80000000 ->
  hole_fits m need 1 (b_addr b) = (need <=? search_size b).
Proof.
  intros [(_ & Hsz & _) _] Ha He Hs Hn. unfold hole_fits, aligned_hole_size, search_size, b_end, SIZEOF_header in *. cbv zeta.
  change (0 <? 1) with true. cbv iota. rewrite (u32_small (b_addr b + 12)) by lia.
  rewrite page_bits_odd, Hsz, Z.odd_add by lia. change (Z.odd 12) with false. rewrite xorb_false_r.
  rewrite (i32_small need), (i32_small (b_size b)) by lia.
  destruct (Z.odd (b_addr b)); rewrite ?(i32_small (0x1000 - _)) by zlia; rewrite i32_small by zlia; reflexivity.
Qed.

(** The search takes the first entry that passes the test. *)
Lemma find_hole_from_first m size al a l n i p y :
  oa_rep m a l -> (i + n = length l)%nat -> (i <= p)%nat -> l !! p = Some y -> hole_fits m size al y = true ->
  exists q x, find_hole_from m size al a n (Z.of_nat i) = Ok (Z.of_nat q) /\ (q <= p)%nat /\ l !! q = Some x /\
    hole_fits m size al x = true /\ (forall j z, (i <= j < q)%nat -> l !! j = Some z -> hole_fits m size al z = false).
Proof.
  intros Hrep. revert i. induction n as [|n IH]; intros i Hin Hip Hy Hf; [apply lookup_lt_Some in Hy; lia|].
  cbn [find_hole_from]. destruct (lookup_lt_is_Some_2 l i) as [x Hx]; [lia|].
  rewrite (lookup_ordered_array_spec _ _ _ _ _ Hrep Hx), bind_ok. destruct (hole_fits m size al x) eqn:E.
  - exists i, x. split_and!; [reflexivity | exact Hip | exact Hx | exact E | lia].
  - assert (i <> p) as Hne by (intros ->; congruence).
    replace (Z.of_nat i + 1) with (Z.of_nat (S i)) by lia.
    destruct (IH (S i)) as (q & z & Eq & Hq & Hz & Hfz & Hb); [lia | lia | exact Hy | exact Hf |].
    exists q, z. split_and!; try assumption. intros j w Hj Hw. destruct (Nat.eq_dec j i) as [->|]; [congruence|].
    apply (Hb j w); [lia | exact Hw].
Qed.

(** With a sorted index the search ends at the smallest hole that passes. *)
Lemma find_smallest_aligned k h bs need :
  heap_inv (k_mem k) h bs -> index_sorted (k_mem k) h -> h_end_address h - h_start_address h < 0x80000000 ->
  0 <= need < 0x80000000 -> (exists b, b ∈ bs /\ b_hole b = true /\ need <= search_size b) ->
  exists i b, find_smallest_hole need 1 (k_mem k) h = Ok i /\ i <> -1 /\
    lookup_ordered_array (k_mem k) i (h_index h) = Ok (b_addr b) /\ smallest_fit bs need b.
Proof.
  intros Hi Hsorted Hlen Hn (b0 & Hb0 & Hh0 & Hf0). destruct (hi_index _ _ _ Hi) as (l & Hrep & Hp).
  pose proof (hi_start _ _ _ Hi). pose proof (hi_end _ _ _ Hi).
  assert (forall c, c ∈ bs -> b_hole c = true ->
    (hole_fits (k_mem k) need 1 (b_addr c) = (need <=? search_size c)) /\
    hdr_size (k_mem k) (b_addr c) = b_size c /\ exists j, l !! j = Some (b_addr c)) as Hc.
  { intros c Hc Hh. destruct (tiled_in _ _ _ c (hi_tiled _ _ _ Hi) Hc) as (? & ? & ?). unfold b_end in *.
    pose proof (hi_blocks _ _ _ Hi c Hc) as Hok. split_and!; [|apply Hok|].
    - apply (hole_fits_aligned _ (h_end_address h)); [exact Hok | unfold b_end; lia..].
    - apply list_elem_of_lookup. rewrite Hp. apply hole_addrs_in. eauto. }
  destruct (Hc b0 Hb0 Hh0) as (Hf & _ & p & Hp0). rewrite (proj2 (Z.leb_le _ _) Hf0) in Hf.
  destruct (find_hole_from_first (k_mem k) need 1 (h_index h) l (length l) 0 p _ Hrep eq_refl (Nat.le_0_l p) Hp0 Hf)
    as (q & x & E & _ & Hx & Hfx & Hbelow).
  assert (x ∈ hole_addrs bs) as Hxh by (rewrite <- Hp; eapply list_elem_of_lookup_2; exact Hx).
  apply hole_addrs_in in Hxh as (b & Hb & Hh & <-). destruct (Hc b Hb Hh) as (Hfb & Hsb & _).
  exists (Z.of_nat q), b. split_and!; [|lia|now rewrite (lookup_ordered_array_spec _ _ _ _ _ Hrep Hx)|].
  { unfold find_smallest_hole. rewrite (proj1 Hrep), Nat2Z.id. exact E. }
  split_and!; [exact Hb | exact Hh | rewrite Hfx in Hfb; symmetry in Hfb; now apply Z.leb_le in Hfb |].
  intros c Hcb Hhc Hfc. destruct (Hc c Hcb Hhc) as (Hfc' & Hsc & j & Hj). rewrite (proj2 (Z.leb_le _ _) Hfc) in Hfc'.
  rewrite <- Hsb, <- Hsc. destruct (Nat.lt_total j q) as [Hlt|[->|Hgt]].
  - rewrite (Hbelow j _ ltac:(lia) Hj) in Hfc'. discriminate Hfc'.
  - replace (b_addr c) with (b_addr b) by congruence. lia.
  - now apply (Hsorted l Hrep q j).
Qed.
