(* ===== verification/KHeapFree.v ===== *)
(** * The kernel heap: [free]

    [free] of a block whose right neighbour is in use merges the block into the
    hole on its left, or puts a new hole in the index.  [coalesce_left] is what
    happens to the list of blocks. *)

From S2P Require Import Prelude Memory Util OrderedArray Kernel Paging KHeap KHeapInv.

(** The blocks left of a freed block [b], and [b], after the call. *)
Definition coalesce_left (left : list block) (b : block) : list block :=
  match last left with
  | Some a =>
      if b_hole a then removelast left ++ [mk_block (b_addr a) (b_size a + b_size b) true]
      else left ++ [mk_block (b_addr b) (b_size b) true]
  | None => [mk_block (b_addr b) (b_size b) true]
  end.

Lemma removelast_snoc {A} (l : list A) x : removelast (l ++ [x]) = l.
Proof. rewrite removelast_app by discriminate. apply app_nil_r. Qed.

Lemma coalesce_left_snoc left a b :
  coalesce_left (left ++ [a]) b =
  if b_hole a then left ++ [mk_block (b_addr a) (b_size a + b_size b) true]
  else (left ++ [a]) ++ [mk_block (b_addr b) (b_size b) true].
Proof. unfold coalesce_left. rewrite last_snoc, removelast_snoc. reflexivity. Qed.

(** There is no hole to merge with on the left. *)
Definition no_left_hole (left : list block) : Prop := forall a, last left = Some a -> b_hole a = false.

Lemma coalesce_left_none left b :
  no_left_hole left -> coalesce_left left b = left ++ [mk_block (b_addr b) (b_size b) true].
Proof.
  unfold no_left_hole, coalesce_left. destruct (last left) as [a|] eqn:E.
  - intros ->; reflexivity.
  - apply last_None in E as ->. reflexivity.
Qed.

(** ** What the two neighbours look like *)

Lemma tiled_mid a e bs1 b bs2 :
  tiled a e (bs1 ++ b :: bs2) -> tiled a (b_addr b) bs1 /\ tiled (b_end b) e bs2 /\ 20 <= b_size b.
Proof. intros H. apply tiled_app in H as (c & H1 & <- & Hs & H2). auto. Qed.

Lemma tiled_last a e bs b : tiled a e (bs ++ [b]) -> b_end b = e.
Proof. intros H. apply tiled_app in H as (c & _ & _ & _ & H). exact H. Qed.

(** A block in use has both its header and its footer. *)
Lemma live_block_ok m h bs b :
  heap_inv m h bs -> b ∈ bs -> b_hole b = false -> header_ok m b /\ footer_ok m b.
Proof.
  intros Hi Hb Hh. destruct (hi_blocks _ _ _ Hi b Hb) as [? [?|[? _]]]; [auto | congruence].
Qed.

(** So has every block that does not end the heap. *)
Lemma inner_block_ok m h bs b :
  heap_inv m h bs -> b ∈ bs -> b_end b < h_end_address h -> header_ok m b /\ footer_ok m b.
Proof.
  intros Hi Hb Hh. destruct (hi_blocks _ _ _ Hi b Hb) as [? [?|[_ ?]]]; [auto | lia].
Qed.

(** The memory after the header of [b] says it is a hole. *)
Lemma mark_hole_frame m b : 20 <= b_size b -> same_but (b_addr b) (b_size b) m (set_hdr_is_hole m (b_addr b) 1).
Proof. intros H. apply same_but_store8. lia. Qed.

(** With no hole on the left, unify left does nothing. *)
Lemma unify_left_none m h bs1 b bs2 :
  heap_inv m h (bs1 ++ b :: bs2) -> no_left_hole bs1 -> 12 <= h_start_address h ->
  unify_left (set_hdr_is_hole m (b_addr b) 1) (b_addr b) (b_end b - 8) =
    (set_hdr_is_hole m (b_addr b) 1, b_addr b, true).
Proof.
  intros Hi Hn Hst. pose proof (hi_tiled _ _ _ Hi) as Ht. apply tiled_mid in Ht as (H1 & H2 & Hs).
  pose proof (tiled_le _ _ _ H1). pose proof (tiled_le _ _ _ H2). pose proof (hi_end _ _ _ Hi).
  unfold b_end in *. unfold unify_left, SIZEOF_footer. rewrite u32_small by lia.
  unfold ftr_magic, ftr_header, set_hdr_is_hole. rewrite !load32_store8_ne by lia.
  destruct (last bs1) as [a|] eqn:E.
  - apply last_Some in E as [l ->]. specialize (Hn a). rewrite last_snoc in Hn. specialize (Hn eq_refl).
    destruct (live_block_ok _ _ _ a Hi) as [(Hm & Hz & Hh) [Hf1 Hf2]]; [rewrite !elem_of_app, list_elem_of_singleton; auto | exact Hn |].
    apply tiled_last in H1 as Ha. rewrite Ha in Hf1, Hf2. unfold ftr_magic, ftr_header, SIZEOF_footer in Hf1, Hf2.
    replace (b_addr b - 8 + 4) with (b_addr b - 8 + 4) by lia. rewrite Hf1, Hf2, Hn in *.
    assert (b_end a = b_addr b /\ 20 <= b_size a) as [Hab Has].
    { split; [exact Ha|]. apply (tiled_in _ _ _ a H1). rewrite elem_of_app, list_elem_of_singleton. auto. }
    unfold b_end in Hab. unfold hdr_is_hole in *. rewrite load8_store8_ne by lia. rewrite Hh.
    rewrite Z.eqb_refl. reflexivity.
  - apply last_None in E as ->. simpl in H1. rewrite <- H1.
    pose proof (hi_left _ _ _ Hi) as Hl. unfold SIZEOF_footer in Hl.
    apply Z.eqb_neq in Hl. rewrite Hl. reflexivity.
Qed.

(** The memory after a merge with the hole on the left. *)
Definition merge_left_mem (m : mem) (a b : block) : mem :=
  set_hdr_size (store32 (set_hdr_is_hole m (b_addr b) 1) (b_end b - 8 + 4) (b_addr a)) (b_addr a)
    (b_size a + b_size b).

Lemma unify_left_hole m h bs0 a b bs2 :
  heap_inv m h ((bs0 ++ [a]) ++ b :: bs2) -> b_hole a = true ->
  unify_left (set_hdr_is_hole m (b_addr b) 1) (b_addr b) (b_end b - 8) =
    (merge_left_mem m a b, b_addr a, false).
Proof.
  intros Hi Hh. pose proof (hi_tiled _ _ _ Hi) as Ht. apply tiled_mid in Ht as (H1 & H2 & Hs).
  pose proof (tiled_le _ _ _ H1). pose proof (tiled_le _ _ _ H2). pose proof (hi_end _ _ _ Hi).
  pose proof (hi_start _ _ _ Hi).
  assert (a ∈ bs0 ++ [a]) as Hain by (rewrite elem_of_app, list_elem_of_singleton; auto).
  destruct (tiled_in _ _ _ a H1 Hain) as (Ha & Has & _). apply tiled_last in H1 as Hab.
  destruct (inner_block_ok _ _ _ a Hi) as [(Hm & Hz & Hho) [Hf1 Hf2]];
    [rewrite elem_of_app; auto | unfold b_end in *; lia |].
  destruct (hi_blocks _ _ _ Hi b) as [(_ & Hbz & _) _]; [rewrite elem_of_app, elem_of_cons; auto|].
  rewrite Hh in Hho. unfold b_end in *. rewrite Hab in *. unfold unify_left, SIZEOF_footer. rewrite u32_small by lia.
  unfold ftr_magic, ftr_header, set_hdr_is_hole, hdr_is_hole, SIZEOF_footer in *.
  rewrite !load32_store8_ne by lia. rewrite Hf1, Hf2, load8_store8_ne, Hho by lia.
  cbn [Z.eqb Pos.eqb andb]. rewrite Z.eqb_refl. cbn [andb].
  unfold hdr_size in *. rewrite load32_store8_ne by lia. rewrite Hbz.
  rewrite load32_store32_ne, load32_store8_ne, Hz by lia. rewrite u32_small by lia. reflexivity.
Qed.

(** With a block in use on the right, unify right does nothing, whatever was
    written left of it and in the index. *)
Lemma unify_right_none m m' h c x :
  header_ok m c -> b_hole c = false -> b_addr c < 0x100000000 -> 0 <= b_addr c ->
  same_on (b_addr c) 12 m m' ->
  unify_right m' h x (b_addr c - 8) = Ok (m', h_index h, b_addr c - 8, b_addr c).
Proof.
  intros (Hm & _ & Hh) Hc ? ? Hon. unfold unify_right, SIZEOF_footer.
  replace (b_addr c - 8 + 8) with (b_addr c) by lia. rewrite u32_small by lia.
  destruct (header_same_on m m' (b_addr c) Hon) as (-> & _ & ->). rewrite Hh, Hc, andb_false_r. reflexivity.
Qed.

(** What [free] is after unify left, when the right neighbour [c] is in use. *)
Lemma free_left k h bs1 b c bs2 m1 header add :
  heap_inv (k_mem k) h (bs1 ++ b :: c :: bs2) -> b_hole b = false -> b_hole c = false ->
  unify_left (set_hdr_is_hole (k_mem k) (b_addr b) 1) (b_addr b) (b_end b - 8) = (m1, header, add) ->
  same_on (b_addr c) 12 (k_mem k) m1 ->
  free (b_addr b + 12) k h =
    if (add : bool) then
      i ← insert_ordered_array m1 header (h_index h); Ok (with_mem i.1 (with_mem m1 k), with_index i.2 (with_index (h_index h) h))
    else Ok (with_mem m1 k, with_index (h_index h) h).
Proof.
  intros Hi Hb Hc Hul Hon. pose proof (hi_tiled _ _ _ Hi) as Ht. apply tiled_mid in Ht as (H1 & H2 & Hs).
  pose proof (tiled_le _ _ _ H1). destruct H2 as (Hbc & Hcs & H2). pose proof (tiled_le _ _ _ H2).
  pose proof (hi_start _ _ _ Hi). pose proof (hi_end _ _ _ Hi).
  unfold SIZEOF_header, SIZEOF_footer in Hcs. unfold b_end in *.
  destruct (live_block_ok _ _ _ b Hi) as [(Hm & Hz & _) [Hf _]]; [rewrite elem_of_app, elem_of_cons; auto | exact Hb |].
  destruct (live_block_ok _ _ _ c Hi) as [Hco _]; [rewrite elem_of_app, !elem_of_cons; auto | exact Hc |].
  unfold b_end in *. unfold free, SIZEOF_header, SIZEOF_footer in *. replace (b_addr b + 12 =? 0) with false by lia.
  replace (b_addr b + 12 - 12) with (b_addr b) by lia. rewrite (u32_small (b_addr b)) by lia.
  rewrite Hz, (u32_small (b_addr b + b_size b - 8)), Hm, Hf by lia. rewrite Z.eqb_refl.
  cbn [ASSERT mbind outcome_bind]. rewrite Hul.
  replace (b_addr b + b_size b - 8) with (b_addr c - 8) by lia.
  rewrite (unify_right_none (k_mem k) m1 h c header Hco Hc) by (lia || exact Hon).
  cbn [mbind outcome_bind]. replace (b_addr c - 8 + 8) with (b_addr c) by lia. rewrite (u32_small (b_addr c)) by lia.
  cbn [with_index h_end_address]. replace (b_addr c =? h_end_address h) with false by lia.
  cbn [mbind outcome_bind with_mem k_mem h_index]. reflexivity.
Qed.

(** ** The two cases of [free] *)

Lemma start_ge m h bs : heap_inv m h bs -> 12 <= h_start_address h.
Proof.
  intros Hi. pose proof (hi_array _ _ _ Hi). pose proof (hi_room _ _ _ Hi).
  pose proof (tiled_le _ _ _ (hi_tiled _ _ _ Hi)). lia.
Qed.

Lemma array_small m h bs : heap_inv m h bs -> oa_max_size (h_index h) < 0x100000000.
Proof.
  intros Hi. pose proof (hi_array _ _ _ Hi). pose proof (hi_end _ _ _ Hi).
  pose proof (tiled_le _ _ _ (hi_tiled _ _ _ Hi)). lia.
Qed.

Lemma with_same_index h : with_index (h_index h) h = h.
Proof. destruct h; reflexivity. Qed.

(** A new hole that another block's place takes keeps the index sorted. *)
Lemma index_sorted_insert m m' h idx' l l' x :
  oa_rep m' idx' l' -> l' = insert_list (lt_of header_t_less_than m) x l -> sorted_by (hdr_size m) l ->
  (forall y, y = x \/ y ∈ l -> hdr_size m' y = hdr_size m y) -> index_sorted m' (with_index idx' h).
Proof.
  intros Hrep -> Hs He l0 Hl0. rewrite (oa_rep_inj _ _ _ _ Hl0 Hrep).
  apply (sorted_by_ext (hdr_size m)).
  - intros y Hy. apply He. rewrite insert_list_perm, elem_of_cons in Hy. exact Hy.
  - apply insert_list_sorted; [|exact Hs]. intros y. apply key_order.
Qed.

(** A block in use that is marked a hole. *)
Lemma mark_hole_block_ok m m' e b :
  20 <= b_size b -> header_ok m b -> footer_ok m b ->
  same_on (b_addr b) (b_size b) (set_hdr_is_hole m (b_addr b) 1) m' ->
  block_ok m' e (mk_block (b_addr b) (b_size b) true).
Proof.
  intros Hs (Hm & Hz & _) [Hf1 Hf2] Hon. apply (block_ok_same_on (set_hdr_is_hole m (b_addr b) 1)); [exact Hs | exact Hon |].
  unfold block_ok, header_ok, footer_ok, b_end in *. cbn [b_addr b_size b_hole] in *.
  unfold hdr_magic, hdr_size, hdr_is_hole, ftr_magic, ftr_header, set_hdr_is_hole, SIZEOF_footer in *.
  rewrite !load32_store8_ne, load8_store8_eq by lia. auto.
Qed.

(** The mark changes no size. *)
Lemma mark_hole_sizes m h bs1 b bs2 l :
  heap_inv m h (bs1 ++ b :: bs2) -> b_hole b = false -> l ≡ₚ hole_addrs (bs1 ++ b :: bs2) ->
  forall y, y = b_addr b \/ y ∈ l -> h_start_address h <= y /\ hdr_size (set_hdr_is_hole m (b_addr b) 1) y = hdr_size m y.
Proof.
  intros Hi Hb Hp y Hy. pose proof (tiled_in _ _ _ b (hi_tiled _ _ _ Hi) ltac:(rewrite elem_of_app, elem_of_cons; auto)) as (Hba & Hbs & _).
  destruct Hy as [->|Hyl].
  - split; [lia|]. unfold hdr_size, set_hdr_is_hole. apply load32_store8_ne. lia.
  - rewrite Hp in Hyl. split.
    + apply hole_addrs_in in Hyl as (d & Hd & _ & <-). apply (tiled_in _ _ _ d (hi_tiled _ _ _ Hi) Hd).
    + apply (hdr_size_frame _ _ _ h bs1 [b] bs2 (b_addr b) (b_addr b + b_size b) y Hi);
        [now apply tiled_one | discriminate | eapply heap_frame_block; [now apply mark_hole_frame | lia..] |].
      rewrite hole_addrs_app, hole_addrs_cons, Hb in Hyl. now rewrite hole_addrs_app.
Qed.

(** No hole on the left: the block becomes a hole and goes into the index. *)
Lemma free_spec_insert k h bs1 b c bs2 :
  heap_inv (k_mem k) h (bs1 ++ b :: c :: bs2) -> b_hole b = false -> b_hole c = false -> no_left_hole bs1 ->
  exists m' idx', free (b_addr b + 12) k h = Ok (with_mem m' k, with_index idx' h) /\
    heap_inv m' (with_index idx' h) (coalesce_left bs1 b ++ c :: bs2) /\
    heap_frame h (b_addr b) (b_end b) (k_mem k) m' /\
    (index_sorted (k_mem k) h -> index_sorted m' (with_index idx' h)).
Proof.
  intros Hi Hb Hc Hn. pose proof (start_ge _ _ _ Hi) as Hge. pose proof (hi_tiled _ _ _ Hi) as Ht.
  apply tiled_mid in Ht as (H1 & H2 & Hs). pose proof (tiled_le _ _ _ H1). pose proof (tiled_le _ _ _ H2).
  assert (b_addr c = b_end b) as Hcb by (destruct H2; assumption). pose proof (hi_end _ _ _ Hi).
  pose proof (hi_array _ _ _ Hi). unfold b_end in *.
  pose proof (mark_hole_frame (k_mem k) b Hs) as Hfr1. set (m1 := set_hdr_is_hole (k_mem k) (b_addr b) 1) in *.
  destruct (hi_index _ _ _ Hi) as (l & Hrep & Hp). pose proof (index_length _ _ _ _ Hi Hrep Hp) as Hlen.
  assert (oa_rep m1 (h_index h) l) as Hrep1.
  { destruct Hrep as [Hz Hw]. split; [exact Hz|]. eapply words_frame_block; [exact Hi | exact Hfr1 | lia | lia | exact Hw]. }
  destruct (index_insert m1 h (h_index h) l (b_addr b) Hrep1 (hi_less_than _ _ _ Hi)) as
    (m2 & idx' & l' & E & Hrep' & Hl' & Harr & Hmax & Hlt & Hfr2);
    [reflexivity | reflexivity | lia | lia | apply (array_small _ _ _ Hi) |].
  assert (heap_frame h (b_addr b) (b_addr b + b_size b) (k_mem k) m2) as Hfr.
  { eapply heap_frame_trans; [eapply heap_frame_block; [exact Hfr1 | lia..] | apply heap_frame_index; exact Hfr2]. }
  exists m2, idx'. split_and!.
  - erewrite free_left; [|exact Hi | exact Hb | exact Hc | apply (unify_left_none _ _ _ _ _ Hi Hn Hge) |
      eapply same_but_on; [exact Hfr1 | lia]].
    cbv iota beta. fold m1. rewrite E, with_same_index. reflexivity.
  - rewrite coalesce_left_none by exact Hn. rewrite <- app_assoc.
    eapply (heap_inv_replace _ _ _ _ _ [b] _ _ (b_addr b) (b_addr b + b_size b));
      [exact Hi | now apply tiled_one | exact (tiled_one (mk_block (b_addr b) (b_size b) true) Hs) | discriminate | exact Hfr | | exact Harr | exact Hmax | | ].
    + destruct (live_block_ok _ _ _ b Hi) as [Hh Hf]; [rewrite elem_of_app, elem_of_cons; auto | exact Hb |].
      intros d Hd. apply list_elem_of_singleton in Hd as ->. apply (mark_hole_block_ok (k_mem k)); [exact Hs | exact Hh | exact Hf |].
      eapply same_but_on; [exact Hfr2 | unfold index_room; lia].
    + rewrite Hlt. symmetry. apply (hi_less_than _ _ _ Hi).
    + exists l'. split; [exact Hrep'|]. rewrite Hl', insert_list_perm, Hp, !hole_addrs_app, !hole_addrs_cons, Hb.
      cbn [b_hole b_addr app]. apply Permutation_middle.
  - exact Hfr.
  - intros Hsorted.
    pose proof (mark_hole_sizes _ _ _ _ _ l Hi Hb Hp) as Hy. fold m1 in Hy.
    eapply index_sorted_insert; [exact Hrep' | exact Hl' | |].
    + eapply sorted_by_ext; [|exact (Hsorted l Hrep)]. intros y Hyl. apply Hy. auto.
    + intros y Hyl. destruct (Hy y Hyl) as [Hya _]. apply (same_but_load32 _ _ _ _ _ Hfr2). unfold index_room. lia.
Qed.

(** A hole on the left: it takes the block, and the index stays. *)
Lemma free_spec_merge k h bs0 a b c bs2 :
  heap_inv (k_mem k) h ((bs0 ++ [a]) ++ b :: c :: bs2) -> b_hole b = false -> b_hole c = false -> b_hole a = true ->
  exists m', free (b_addr b + 12) k h = Ok (with_mem m' k, h) /\
    heap_inv m' h (coalesce_left (bs0 ++ [a]) b ++ c :: bs2) /\
    heap_frame h (b_addr a) (b_end b) (k_mem k) m'.
Proof.
  intros Hi Hb Hc Ha. pose proof (hi_tiled _ _ _ Hi) as Ht.
  apply tiled_mid in Ht as (H1 & H2 & Hs). pose proof (tiled_le _ _ _ H1). pose proof (tiled_le _ _ _ H2).
  assert (b_addr c = b_end b) as Hcb by (destruct H2; assumption). pose proof (hi_end _ _ _ Hi).
  pose proof (hi_start _ _ _ Hi). pose proof (hi_array _ _ _ Hi).
  assert (a ∈ bs0 ++ [a]) as Hain by (rewrite elem_of_app, list_elem_of_singleton; auto).
  destruct (tiled_in _ _ _ a H1 Hain) as (Haa & Has & _). pose proof (tiled_last _ _ _ _ H1) as Hab.
  destruct (inner_block_ok _ _ _ a Hi) as [(Hm & Hz & Hho) _];
    [rewrite elem_of_app; auto | unfold b_end in *; lia |].
  destruct (live_block_ok _ _ _ b Hi) as [_ [Hf1 _]]; [rewrite elem_of_app, elem_of_cons; auto | exact Hb |].
  unfold b_end in *. set (m' := merge_left_mem (k_mem k) a b).
  assert (same_but (b_addr a) (b_size a + b_size b) (k_mem k) m') as Hfr.
  { unfold m', merge_left_mem, set_hdr_size, set_hdr_is_hole, b_end.
    eapply same_but_trans; [|apply same_but_store32; lia].
    eapply same_but_trans; [|apply same_but_store32; lia]. apply same_but_store8; lia. }
  assert (heap_frame h (b_addr a) (b_addr b + b_size b) (k_mem k) m') as Hframe
    by (eapply heap_frame_block; [exact Hfr | lia..]).
  exists m'. split_and!.
  - erewrite free_left; [|exact Hi | exact Hb | exact Hc | apply (unify_left_hole _ _ _ _ _ _ Hi Ha) |
      eapply same_but_on; [exact Hfr | lia]].
    cbv iota beta. rewrite with_same_index. reflexivity.
  - rewrite coalesce_left_snoc, Ha, <- app_assoc. rewrite <- app_assoc in Hi.
    change (bs0 ++ [a] ++ b :: c :: bs2) with (bs0 ++ [a; b] ++ c :: bs2) in Hi.
    rewrite <- (with_same_index h).
    eapply (heap_inv_replace _ _ _ _ _ [a; b] _ _ (b_addr a) (b_addr b + b_size b));
      [exact Hi | | | discriminate | exact Hframe | | reflexivity | reflexivity | reflexivity | ].
    + simpl. unfold b_end, SIZEOF_header, SIZEOF_footer. split_and!; [reflexivity | lia | lia | lia | reflexivity].
    + simpl. unfold b_end, SIZEOF_header, SIZEOF_footer. split_and!; [reflexivity | simpl; lia | simpl; lia].
    + intros d Hd. apply list_elem_of_singleton in Hd as ->. rewrite Ha in Hho.
      unfold block_ok, header_ok, footer_ok, b_end in *. cbn [b_addr b_size b_hole] in *.
      replace (b_addr a + (b_size a + b_size b) - SIZEOF_footer) with (b_addr b + b_size b - 8) by (unfold SIZEOF_footer; lia).
      unfold m', merge_left_mem, hdr_magic, hdr_size, hdr_is_hole, ftr_magic, ftr_header, set_hdr_size, set_hdr_is_hole, b_end, SIZEOF_footer in *.
      rewrite load8_store32_ne, load8_store32_ne, load8_store8_ne, Hho by lia.
      rewrite load32_store32_eq, u32_small by lia. rewrite !(load32_store32_ne _ (b_addr a + 8)) by lia.
      rewrite load32_store32_eq, u32_small by lia. rewrite !load32_store32_ne, !load32_store8_ne by lia. auto.
    + destruct (hi_index _ _ _ Hi) as (l & [Hz' Hw] & Hp). exists l. split.
      * split; [exact Hz'|]. eapply words_frame_block; [exact Hi | exact Hfr | lia | | exact Hw].
        pose proof (index_length _ _ _ _ Hi (conj Hz' Hw) Hp). lia.
      * rewrite Hp, !hole_addrs_app, !hole_addrs_cons, Ha, Hb. reflexivity.
  - exact Hframe.
Qed.

