(* ===== verification/KHeapGrow.v ===== *)
(** * The kernel heap: growth

    When no hole fits, [alloc] calls [expand], which maps the pages behind the
    heap, and gives the new bytes to the endmost hole.  That is right when the
    endmost hole ends the heap, or when there is no hole at all. *)

From S2P Require Import Prelude Memory Util OrderedArray Kernel Paging KHeap KHeapInv KHeapAlign.

(** ** Frames for a number of pages *)

Definition frames_free (k : kernel) (n : nat) : Prop :=
  exists l, NoDup l /\ (n <= length l)%nat /\ Forall (fun f => frame_range k f /\ frame_used k f = false) l.

Lemma frames_free_take k m idx n :
  k_frames k = k_frames (with_mem m k) ->
  (forall f, frame_range k f -> frame_used (with_mem m k) f = (idx =? f) || frame_used k f) ->
  frames_free k (S n) -> frames_free (with_mem m k) n.
Proof.
  intros _ Hu (l & Hn & Hl & Hf). destruct (decide (idx ∈ l)) as [Hin|Hin].
  - apply list_elem_of_split in Hin as (l1 & l2 & ->). rewrite <- Permutation_middle in Hn, Hf.
    apply NoDup_cons in Hn as [Hi Hn]. apply Forall_cons in Hf as [_ Hf]. exists (l1 ++ l2).
    rewrite length_app in *. cbn [length] in Hl. split_and!; [exact Hn | lia |].
    apply Forall_forall. intros f Hf'. rewrite Forall_forall in Hf. destruct (Hf f Hf') as [Hr Hfree]. split; [exact Hr|].
    rewrite Hu by exact Hr. rewrite Hfree, orb_false_r. apply Z.eqb_neq. congruence.
  - exists l. split_and!; [exact Hn | lia |]. apply Forall_forall. intros f Hf'. rewrite Forall_forall in Hf.
    destruct (Hf f Hf') as [Hr Hfree]. split; [exact Hr|]. rewrite Hu by exact Hr. rewrite Hfree, orb_false_r. apply Z.eqb_neq. congruence.
Qed.

(** [alloc_frame] with a frame to spare: only the entry and the bitmap change. *)
Lemma alloc_frame_step k page ik iw n :
  0 <= k_nframes k <= 0x100000 -> outside_bitmap k page 4 -> frames_free k (S n) ->
  exists m, alloc_frame page ik iw k = Ok (with_mem m k) /\ frames_free (with_mem m k) n /\
    (forall x, x < page \/ page + 4 <= x -> x < k_frames k \/ k_frames k + bitmap_size k <= x -> load8 m x = load8 (k_mem k) x).
Proof.
  intros Hn Hout Hfree. destruct (Z.eqb_spec (page_frame (load32 (k_mem k) page)) 0) as [E|E].
  - pose proof Hfree as (l & Hnd & Hl & Hf). destruct l as [|g l']; [simpl in Hl; lia|].
    pose proof (first_frame_spec k ltac:(lia)) as H. destruct (first_frame k) as [idx| | |] eqn:Ef; try tauto.
    2: { apply Forall_cons in Hf as [[Hr Hu] _]. rewrite H in Hu by exact Hr. discriminate. }
    destruct H as (Hr & _ & _). pose proof (frame_range_bound k idx ltac:(lia) Hr) as Hb.
    exists (store32 (k_mem (set_frame (idx * 0x1000) k)) page (page_entry (load32 (k_mem k) page) idx ik iw)). split_and!.
    + rewrite (alloc_frame_eq k page ik iw idx E Ef Hb Hr Hout). reflexivity.
    + apply (frames_free_take k _ idx n eq_refl); [|exact Hfree].
      intros f Hfr. rewrite <- (set_frame_used k idx f) by (lia || apply Hfr).
      exact (frame_used_outside (set_frame (idx * 0x1000) k) page (page_entry (load32 (k_mem k) page) idx ik iw) f Hout Hfr).
    + intros x H1 H2. rewrite load8_store32_ne by lia. rewrite set_frame_mem, Z.div_mul by lia.
      apply load8_store32_ne. unfold bitmap_size, frame_range in *. zlia.
  - exists (k_mem k). rewrite with_mem_id. split_and!.
    + unfold alloc_frame. rewrite (proj2 (Z.eqb_neq _ _) E). reflexivity.
    + destruct Hfree as (l & Hnd & Hl & Hf). exists l. split_and!; [exact Hnd | lia | exact Hf].
    + reflexivity.
Qed.

(** ** expand *)

(** Where [expand] puts the end for [new_size]: an odd size is rounded up to a
    page, an even one is not. *)
Definition grown_size (new_size : Z) : Z :=
  if Z.odd new_size then new_size - new_size mod 0x1000 + 0x1000 else new_size.

(** The tables of the pages from [a] to [e] exist, and neither they, the
    directory nor the bitmap lies in the heap's area [lo, hi) or in another's
    way. *)
Record growth_ready (k : kernel) (lo hi a e : Z) : Prop := {
  gr_frames : 0 <= k_nframes k <= 0x100000;
  gr_bitmap : k_frames k + bitmap_size k <= lo \/ hi <= k_frames k;
  gr_directory : outside_bitmap k (k_kernel_directory k) 0x1000;
  gr_table : forall x, a <= x < e ->
    let t := load32 (k_mem k) (k_kernel_directory k + 4 * (x / 0x400000)) in
    t <> 0 /\ outside_bitmap k t 0x1000 /\ (t + 0x1000 <= lo \/ hi <= t) /\
    (t + 0x1000 <= k_kernel_directory k \/ k_kernel_directory k + 0x1000 <= t);
}.

Lemma grown_size_ge x : 0 <= x -> x <= grown_size x < x + 0x1000 + 1.
Proof. intros Hx. unfold grown_size. destruct (Z.odd x); zlia. Qed.

(** The pages that [n] bytes behind a heap of [l] bytes take. *)
Definition pages_for (n : Z) : nat := Z.to_nat ((n + 0xFFF) / 0x1000).

(** The state of the loop: what is mapped of the [S'] bytes. *)
Definition expanding (k : kernel) (L S' lo hi : Z) (st : kernel * Z) : Prop :=
  exists m, st.1 = with_mem m k /\ L <= st.2 < S' + 0x1000 /\ frames_free (with_mem m k) (pages_for (S' - st.2)) /\
    same_on lo (hi - lo) (k_mem k) m /\ same_on (k_kernel_directory k) 0x1000 (k_mem k) m.

Lemma expand_step_ok k h lo hi S' k1 i : let start := h_start_address h in
  0 <= start -> h_end_address h <= start + S' -> start + S' + 0x1000 < 0x100000000 -> growth_ready k lo hi (h_end_address h) (start + S') ->
  h_end_address h - start < S' -> 0 <= h_end_address h - start ->
  expanding k (h_end_address h - start) S' lo hi (k1, i) -> i < S' ->
  exists st, expand_step h (k1, i) = Ok st /\ expanding k (h_end_address h - start) S' lo hi st /\
    (pages_for (S' - st.2) < pages_for (S' - i))%nat.
Proof.
  cbv zeta. intros Hst He Hb [Hnf Hbm Hdir Htab] HL HL0 (m & Ek & Hi & Hf & Hs & Hd) Hc. set (start := h_start_address h) in *.
  set (L := h_end_address h - start) in *. cbn [fst snd] in *. subst k1.
  assert (pages_for (S' - i) = S (pages_for (S' - (i + 0x1000)))) as Epg by (unfold pages_for; zlia). rewrite Epg in Hf.
  destruct (Htab (start + i) ltac:(lia)) as (Ht0 & Ht1 & Ht2 & Ht3). set (t := load32 (k_mem k) _) in *.
  assert (load32 m (k_kernel_directory k + 4 * ((start + i) / 0x400000)) = t) as Et.
  { subst t. unfold load32. rewrite !Hd by zlia. reflexivity. }
  set (page := t + 4 * ((start + i) / 0x1000 mod 1024)).
  assert (t <= page /\ page + 4 <= t + 0x1000) as Hpage by (subst page; zlia).
  destruct (alloc_frame_step (with_mem m k) page (if h_supervisor h =? 0 then 0 else 1) (if h_readonly h =? 0 then 1 else 0)
    (pages_for (S' - (i + 0x1000))) Hnf)
    as (m' & Ea & Hf' & Hsame); [unfold outside_bitmap in *; change (bitmap_size (with_mem m k)) with (bitmap_size k); simpl; lia | exact Hf |].
  change (bitmap_size (with_mem m k)) with (bitmap_size k) in Hsame. cbn [k_frames with_mem k_mem] in Hsame.
  exists (with_mem m' k, i + 0x1000). split; [|split; [exists m'; split_and!|]]; cbn [fst snd].
  - unfold expand_step. fold start. rewrite (u32_small (start + i)) by lia. unfold get_page_ptr_in_page_table.
    cbn [k_kernel_directory with_mem k_mem]. unfold dir_table. rewrite Z.div_div by lia. change (0x1000 * 1024) with 0x400000.
    rewrite Et, (proj2 (Z.eqb_neq _ _) Ht0). cbn [negb]. rewrite bind_ok. cbv beta iota zeta. fold page. rewrite Ea, bind_ok, (u32_small (i + 0x1000)) by lia. reflexivity.
  - reflexivity.
  - lia.
  - lia.
  - exact Hf'.
  - intros x Hx. rewrite Hsame by lia. now apply Hs.
  - intros x Hx. unfold outside_bitmap in Hdir. rewrite Hsame by lia. now apply Hd.
  - lia.
Qed.

(** [expand] is its loop when the new size is more than the heap's and fits. *)
Lemma expand_eq new_size k h :
  let start := h_start_address h in
  let e := start + grown_size new_size in
  0 <= start <= h_end_address h -> h_end_address h - start < new_size -> e <= h_max_address h -> e < 0x100000000 ->
  expand new_size k h =
    st ← while (Z.to_nat (grown_size new_size / 0x1000 + 1)) (fun '(_, i) => i <? grown_size new_size) (expand_step h)
           (k, h_end_address h - start);
    Ok (st.1, with_end_address e h).
Proof.
  cbv zeta. intros Hst Hn Hmax Hb. set (start := h_start_address h) in *.
  pose proof (grown_size_ge new_size ltac:(lia)) as Hg. unfold expand. fold start.
  rewrite (u32_small (h_end_address h - start)), page_bits_odd by lia. replace (h_end_address h - start <? new_size) with true by lia.
  assert ((if Z.odd new_size then u32 (Z.land new_size 0xFFFFF000 + 0x1000) else new_size) = grown_size new_size) as ->.
  { unfold grown_size in *. destruct (Z.odd new_size); [|reflexivity]. rewrite land_FFFFF000 by lia. apply u32_small. zlia. }
  cbn [ASSERT mbind outcome_bind]. rewrite (u32_small (start + grown_size new_size)) by lia.
  replace (start + grown_size new_size <=? h_max_address h) with true by lia. reflexivity.
Qed.

Lemma expand_spec new_size k h lo hi :
  let start := h_start_address h in
  let e := start + grown_size new_size in
  0 <= start <= h_end_address h -> h_end_address h - start < new_size -> e <= h_max_address h -> e + 0x1000 < 0x100000000 ->
  growth_ready k lo hi (h_end_address h) e -> frames_free k (pages_for (e - h_end_address h)) ->
  exists m, expand new_size k h = Ok (with_mem m k, with_end_address e h) /\ same_on lo (hi - lo) (k_mem k) m.
Proof.
  cbv zeta. intros Hst Hn Hmax Hb Hready Hfree. set (start := h_start_address h) in *.
  pose proof (grown_size_ge new_size ltac:(lia)) as Hg. rewrite expand_eq by (fold start; lia). fold start.
  set (S' := grown_size new_size) in *. set (L := h_end_address h - start) in *. clearbody S'.
  destruct (while_rule (expanding k L S' lo hi) (fun st => pages_for (S' - st.2)) (fun '(_, i) => i <? S') (expand_step h)
    (Z.to_nat (S' / 0x1000 + 1)) (k, L)) as ([k' i'] & E & (m & Ek & _ & _ & Hs & _) & _).
  - intros [k1 i] Hst' Hc. apply Z.ltb_lt in Hc. apply (expand_step_ok k h lo hi S'); (assumption || lia).
  - exists (k_mem k). cbn [fst snd]. rewrite with_mem_id.
    split_and!; [reflexivity | lia | lia | | intros x _; reflexivity | intros x _; reflexivity].
    replace (S' - L) with (start + S' - h_end_address h) by (subst L; lia). exact Hfree.
  - cbn [snd]. unfold pages_for. subst L. zlia.
  - rewrite E, bind_ok. cbn [fst] in *. subst k'. exists m. auto.
Qed.

(** ** The endmost header *)

Lemma endmost_from_spec m a l n : forall i idx v,
  oa_rep m a l -> Forall (fun x => 0 < x) l -> (i + n = length l)%nat ->
  (forall j x, (j < i)%nat -> l !! j = Some x -> x <= v) ->
  (v = 0 /\ idx = u32 (-1)) \/ (exists j, idx = Z.of_nat j /\ l !! j = Some v) ->
  exists idx' v', endmost_from m a n (Z.of_nat i) idx v = Ok (idx', v') /\ (forall x, x ∈ l -> x <= v') /\
    ((l = [] /\ idx' = u32 (-1)) \/ (exists j, idx' = Z.of_nat j /\ l !! j = Some v')).
Proof.
  induction n as [|n IH]; intros i idx v Hrep Hpos Hin Hle Hv; cbn [endmost_from].
  - exists idx, v. assert (forall x, x ∈ l -> x <= v) as Hall.
    { intros x Hx. apply list_elem_of_lookup in Hx as [j Hj]. apply (Hle j x); [|exact Hj]. apply lookup_lt_Some in Hj. lia. }
    split_and!; [reflexivity | exact Hall |]. destruct Hv as [[-> ->]|Hv]; [|now right]. left. split; [|reflexivity].
    destruct l as [|x l']; [reflexivity|]. apply Forall_cons in Hpos as [Hx _]. specialize (Hall x ltac:(left)). lia.
  - destruct (lookup_lt_is_Some_2 l i) as [x Hx]; [lia|]. rewrite (lookup_ordered_array_spec _ _ _ _ _ Hrep Hx), bind_ok.
    replace (Z.of_nat i + 1) with (Z.of_nat (S i)) by lia.
    assert (forall w, v <= w -> x <= w -> forall j y, (j < S i)%nat -> l !! j = Some y -> y <= w) as Hnext.
    { intros w Hw Hxw j y Hj Hy. destruct (decide (j = i)) as [->|Hne]; [congruence|]. specialize (Hle j y ltac:(lia) Hy). lia. }
    destruct (Z.ltb_spec v x); apply IH; try assumption; try lia.
    + apply Hnext; lia.
    + right. eauto.
    + apply Hnext; lia.
Qed.

(** ** A heap whose end moves *)

Lemma heap_inv_extend m m' h idx e bs1 old new a :
  heap_inv m h (bs1 ++ old) -> tiled (h_start_address h) a bs1 -> tiled a e new ->
  e < 0x100000000 -> e - h_start_address h <= 20 * (oa_max_size (h_index h) - 4) ->
  (forall x, oa_array (h_index h) + index_room h <= x < a -> load8 m' x = load8 m x) ->
  (forall c, c ∈ bs1 -> b_hole c = true -> b_end c <> h_end_address h) ->
  (forall c, c ∈ new -> block_ok m' e c) ->
  oa_array idx = oa_array (h_index h) -> oa_max_size idx = oa_max_size (h_index h) ->
  oa_less_than idx = oa_less_than (h_index h) ->
  (exists l, oa_rep m' idx l /\ l ≡ₚ hole_addrs (bs1 ++ new)) ->
  heap_inv m' (with_index idx (with_end_address e h)) (bs1 ++ new).
Proof.
  intros Hi Ht1 Htn He Hroom Hfr Hends Hnew Ea Em El Hidx. pose proof (hi_array _ _ _ Hi) as Harr. pose proof (tiled_le _ _ _ Ht1) as Hle.
  unfold index_room in Hfr. constructor; cbn [h_start_address h_end_address h_index with_index with_end_address]; rewrite ?Ea, ?Em, ?El; try apply Hi.
  - exact He.
  - apply tiled_app. eauto.
  - intros c Hc. apply elem_of_app in Hc as [Hc|Hc]; [|now apply Hnew].
    destruct (tiled_in _ _ _ c Ht1 Hc) as (Hc1 & Hc2 & Hc3).
    destruct (hi_blocks _ _ _ Hi c ltac:(rewrite elem_of_app; auto)) as [Hh [Hf|[Hh' Hend]]]; [|destruct (Hends c Hc Hh' Hend)].
    apply (block_ok_same_on m); [exact Hc2 | intros x Hx; apply Hfr; unfold b_end in *; lia |]. split; [exact Hh | left; exact Hf].
  - exact Hidx.
  - exact Hroom.
  - unfold SIZEOF_footer. replace (load32 m' (h_start_address h - 8)) with (load32 m (h_start_address h - 8)); [apply (hi_left _ _ _ Hi)|].
    unfold load32. rewrite !Hfr by lia. reflexivity.
Qed.

(** The hole that the [delta] new bytes make, behind the blocks [front]: the
    hole at the end takes them, or they become one behind blocks all in use. *)
Inductive grown (e delta : Z) : list block -> list block -> block -> Prop :=
| grown_last front b : b_hole b = true ->
    grown e delta (front ++ [b]) front (mk_block (b_addr b) (b_size b + delta) true)
| grown_new bs : hole_addrs bs = [] -> grown e delta bs bs (mk_block e delta true).

(** The state of the heap that [expand] leaves is still good. *)
Lemma heap_inv_area m m' h bs : heap_inv m h bs ->
  same_on (oa_array (h_index h)) (h_end_address h - oa_array (h_index h)) m m' -> heap_inv m' h bs.
Proof.
  intros Hi Hs. pose proof (hi_array _ _ _ Hi) as Harr. pose proof (tiled_le _ _ _ (hi_tiled _ _ _ Hi)) as Hle. pose proof (hi_room _ _ _ Hi).
  constructor; try apply Hi.
  - intros b Hb. destruct (tiled_in _ _ _ b (hi_tiled _ _ _ Hi) Hb) as (H1 & H2 & H3). unfold b_end in *.
    apply (block_ok_same_on m); [exact H2 | intros x Hx; apply Hs; lia | now apply (hi_blocks _ _ _ Hi)].
  - destruct (hi_index _ _ _ Hi) as (l & Hrep & Hp). exists l. split; [|exact Hp]. pose proof (index_length _ _ _ _ Hi Hrep Hp) as Hlen.
    destruct Hrep as [Hz Hw]. split; [exact Hz|]. intros i x Hx. rewrite <- (Hw i x Hx). unfold get_elem.
    apply lookup_lt_Some in Hx. unfold load32. rewrite !Hs by lia. reflexivity.
  - unfold SIZEOF_footer. replace (load32 m' (h_start_address h - 8)) with (load32 m (h_start_address h - 8)); [apply (hi_left _ _ _ Hi)|].
    unfold load32. rewrite !Hs by lia. reflexivity.
Qed.

(** The hole at the end grows. *)
Lemma grow_last_hole m h bs1 b delta e :
  heap_inv m h (bs1 ++ [b]) -> b_hole b = true -> 0 <= delta -> e = h_end_address h + delta -> e < 0x100000000 ->
  e - h_start_address h <= 20 * (oa_max_size (h_index h) - 4) ->
  let size := b_size b + delta in
  let m' := write_footer (set_hdr_size m (b_addr b) size) (e - SIZEOF_footer) (b_addr b) in
  heap_inv m' (with_end_address e h) (bs1 ++ [mk_block (b_addr b) size true]) /\
  same_on (oa_array (h_index h)) (b_addr b - oa_array (h_index h)) m m' /\
  same_but (oa_array (h_index h)) (e - oa_array (h_index h)) m m'.
Proof.
  cbv zeta. intros Hi Hh Hd -> He Hroom. pose proof (hi_tiled _ _ _ Hi) as Ht. apply tiled_app in Ht as (a & Ht1 & Ha & Hb & Hend).
  cbn [tiled] in Hend. subst a. unfold b_end in Hend. pose proof (hi_array _ _ _ Hi) as Harr. pose proof (tiled_le _ _ _ Ht1) as Hle. pose proof (hi_start _ _ _ Hi).
  destruct (hi_blocks _ _ _ Hi b ltac:(rewrite elem_of_app; right; left)) as [(Hm & Hs & Hho) _].
  unfold SIZEOF_header, SIZEOF_footer in *. set (size := b_size b + delta). set (f := h_end_address h + delta - 8).
  set (m' := write_footer (set_hdr_size m (b_addr b) size) f (b_addr b)).
  assert (same_but f 8 (set_hdr_size m (b_addr b) size) m') as Hf by apply write_footer_frame.
  assert (forall x, x < b_addr b + 8 -> load8 m' x = load8 m x) as Hlow.
  { intros x Hx. rewrite Hf by (subst f; lia). apply load8_store32_ne. lia. }
  split; [|split; [intros x Hx; apply Hlow; lia | intros x Hx; rewrite Hf by (subst f; lia); apply load8_store32_ne; lia]].
  assert (with_end_address (h_end_address h + delta) h = with_index (h_index h) (with_end_address (h_end_address h + delta) h)) as -> by (destruct h; reflexivity).
  apply (heap_inv_extend m m' h _ _ bs1 [b] _ (b_addr b)); try reflexivity; try assumption.
  - simpl. unfold b_end, size, SIZEOF_header, SIZEOF_footer. cbn [b_addr b_size]. lia.
  - intros x Hx. apply Hlow. lia.
  - intros c Hc _. destruct (tiled_in _ _ _ c Ht1 Hc). lia.
  - intros c Hc. apply list_elem_of_singleton in Hc as ->. split.
    + unfold header_ok, hdr_magic, hdr_is_hole, hdr_size in *. cbn [b_addr b_size b_hole]. split_and!.
      * unfold load32. rewrite !Hlow by lia. exact Hm.
      * rewrite (same_but_load32 _ _ _ _ _ Hf) by (subst f; lia). unfold set_hdr_size. rewrite load32_store32_eq. apply u32_small. subst size. lia.
      * rewrite Hlow, Hho, Hh by lia. reflexivity.
    + left. unfold footer_ok, b_end, SIZEOF_footer. cbn [b_addr b_size]. replace (b_addr b + size - 8) with f by (subst size f; lia).
      destruct (write_footer_fields (set_hdr_size m (b_addr b) size) f (b_addr b)) as [H1 H2]. fold m' in H1, H2.
      rewrite H1, H2, u32_small by lia. auto.
  - destruct (hi_index _ _ _ Hi) as (l & Hrep & Hp). exists l. pose proof (index_length _ _ _ _ Hi Hrep Hp) as Hlen. destruct Hrep as [Hz Hw]. split.
    + split; [exact Hz|]. intros i x Hx. rewrite <- (Hw i x Hx). unfold get_elem. apply lookup_lt_Some in Hx. unfold load32. rewrite !Hlow by lia. reflexivity.
    + rewrite Hp, !hole_addrs_app, !hole_addrs_cons, Hh. reflexivity.
Qed.

(** With no hole in the heap, the new bytes become one. *)
Lemma grow_new_hole m h bs delta e :
  heap_inv m h bs -> hole_addrs bs = [] -> 20 <= delta -> e = h_end_address h + delta -> e < 0x100000000 ->
  e - h_start_address h <= 20 * (oa_max_size (h_index h) - 4) ->
  let m1 := write_footer (write_header m (h_end_address h) delta 1) (e - SIZEOF_footer) (h_end_address h) in
  exists m' idx, insert_ordered_array m1 (h_end_address h) (h_index h) = Ok (m', idx) /\
    heap_inv m' (with_index idx (with_end_address e h)) (bs ++ [mk_block (h_end_address h) delta true]) /\
    same_on (h_start_address h) (h_end_address h - h_start_address h) m m' /\
    same_but (oa_array (h_index h)) (e - oa_array (h_index h)) m m' /\ oa_array idx = oa_array (h_index h).
Proof.
  cbv zeta. intros Hi Hno Hd -> He Hroom. set (old := h_end_address h) in *. set (b := mk_block old delta true).
  pose proof (hi_tiled _ _ _ Hi) as Ht. pose proof (tiled_le _ _ _ Ht) as Hle. pose proof (hi_array _ _ _ Hi) as Harr. fold old in Ht, Hle.
  pose proof (hi_start _ _ _ Hi). set (m1 := write_footer _ _ _).
  assert (same_but old delta m m1) as Hm1.
  { subst m1. unfold SIZEOF_footer. apply (same_but_trans _ _ _ (write_header m old delta 1)).
    - eapply same_but_widen; [| |apply write_header_frame]; lia.
    - eapply same_but_widen; [| |apply write_footer_frame]; lia. }
  destruct (hi_index _ _ _ Hi) as (l & Hrep & Hp). rewrite Hno in Hp. apply Permutation_nil_r in Hp as ->.
  assert (oa_rep m1 (h_index h) []) as Hrep1 by (split; [apply Hrep | intros i x Hx; discriminate]).
  destruct (index_insert m1 h (h_index h) [] old Hrep1 (hi_less_than _ _ _ Hi) eq_refl eq_refl ltac:(lia) ltac:(simpl; lia) ltac:(lia))
    as (m' & idx & l' & E & Hrep' & El & Ea & Em & Elt & Hfr).
  assert (forall x, oa_array (h_index h) + index_room h <= x < old -> load8 m' x = load8 m x) as Hlow.
  { intros x Hx. rewrite Hfr, Hm1 by lia. reflexivity. }
  exists m', idx. split; [exact E|].
  split; [|split_and!; [intros x Hx; apply Hlow; unfold index_room in *; lia | intros x Hx; rewrite Hfr, Hm1 by (unfold index_room; lia); reflexivity | exact Ea]].
  apply (heap_inv_extend m m' h idx _ bs [] [b] old); try assumption.
  - now rewrite app_nil_r.
  - simpl. unfold b_end, SIZEOF_header, SIZEOF_footer. cbn [b_addr b_size b]. lia.
  - intros c Hc Hh. assert (b_addr c ∈ hole_addrs bs) as Hin by (apply hole_addrs_in; eauto). rewrite Hno in Hin. inversion Hin.
  - intros c Hc. apply list_elem_of_singleton in Hc as ->. apply (written_block_ok m m1 m' (old + delta) b 1).
    + cbn [b_size b]. lia.
    + cbn [b_addr b]. lia.
    + reflexivity.
    + reflexivity.
    + intros x Hx. cbn [b_addr b_size b] in Hx. apply Hfr. right. unfold index_room. lia.
  - rewrite Elt. symmetry. apply (hi_less_than _ _ _ Hi).
  - exists l'. split; [exact Hrep'|]. subst l'. rewrite hole_addrs_app, Hno. reflexivity.
Qed.

(** The index leads to the hole at the end. *)
Lemma endmost_last m h bs1 b :
  heap_inv m h (bs1 ++ [b]) -> b_hole b = true ->
  exists j l, endmost_from m (h_index h) (Z.to_nat (oa_size (h_index h))) 0 (u32 (-1)) 0 = Ok (Z.of_nat j, b_addr b) /\
    oa_rep m (h_index h) l /\ l !! j = Some (b_addr b) /\ Z.of_nat j < 0xFFFFFFFF.
Proof.
  intros Hi Hh. destruct (hi_index _ _ _ Hi) as (l & Hrep & Hp). pose proof (index_length _ _ _ _ Hi Hrep Hp) as Hlen.
  pose proof (hi_array _ _ _ Hi) as Harr. pose proof (hi_end _ _ _ Hi). pose proof (tiled_le _ _ _ (hi_tiled _ _ _ Hi)).
  pose proof (hi_room _ _ _ Hi) as Hroom.
  assert (b_addr b ∈ l) as Hbl by (rewrite Hp; apply hole_addrs_in; exists b; rewrite elem_of_app; repeat split; auto; right; left).
  assert (forall x, x ∈ l -> 0 < x <= b_addr b) as Hx.
  { intros x Hx. rewrite Hp in Hx. apply hole_addrs_in in Hx as (c & Hc & _ & <-).
    pose proof (tiled_in _ _ _ c (hi_tiled _ _ _ Hi) Hc). unfold b_end in *. split; [lia|].
    apply elem_of_app in Hc as [Hc|Hc]; [|apply list_elem_of_singleton in Hc as ->; lia].
    destruct (tiled_apart _ _ bs1 b [] c (hi_tiled _ _ _ Hi) (or_introl Hc)); unfold b_end in *; [lia|].
    pose proof (hi_tiled _ _ _ Hi) as Ht. apply tiled_app in Ht as (a & Ht1 & -> & _). pose proof (tiled_in _ _ _ c Ht1 Hc). unfold b_end in *. lia. }
  destruct (endmost_from_spec m (h_index h) l (length l) 0 (u32 (-1)) 0 Hrep) as (idx & v & E & Hall & Hv).
  - apply Forall_forall. intros x Hxl. apply (Hx x Hxl).
  - lia.
  - lia.
  - left. auto.
  - destruct Hv as [[-> _]|(j & -> & Hj)]; [inversion Hbl|].
    assert (v = b_addr b) as -> by (specialize (Hall _ Hbl); specialize (Hx v ltac:(eapply list_elem_of_lookup_2; exact Hj)); lia).
    exists j, l. split_and!; [|exact Hrep | exact Hj | apply lookup_lt_Some in Hj; lia].
    destruct Hrep as [Hz _]. rewrite Hz, Nat2Z.id. exact E.
Qed.

Lemma endmost_none m h bs :
  heap_inv m h bs -> hole_addrs bs = [] ->
  endmost_from m (h_index h) (Z.to_nat (oa_size (h_index h))) 0 (u32 (-1)) 0 = Ok (u32 (-1), 0).
Proof.
  intros Hi Hno. destruct (hi_index _ _ _ Hi) as (l & [Hz _] & Hp). rewrite Hno in Hp. apply Permutation_nil_r in Hp as ->.
  rewrite Hz. reflexivity.
Qed.

(** ** alloc_grow *)

(** An index sorted before the hole at the end grew is sorted without it. *)
Lemma last_hole_sorted m m' h h' bs1 b :
  heap_inv m h (bs1 ++ [b]) -> b_hole b = true -> h_index h' = h_index h ->
  same_on (oa_array (h_index h)) (b_addr b - oa_array (h_index h)) m m' ->
  index_sorted m h -> sorted_without (b_addr b) m' h'.
Proof.
  intros Hi Hh Eix Hs Hsorted l' i Hl' Hx. rewrite Eix in Hl'. pose proof (hi_array _ _ _ Hi) as Harr.
  pose proof (hi_tiled _ _ _ Hi) as Ht. destruct (hi_index _ _ _ Hi) as (l & Hrep & Hp).
  pose proof (index_length _ _ _ _ Hi Hrep Hp) as Hlen.
  apply tiled_app in Ht as (a & Ht1 & <- & _). pose proof (tiled_le _ _ _ Ht1) as Hle.
  assert (l' = l) as ->.
  { apply (oa_rep_inj m (h_index h)); [|exact Hrep]. destruct Hl' as [Hz Hw], Hrep as [Hz' _]. split; [exact Hz|].
    intros j x Hj. rewrite <- (Hw j x Hj). apply lookup_lt_Some in Hj. unfold get_elem. symmetry.
    apply (same_on_load32 _ _ _ _ _ Hs); lia. }
  pose proof (delete_Permutation _ _ _ Hx) as Hd. pose proof (hole_addrs_nodup _ _ _ (hi_tiled _ _ _ Hi)) as Hnd.
  rewrite <- Hp, Hd in Hnd. apply NoDup_cons in Hnd as [Hni _].
  apply (sorted_by_ext (hdr_size m)); [|now apply sorted_by_delete, Hsorted]. intros y Hy.
  assert (y ∈ hole_addrs (bs1 ++ [b])) as Hin by (rewrite <- Hp, Hd; now right). apply hole_addrs_in in Hin as (c & Hc & _ & <-).
  apply elem_of_app in Hc as [Hc|Hc]; [|apply list_elem_of_singleton in Hc as ->; contradiction].
  destruct (tiled_in _ _ _ c Ht1 Hc) as (H1 & H2 & H3). unfold b_end in H3. apply (same_on_load32 _ _ _ _ _ Hs); lia.
Qed.

(** What the growth for [need] more bytes asks of the machine. *)
Record can_grow (k : kernel) (h : heap_t) (need : Z) : Prop := {
  cg_max : h_start_address h + grown_size (h_end_address h - h_start_address h + need) <= h_max_address h;
  cg_width : h_start_address h + grown_size (h_end_address h - h_start_address h + need) + 0x1000 < 0x100000000;
  cg_index : grown_size (h_end_address h - h_start_address h + need) <= 20 * (oa_max_size (h_index h) - 4);
  cg_tables : growth_ready k (oa_array (h_index h)) (h_end_address h) (h_end_address h)
    (h_start_address h + grown_size (h_end_address h - h_start_address h + need));
  cg_frames : frames_free k
    (pages_for (grown_size (h_end_address h - h_start_address h + need) - (h_end_address h - h_start_address h)));
}.

Definition grown_end (h : heap_t) (need : Z) : Z :=
  h_start_address h + grown_size (h_end_address h - h_start_address h + need).

(** [alloc_grow] once [expand] has mapped the pages and left the memory [m]. *)
Lemma alloc_grow_eq need k h m :
  let L := h_end_address h - h_start_address h in
  let e := grown_end h need in
  0 <= h_start_address h <= h_end_address h -> 20 <= need -> e < 0x100000000 ->
  expand (L + need) k h = Ok (with_mem m k, with_end_address e h) ->
  alloc_grow need k h =
    '(idx, _) ← endmost_from m (h_index h) (Z.to_nat (oa_size (h_index h))) 0 (u32 (-1)) 0;
    if idx =? u32 (-1) then
      i ← insert_ordered_array (write_footer (write_header m (h_end_address h) (e - h_end_address h) 1) (e - SIZEOF_footer) (h_end_address h))
            (h_end_address h) (h_index h);
      let '(m, index) := i in Ok (with_mem m k, with_index index (with_end_address e h))
    else
      header ← lookup_ordered_array m idx (h_index h);
      let m := set_hdr_size m header (u32 (hdr_size m header + (e - h_end_address h))) in
      let footer := u32 (header + hdr_size m header - SIZEOF_footer) in
      Ok (with_mem (write_footer m footer header) k, with_end_address e h).
Proof.
  cbv zeta. intros Hst Hn He E. set (L := h_end_address h - h_start_address h) in *.
  assert (h_start_address h + L + need <= grown_end h need) as Hge.
  { unfold grown_end. fold L. pose proof (grown_size_ge (L + need) ltac:(lia)). lia. }
  set (e := grown_end h need) in *. clearbody e. unfold alloc_grow. fold L. rewrite (u32_small L), (u32_small (L + need)), E, bind_ok by lia.
  cbn [h_end_address h_start_address h_index with_end_address k_mem with_mem].
  rewrite (u32_small (e - h_start_address h)) by lia. replace (e - h_start_address h - L) with (e - h_end_address h) by lia.
  rewrite (u32_small (e - h_end_address h)) by lia.
  destruct (write_header_fields m (h_end_address h) (e - h_end_address h) 1) as (_ & -> & _).
  rewrite (u32_small (e - h_end_address h)) by lia. unfold SIZEOF_footer.
  replace (h_end_address h + (e - h_end_address h) - 8) with (e - 8) by lia. rewrite (u32_small (e - 8)) by lia. reflexivity.
Qed.

(** All that is written after [expand] lies between the index and the new end. *)
Definition written_after_expand (k : kernel) (h : heap_t) (need : Z) (m : mem) : Prop :=
  exists m1, expand (h_end_address h - h_start_address h + need) k h = Ok (with_mem m1 k, with_end_address (grown_end h need) h) /\
    same_but (oa_array (h_index h)) (grown_end h need - oa_array (h_index h)) m1 m.

Lemma alloc_grow_spec need k h bs front g :
  heap_inv (k_mem k) h bs -> 20 <= need -> can_grow k h need ->
  grown (h_end_address h) (grown_end h need - h_end_address h) bs front g ->
  exists m idx, alloc_grow need k h = Ok (with_mem m k, with_index idx (with_end_address (grown_end h need) h)) /\
    heap_inv m (with_index idx (with_end_address (grown_end h need) h)) (front ++ [g]) /\
    (forall c, c ∈ bs -> b_hole c = false -> same_on (b_addr c) (b_size c) (k_mem k) m) /\
    (index_sorted (k_mem k) h -> sorted_without (b_addr g) m (with_index idx (with_end_address (grown_end h need) h))) /\
    written_after_expand k h need m /\ oa_array idx = oa_array (h_index h).
Proof.
  intros Hi Hn [Hmax Hwid Hix Htab Hfree] Hg. pose proof (hi_tiled _ _ _ Hi) as Ht.
  pose proof (tiled_le _ _ _ Ht) as Hle. pose proof (hi_start _ _ _ Hi) as Hst. pose proof (hi_end _ _ _ Hi) as Hend.
  pose proof (hi_array _ _ _ Hi) as Harr. fold (grown_end h need) in *.
  assert (h_end_address h + need <= grown_end h need) as Hge.
  { unfold grown_end. pose proof (grown_size_ge (h_end_address h - h_start_address h + need) ltac:(lia)). lia. }
  assert (grown_size (h_end_address h - h_start_address h + need) = grown_end h need - h_start_address h) as Egs by (unfold grown_end; lia).
  rewrite Egs in Hix, Hfree.
  destruct (expand_spec (h_end_address h - h_start_address h + need) k h (oa_array (h_index h)) (h_end_address h))
    as (m1 & E & Hs); fold (grown_end h need); [lia | lia | exact Hmax | exact Hwid | exact Htab | |].
  { replace (grown_end h need - h_end_address h) with (grown_end h need - h_start_address h - (h_end_address h - h_start_address h)) by lia. exact Hfree. }
  pose proof (heap_inv_area _ m1 h bs Hi Hs) as Hi1. fold (grown_end h need) in E.
  rewrite (alloc_grow_eq need k h m1 ltac:(lia) Hn ltac:(lia) E).
  assert (forall m, same_but (oa_array (h_index h)) (grown_end h need - oa_array (h_index h)) m1 m -> written_after_expand k h need m) as Hw by (exists m1; auto).
  clear E Egs Hfree Htab. set (e := grown_end h need) in *. clearbody e.
  destruct Hg as [bs1 b Hh|bs Hno].
  - destruct (endmost_last m1 h bs1 b Hi1 Hh) as (j & l & -> & Hrep & Hj & Hjb).
    rewrite bind_ok. cbv beta iota. rewrite (proj2 (Z.eqb_neq (Z.of_nat j) (u32 (-1)))) by (change (u32 (-1)) with 0xFFFFFFFF; lia).
    rewrite (lookup_ordered_array_spec _ _ _ _ _ Hrep Hj), bind_ok. cbv zeta.
    pose proof Ht as Ht'. apply tiled_app in Ht' as (a & Ht1 & Ha & Hbs & Hbe). cbn [tiled] in Hbe. subst a. unfold b_end in Hbe.
    pose proof (tiled_le _ _ _ Ht1) as Hb1. unfold SIZEOF_header, SIZEOF_footer in Hbs.
    destruct (hi_blocks _ _ _ Hi1 b ltac:(rewrite elem_of_app; right; left)) as [(_ & -> & _) _].
    destruct (grow_last_hole m1 h bs1 b (e - h_end_address h) e Hi1 Hh ltac:(lia) ltac:(lia) ltac:(lia) ltac:(lia)) as (Hi2 & Hlow & Hbut).
    rewrite (u32_small (b_size b + _)) by lia. unfold set_hdr_size at 2, hdr_size. rewrite load32_store32_eq, (u32_small (b_size b + _)) by lia.
    replace (b_addr b + (b_size b + (e - h_end_address h)) - SIZEOF_footer) with (e - SIZEOF_footer) by lia.
    unfold SIZEOF_footer in *. rewrite (u32_small (e - 8)) by lia.
    set (m2 := write_footer _ _ _) in *. exists m2, (h_index h).
    assert (with_index (h_index h) (with_end_address e h) = with_end_address e h) as -> by (destruct h; reflexivity).
    assert (same_on (oa_array (h_index h)) (b_addr b - oa_array (h_index h)) (k_mem k) m2) as Hall.
    { apply (same_on_trans _ _ _ m1); [|exact Hlow]. eapply same_on_sub; [exact Hs | lia..]. }
    split_and!; [reflexivity | exact Hi2 | | | now apply Hw | reflexivity].
    + intros c Hc Hcn. apply elem_of_app in Hc as [Hc|Hc]; [|apply list_elem_of_singleton in Hc as ->; congruence].
      pose proof (tiled_in _ _ _ c Ht1 Hc) as Hcb. unfold b_end in Hcb. eapply same_on_sub; [exact Hall | lia..].
    + now apply (last_hole_sorted _ _ h _ bs1 b).
  - rewrite (endmost_none m1 h bs Hi1 Hno), bind_ok. cbv beta iota. rewrite Z.eqb_refl.
    destruct (grow_new_hole m1 h bs (e - h_end_address h) e Hi1 Hno ltac:(lia) ltac:(lia) ltac:(lia) ltac:(lia)) as (m' & idx & -> & Hi2 & Hlow & Hbut & Eix).
    rewrite bind_ok. cbv beta iota. exists m', idx. split_and!; [reflexivity | exact Hi2 | | | now apply Hw | exact Eix].
    + intros c Hc _ x Hx. pose proof (tiled_in _ _ _ c Ht Hc) as Hcb. unfold b_end in Hcb. rewrite Hlow by lia. apply Hs. lia.
    + intros _ l i Hl Hx. destruct (hi_index _ _ _ Hi2) as (l2 & Hl2 & Hp2). rewrite (oa_rep_inj _ _ _ _ Hl Hl2) in *.
      rewrite hole_addrs_app, Hno in Hp2. apply Permutation_singleton_r in Hp2 as ->.
      destruct i; [|discriminate]. intros j1 j2 x y Hj Hx1. discriminate.
Qed.

(** ** alloc on a heap without a hole that fits *)

Lemma alloc_needs_growth fuel size k h bs :
  heap_inv (k_mem k) h bs -> 0 <= size -> size + 20 < 0x100000000 ->
  (forall b, b ∈ bs -> b_hole b = true -> b_size b < size + 20) ->
  alloc (S fuel) size 0 k h = '(k, h) ← alloc_grow (size + 20) k h; alloc fuel size 0 k h.
Proof.
  intros Hi Hs Hb Hno. destruct (hi_index _ _ _ Hi) as (l & Hrep & Hp). cbn [alloc]. unfold SIZEOF_header, SIZEOF_footer.
  replace (size + 12 + 8) with (size + 20) by lia. rewrite (u32_small (size + 20)) by lia.
  destruct (find_smallest_hole_spec (k_mem k) (size + 20) h l Hrep) as [[-> _] | (p & x & _ & Hx & Hle & _)]; [reflexivity|].
  assert (x ∈ hole_addrs bs) as Hxh by (rewrite <- Hp; eapply list_elem_of_lookup_2; exact Hx).
  apply hole_addrs_in in Hxh as (b & Hin & Hh & <-). destruct (hi_blocks _ _ _ Hi b Hin) as [(_ & Hsz & _) _].
  specialize (Hno b Hin Hh). lia.
Qed.

(** The only hole that fits is picked. *)
Lemma alloc_pick_last fuel k h front g size :
  heap_inv (k_mem k) h (front ++ [g]) -> 0 <= size -> size + 20 < 0x100000000 ->
  (forall b, b ∈ front -> b_hole b = true -> b_size b < size + 20) -> b_hole g = true -> size + 20 <= b_size g ->
  exists m' idx', alloc fuel size 0 k h = Ok (b_addr g + 12, with_mem m' k, with_index idx' h) /\
    heap_inv m' (with_index idx' h) (front ++ split_hole g (size + 20)) /\
    heap_frame h (b_addr g) (b_end g) (k_mem k) m' /\
    (sorted_without (b_addr g) (k_mem k) h -> index_sorted m' (with_index idx' h)).
Proof.
  intros Hi Hs Hb Hno Hg Hfit.
  destruct (alloc_pick fuel k h (front ++ [g]) size Hi Hs Hb) as (bs1 & b & bs2 & l & p & Ebs & Hh & Hsz & _ & -> & Hrep & Hp & Hx).
  { exists g. rewrite elem_of_app. split_and!; [right; left | exact Hg | exact Hfit]. }
  assert (bs2 = []) as ->.
  { destruct bs2 as [|c bs2 _] using rev_ind; [reflexivity|]. rewrite app_comm_cons, app_assoc in Ebs. apply app_inj_tail in Ebs as [-> ->].
    specialize (Hno b ltac:(rewrite elem_of_app, elem_of_cons; auto) Hh). lia. }
  apply app_inj_tail in Ebs as [-> ->].
  destruct (alloc_at_spec k h bs1 b [] l p size Hi Hh Hs Hsz Hrep Hp Hx) as (m' & idx' & Ea & Hi' & Hfr & Hso).
  exists m', idx'. rewrite app_nil_r in Hi'. auto.
Qed.

Lemma grown_hole need k h bs front g :
  heap_inv (k_mem k) h bs -> 20 <= need -> can_grow k h need ->
  grown (h_end_address h) (grown_end h need - h_end_address h) bs front g ->
  b_hole g = true /\ need <= b_size g /\ b_addr g <= h_end_address h /\
  (forall c, c ∈ front -> c ∈ bs /\ h_start_address h <= b_addr c /\ b_end c <= b_addr g) /\
  (forall c, c ∈ bs -> b_hole c = false -> c ∈ front).
Proof.
  intros Hi Hn Hc Hg. pose proof (hi_tiled _ _ _ Hi) as Ht. pose proof (tiled_le _ _ _ Ht) as Hle.
  assert (h_end_address h + need <= grown_end h need) as Hge.
  { unfold grown_end. pose proof (grown_size_ge (h_end_address h - h_start_address h + need) ltac:(lia)). lia. }
  destruct Hg as [bs1 b Hh|bs Hno0]; cbn [b_hole b_size b_addr].
  - apply tiled_app in Ht as (a & Ht1 & Ha & Hbs & Hbe). cbn [tiled] in Hbe. subst a. unfold b_end in *. unfold SIZEOF_header, SIZEOF_footer in Hbs.
    split_and!; [reflexivity | lia | lia | |].
    + intros c Hc'. pose proof (tiled_in _ _ _ c Ht1 Hc'). unfold b_end in *. rewrite elem_of_app. split_and!; [auto | lia | lia].
    + intros c Hc' Hcn. apply elem_of_app in Hc' as [Hc'|Hc']; [exact Hc'|]. apply list_elem_of_singleton in Hc' as ->. congruence.
  - split_and!; [reflexivity | lia | lia | | auto]. intros c Hc'. pose proof (tiled_in _ _ _ c Ht Hc'). split_and!; [auto | lia | lia].
Qed.

(** What changes with the last block changes between the index and the end. *)
Lemma heap_frame_area h front g m m' :
  heap_inv m h (front ++ [g]) -> heap_frame h (b_addr g) (b_end g) m m' ->
  same_but (oa_array (h_index h)) (h_end_address h - oa_array (h_index h)) m m'.
Proof.
  intros Hi Hfr x Hx. pose proof (hi_array _ _ _ Hi). pose proof (hi_room _ _ _ Hi). pose proof (hi_tiled _ _ _ Hi) as Ht. pose proof (tiled_le _ _ _ Ht).
  destruct (tiled_in _ _ _ g Ht ltac:(rewrite elem_of_app; right; left)) as (? & ? & ?).
  apply Hfr; unfold index_room in *; unfold b_end in *; lia.
Qed.

(** [alloc] when no hole fits. *)
Lemma alloc_grown_spec fuel size k h bs front g :
  heap_inv (k_mem k) h bs -> 0 <= size -> size + 20 < 0x100000000 ->
  (forall b, b ∈ bs -> b_hole b = true -> b_size b < size + 20) -> can_grow k h (size + 20) ->
  grown (h_end_address h) (grown_end h (size + 20) - h_end_address h) bs front g ->
  exists m' idx', let h' := with_index idx' (with_end_address (grown_end h (size + 20)) h) in
    alloc (S fuel) size 0 k h = Ok (b_addr g + 12, with_mem m' k, h') /\
    heap_inv m' h' (front ++ split_hole g (size + 20)) /\
    (forall c, c ∈ bs -> b_hole c = false -> same_on (b_addr c) (b_size c) (k_mem k) m') /\
    (index_sorted (k_mem k) h -> index_sorted m' h') /\
    written_after_expand k h (size + 20) m'.
Proof.
  intros Hi Hs Hb Hno Hcan Hg.
  destruct (grown_hole (size + 20) k h bs front g Hi ltac:(lia) Hcan Hg) as (Hgh & Hgs & Hga & Hfront & Hlive).
  destruct (alloc_grow_spec (size + 20) k h bs front g Hi ltac:(lia) Hcan Hg) as (m1 & idx1 & E & Hi1 & Hs1 & Hso1 & (m0 & E0 & Hw) & Eix).
  rewrite (alloc_needs_growth fuel size k h bs Hi Hs Hb Hno), E, bind_ok. cbv beta iota. set (h1 := with_index idx1 _) in *.
  destruct (alloc_pick_last fuel (with_mem m1 k) h1 front g size Hi1 Hs Hb) as (m' & idx' & Ea & Hi' & Hfr & Hso);
    [intros c Hc Hh; apply Hno; [now apply Hfront | exact Hh] | exact Hgh | exact Hgs |].
  exists m', idx'. cbv zeta. split_and!; [exact Ea | exact Hi' | | intros Hsorted; now apply Hso, Hso1 |].
  2: { exists m0. split; [exact E0|]. apply (same_but_trans _ _ _ m1); [exact Hw|].
    rewrite <- Eix. now apply (heap_frame_area h1 front g). }
  intros c Hc Hh x Hx. specialize (Hs1 c Hc Hh x Hx). rewrite <- Hs1. destruct (Hfront c (Hlive c Hc Hh)) as (_ & H1 & H2).
  pose proof (hi_array _ _ _ Hi1) as Harr. change (h_start_address h1) with (h_start_address h) in Harr.
  unfold b_end in H2. apply Hfr; [unfold index_room; lia | lia].
Qed.

(** The end of the heap is a hole, or the heap is full: what the search for
    the endmost header finds. *)
Definition growth_adjoins (m : mem) (h : heap_t) : Prop :=
  exists i a, endmost_from m (h_index h) (Z.to_nat (oa_size (h_index h))) 0 (u32 (-1)) 0 = Ok (i, a) /\
    (i = u32 (-1) \/ a + hdr_size m a = h_end_address h).

Lemma growth_adjoins_grown m h bs delta :
  heap_inv m h bs -> growth_adjoins m h -> exists front g, grown (h_end_address h) delta bs front g.
Proof.
  intros Hi (i & a & E & Ha). destruct (hi_index _ _ _ Hi) as (l & Hrep & Hp). pose proof (index_length _ _ _ _ Hi Hrep Hp) as Hlen.
  pose proof (hi_array _ _ _ Hi) as Harr. pose proof (hi_end _ _ _ Hi). pose proof (hi_tiled _ _ _ Hi) as Ht. pose proof (tiled_le _ _ _ Ht).
  pose proof (hi_room _ _ _ Hi) as Hroom.
  destruct (endmost_from_spec m (h_index h) l (length l) 0 (u32 (-1)) 0 Hrep) as (idx & v & E' & _ & Hv); [|lia | lia | left; auto |].
  { apply Forall_forall. intros x Hx. rewrite Hp in Hx. apply hole_addrs_in in Hx as (c & Hc & _ & <-).
    pose proof (tiled_in _ _ _ c Ht Hc). unfold b_end in *. lia. }
  destruct Hrep as [Hz _]. rewrite Hz, Nat2Z.id in E. change (Z.of_nat 0) with 0 in E'. rewrite E in E'. injection E' as <- <-.
  destruct Hv as [[-> _]|(j & -> & Hj)].
  - exists bs, (mk_block (h_end_address h) delta true). constructor. apply Permutation_nil_l in Hp. auto.
  - destruct Ha as [Ha|Ha]; [apply lookup_lt_Some in Hj; change (u32 (-1)) with 0xFFFFFFFF in Ha; lia|].
    apply list_elem_of_lookup_2 in Hj. rewrite Hp in Hj. apply hole_addrs_in in Hj as (b & Hb & Hh & <-).
    destruct (hi_blocks _ _ _ Hi b Hb) as [(_ & Hsz & _) _]. rewrite Hsz in Ha.
    apply list_elem_of_split in Hb as (front & l2 & ->).
    assert (l2 = []) as ->.
    { apply tiled_app in Ht as (x & _ & _ & _ & Ht2). destruct l2 as [|c l2]; [reflexivity|].
      destruct (tiled_in _ _ _ c Ht2 ltac:(left)) as (H1 & H2 & H3). unfold b_end in *. lia. }
    exists front, (mk_block (b_addr b) (b_size b + delta) true). now constructor.
Qed.
