(* ===== verification/KHeapPages.v ===== *)
(** * The kernel heap: the pages that growth maps

    The loop of [expand] gives a frame to every page behind a heap whose end is
    page-aligned.  [page_given] says what its entry holds then: present, with
    the permissions of the heap, and a frame that was free before and that no
    other of these pages has. *)

From S2P Require Import Prelude Memory Util OrderedArray Kernel Paging KHeap KHeapInv KHeapAlign KHeapGrow.

(** The place of the entry of the page of [x], where the directory has a table
    for it. *)
Definition entry_of (m : mem) (dir x : Z) : Z := dir_table m dir (x / 0x400000) + 4 * (x / 0x1000 mod 1024).

(** The pages from [a] to [e] have empty entries, and the bitmap, the directory
    and the tables of these entries are apart from each other and from the area
    [lo, e) of the heap. *)
Record new_pages (k : kernel) (lo a e : Z) : Prop := {
  np_ready : growth_ready k lo e a e;
  np_directory : k_kernel_directory k + 0x1000 <= lo \/ e <= k_kernel_directory k;
  np_tables : forall x y, a <= x < e -> a <= y < e -> x / 0x400000 <> y / 0x400000 ->
    let t := dir_table (k_mem k) (k_kernel_directory k) (x / 0x400000) in
    let u := dir_table (k_mem k) (k_kernel_directory k) (y / 0x400000) in t + 0x1000 <= u \/ u + 0x1000 <= t;
  np_empty : forall x, a <= x < e -> page_frame (load32 (k_mem k) (entry_of (k_mem k) (k_kernel_directory k) x)) = 0;
}.

(** The entry [w] of a page that the growth of [h] mapped, in the memory [m]. *)
Definition given_entry (k : kernel) (h : heap_t) (m : mem) (w : Z) : Prop :=
  page_present w = 1 /\ page_rw w = (if h_readonly h =? 0 then 1 else 0) /\
  page_user w = (if h_supervisor h =? 0 then 1 else 0) /\
  frame_range k (page_frame w) /\ frame_used k (page_frame w) = false /\
  frame_used (with_mem m k) (page_frame w) = true.

(** Every page from [a] to [e] is mapped, each to a frame of its own. *)
Definition pages_given (k : kernel) (h : heap_t) (a e : Z) (m : mem) : Prop :=
  let w x := load32 m (entry_of m (k_kernel_directory k) x) in
  (forall x, a <= x < e -> given_entry k h m (w x)) /\
  (forall x y, a <= x < e -> a <= y < e -> x / 0x1000 <> y / 0x1000 -> page_frame (w x) <> page_frame (w y)).

Lemma entry_of_page m dir x y : x / 0x1000 = y / 0x1000 -> entry_of m dir x = entry_of m dir y.
Proof. intros E. unfold entry_of. replace (x / 0x400000) with (y / 0x400000) by zlia. now rewrite E. Qed.

Section Growth.
Context (k : kernel) (h : heap_t) (S' lo : Z).
Abbreviation start := (h_start_address h).
Abbreviation L := (h_end_address h - start).
Abbreviation dir := (k_kernel_directory k).
Abbreviation entry x := (entry_of (k_mem k) dir x).
Hypothesis Hstart : 0 <= start <= h_end_address h.
Hypothesis Hwidth : start + S' + 0x1000 < 0x100000000.
Hypothesis Hmore : L < S'.
Hypothesis Haligned : h_end_address h mod 0x1000 = 0.
Hypothesis Hpages : new_pages k lo (h_end_address h) (start + S').

(** The entry lies in its table. *)
Lemma entry_in_table x : h_end_address h <= x < start + S' ->
  let t := dir_table (k_mem k) dir (x / 0x400000) in
  t <= entry x /\ entry x + 4 <= t + 0x1000 /\ t <> 0 /\ outside_bitmap k t 0x1000 /\
  (t + 0x1000 <= lo \/ start + S' <= t) /\ (t + 0x1000 <= dir \/ dir + 0x1000 <= t).
Proof.
  intros Hx. cbv zeta. destruct (gr_table _ _ _ _ _ (np_ready _ _ _ _ Hpages) x Hx) as (H1 & H2 & H3 & H4).
  unfold entry_of. fold (dir_table (k_mem k) dir (x / 0x400000)) in *. split_and!; (assumption || zlia).
Qed.

Lemma entry_outside x : h_end_address h <= x < start + S' -> outside_bitmap k (entry x) 4.
Proof. intros Hx. destruct (entry_in_table x Hx) as (H1 & H2 & _ & H3 & _). unfold outside_bitmap in *. lia. Qed.

Lemma entries_apart x y : h_end_address h <= x < start + S' -> h_end_address h <= y < start + S' ->
  x / 0x1000 <> y / 0x1000 -> entry x + 4 <= entry y \/ entry y + 4 <= entry x.
Proof.
  intros Hx Hy Hne. destruct (entry_in_table x Hx) as (H1 & H2 & _). destruct (entry_in_table y Hy) as (H3 & H4 & _).
  destruct (Z.eq_dec (x / 0x400000) (y / 0x400000)) as [E|E].
  - unfold entry_of. rewrite E. zlia.
  - destruct (np_tables _ _ _ _ Hpages x y Hx Hy E); lia.
Qed.

(** The directory still leads to the same entries. *)
Lemma entry_same m x : same_on dir 0x1000 (k_mem k) m -> h_end_address h <= x < start + S' ->
  entry_of m dir x = entry x.
Proof.
  intros Hs Hx. unfold entry_of, dir_table. rewrite (same_on_load32 _ _ _ _ (dir + 4 * (x / 0x400000)) Hs); [reflexivity | zlia..].
Qed.

(** A turn of the loop is [alloc_frame] of the page's entry. *)
Lemma expand_step_eq m i : same_on dir 0x1000 (k_mem k) m -> L <= i < S' ->
  expand_step h (with_mem m k, i) =
    k' ← alloc_frame (entry (start + i)) (if h_supervisor h =? 0 then 0 else 1) (if h_readonly h =? 0 then 1 else 0) (with_mem m k);
    Ok (k', i + 0x1000).
Proof.
  intros Hs Hi. unfold expand_step. rewrite (u32_small (start + i)), (u32_small (i + 0x1000)) by lia.
  rewrite <- (entry_same m (start + i) Hs) by lia. destruct (entry_in_table (start + i) ltac:(lia)) as (_ & _ & H0 & _).
  unfold entry_of, dir_table, get_page_ptr_in_page_table in *. cbn [k_kernel_directory with_mem k_mem]. unfold dir_table.
  rewrite Z.div_div by lia. change (0x1000 * 1024) with 0x400000. rewrite <- (same_on_load32 _ _ _ _ (dir + 4 * ((start + i) / 0x400000)) Hs) in H0 by zlia.
  rewrite (proj2 (Z.eqb_neq _ _) H0). reflexivity.
Qed.

(** The state of the loop: the pages up to [i] are mapped, the others as before. *)
Record mapping (st : kernel * Z) : Prop := {
  mp_expanding : expanding k L S' lo (start + S') st;
  mp_aligned : (start + st.2) mod 0x1000 = 0;
  mp_used : forall f, frame_range k f -> frame_used k f = true -> frame_used st.1 f = true;
  mp_given : forall x, h_end_address h <= x < start + S' -> x < start + st.2 ->
    given_entry k h (k_mem st.1) (load32 (k_mem st.1) (entry x));
  mp_distinct : forall x y, h_end_address h <= x < start + S' -> h_end_address h <= y < start + S' ->
    x < start + st.2 -> y < start + st.2 -> x / 0x1000 <> y / 0x1000 ->
    page_frame (load32 (k_mem st.1) (entry x)) <> page_frame (load32 (k_mem st.1) (entry y));
  mp_rest : forall x, h_end_address h <= x < start + S' -> start + st.2 <= x ->
    load32 (k_mem st.1) (entry x) = load32 (k_mem k) (entry x);
}.

(** What a turn at [i] does: the entry of its page gets a frame that was free,
    and nothing else happens to the entries and the frames in use. *)
Definition page_taken (m m' : mem) (i : Z) : Prop := exists idx,
  frame_range k idx /\ frame_used (with_mem m k) idx = false /\
  (forall f, frame_range k f -> frame_used (with_mem m' k) f = (idx =? f) || frame_used (with_mem m k) f) /\
  (forall x, h_end_address h <= x < start + S' ->
     (x / 0x1000 = (start + i) / 0x1000 -> exists w, load32 m' (entry x) =
        u32 (page_entry w idx (if h_supervisor h =? 0 then 0 else 1) (if h_readonly h =? 0 then 1 else 0))) /\
     (x / 0x1000 <> (start + i) / 0x1000 -> load32 m' (entry x) = load32 m (entry x))).

Lemma expand_step_takes m i : mapping (with_mem m k, i) -> i < S' ->
  exists m', expand_step h (with_mem m k, i) = Ok (with_mem m' k, i + 0x1000) /\
    expanding k L S' lo (start + S') (with_mem m' k, i + 0x1000) /\ page_taken m m' i /\
    (pages_for (S' - (i + 0x1000)) < pages_for (S' - i))%nat.
Proof.
  intros [Hex _ _ _ _ Hrest] Hc. pose proof (np_ready _ _ _ _ Hpages) as Hready.
  destruct (expand_step_ok k h lo (start + S') S' (with_mem m k) i) as (st & E & Hex' & Hmu); try assumption; try lia.
  destruct Hex as (m0 & Ek & Hi & (l & _ & Hl & Hfree) & _ & Hd). cbn [fst snd] in *. apply (f_equal k_mem) in Ek. cbn [k_mem with_mem] in Ek. subst m0.
  pose proof E as E0. rewrite (expand_step_eq m i Hd) in E by lia. pose proof (entry_outside (start + i) ltac:(lia)) as Hout.
  set (page := entry (start + i)) in *. cbn [k_mem with_mem] in *.
  destruct l as [|g l]; [cbn [length] in Hl; unfold pages_for in Hl; zlia|]. apply Forall_cons in Hfree as [[Hg Hgu] _].
  destruct (alloc_frame_spec (with_mem m k) page (if h_supervisor h =? 0 then 0 else 1) (if h_readonly h =? 0 then 1 else 0) g)
    as (idx & k' & Ea & Hr & Hu & _ & Hw & Hused & Hq & _); [apply Hready | exact Hout | | exact Hg | exact Hgu |].
  { cbn [k_mem with_mem]. unfold page. rewrite Hrest by lia. apply (np_empty _ _ _ _ Hpages). lia. }
  rewrite Ea, bind_ok in E. injection E as <-. pose proof Hex' as (m' & Ek & _). cbn [fst snd] in *. subst k'.
  cbn [k_mem with_mem] in Hw, Hq. exists m'. split_and!; [exact E0 | exact Hex' | | exact Hmu].
  exists idx. split_and!; [exact Hr | exact Hu | exact Hused |]. intros x Hx. split; intros Ex.
  - rewrite (entry_of_page _ _ _ _ Ex). eauto.
  - apply Hq; [now apply entry_outside | apply entries_apart; (assumption || lia)].
Qed.

(** A page is one of those before, the one at [i], or behind it. *)
Lemma page_cases i x : (start + i) mod 0x1000 = 0 -> x < start + i + 0x1000 ->
  (x < start + i /\ x / 0x1000 <> (start + i) / 0x1000) \/ x / 0x1000 = (start + i) / 0x1000.
Proof. intros Hal Hx. destruct (Z.lt_ge_cases x (start + i)); [left; zlia | right; zlia]. Qed.

Lemma mapping_step k1 i : mapping (k1, i) -> i < S' ->
  exists st, expand_step h (k1, i) = Ok st /\ mapping st /\ (pages_for (S' - st.2) < pages_for (S' - i))%nat.
Proof.
  intros Hm Hc. pose proof Hm as [(m & Ek & _) Hal Hmono Hgiven Hdist Hrest]. cbn [fst snd] in *. subst k1. cbn [k_mem with_mem] in *.
  destruct (expand_step_takes m i Hm Hc) as (m' & E & Hex & (idx & Hr & Hu & Hused & Hent) & Hmu).
  assert (forall f, frame_range k f -> frame_used (with_mem m k) f = true -> frame_used (with_mem m' k) f = true) as Hmono'
    by (intros f Hf Hfu; rewrite Hused, Hfu by exact Hf; apply orb_true_r).
  assert (forall x, h_end_address h <= x < start + S' -> x / 0x1000 = (start + i) / 0x1000 ->
    page_frame (load32 m' (entry x)) = idx /\ given_entry k h m' (load32 m' (entry x))) as Hnew.
  { intros x Hx Ex. destruct (Hent x Hx) as [Hw _]. destruct (Hw Ex) as [w ->].
    destruct (page_entry_fields w idx (if h_supervisor h =? 0 then 0 else 1) (if h_readonly h =? 0 then 1 else 0)) as (H1 & H2 & H3 & H4 & _);
      [apply (frame_range_bound k); [apply (gr_frames _ _ _ _ _ (np_ready _ _ _ _ Hpages)) | exact Hr]|].
    split; [exact H4|]. unfold given_entry. rewrite H1, H2, H3, H4. split_and!; [reflexivity | | | exact Hr | | now rewrite Hused, Z.eqb_refl].
    - now destruct (h_readonly h =? 0).
    - now destruct (h_supervisor h =? 0).
    - destruct (frame_used k idx) eqn:Ef; [|reflexivity]. rewrite (Hmono idx Hr Ef) in Hu. discriminate Hu. }
  exists (with_mem m' k, i + 0x1000). split; [exact E|]. split; [|exact Hmu].
  constructor; cbn [fst snd k_mem with_mem]; [exact Hex | zlia | auto | | |].
  - intros x Hx Hlt. destruct (page_cases i x Hal ltac:(lia)) as [[Hb Hne]|Ex]; [|now apply Hnew].
    rewrite (proj2 (Hent x Hx) Hne). destruct (Hgiven x Hx Hb) as (H1 & H2 & H3 & H4 & H5 & H6). unfold given_entry. auto 10.
  - intros x y Hx Hy Hxl Hyl Hne. destruct (page_cases i x Hal ltac:(lia)) as [[Hb Hnx]|Ex], (page_cases i y Hal ltac:(lia)) as [[Hb' Hny]|Ey].
    + rewrite (proj2 (Hent x Hx) Hnx), (proj2 (Hent y Hy) Hny). now apply Hdist.
    + rewrite (proj2 (Hent x Hx) Hnx), (proj1 (Hnew y Hy Ey)). intros Ef. destruct (Hgiven x Hx Hb) as (_ & _ & _ & _ & _ & H6). congruence.
    + rewrite (proj2 (Hent y Hy) Hny), (proj1 (Hnew x Hx Ex)). intros Ef. destruct (Hgiven y Hy Hb') as (_ & _ & _ & _ & _ & H6). congruence.
    + congruence.
  - intros x Hx Hge. rewrite (proj2 (Hent x Hx)) by zlia. apply Hrest; lia.
Qed.
End Growth.

(** [expand] of a heap that ends with a page maps every page behind it. *)
Lemma expand_maps new_size k h lo :
  let start := h_start_address h in
  let e := start + grown_size new_size in
  0 <= start <= h_end_address h -> h_end_address h mod 0x1000 = 0 -> h_end_address h - start < new_size ->
  e <= h_max_address h -> e + 0x1000 < 0x100000000 ->
  new_pages k lo (h_end_address h) e -> frames_free k (pages_for (e - h_end_address h)) ->
  exists m, expand new_size k h = Ok (with_mem m k, with_end_address e h) /\
    same_on (k_kernel_directory k) 0x1000 (k_mem k) m /\ pages_given k h (h_end_address h) e m.
Proof.
  cbv zeta. intros Hst Hal Hn Hmax Hb Hnew Hfree. set (start := h_start_address h) in *.
  pose proof (grown_size_ge new_size ltac:(lia)) as Hg. rewrite expand_eq by (fold start; lia). fold start.
  set (S' := grown_size new_size) in *. set (L := h_end_address h - start) in *. clearbody S'.
  destruct (while_rule (mapping k h S' lo) (fun st => pages_for (S' - st.2)) (fun '(_, i) => i <? S') (expand_step h)
    (Z.to_nat (S' / 0x1000 + 1)) (k, L)) as ([k' i'] & E & [(m & Ek & _ & _ & _ & Hd) _ _ Hgiven Hdist _] & Hend).
  - intros [k1 i] Hm Hc. apply Z.ltb_lt in Hc. apply mapping_step; (assumption || lia).
  - constructor; cbn [fst snd]; try (intros; lia); [|subst L; zlia | auto].
    exists (k_mem k). cbn [fst snd]. rewrite with_mem_id.
    split_and!; [reflexivity | lia | lia | | intros x _; reflexivity | intros x _; reflexivity].
    replace (S' - L) with (start + S' - h_end_address h) by (subst L; lia). exact Hfree.
  - cbn [snd]. unfold pages_for. subst L. zlia.
  - rewrite E, bind_ok. cbn [fst snd] in *. subst k'. cbn [k_mem with_mem] in *. apply Z.ltb_ge in Hend. exists m. split_and!; [reflexivity | exact Hd |].
    assert (forall x, h_end_address h <= x < start + S' -> entry_of m (k_kernel_directory k) x = entry_of (k_mem k) (k_kernel_directory k) x) as He
      by (intros x Hx; now apply (entry_same k h S')).
    split; [intros x Hx; rewrite (He x Hx) | intros x y Hx Hy Hne; rewrite (He x Hx), (He y Hy)].
    + apply Hgiven; lia.
    + apply Hdist; (assumption || lia).
Qed.

(** What is written between the index and the new end leaves the pages. *)
Lemma pages_given_area k h lo a e m m' :
  new_pages k lo a e -> lo <= a -> 0 <= a -> e < 0x100000000 -> same_on (k_kernel_directory k) 0x1000 (k_mem k) m ->
  same_but lo (e - lo) m m' -> pages_given k h a e m -> pages_given k h a e m'.
Proof.
  intros Hnew Hlo Ha He Hd Hbut [Hg Hdist].
  assert (forall x, a <= x < e -> load32 m' (entry_of m' (k_kernel_directory k) x) = load32 m (entry_of m (k_kernel_directory k) x)) as Hw.
  { intros x Hx. destruct (gr_table _ _ _ _ _ (np_ready _ _ _ _ Hnew) x Hx) as (_ & _ & Ht & _). pose proof (np_directory _ _ _ _ Hnew) as Hdir.
    assert (dir_table m (k_kernel_directory k) (x / 0x400000) = dir_table (k_mem k) (k_kernel_directory k) (x / 0x400000)) as Et
      by (apply (same_on_load32 _ _ _ _ _ Hd); zlia).
    assert (dir_table m' (k_kernel_directory k) (x / 0x400000) = dir_table m (k_kernel_directory k) (x / 0x400000)) as Et'
      by (apply (same_but_load32 _ _ _ _ _ Hbut); zlia).
    unfold entry_of. rewrite Et'. apply (same_but_load32 _ _ _ _ _ Hbut). rewrite Et. unfold dir_table. zlia. }
  assert (forall f, frame_range k f -> frame_used (with_mem m' k) f = frame_used (with_mem m k) f) as Hu.
  { intros f Hf. unfold frame_used. cbn [k_mem k_frames with_mem]. f_equal. apply (same_but_load32 _ _ _ _ _ Hbut).
    destruct (gr_bitmap _ _ _ _ _ (np_ready _ _ _ _ Hnew)) as [H|H]; unfold frame_range, bitmap_size in *; zlia. }
  split; [intros x Hx; rewrite (Hw x Hx) | intros x y Hx Hy Hne; rewrite (Hw x Hx), (Hw y Hy); now apply Hdist].
  destruct (Hg x Hx) as (H1 & H2 & H3 & H4 & H5 & H6). unfold given_entry. rewrite Hu by exact H4. auto 10.
Qed.

(** [alloc] when no hole fits, on a heap that ends with a page. *)
Lemma alloc_grown_maps k h bs need m :
  heap_inv (k_mem k) h bs -> 20 <= need -> can_grow k h need -> h_end_address h mod 0x1000 = 0 ->
  new_pages k (oa_array (h_index h)) (h_end_address h) (grown_end h need) -> written_after_expand k h need m ->
  pages_given k h (h_end_address h) (grown_end h need) m.
Proof.
  intros Hi Hn [Hmax Hwid _ _ Hfree] Hal Hnew (m1 & E & Hbut). fold (grown_end h need) in *.
  pose proof (hi_start _ _ _ Hi). pose proof (tiled_le _ _ _ (hi_tiled _ _ _ Hi)). pose proof (hi_array _ _ _ Hi). pose proof (hi_room _ _ _ Hi).
  destruct (expand_maps (h_end_address h - h_start_address h + need) k h (oa_array (h_index h))) as (m2 & E2 & Hd & Hg);
    fold (grown_end h need); try assumption; try lia.
  { replace (grown_end h need - h_end_address h) with
      (grown_size (h_end_address h - h_start_address h + need) - (h_end_address h - h_start_address h)) by (unfold grown_end; lia). exact Hfree. }
  rewrite E in E2. injection E2 as E2. subst m2.
  apply (pages_given_area k h (oa_array (h_index h)) _ _ m1); (assumption || lia).
Qed.
