(* ===== verification/HeapSafety.v ===== *)
(** * The kernel heap seen by its clients

    [heap_step] is a step of the heap: an allocation that finds a hole, one
    that grows a heap which is full or ends in a hole, a page-aligned one that
    finds a hole which can be cut for it, a free of a live block whose right
    neighbour is in use, or a write of a client to its block.  [live] records what each client last wrote.  [heap_safe] is the
    invariant of the runs. *)

From S2P Require Import Prelude Memory Util OrderedArray Kernel Paging KHeap KHeapInv KHeapAlign KHeapFree KHeapGrow.

Record hstate := mk_hstate { hs_k : kernel; hs_h : heap_t; hs_live : gmap Z (list Z) }.

(** The block at [p] is not the last one and the next one is in use. *)
Definition right_in_use (m : mem) (h : heap_t) (p : Z) : Prop :=
  let next := p - SIZEOF_header + hdr_size m (p - SIZEOF_header) in
  next < h_end_address h /\ hdr_is_hole m next = 0.

Inductive heap_step : hstate -> hstate -> Prop :=
| step_alloc k h live size i p k' h' :
    0 <= size -> size + 20 < 0x100000000 ->
    find_smallest_hole (size + 20) 0 (k_mem k) h = Ok i -> i <> -1 ->
    alloc 0 size 0 k h = Ok (p, k', h') ->
    heap_step (mk_hstate k h live)
      (mk_hstate k' h' (<[p := load_bytes (k_mem k') p (Z.to_nat size)]> live))
| step_alloc_grow k h live size p k' h' :
    0 <= size -> size + 20 < 0x100000000 ->
    find_smallest_hole (size + 20) 0 (k_mem k) h = Ok (-1) ->
    can_grow k h (size + 20) -> growth_adjoins (k_mem k) h ->
    alloc 1 size 0 k h = Ok (p, k', h') ->
    heap_step (mk_hstate k h live)
      (mk_hstate k' h' (<[p := load_bytes (k_mem k') p (Z.to_nat size)]> live))
| step_alloc_aligned k h live size i a p k' h' :
    0 <= size -> size + 20 < 0x100000000 ->
    find_smallest_hole (size + 20) 1 (k_mem k) h = Ok i -> i <> -1 ->
    lookup_ordered_array (k_mem k) i (h_index h) = Ok a -> 0x1000 <= a ->
    aligned_room (mk_block a (hdr_size (k_mem k) a) true) (size + 20) ->
    alloc 0 size 1 k h = Ok (p, k', h') ->
    heap_step (mk_hstate k h live)
      (mk_hstate k' h' (<[p := load_bytes (k_mem k') p (Z.to_nat size)]> live))
| step_free k h live p v k' h' :
    live !! p = Some v -> right_in_use (k_mem k) h p ->
    free p k h = Ok (k', h') ->
    heap_step (mk_hstate k h live) (mk_hstate k' h' (delete p live))
| step_write k h live p v v' :
    live !! p = Some v -> length v' = length v -> Forall (fun x => 0 <= x < 0x100) v' ->
    heap_step (mk_hstate k h live)
      (mk_hstate (with_mem (store_bytes (k_mem k) p v') k) h (<[p := v']> live)).

(** The client's bytes [v] at [p] are inside a block in use. *)
Definition live_in (bs : list block) (p : Z) (v : list Z) : Prop :=
  exists b, b ∈ bs /\ b_hole b = false /\ p = b_addr b + 12 /\ Z.of_nat (length v) + 20 <= b_size b.

Record live_ok (m : mem) (bs : list block) (live : gmap Z (list Z)) : Prop := {
  lo_bytes : forall p v, live !! p = Some v -> bytes_at m p v;
  lo_block : forall p v, live !! p = Some v -> live_in bs p v;
}.

Definition heap_safe (s : hstate) : Prop :=
  exists bs, heap_inv (k_mem (hs_k s)) (hs_h s) bs /\ live_ok (k_mem (hs_k s)) bs (hs_live s).

(** ** The calls keep what is live *)

(** Two blocks of a heap with one address are one. *)
Lemma block_unique a e bs b c : tiled a e bs -> b ∈ bs -> c ∈ bs -> b_addr b = b_addr c -> b = c.
Proof.
  intros Ht Hb Hc E. apply list_elem_of_split in Hb as (l1 & l2 & ->).
  rewrite elem_of_app, elem_of_cons in Hc.
  pose proof (tiled_mid _ _ _ _ _ Ht) as (_ & _ & Hs).
  destruct (decide (c = b)) as [->|Hne]; [reflexivity|exfalso].
  assert (c ∈ l1 \/ c ∈ l2) as Hc' by tauto.
  assert (20 <= b_size c) as Hcs by (apply (tiled_in _ _ _ c Ht); rewrite elem_of_app, elem_of_cons; tauto).
  destruct (tiled_apart _ _ _ _ _ _ Ht Hc'); unfold b_end in *; lia.
Qed.

(** What a call does not touch of a live block stays: [old] is replaced by
    [new], the bytes outside [old] are the same. *)
Lemma live_ok_frame m m' h bs1 old new bs2 a c live :
  heap_inv m h (bs1 ++ old ++ bs2) -> tiled a c old -> old <> [] -> heap_frame h a c m m' ->
  (forall p v, live !! p = Some v -> exists b, b ∈ bs1 ++ bs2 /\ b_hole b = false /\ p = b_addr b + 12 /\
     Z.of_nat (length v) + 20 <= b_size b) ->
  live_ok m (bs1 ++ old ++ bs2) live -> live_ok m' (bs1 ++ new ++ bs2) live.
Proof.
  intros Hi Hold Hne Hfr Hlive Hok. pose proof (hi_tiled _ _ _ Hi) as Ht. pose proof (hi_array _ _ _ Hi).
  apply tiled_app in Ht as (y & Ht1 & Ht). apply tiled_app in Ht as (z & Hto & Ht2).
  destruct (tiled_unique _ _ _ _ _ Hne Hto Hold) as [-> ->].
  pose proof (tiled_le _ _ _ Ht1). pose proof (tiled_le _ _ _ Hto).
  split; intros p v Hp; destruct (Hlive p v Hp) as (b & Hb & Hh & Hpb & Hl).
  - pose proof (lo_bytes _ _ _ Hok p v Hp) as Hby. rewrite bytes_at_lookup in Hby |- *.
    intros i x Hx. rewrite <- (Hby i x Hx). pose proof (lookup_lt_Some _ _ _ Hx).
    apply elem_of_app in Hb as [Hb|Hb];
      [destruct (tiled_in _ _ _ _ Ht1 Hb) | destruct (tiled_in _ _ _ _ Ht2 Hb)];
      unfold b_end in *; apply Hfr; unfold index_room; lia.
  - exists b. rewrite !elem_of_app in *. intuition.
Qed.

(** A block in use is not the hole that is split, nor the other one freed. *)
Lemma live_elsewhere m h bs1 old bs2 live :
  heap_inv m h (bs1 ++ old ++ bs2) -> live_ok m (bs1 ++ old ++ bs2) live ->
  (forall b, b ∈ old -> b_hole b = false -> live !! (b_addr b + 12) = None) ->
  forall p v, live !! p = Some v -> exists b, b ∈ bs1 ++ bs2 /\ b_hole b = false /\ p = b_addr b + 12 /\
     Z.of_nat (length v) + 20 <= b_size b.
Proof.
  intros Hi Hok Hold p v Hp. destruct (lo_block _ _ _ Hok p v Hp) as (b & Hb & Hh & -> & Hl).
  exists b. split_and!; try assumption; [|reflexivity]. rewrite !elem_of_app in *.
  destruct Hb as [?|[Hb|?]]; auto. rewrite (Hold b Hb Hh) in Hp. discriminate.
Qed.

(** One block's tiling. *)
Lemma tiled_single m h bs1 b bs2 : heap_inv m h (bs1 ++ b :: bs2) -> tiled (b_addr b) (b_end b) [b].
Proof.
  intros Hi. destruct (tiled_mid _ _ _ _ _ (hi_tiled _ _ _ Hi)) as (_ & _ & Hs).
  simpl. unfold SIZEOF_header, SIZEOF_footer. auto.
Qed.

Lemma split_hole_first b need :
  exists c bs, split_hole b need = c :: bs /\ b_hole c = false /\ b_addr c = b_addr b /\
    (need <= b_size b -> need <= b_size c).
Proof. unfold split_hole. case_match; do 2 eexists; split_and!; try reflexivity; simpl; lia. Qed.

(** A fitting hole, from the search. *)
Lemma found_hole m h bs size i :
  heap_inv m h bs -> find_smallest_hole size 0 m h = Ok i -> i <> -1 ->
  exists b, b ∈ bs /\ b_hole b = true /\ size <= b_size b.
Proof.
  intros Hi E Hne. destruct (hi_index _ _ _ Hi) as (l & Hrep & Hp).
  destruct (find_smallest_hole_spec m size h l Hrep) as [[E' _] | (p & x & E' & Hx & Hle & _)]; [congruence|].
  apply list_elem_of_lookup_2 in Hx. rewrite Hp in Hx. apply hole_addrs_in in Hx as (b & Hb & Hh & <-).
  exists b. split_and!; [assumption..|]. destruct (hi_blocks _ _ _ Hi b Hb) as [(_ & <- & _) _]. exact Hle.
Qed.

(** An allocation that replaces the hole [b] by blocks of which [c] is the new
    one keeps the heap safe. *)
Lemma alloc_safe k h (live : gmap Z (list Z)) bs1 b bs2 new c m' idx' size :
  heap_inv (k_mem k) h (bs1 ++ b :: bs2) -> b_hole b = true -> live_ok (k_mem k) (bs1 ++ b :: bs2) live ->
  heap_inv m' (with_index idx' h) (bs1 ++ new ++ bs2) -> heap_frame h (b_addr b) (b_end b) (k_mem k) m' ->
  c ∈ new -> b_hole c = false -> b_addr b <= b_addr c < b_end b -> 0 <= size -> size + 20 <= b_size c ->
  live !! (b_addr c + 12) = None /\
  heap_safe (mk_hstate (with_mem m' k) (with_index idx' h)
    (<[b_addr c + 12 := load_bytes m' (b_addr c + 12) (Z.to_nat size)]> live)).
Proof.
  intros Hi Hh Hok Hi' Hfr Hc Hhc Hin Hs Hsz.
  assert (live !! (b_addr c + 12) = None) as Hfresh.
  { destruct (live !! (b_addr c + 12)) as [v|] eqn:El; [exfalso|reflexivity].
    destruct (lo_block _ _ _ Hok _ _ El) as (d & Hd & Hhd & Hpd & Hld).
    rewrite elem_of_app, elem_of_cons in Hd. destruct (decide (d = b)) as [->|Hne]; [congruence|].
    assert (b_end d <= b_addr b \/ b_end b <= b_addr d) by (apply (tiled_apart _ _ _ _ _ _ (hi_tiled _ _ _ Hi)); tauto).
    unfold b_end in *. lia. }
  split; [exact Hfresh|]. exists (bs1 ++ new ++ bs2). cbn [hs_k hs_h hs_live with_mem k_mem]. split; [exact Hi'|].
  assert (live_ok m' (bs1 ++ new ++ bs2) live) as Hok'.
  { eapply (live_ok_frame _ _ _ _ [b]); [exact Hi | apply (tiled_single _ _ _ _ _ Hi) | discriminate | exact Hfr | | exact Hok].
    apply (live_elsewhere _ _ _ [b] _ _ Hi Hok). intros d Hd. apply list_elem_of_singleton in Hd as ->. congruence. }
  split; intros q v Hq; (destruct (decide (q = b_addr c + 12)) as [->|Hqne];
    [rewrite lookup_insert_eq in Hq; injection Hq as <- | rewrite lookup_insert_ne in Hq by congruence]).
  - unfold bytes_at. rewrite length_load_bytes. reflexivity.
  - apply (lo_bytes _ _ _ Hok' _ _ Hq).
  - exists c. rewrite length_load_bytes, Z2Nat.id by lia.
    split_and!; [rewrite !elem_of_app; auto | exact Hhc | reflexivity | lia].
  - apply (lo_block _ _ _ Hok' _ _ Hq).
Qed.

Lemma step_alloc_safe k h live size i p k' h' :
  0 <= size -> size + 20 < 0x100000000 ->
  find_smallest_hole (size + 20) 0 (k_mem k) h = Ok i -> i <> -1 ->
  alloc 0 size 0 k h = Ok (p, k', h') -> heap_safe (mk_hstate k h live) ->
  live !! p = None /\
  heap_safe (mk_hstate k' h' (<[p := load_bytes (k_mem k') p (Z.to_nat size)]> live)).
Proof.
  intros Hs Hb E Hne Ea (bs & Hi & Hok). cbn [hs_k hs_h hs_live] in *.
  destruct (alloc_spec 0 k h bs size Hi Hs Hb (found_hole _ _ _ _ _ Hi E Hne)) as
    (bs1 & b & bs2 & m' & idx' & -> & Hh & Hfit & _ & Ea' & Hi' & Hfr & _).
  rewrite Ea in Ea'. injection Ea' as -> -> ->.
  destruct (split_hole_first b (size + 20)) as (c & cs & Ec & Hhc & Hac & Hsz).
  rewrite <- Hac. apply (alloc_safe k h live bs1 b bs2 (split_hole b (size + 20)) c); try assumption;
    [rewrite Ec; left | unfold b_end; lia | lia].
Qed.

(** No hole fits, from the search. *)
Lemma no_hole m h bs size :
  heap_inv m h bs -> find_smallest_hole size 0 m h = Ok (-1) -> forall b, b ∈ bs -> b_hole b = true -> b_size b < size.
Proof.
  intros Hi E b Hb Hh. destruct (hi_index _ _ _ Hi) as (l & Hrep & Hp). destruct (hi_blocks _ _ _ Hi b Hb) as [(_ & <- & _) _].
  destruct (find_smallest_hole_spec m size h l Hrep) as [[_ Hall] | (p & x & E' & _)].
  - apply Hall. rewrite Hp. apply hole_addrs_in. eauto.
  - rewrite E' in E. injection E as E. lia.
Qed.

Lemma step_alloc_grow_safe k h live size p k' h' :
  0 <= size -> size + 20 < 0x100000000 -> find_smallest_hole (size + 20) 0 (k_mem k) h = Ok (-1) ->
  can_grow k h (size + 20) -> growth_adjoins (k_mem k) h ->
  alloc 1 size 0 k h = Ok (p, k', h') -> heap_safe (mk_hstate k h live) ->
  live !! p = None /\
  heap_safe (mk_hstate k' h' (<[p := load_bytes (k_mem k') p (Z.to_nat size)]> live)).
Proof.
  intros Hs Hb E Hcan Hadj Ea (bs & Hi & Hok). cbn [hs_k hs_h hs_live] in *.
  destruct (growth_adjoins_grown _ _ bs (grown_end h (size + 20) - h_end_address h) Hi Hadj) as (front & g & Hg).
  destruct (grown_hole (size + 20) k h bs front g Hi ltac:(lia) Hcan Hg) as (Hgh & Hgs & _ & Hfront & Hlive).
  destruct (alloc_grown_spec 0 size k h bs front g Hi Hs Hb (no_hole _ _ _ _ Hi E) Hcan Hg) as (m' & idx' & Ea' & Hi' & Hsame & _).
  rewrite Ea in Ea'. injection Ea' as -> -> ->. destruct (split_hole_first g (size + 20)) as (c & cs & Ec & Hhc & Hac & Hsz).
  assert (forall q v, live !! q = Some v -> exists d, d ∈ bs /\ d ∈ front /\ b_hole d = false /\ q = b_addr d + 12 /\
    Z.of_nat (length v) + 20 <= b_size d /\ b_end d <= b_addr g) as Hd.
  { intros q v Hq. destruct (lo_block _ _ _ Hok q v Hq) as (d & Hd & Hdh & Hqd & Hl). exists d.
    pose proof (Hlive d Hd Hdh) as Hdf. split_and!; try assumption. apply (Hfront d Hdf). }
  split.
  { destruct (live !! (b_addr g + 12)) as [v|] eqn:El; [exfalso|reflexivity]. destruct (Hd _ _ El) as (d & _ & _ & _ & H1 & H2 & H3).
    unfold b_end in H3. lia. }
  exists (front ++ split_hole g (size + 20)). cbn [hs_k hs_h hs_live with_mem k_mem]. split; [exact Hi'|].
  split; intros q v Hq; (destruct (decide (q = b_addr g + 12)) as [->|Hne];
    [rewrite lookup_insert_eq in Hq; injection Hq as <- | rewrite lookup_insert_ne in Hq by congruence]).
  - unfold bytes_at. rewrite length_load_bytes. reflexivity.
  - pose proof (lo_bytes _ _ _ Hok q v Hq) as Hby. rewrite bytes_at_lookup in Hby |- *. intros i x Hx. rewrite <- (Hby i x Hx).
    apply lookup_lt_Some in Hx. destruct (Hd q v Hq) as (d & Hdb & _ & Hdh & -> & Hl & _). apply (Hsame d Hdb Hdh). lia.
  - exists c. rewrite length_load_bytes, Z2Nat.id, Ec, !elem_of_app, elem_of_cons by lia. split_and!; [auto | exact Hhc | lia | lia].
  - destruct (Hd q v Hq) as (d & _ & Hdf & Hdh & Hqd & Hl & _). exists d. rewrite elem_of_app. auto.
Qed.

Lemma step_alloc_aligned_safe k h live size i a p k' h' :
  0 <= size -> size + 20 < 0x100000000 ->
  find_smallest_hole (size + 20) 1 (k_mem k) h = Ok i -> i <> -1 ->
  lookup_ordered_array (k_mem k) i (h_index h) = Ok a -> 0x1000 <= a ->
  aligned_room (mk_block a (hdr_size (k_mem k) a) true) (size + 20) ->
  alloc 0 size 1 k h = Ok (p, k', h') -> heap_safe (mk_hstate k h live) ->
  live !! p = None /\
  heap_safe (mk_hstate k' h' (<[p := load_bytes (k_mem k') p (Z.to_nat size)]> live)).
Proof.
  intros Hs Hb E Hne El Ha Hroom Ealloc (bs & Hi & Hok). cbn [hs_k hs_h hs_live] in *.
  destruct (alloc_aligned_spec 0 k h bs size i Hi Hs Hb E Hne) as (bs1 & b & bs2 & -> & Hh & El' & Hsz & Hcut).
  rewrite El in El'. injection El' as ->. rewrite Hsz in Hroom.
  destruct (Hcut Ha Hroom) as (m' & idx' & Ea' & Hi' & Hfr). rewrite Ealloc in Ea'. injection Ea' as -> -> ->.
  destruct (split_aligned_block b (size + 20)) as (c & Hc & Hhc & Hac & Hcs). rewrite <- Hac.
  destruct Hroom as [Hp Hr]. cbn [b_addr b_size] in Hp, Hr. unfold SIZEOF_header, SIZEOF_footer in Hp, Hr.
  apply (alloc_safe k h live bs1 b bs2 (split_aligned b (size + 20)) c); try assumption; unfold b_end; lia.
Qed.

(** The shape of the heap around a block that may be freed. *)
Lemma right_in_use_shape k h bs live p v :
  heap_inv (k_mem k) h bs -> live_ok (k_mem k) bs live -> live !! p = Some v -> right_in_use (k_mem k) h p ->
  exists bs1 b c bs2, bs = bs1 ++ b :: c :: bs2 /\ p = b_addr b + 12 /\ b_hole b = false /\ b_hole c = false.
Proof.
  intros Hi Hok Hp [Hend Hhole]. destruct (lo_block _ _ _ Hok _ _ Hp) as (b & Hb & Hh & -> & _).
  destruct (hi_blocks _ _ _ Hi b Hb) as [(_ & Hz & _) _]. apply list_elem_of_split in Hb as (bs1 & bs2 & ->).
  unfold SIZEOF_header in *. replace (b_addr b + 12 - 12) with (b_addr b) in * by lia. rewrite Hz in *.
  pose proof (tiled_mid _ _ _ _ _ (hi_tiled _ _ _ Hi)) as (_ & H2 & _).
  destruct bs2 as [|c bs2]; [simpl in H2; unfold b_end in *; lia|]. destruct H2 as (Hc & _ & _).
  exists bs1, b, c, bs2. split_and!; try reflexivity; [exact Hh|].
  destruct (hi_blocks _ _ _ Hi c) as [(_ & _ & Hhc) _]; [rewrite elem_of_app, !elem_of_cons; auto|].
  unfold b_end in Hc. rewrite <- Hc, Hhc in Hhole. destruct (b_hole c); [discriminate | reflexivity].
Qed.

Lemma live_ok_delete m bs live p : live_ok m bs live -> live_ok m bs (delete p live).
Proof.
  intros Hok. split; intros q v Hq; apply lookup_delete_Some in Hq as [_ Hq];
    [apply (lo_bytes _ _ _ Hok _ _ Hq) | apply (lo_block _ _ _ Hok _ _ Hq)].
Qed.

(** [free] of such a block returns and keeps the rest. *)
Lemma free_live k h live p v :
  heap_safe (mk_hstate k h live) -> live !! p = Some v -> right_in_use (k_mem k) h p ->
  exists k' h', free p k h = Ok (k', h') /\ heap_safe (mk_hstate k' h' (delete p live)).
Proof.
  intros (bs & Hi & Hok) Hp Hr. cbn [hs_k hs_h hs_live] in *.
  destruct (right_in_use_shape _ _ _ _ _ _ Hi Hok Hp Hr) as (bs1 & b & c & bs2 & -> & -> & Hb & Hc).
  apply (live_ok_delete _ _ _ (b_addr b + 12)) in Hok.
  assert (delete (b_addr b + 12) live !! (b_addr b + 12) = None) as Hgone by apply lookup_delete_eq.
  assert (no_left_hole bs1 \/ exists bs0 a, bs1 = bs0 ++ [a] /\ b_hole a = true) as [Hn|(bs0 & a & -> & Ha)].
  { unfold no_left_hole. destruct (last bs1) as [a|] eqn:El; [|left; discriminate].
    destruct (b_hole a) eqn:Ha; [right | left; congruence].
    apply last_Some in El as [bs0 ->]. eauto. }
  - destruct (free_spec_insert k h bs1 b c bs2 Hi Hb Hc Hn) as (m' & idx' & E & Hi' & Hfr & _).
    do 2 eexists. split; [exact E|]. eexists. cbn [hs_k hs_h hs_live]. split; [exact Hi'|].
    rewrite coalesce_left_none, <- app_assoc by exact Hn. change (b :: c :: bs2) with ([b] ++ c :: bs2) in *.
    eapply (live_ok_frame _ _ _ _ [b]); [exact Hi | apply (tiled_single _ _ _ _ _ Hi) | discriminate | exact Hfr | | exact Hok].
    apply (live_elsewhere _ _ _ [b] _ _ Hi Hok). intros d Hd. apply list_elem_of_singleton in Hd as ->. auto.
  - destruct (free_spec_merge k h bs0 a b c bs2 Hi Hb Hc Ha) as (m' & E & Hi' & Hfr).
    do 2 eexists. split; [exact E|]. eexists. cbn [hs_k hs_h hs_live]. split; [exact Hi'|].
    rewrite coalesce_left_snoc, Ha, <- app_assoc. rewrite <- app_assoc in Hi, Hok.
    change (bs0 ++ [a] ++ b :: c :: bs2) with (bs0 ++ [a; b] ++ c :: bs2) in Hi, Hok.
    assert (tiled (b_addr a) (b_end b) [a; b]) as Hab.
    { pose proof (hi_tiled _ _ _ Hi) as Ht. apply tiled_app in Ht as (x & _ & Ht).
      apply tiled_app in Ht as (y & Ht & _). simpl in *. intuition congruence. }
    eapply (live_ok_frame _ _ _ _ [a; b]); [exact Hi | exact Hab | discriminate | exact Hfr | | exact Hok].
    apply (live_elsewhere _ _ _ [a; b] _ _ Hi Hok). intros d Hd Hdh.
    apply elem_of_cons in Hd as [->|Hd]; [congruence|]. apply list_elem_of_singleton in Hd as ->. exact Hgone.
Qed.

(** Writes in a block's data keep the heap. *)
Lemma heap_inv_same_but m m' h bs b n :
  heap_inv m h bs -> b ∈ bs -> 0 <= n -> n + 20 <= b_size b -> same_but (b_addr b + 12) n m m' -> heap_inv m' h bs.
Proof.
  intros Hi Hb Hn Hl Hfr. pose proof (hi_tiled _ _ _ Hi) as Ht. pose proof (hi_array _ _ _ Hi).
  pose proof (tiled_in _ _ _ _ Ht Hb) as (Hba & _ & _).
  constructor; try apply Hi.
  - intros c Hc. destruct (decide (c = b)) as [->|Hne].
    + destruct (hi_blocks _ _ _ Hi b Hb) as [Hh Hf]. unfold block_ok, header_ok, footer_ok, b_end in *.
      destruct (header_same_on m m' (b_addr b)) as (-> & -> & ->);
        [eapply same_but_on; [exact Hfr | lia]|].
      unfold ftr_magic, ftr_header, SIZEOF_footer in *.
      rewrite !(same_but_load32 _ _ _ _ _ Hfr) by lia. auto.
    + apply (block_ok_same_on m); [apply (tiled_in _ _ _ _ Ht Hc) | | apply (hi_blocks _ _ _ Hi c Hc)].
      apply list_elem_of_split in Hb as (l1 & l2 & ->). rewrite elem_of_app, elem_of_cons in Hc.
      assert (b_end c <= b_addr b \/ b_end b <= b_addr c) by (apply (tiled_apart _ _ _ _ _ _ Ht); tauto).
      unfold b_end in *. eapply same_but_on; [exact Hfr | lia].
  - destruct (hi_index _ _ _ Hi) as (l & [Hz Hw] & Hp). exists l. split; [split; [exact Hz|] | exact Hp].
    eapply words_frame_block; [exact Hi | exact Hfr | lia | | exact Hw].
    pose proof (index_length _ _ _ _ Hi (conj Hz Hw) Hp). lia.
  - rewrite (same_but_load32 _ _ _ _ _ Hfr) by (unfold SIZEOF_footer; lia). apply Hi.
Qed.

Lemma heap_inv_data m h bs b p v :
  heap_inv m h bs -> b ∈ bs -> p = b_addr b + 12 -> Z.of_nat (length v) + 20 <= b_size b ->
  heap_inv (store_bytes m p v) h bs.
Proof.
  intros Hi Hb -> Hl. eapply heap_inv_same_but; [exact Hi | exact Hb | | exact Hl |]; [lia | apply same_but_store_bytes; lia].
Qed.

(** The same, with whatever happens outside the heap. *)
Lemma heap_inv_data_area m m' h bs b n :
  heap_inv m h bs -> b ∈ bs -> 0 <= n -> n + 20 <= b_size b ->
  (forall x, oa_array (h_index h) <= x < h_end_address h -> x < b_addr b + 12 \/ b_addr b + 12 + n <= x -> load8 m' x = load8 m x) ->
  heap_inv m' h bs.
Proof.
  intros Hi Hb Hn Hl Hs. set (v := load_bytes m' (b_addr b + 12) (Z.to_nat n)).
  assert (Z.of_nat (length v) = n) as Hv by (unfold v; rewrite length_load_bytes; lia).
  apply (heap_inv_area (store_bytes m (b_addr b + 12) v)).
  - apply (heap_inv_data m h bs b); [exact Hi | exact Hb | reflexivity | lia].
  - intros x Hx. destruct (decide (b_addr b + 12 <= x < b_addr b + 12 + n)) as [Hd|Hd].
    + assert (bytes_at (store_bytes m (b_addr b + 12) v) (b_addr b + 12) v) as Hby.
      { apply bytes_at_store_bytes. apply Forall_forall. intros y Hy. apply list_elem_of_lookup in Hy as [i Hy].
        pose proof Hy as Hy'. apply lookup_lt_Some in Hy'. unfold v in Hy, Hy'. rewrite length_load_bytes in Hy'. rewrite load_bytes_lookup in Hy by lia.
        injection Hy as <-. apply load8_range. }
      rewrite bytes_at_lookup in Hby. specialize (Hby (Z.to_nat (x - (b_addr b + 12))) (load8 m' x)).
      replace (b_addr b + 12 + Z.of_nat (Z.to_nat (x - (b_addr b + 12)))) with x in Hby by lia. symmetry. apply Hby.
      unfold v. rewrite load_bytes_lookup by lia. f_equal. f_equal. lia.
    + rewrite (Hs x) by lia. symmetry. apply (same_but_store_bytes (b_addr b + 12) n m (b_addr b + 12) v); lia.
Qed.

Lemma step_write_safe k h live p v v' :
  live !! p = Some v -> length v' = length v -> Forall (fun x => 0 <= x < 0x100) v' ->
  heap_safe (mk_hstate k h live) ->
  heap_safe (mk_hstate (with_mem (store_bytes (k_mem k) p v') k) h (<[p := v']> live)).
Proof.
  intros Hp Hlen Hv (bs & Hi & Hok). cbn [hs_k hs_h hs_live] in *. exists bs.
  destruct (lo_block _ _ _ Hok _ _ Hp) as (b & Hb & Hh & Hpb & Hl). cbn [hs_k hs_h hs_live with_mem k_mem]. split.
  { eapply heap_inv_data; [exact Hi | exact Hb | exact Hpb | lia]. }
  split; intros q w Hq; (destruct (decide (q = p)) as [->|Hne];
    [rewrite lookup_insert_eq in Hq; injection Hq as <- | rewrite lookup_insert_ne in Hq by congruence]).
  - now apply bytes_at_store_bytes.
  - destruct (lo_block _ _ _ Hok _ _ Hq) as (c & Hc & Hhc & Hqc & Hlc).
    apply (same_but_bytes_at p (Z.of_nat (length v')) (k_mem k));
      [apply same_but_store_bytes; lia | | apply (lo_bytes _ _ _ Hok _ _ Hq)].
    pose proof (hi_tiled _ _ _ Hi) as Ht. destruct (decide (c = b)) as [->|Hcb]; [congruence|].
    apply list_elem_of_split in Hb as (l1 & l2 & ->). rewrite elem_of_app, elem_of_cons in Hc.
    assert (b_end c <= b_addr b \/ b_end b <= b_addr c) by (apply (tiled_apart _ _ _ _ _ _ Ht); tauto).
    unfold b_end in *. lia.
  - exists b. split_and!; [assumption.. | lia].
  - apply (lo_block _ _ _ Hok _ _ Hq).
Qed.

(** Runs. *)
Inductive heap_run : hstate -> hstate -> Prop :=
| run_refl s : heap_run s s
| run_step s1 s2 s3 : heap_step s1 s2 -> heap_run s2 s3 -> heap_run s1 s3.

Lemma heap_step_safe s s' : heap_step s s' -> heap_safe s -> heap_safe s'.
Proof.
  intros [k h live size i p k' h' Hs Hb E Hne Ea | k h live size p k' h' Hs Hb E Hc Hg Ea | k h live size i a p k' h' Hs Hb E Hne El Ha Hr Ea
    | k h live p v k' h' Hp Hr Ef | k h live p v v' Hp Hl Hv] H.
  - apply (step_alloc_safe k h live size i p k' h' Hs Hb E Hne Ea H).
  - apply (step_alloc_grow_safe k h live size p k' h' Hs Hb E Hc Hg Ea H).
  - apply (step_alloc_aligned_safe k h live size i a p k' h' Hs Hb E Hne El Ha Hr Ea H).
  - destruct (free_live k h live p v H Hp Hr) as (k1 & h1 & E1 & H1). rewrite Ef in E1.
    injection E1 as -> ->. exact H1.
  - apply (step_write_safe k h live p v v' Hp Hl Hv H).
Qed.

Lemma heap_run_safe s s' : heap_run s s' -> heap_safe s -> heap_safe s'.
Proof. intros Hr. induction Hr; eauto using heap_step_safe. Qed.

(** The data of two live blocks lie apart. *)
Lemma live_apart s p q v w :
  heap_safe s -> hs_live s !! p = Some v -> hs_live s !! q = Some w -> p <> q ->
  p + Z.of_nat (length v) <= q \/ q + Z.of_nat (length w) <= p.
Proof.
  intros (bs & Hi & Hok) Hp Hq Hne.
  destruct (lo_block _ _ _ Hok _ _ Hp) as (b & Hb & _ & -> & Hl).
  destruct (lo_block _ _ _ Hok _ _ Hq) as (c & Hc & _ & -> & Hlc).
  pose proof (hi_tiled _ _ _ Hi) as Ht. apply list_elem_of_split in Hb as (l1 & l2 & ->).
  rewrite elem_of_app, elem_of_cons in Hc. destruct (decide (c = b)) as [->|Hcb]; [congruence|].
  assert (b_end c <= b_addr b \/ b_end b <= b_addr c) by (apply (tiled_apart _ _ _ _ _ _ Ht); tauto).
  unfold b_end in *. lia.
Qed.
