(* ===== verification/HeapProps.v ===== *)
(** * Properties of the kernel heap

    [create_heap] sets the invariant up; [alloc] and [free] keep it and are
    best fit and coalescing; live blocks are safe on every run of
    [HeapSafety.heap_step].  The last section has the runs outside it on which
    the heap goes wrong. *)

From S2P Require Import Prelude Memory Util OrderedArray Kernel Paging KHeap KHeapInv KHeapAlign KHeapFree KHeapGrow KHeapPages HeapSafety.

(** ** A heap that is one hole *)

Lemma one_hole_inv m h :
  0 <= h_start_address h -> h_end_address h < 0x100000000 ->
  h_start_address h + 20 <= h_end_address h ->
  header_ok m (mk_block (h_start_address h) (h_end_address h - h_start_address h) true) ->
  oa_rep m (h_index h) [h_start_address h] ->
  oa_less_than (h_index h) = Some header_t_less_than ->
  0 <= oa_array (h_index h) -> oa_array (h_index h) + 4 * oa_max_size (h_index h) <= h_start_address h ->
  h_end_address h - h_start_address h <= 20 * (oa_max_size (h_index h) - 4) ->
  load32 m (h_start_address h - SIZEOF_footer) <> HEAP_MAGIC ->
  heap_inv m h [mk_block (h_start_address h) (h_end_address h - h_start_address h) true].
Proof.
  intros Hs He Hlen Hh Hrep Hlt Ha Ham Hroom Hl. constructor; try assumption; [| |eauto|auto].
  - simpl. unfold b_end, SIZEOF_header, SIZEOF_footer. simpl. lia.
  - intros b Hb. apply list_elem_of_singleton in Hb as ->. split; [exact Hh|].
    right. split; [reflexivity|]. unfold b_end. simpl. lia.
Qed.

Lemma one_hole_sorted m h a : oa_rep m (h_index h) [a] -> index_sorted m h.
Proof.
  intros Hrep l Hl. rewrite (oa_rep_inj _ _ _ _ Hl Hrep). intros i j x y Hij Hx Hy.
  apply lookup_lt_Some in Hx, Hy. simpl in *. lia.
Qed.

Lemma singleton_split {A} (x y : A) l1 l2 : [x] = l1 ++ y :: l2 -> l1 = [] /\ y = x /\ l2 = [].
Proof.
  destruct l1 as [|z l1]; [intros [= <- <-]; auto|]. intros [= _ E]. symmetry in E.
  apply app_eq_nil in E as [_ E]. discriminate.
Qed.

(** A small heap: the index at 0x1000, the bytes from 0x2000 to 0x3000. *)
Definition small_heap : heap_t :=
  mk_heap (mk_ordered_array 0x1000 1 256 (Some header_t_less_than)) 0x2000 0x3000 0x10000 1 0.

Definition small_kernel : kernel :=
  mk_kernel (store32 (write_header ∅ 0x2000 0x1000 1) 0x1000 0x2000) ∅ 0x100000 (Some small_heap) 0 0 0 0.

Lemma small_heap_rep : oa_rep (k_mem small_kernel) (h_index small_heap) [0x2000].
Proof.
  split; [reflexivity|]. intros [|i] x Hx; simpl in Hx; [|discriminate].
  injection Hx as <-. vm_compute. reflexivity.
Qed.

Lemma small_heap_inv : heap_inv (k_mem small_kernel) small_heap [mk_block 0x2000 0x1000 true].
Proof.
  apply (one_hole_inv (k_mem small_kernel) small_heap);
    try (simpl; lia); try apply small_heap_rep; [vm_compute; auto | reflexivity | vm_compute; congruence].
Qed.

(** ** The bump allocator *)

(** before the heap exists, [kmalloc_int] is a bump allocator: it returns
    the placement address, first rounded up to a page when an aligned chunk is
    asked for and the address has page bits, stores it through [phys], and
    moves the placement address past the chunk; memory does not change, so two
    chunks never overlap. *)
Theorem kmalloc_int_placement (fuel : nat) (sz align : Z) (phys : bool) (k : kernel) :
  k_kheap k = None -> 0 <= sz -> 0 <= k_placement_address k -> k_placement_address k + 0x1000 + sz < 0x100000000 ->
  exists a, kmalloc_int fuel sz align phys k =
      Ok (a, (if phys then Some a else None), with_placement (a + sz) k) /\
    k_placement_address k <= a <= k_placement_address k + 0x1000 /\
    (align = 1 -> 0x1000 <= k_placement_address k -> a mod 0x1000 = 0) /\
    (align <> 1 -> a = k_placement_address k).
Proof.
  intros Hk Hsz Hp Hb. unfold kmalloc_int. rewrite Hk.
  destruct ((align =? 1) && negb (Z.land (k_placement_address k) 0xFFFFF000 =? 0)) eqn:E.
  - apply andb_true_iff in E as [E1 E2]. rewrite land_FFFFF000 in * by lia.
    exists (k_placement_address k - k_placement_address k mod 0x1000 + 0x1000).
    cbn [with_placement k_placement_address]. rewrite !u32_small by zlia.
    split_and!; [reflexivity | zlia | zlia | zlia | lia].
  - exists (k_placement_address k). rewrite u32_small by lia. split_and!; [reflexivity | lia | lia | | reflexivity].
    intros -> Hge. cbn [Z.eqb Pos.eqb andb] in E. rewrite land_FFFFF000 in E by lia.
    apply negb_false_iff, Z.eqb_eq in E. zlia.
Qed.

Lemma kmalloc_int_placement_witness :
  exists a, kmalloc_int 0 0x20 1 true (mk_kernel ∅ ∅ 0x100004 None 0 0 0 0) =
      Ok (a, Some a, mk_kernel ∅ ∅ (a + 0x20) None 0 0 0 0) /\ a = 0x101000.
Proof.
  destruct (kmalloc_int_placement 0 0x20 1 true (mk_kernel ∅ ∅ 0x100004 None 0 0 0 0)) as (a & E & _);
    [reflexivity | lia | simpl; lia | simpl; lia |].
  exists a. split; [exact E|]. vm_compute in E. injection E as <-. reflexivity.
Defined.

(** ** create_heap *)

(** The heap [create_heap] makes, and the memory it writes: the index and the
    header of the one hole. *)
Definition created_heap (start end_addr max supervisor readonly : Z) : heap_t :=
  mk_heap (mk_ordered_array start 1 HEAP_INDEX_SIZE (Some header_t_less_than)) (start + 0x80000) end_addr max supervisor readonly.

Lemma create_heap_spec (fuel : nat) (start end_addr max supervisor readonly : Z) (k : kernel) :
  k_kheap k = None -> 0 <= k_placement_address k -> k_placement_address k + 0x1000 + SIZEOF_heap < 0x100000000 ->
  0 <= start -> start mod 0x1000 = 0 -> end_addr mod 0x1000 = 0 -> end_addr < 0x100000000 ->
  start + 0x81000 <= end_addr -> end_addr - (start + 0x80000) <= 20 * (HEAP_INDEX_SIZE - 4) ->
  let h := created_heap start end_addr max supervisor readonly in
  exists m', create_heap fuel start end_addr max supervisor readonly k =
      Ok (h, with_mem m' (with_placement (k_placement_address k + SIZEOF_heap) k)) /\
    same_but start (0x80000 + 12) (k_mem k) m' /\
    heap_inv m' h [mk_block (start + 0x80000) (end_addr - (start + 0x80000)) true] /\
    oa_rep m' (h_index h) [start + 0x80000].
Proof.
  cbv zeta. intros Hk Hp0 Hp Hs Hsm Hem He Hlen Hroom. unfold HEAP_INDEX_SIZE, SIZEOF_heap in *.
  unfold create_heap, kmalloc, kmalloc_int. rewrite Hk. cbn [Z.eqb andb mbind outcome_bind fst snd].
  rewrite Hsm, Hem. unfold ASSERT. cbn [Z.eqb mbind outcome_bind].
  unfold place_ordered_array, HEAP_INDEX_SIZE. cbn [with_placement k_mem].
  rewrite (u32_small (0x20000 * 4)) by lia. change (0x20000 * 4) with 0x80000. change (4 * 0x20000) with 0x80000.
  destruct (memset_spec (k_mem k) start 0 0x80000 ltac:(lia)) as [Hz Hfr].
  set (m0 := memset (k_mem k) start 0 0x80000) in *. clearbody m0.
  rewrite (u32_small (start + 0x80000)) by lia.
  assert (page_bits_test (start + 0x80000) = false) as ->.
  { unfold page_bits_test. cbn [Z.eqb]. rewrite (land_low_mod _ 1 1 eq_refl ltac:(lia)).
    apply negb_false_iff, Z.eqb_eq. zlia. }
  set (s := start + 0x80000) in *. rewrite (u32_small (end_addr - s)) by lia.
  set (m1 := write_header m0 s (end_addr - s) 1).
  unfold insert_ordered_array, find_place. cbn [oa_less_than oa_size oa_array oa_max_size Z.to_nat while].
  cbn [Z.ltb Z.compare andb mbind outcome_bind Z.eqb]. change (u32 (0 + 1)) with 1.
  set (m2 := set_elem m1 start 0 s). exists m2. split; [unfold SIZEOF_heap; rewrite (u32_small (k_placement_address k + _)) by lia; reflexivity|].
  assert (same_but start 4 m1 m2) as Hfr2 by (apply same_but_store32; lia).
  assert (oa_rep m2 (mk_ordered_array start 1 0x20000 (Some header_t_less_than)) [s]) as Hrep.
  { split; [reflexivity|]. intros [|i] x Hx; simpl in Hx; [|discriminate]. injection Hx as <-.
    unfold m2, set_elem. cbn [oa_array]. change (4 * Z.of_nat 0) with (4 * 0). mem_simpl. apply u32_small. lia. }
  split_and!; [| |exact Hrep].
  - eapply same_but_trans; [eapply same_but_widen; [| |exact Hfr]; lia |].
    eapply same_but_trans; [eapply same_but_widen; [| |apply (write_header_frame m0 s (end_addr - s) 1)]; lia |].
    eapply same_but_widen; [| |exact Hfr2]; lia.
  - apply (one_hole_inv m2 (created_heap start end_addr max supervisor readonly)); unfold created_heap, HEAP_INDEX_SIZE; fold s;
      cbn [h_start_address h_end_address h_index oa_array oa_max_size oa_less_than];
      try lia; try reflexivity; [|exact Hrep|].
    + destruct (write_header_fields m0 s (end_addr - s) 1) as (Hm & Hsz & Hh). fold m1 in Hm, Hsz, Hh.
      destruct (header_same_on m1 m2 s (same_but_on _ _ s 12 _ _ Hfr2 ltac:(lia))) as (E1 & E2 & E3).
      unfold header_ok. cbn [b_addr b_size b_hole]. rewrite E1, E2, E3, Hm, Hsz, Hh, u32_small by lia. auto.
    + rewrite (same_but_load32 _ _ _ _ _ Hfr2) by (unfold SIZEOF_footer; lia).
      unfold m1. rewrite (same_but_load32 _ _ _ _ _ (write_header_frame m0 s (end_addr - s) 1)) by (unfold SIZEOF_footer; lia).
      assert (load32 m0 (s - SIZEOF_footer) = 0) as ->; [|discriminate].
      unfold load32, SIZEOF_footer, s in *.
      replace (start + 0x80000 - 8) with (start + 0x7FFF8) by lia.
      rewrite <- !Z.add_assoc, !Hz by lia. reflexivity.
Qed.

(** C20: [create_heap] returns and sets the heap's invariant up: the heap is one
    hole from behind the index to [end_addr], the index holds it and is
    sorted. *)
Theorem create_heap_establishes_invariant (fuel : nat) (start end_addr max supervisor readonly : Z) (k : kernel) :
  k_kheap k = None -> 0 <= k_placement_address k -> k_placement_address k + 0x1000 + SIZEOF_heap < 0x100000000 ->
  0 <= start -> start mod 0x1000 = 0 -> end_addr mod 0x1000 = 0 -> end_addr < 0x100000000 ->
  start + 0x81000 <= end_addr -> end_addr - (start + 0x80000) <= 20 * (HEAP_INDEX_SIZE - 4) ->
  exists h k', create_heap fuel start end_addr max supervisor readonly k = Ok (h, k') /\
    h_start_address h = start + 0x80000 /\ h_end_address h = end_addr /\ h_max_address h = max /\
    heap_inv (k_mem k') h [mk_block (start + 0x80000) (end_addr - (start + 0x80000)) true] /\
    index_sorted (k_mem k') h.
Proof.
  intros Hk Hp0 Hp Hs Hsm Hem He Hlen Hroom.
  destruct (create_heap_spec fuel start end_addr max supervisor readonly k Hk Hp0 Hp Hs Hsm Hem He Hlen Hroom) as (m' & E & _ & Hi & Hrep).
  do 2 eexists. split; [exact E|]. split_and!; try reflexivity; [exact Hi | exact (one_hole_sorted _ _ _ Hrep)].
Qed.

Lemma create_heap_establishes_invariant_witness :
  exists h k', create_heap 0 KHEAP_START (KHEAP_START + KHEAP_INITIAL_SIZE) 0xCFFFF000 0 0
      (mk_kernel ∅ ∅ 0x100000 None 0 0 0 0) = Ok (h, k') /\
    heap_inv (k_mem k') h [mk_block 0xC0080000 0x80000 true].
Proof.
  destruct (create_heap_establishes_invariant 0 KHEAP_START (KHEAP_START + KHEAP_INITIAL_SIZE) 0xCFFFF000 0 0
      (mk_kernel ∅ ∅ 0x100000 None 0 0 0 0)) as (h & k' & E & _ & _ & _ & Hi & _);
    [reflexivity | simpl; lia | unfold SIZEOF_heap; simpl; lia | unfold KHEAP_START, KHEAP_INITIAL_SIZE, HEAP_INDEX_SIZE; reflexivity || lia .. |].
  exists h, k'. split; [exact E | exact Hi].
Defined.

(** ** alloc and free *)

(** C3: when some hole has room for the request and its header and footer,
    [alloc] without alignment returns without growing the heap.  The block
    comes from a hole that fits, and from the smallest such hole if the index
    is sorted; what is left of the hole stays a hole when it has room for a
    header and a footer.  The invariant and the sortedness are kept, and
    nothing outside that hole and the index is written. *)
Theorem alloc_best_fit (fuel : nat) (size : Z) (k : kernel) (h : heap_t) (bs : list block) :
  heap_inv (k_mem k) h bs -> 0 <= size -> size + 20 < 0x100000000 ->
  (exists b, b ∈ bs /\ b_hole b = true /\ size + 20 <= b_size b) ->
  exists bs1 b bs2 m' idx', bs = bs1 ++ b :: bs2 /\ b_hole b = true /\ size + 20 <= b_size b /\
    (index_sorted (k_mem k) h ->
       forall c, c ∈ bs -> b_hole c = true -> size + 20 <= b_size c -> b_size b <= b_size c) /\
    alloc fuel size 0 k h = Ok (b_addr b + SIZEOF_header, with_mem m' k, with_index idx' h) /\
    heap_inv m' (with_index idx' h) (bs1 ++ split_hole b (size + 20) ++ bs2) /\
    heap_frame h (b_addr b) (b_end b) (k_mem k) m' /\
    (index_sorted (k_mem k) h -> index_sorted m' (with_index idx' h)).
Proof. apply alloc_spec. Qed.

Lemma alloc_best_fit_witness :
  exists m' idx', alloc 0 30 0 small_kernel small_heap = Ok (0x200C, with_mem m' small_kernel, with_index idx' small_heap) /\
    heap_inv m' (with_index idx' small_heap) [mk_block 0x2000 50 false; mk_block 0x2032 4046 true].
Proof.
  destruct (alloc_best_fit 0 30 small_kernel small_heap [mk_block 0x2000 0x1000 true]) as
    (bs1 & b & bs2 & m' & idx' & E & _ & _ & _ & Ea & Hi & _); [apply small_heap_inv | lia | lia | |].
  - exists (mk_block 0x2000 0x1000 true). split_and!; [left | reflexivity | simpl; lia].
  - apply singleton_split in E as (-> & -> & ->).
    exists m', idx'. split; [exact Ea | exact Hi].
Defined.

(** C5: when no hole fits, [alloc] grows a heap that ends with a page, and goes
    on: every page behind it is mapped, with the permissions of the heap and a
    frame that was free and that no other of these pages has; the hole at its
    end takes the new bytes, or they become a hole, and the block is cut from
    that hole.  Blocks in use keep their contents, the invariant holds for the
    longer heap, and a sorted index is sorted again although the hole grew in
    place. *)
Theorem alloc_grows fuel size k h bs front g
    (Hi : heap_inv (k_mem k) h bs) (Hs : 0 <= size) (Hb : size + 20 < 0x100000000)
    (Hno : forall b, b ∈ bs -> b_hole b = true -> b_size b < size + 20)
    (Hcan : can_grow k h (size + 20)) (Hal : h_end_address h mod 0x1000 = 0)
    (Hnew : new_pages k (oa_array (h_index h)) (h_end_address h) (grown_end h (size + 20)))
    (Hg : grown (h_end_address h) (grown_end h (size + 20) - h_end_address h) bs front g) :
  exists m' idx', let h' := with_index idx' (with_end_address (grown_end h (size + 20)) h) in
    alloc (S fuel) size 0 k h = Ok (b_addr g + 12, with_mem m' k, h') /\
    heap_inv m' h' (front ++ split_hole g (size + 20)) /\
    (forall c, c ∈ bs -> b_hole c = false -> same_on (b_addr c) (b_size c) (k_mem k) m') /\
    (index_sorted (k_mem k) h -> index_sorted m' h') /\
    pages_given k h (h_end_address h) (h_end_address h') m'.
Proof.
  destruct (alloc_grown_spec fuel size k h bs front g Hi Hs Hb Hno Hcan Hg) as (m' & idx' & E & Hi' & Hlive & Hso & Hw).
  exists m', idx'. cbv zeta. split_and!; [exact E | exact Hi' | exact Hlive | exact Hso |].
  apply (alloc_grown_maps k h bs (size + 20)); (assumption || lia).
Qed.

(** A heap whose index has room for growth, on a machine with frames: the
    bitmap is at 0x500, the page directory at 0x9000, its first table at
    0xA000. *)
Definition growing_heap : heap_t :=
  mk_heap (mk_ordered_array 0x1000 1 1024 (Some header_t_less_than)) 0x2000 0x3000 0x10000 1 0.

Definition growing_kernel : kernel :=
  mk_kernel (store32 (k_mem small_kernel) 0x9000 0xA000) ∅ 0x100000 (Some growing_heap) 0x500 64 0x9000 0x9000.

Lemma growing_heap_inv : heap_inv (k_mem growing_kernel) growing_heap [mk_block 0x2000 0x1000 true].
Proof.
  apply (one_hole_inv (k_mem growing_kernel) growing_heap);
    try (simpl; lia); [vm_compute; auto | split; [reflexivity|] | reflexivity | vm_compute; congruence].
  intros [|i] x Hx; simpl in Hx; [|discriminate]. injection Hx as <-. vm_compute. reflexivity.
Qed.

Lemma growing_can_grow : can_grow growing_kernel growing_heap 5020.
Proof.
  constructor; cbn [h_start_address h_end_address h_max_address h_index oa_max_size oa_array growing_heap];
    change (grown_size (0x3000 - 0x2000 + 5020)) with 9116; try lia.
  - constructor; cbn [growing_kernel k_nframes k_frames k_kernel_directory k_mem]; [lia | left; vm_compute; discriminate | right; vm_compute; discriminate |].
    intros x Hx. replace (x / 0x400000) with 0 by (symmetry; apply Z.div_small; lia).
    change (load32 _ (0x9000 + 4 * 0)) with 0xA000. cbv zeta. unfold outside_bitmap.
    change (k_frames growing_kernel) with 0x500. change (bitmap_size growing_kernel) with 8. lia.
  - exists [0; 1]. split_and!; [by apply (bool_decide_unpack _) | vm_compute; lia | repeat constructor; vm_compute; congruence].
Qed.

(** The pages behind that heap: their entries are the fourth and fifth of the
    table. *)
Lemma growing_new_pages : new_pages growing_kernel 0x1000 0x3000 (grown_end growing_heap 5020).
Proof.
  change (grown_end growing_heap 5020) with 0x439C.
  assert (forall x, 0x3000 <= x < 0x439C -> x / 0x400000 = 0) as H0 by (intros; zlia). constructor.
  - constructor; cbn [growing_kernel k_nframes k_frames k_kernel_directory k_mem]; [lia | left; vm_compute; discriminate | right; vm_compute; discriminate |].
    intros x Hx. rewrite (H0 x Hx). change (load32 _ (0x9000 + 4 * 0)) with 0xA000. cbv zeta. unfold outside_bitmap.
    change (k_frames growing_kernel) with 0x500. change (bitmap_size growing_kernel) with 8. lia.
  - right. vm_compute. discriminate.
  - intros x y Hx Hy. rewrite (H0 x Hx), (H0 y Hy). congruence.
  - intros x Hx. unfold entry_of. rewrite (H0 x Hx). change (dir_table _ _ 0) with 0xA000.
    assert (x / 0x1000 mod 1024 = 3 \/ x / 0x1000 mod 1024 = 4) as [-> | ->] by zlia; vm_compute; reflexivity.
Qed.

Lemma alloc_grows_witness :
  exists m' idx', alloc 1 5000 0 growing_kernel growing_heap =
      Ok (0x200C, with_mem m' growing_kernel, with_index idx' (with_end_address 0x439C growing_heap)) /\
    heap_inv m' (with_index idx' (with_end_address 0x439C growing_heap))
      [mk_block 0x2000 5020 false; mk_block 0x339C 4096 true] /\
    pages_given growing_kernel growing_heap 0x3000 0x439C m'.
Proof.
  destruct (alloc_grows 0 5000 growing_kernel growing_heap [mk_block 0x2000 0x1000 true] [] (mk_block 0x2000 9116 true)
    growing_heap_inv) as (m' & idx' & E & Hi & _ & _ & Hp); [lia | lia | | apply growing_can_grow | reflexivity | apply growing_new_pages | |].
  - intros b Hb _. apply list_elem_of_singleton in Hb as ->. simpl. lia.
  - change (grown_end growing_heap (5000 + 20) - h_end_address growing_heap) with 5020.
    exact (grown_last 0x3000 5020 [] (mk_block 0x2000 0x1000 true) eq_refl).
  - exists m', idx'. split_and!; [exact E | exact Hi | exact Hp].
Defined.

(** C18: [alloc] with alignment, of a heap with a sorted index in which some
    hole passes the test of the search: it takes the smallest hole that does.
    When that hole has room in front of the first page boundary for a header
    and a footer, and behind the block too or nothing there, the call returns
    without growing the heap.  The data starts a page and lies in that hole,
    whose rest in front stays a hole, as does the one behind; the invariant is
    kept, and nothing outside the hole and the index is written. *)
Theorem alloc_page_aligned (fuel : nat) (size : Z) (k : kernel) (h : heap_t) (bs : list block) :
  heap_inv (k_mem k) h bs -> index_sorted (k_mem k) h -> h_end_address h - h_start_address h < 0x80000000 ->
  0 <= size -> size + 20 < 0x80000000 ->
  (exists b, b ∈ bs /\ b_hole b = true /\ size + 20 <= search_size b) ->
  (forall b, smallest_fit bs (size + 20) b -> 0x1000 <= b_addr b /\ aligned_room b (size + 20)) ->
  exists bs1 b bs2 m' idx', bs = bs1 ++ b :: bs2 /\ smallest_fit bs (size + 20) b /\
    let p := b_addr b + align_pad (b_addr b) + SIZEOF_header in
    alloc fuel size 1 k h = Ok (p, with_mem m' k, with_index idx' h) /\
    p mod 0x1000 = 0 /\ b_addr b < p /\ p + size + SIZEOF_footer <= b_end b /\
    heap_inv m' (with_index idx' h) (bs1 ++ split_aligned b (size + 20) ++ bs2) /\
    heap_frame h (b_addr b) (b_end b) (k_mem k) m'.
Proof.
  intros Hi Hsorted Hlen Hs Hb Hex Hcan.
  destruct (find_smallest_aligned k h bs (size + 20) Hi Hsorted Hlen ltac:(lia) Hex) as (i & b & E & Hne & El & Hsm).
  destruct (alloc_aligned_spec fuel k h bs size i Hi Hs ltac:(lia) E Hne) as (bs1 & b' & bs2 & Ebs & _ & El' & _ & Hcut).
  rewrite El in El'. injection El' as Ea.
  assert (b' = b) as ->.
  { apply (block_unique _ _ bs _ _ (hi_tiled _ _ _ Hi)); [rewrite Ebs, elem_of_app, elem_of_cons; auto | apply Hsm | congruence]. }
  destruct (Hcan b Hsm) as [Ha Hroom]. destruct (Hcut Ha Hroom) as (m' & idx' & Ealloc & Hi' & Hfr).
  exists bs1, b, bs2, m', idx'. destruct Hroom as [Hp Hr]. unfold SIZEOF_header, SIZEOF_footer, b_end in *.
  split_and!; [exact Ebs | exact Hsm | exact Ealloc | apply align_pad_page | lia | lia | exact Hi' | exact Hfr].
Qed.

(** A heap of four pages, one hole. *)
Definition paged_heap : heap_t :=
  mk_heap (mk_ordered_array 0x1000 1 0x400 (Some header_t_less_than)) 0x2000 0x6000 0x8000 0 0.

Definition paged_heap_kernel : kernel :=
  mk_kernel (write_header (store32 ∅ 0x1000 0x2000) 0x2000 0x4000 1) ∅ 0 None 0 0 0 0.

Lemma paged_heap_inv : heap_inv (k_mem paged_heap_kernel) paged_heap [mk_block 0x2000 0x4000 true].
Proof.
  apply (one_hole_inv (k_mem paged_heap_kernel) paged_heap); try (simpl; lia);
    [vm_compute; auto | | reflexivity | vm_compute; congruence].
  split; [reflexivity|]. intros [|i] x Hx; simpl in Hx; [|discriminate]. injection Hx as <-. vm_compute. reflexivity.
Qed.

Lemma paged_heap_sorted : index_sorted (k_mem paged_heap_kernel) paged_heap.
Proof.
  apply (one_hole_sorted _ _ 0x2000). split; [reflexivity|].
  intros [|i] x Hx; simpl in Hx; [|discriminate]. injection Hx as <-. vm_compute. reflexivity.
Qed.

Lemma alloc_page_aligned_witness :
  exists m' idx', alloc 0 0x1000 1 paged_heap_kernel paged_heap =
      Ok (0x3000, with_mem m' paged_heap_kernel, with_index idx' paged_heap) /\
    heap_inv m' (with_index idx' paged_heap)
      [mk_block 0x2000 0xFF4 true; mk_block 0x2FF4 0x1014 false; mk_block 0x4008 0x1FF8 true].
Proof.
  destruct (alloc_page_aligned 0 0x1000 paged_heap_kernel paged_heap [mk_block 0x2000 0x4000 true]) as
    (bs1 & b & bs2 & m' & idx' & E & _ & Ea & _ & _ & _ & Hi & _);
    [apply paged_heap_inv | apply paged_heap_sorted | simpl; lia | lia | lia | | |].
  - exists (mk_block 0x2000 0x4000 true). split_and!; [left | reflexivity | vm_compute; discriminate].
  - intros b (Hb & _). apply list_elem_of_singleton in Hb as ->.
    split; [simpl; lia | split; vm_compute; [discriminate | right; discriminate]].
  - apply singleton_split in E as (-> & -> & ->). exists m', idx'. split; [exact Ea | exact Hi].
Defined.

(** C4: [free] of a block in use whose right neighbour is in use returns.  The
    block is merged into the hole on its left if there is one, else it becomes
    a hole of the index; the invariant is kept, and nothing outside the block,
    that hole and the index is written.  Without a hole on the left the index
    stays sorted. *)
Theorem free_coalesces_left (k : kernel) (h : heap_t) (bs1 bs2 : list block) (b c : block) :
  heap_inv (k_mem k) h (bs1 ++ b :: c :: bs2) -> b_hole b = false -> b_hole c = false ->
  exists m' idx', free (b_addr b + SIZEOF_header) k h = Ok (with_mem m' k, with_index idx' h) /\
    heap_inv m' (with_index idx' h) (coalesce_left bs1 b ++ c :: bs2) /\
    (no_left_hole bs1 ->
       heap_frame h (b_addr b) (b_end b) (k_mem k) m' /\
       (index_sorted (k_mem k) h -> index_sorted m' (with_index idx' h))) /\
    (forall a, last bs1 = Some a -> b_hole a = true -> heap_frame h (b_addr a) (b_end b) (k_mem k) m').
Proof.
  intros Hi Hb Hc. destruct (last bs1) as [a|] eqn:El; [destruct (b_hole a) eqn:Ha|].
  - apply last_Some in El as [bs0 ->]. destruct (free_spec_merge k h bs0 a b c bs2 Hi Hb Hc Ha) as (m' & E & Hi' & Hfr).
    exists m', (h_index h). rewrite with_same_index. split_and!; [exact E | exact Hi' | |].
    + intros Hn. specialize (Hn a). rewrite last_snoc in Hn. rewrite Hn in Ha by reflexivity. discriminate.
    + intros a' [= <-] _. exact Hfr.
  - assert (no_left_hole bs1) as Hn by (unfold no_left_hole; rewrite El; congruence).
    destruct (free_spec_insert k h bs1 b c bs2 Hi Hb Hc Hn) as (m' & idx' & E & Hi' & Hfr & Hs).
    exists m', idx'. split_and!; [exact E | exact Hi' | auto |]. intros a' [= <-]. congruence.
  - assert (no_left_hole bs1) as Hn by (unfold no_left_hole; rewrite El; discriminate).
    destruct (free_spec_insert k h bs1 b c bs2 Hi Hb Hc Hn) as (m' & idx' & E & Hi' & Hfr & Hs).
    exists m', idx'. split_and!; [exact E | exact Hi' | auto | discriminate].
Qed.

(** One allocation, as a step. *)
Lemma alloc_steps k h live bs size :
  heap_inv (k_mem k) h bs -> 0 <= size -> size + 20 < 0x100000000 ->
  (exists b, b ∈ bs /\ b_hole b = true /\ size + 20 <= b_size b) ->
  exists bs1 b bs2 k' h' v, bs = bs1 ++ b :: bs2 /\ b_hole b = true /\
    heap_step (mk_hstate k h live) (mk_hstate k' h' (<[b_addr b + 12 := v]> live)) /\
    heap_inv (k_mem k') h' (bs1 ++ split_hole b (size + 20) ++ bs2).
Proof.
  intros Hi Hs Hb Hfit. destruct (alloc_spec 0 k h bs size Hi Hs Hb Hfit) as
    (bs1 & b & bs2 & m' & idx' & E & Hh & _ & _ & Ea & Hi' & _).
  exists bs1, b, bs2, (with_mem m' k), (with_index idx' h), (load_bytes m' (b_addr b + 12) (Z.to_nat size)).
  split_and!; [exact E | exact Hh | | exact Hi']. destruct (hi_index _ _ _ Hi) as (l & Hrep & Hp).
  destruct (find_smallest_hole_spec (k_mem k) (size + 20) h l Hrep) as [[_ Hall] | (p & x & Ef & _)].
  - exfalso. destruct Hfit as (c & Hc & Hhc & Hle). destruct (hi_blocks _ _ _ Hi c Hc) as [(_ & Hz & _) _].
    specialize (Hall (b_addr c)). rewrite Hz, Hp in Hall. enough (b_size c < size + 20) by lia.
    apply Hall, hole_addrs_in. eauto.
  - eapply (step_alloc k h live size); [exact Hs | exact Hb | exact Ef | lia | exact Ea].
Qed.

(** The heap after two allocations. *)
Lemma two_blocks : exists k h v w,
  heap_run (mk_hstate small_kernel small_heap ∅) (mk_hstate k h (<[0x203E := w]> (<[0x200C := v]> ∅))) /\
  heap_inv (k_mem k) h [mk_block 0x2000 50 false; mk_block 0x2032 50 false; mk_block 0x2064 3996 true].
Proof.
  destruct (alloc_steps small_kernel small_heap ∅ [mk_block 0x2000 0x1000 true] 30) as
    (bs1 & b & bs2 & k & h & v & E & _ & Hst & Hi); [apply small_heap_inv | lia | lia | |].
  { exists (mk_block 0x2000 0x1000 true). split_and!; [left | reflexivity | simpl; lia]. }
  apply singleton_split in E as (-> & -> & ->).
  destruct (alloc_steps k h (<[0x200C := v]> ∅) [mk_block 0x2000 50 false; mk_block 0x2032 4046 true] 30) as
    (bs1 & b & bs2 & k' & h' & w & E & Hh & Hst' & Hi'); [exact Hi | lia | lia | |].
  { exists (mk_block 0x2032 4046 true). split_and!; [right; left | reflexivity | simpl; lia]. }
  destruct bs1 as [|x bs1]; [injection E as <- _; discriminate|]. injection E as <- E.
  apply singleton_split in E as (-> & -> & ->). exists k', h', v, w. split; [|exact Hi'].
  eapply run_step; [exact Hst|]. eapply run_step; [exact Hst' | apply run_refl].
Qed.

Lemma free_coalesces_left_witness :
  exists k h m' idx', free 0x200C k h = Ok (with_mem m' k, with_index idx' h) /\
    heap_inv m' (with_index idx' h) [mk_block 0x2000 50 true; mk_block 0x2032 50 false; mk_block 0x2064 3996 true].
Proof.
  destruct two_blocks as (k & h & _ & _ & _ & Hi).
  destruct (free_coalesces_left k h [] [mk_block 0x2064 3996 true] (mk_block 0x2000 50 false) (mk_block 0x2032 50 false)
    Hi eq_refl eq_refl) as (m' & idx' & E & Hi' & _).
  exists k, h, m', idx'. split; [exact E | exact Hi'].
Defined.

(** ** Runs *)

(** C1: on every run of allocations that find a hole, allocations that grow
    a heap which is full or ends in a hole, page-aligned ones that find a hole
    which can be cut for them, frees of live blocks whose right neighbour is in
    use, and client writes, from a heap that satisfies the invariant: every
    live block still holds the bytes its client wrote last, and the data of two
    live blocks never overlap. *)
Theorem heap_runs_keep_live_data (s s' : hstate) :
  heap_safe s -> heap_run s s' ->
  (forall p v, hs_live s' !! p = Some v -> bytes_at (k_mem (hs_k s')) p v) /\
  (forall p q v w, hs_live s' !! p = Some v -> hs_live s' !! q = Some w -> p <> q ->
     p + Z.of_nat (length v) <= q \/ q + Z.of_nat (length w) <= p).
Proof.
  intros Hs Hr. pose proof (heap_run_safe _ _ Hr Hs) as Hs'. split.
  - destruct Hs' as (bs & _ & Hok). apply (lo_bytes _ _ _ Hok).
  - intros p q v w Hp Hq Hne. apply (live_apart s' p q v w Hs' Hp Hq Hne).
Qed.

Lemma small_heap_safe : heap_safe (mk_hstate small_kernel small_heap ∅).
Proof.
  exists [mk_block 0x2000 0x1000 true]. split; [apply small_heap_inv|].
  split; cbn [hs_live]; intros p v Hp; apply lookup_empty_Some in Hp as [].
Qed.

Lemma heap_runs_keep_live_data_witness :
  exists s, heap_run (mk_hstate small_kernel small_heap ∅) s /\ bytes_at (k_mem (hs_k s)) 0x200C [1; 2; 3].
Proof.
  destruct (alloc_spec 0 small_kernel small_heap [mk_block 0x2000 0x1000 true] 3) as
    (bs1 & b & bs2 & m' & idx' & E & _ & _ & _ & Ea & _); [apply small_heap_inv | lia | lia | |].
  { exists (mk_block 0x2000 0x1000 true). split_and!; [left | reflexivity | simpl; lia]. }
  apply singleton_split in E as (-> & -> & ->).
  set (s1 := mk_hstate (with_mem m' small_kernel) (with_index idx' small_heap) (<[0x200C := load_bytes m' 0x200C 3]> ∅)).
  assert (heap_run (mk_hstate small_kernel small_heap ∅)
    (mk_hstate (with_mem (store_bytes m' 0x200C [1; 2; 3]) (with_mem m' small_kernel)) (with_index idx' small_heap)
       (<[0x200C := [1; 2; 3]]> (<[0x200C := load_bytes m' 0x200C 3]> ∅)))) as Hrun.
  { eapply run_step; [|eapply run_step; [|apply run_refl]].
    - apply (step_alloc small_kernel small_heap ∅ 3 0 0x200C (with_mem m' small_kernel) (with_index idx' small_heap));
        [lia | lia | vm_compute; reflexivity | lia | exact Ea].
    - apply (step_write (with_mem m' small_kernel) _ _ _ (load_bytes m' 0x200C 3) [1; 2; 3]);
        [apply lookup_insert_eq | reflexivity | repeat constructor; lia]. }
  eexists. split; [exact Hrun|].
  apply (proj1 (heap_runs_keep_live_data _ _ small_heap_safe Hrun) 0x200C [1; 2; 3]), lookup_insert_eq.
Defined.

(** on such a run [free] of any live block whose right neighbour is in use
    returns; it does not panic. *)
Theorem heap_runs_can_free (s s' : hstate) (p : Z) (v : list Z) :
  heap_safe s -> heap_run s s' -> hs_live s' !! p = Some v -> right_in_use (k_mem (hs_k s')) (hs_h s') p ->
  exists k' h', free p (hs_k s') (hs_h s') = Ok (k', h') /\ heap_step s' (mk_hstate k' h' (delete p (hs_live s'))).
Proof.
  intros Hs Hr Hp Hright. pose proof (heap_run_safe _ _ Hr Hs) as Hs'. destruct s' as [k h live].
  destruct (free_live k h live p v Hs' Hp Hright) as (k' & h' & E & _). exists k', h'. split; [exact E|].
  econstructor; eassumption.
Qed.

Lemma heap_runs_can_free_witness :
  exists s k' h', heap_run (mk_hstate small_kernel small_heap ∅) s /\ free 0x200C (hs_k s) (hs_h s) = Ok (k', h').
Proof.
  destruct two_blocks as (k & h & v & w & Hrun & Hi).
  destruct (heap_runs_can_free _ _ 0x200C v small_heap_safe Hrun) as (k' & h' & E & _).
  - cbn [hs_live]. rewrite lookup_insert_ne by discriminate. apply lookup_insert_eq.
  - destruct (hi_blocks _ _ _ Hi (mk_block 0x2000 50 false)) as [(_ & Hz & _) _]; [left|].
    destruct (hi_blocks _ _ _ Hi (mk_block 0x2032 50 false)) as [(_ & _ & Hh) _]; [right; left|].
    cbn [hs_k hs_h b_addr b_size b_hole] in *. unfold right_in_use, SIZEOF_header.
    change (0x200C - 12) with 0x2000. rewrite Hz. change (0x2000 + 50) with 0x2032. split; [|exact Hh].
    destruct (hi_tiled _ _ _ Hi) as (_ & _ & _ & _ & _ & _ & Hend). cbv [b_end b_addr b_size tiled] in Hend. lia.
  - do 3 eexists. split; [exact Hrun | exact E].
Defined.

(** ** Runs outside the invariant *)

Inductive heap_call := CAlloc (size : Z) | CFree (p : Z) | CWrite (p : Z) (l : list Z).

Definition exec_call (c : heap_call) (s : kernel * heap_t) : outcome (kernel * heap_t) :=
  match c with
  | CAlloc size => r ← alloc 1 size 0 s.1 s.2; Ok (r.1.2, r.2)
  | CFree p => free p s.1 s.2
  | CWrite p l => Ok (with_mem (store_bytes (k_mem s.1) p l) s.1, s.2)
  end.

Fixpoint exec_calls (cs : list heap_call) (s : kernel * heap_t) : outcome (kernel * heap_t) :=
  match cs with
  | [] => Ok s
  | c :: cs' => s' ← exec_call c s; exec_calls cs' s'
  end.

(** Four blocks of 30 bytes at 0x200C, 0x203E, 0x2070 and 0x20A2 and a fifth
    behind them; the first two are freed from the right, so that unify right
    leaves the footer of the hole pointing at the second header; the third is
    merged into that header. *)
Definition stale_calls : list heap_call :=
  [CAlloc 30; CAlloc 30; CAlloc 30; CAlloc 30; CAlloc 30; CFree 0x203E; CFree 0x200C; CFree 0x2070].

(** the right merge of [free] does not rewrite the footer of the hole it
    takes in, and a later left merge follows that footer to a header inside
    the hole: the freed block is never put in the index, and freeing the block
    on its left panics, although every pointer was freed once. *)
Theorem free_after_coalescing_panics :
  exec_calls (stale_calls ++ [CAlloc 80; CFree 0x200C]) (small_kernel, small_heap) =
    Panic "iterator < heap->index.size" "cpu/kheap.c" 376.
Proof. vm_compute. reflexivity. Qed.

(** the same stale footer makes [free] write into a block in use: its client
    filled the block at 0x200C with ones, another client frees its block at
    0x20A2, and the first client's data has changed. *)
Theorem free_corrupts_live_block :
  let before := stale_calls ++ [CAlloc 80; CWrite 0x200C (repeat 1 80)] in
  match exec_calls before (small_kernel, small_heap) with
  | Ok s => bytes_at (k_mem s.1) 0x200C (repeat 1 80) /\
      match exec_call (CFree 0x20A2) s with
      | Ok s' => load32 (k_mem s.1) 0x203A = 0x01010101 /\ load32 (k_mem s'.1) 0x203A = 0x01010133
      | _ => False
      end
  | _ => False
  end.
Proof. vm_compute. auto. Qed.

(** a left merge makes a hole larger without moving it in the index, so the
    index is no longer sorted and [alloc] is no longer best fit: with holes of
    100 and 80 bytes a request of 50 is taken from the hole of 100. *)
Theorem left_merge_unsorts_index :
  let calls := [CAlloc 30; CAlloc 30; CAlloc 30; CAlloc 60; CAlloc 30; CFree 0x200C; CFree 0x20A2; CFree 0x203E] in
  match exec_calls calls (small_kernel, small_heap) with
  | Ok (k, h) =>
      lookup_ordered_array (k_mem k) 0 (h_index h) = Ok 0x2000 /\ hdr_size (k_mem k) 0x2000 = 100 /\
      lookup_ordered_array (k_mem k) 1 (h_index h) = Ok 0x2096 /\ hdr_size (k_mem k) 0x2096 = 80 /\
      match alloc 1 50 0 k h with Ok (p, _, _) => p = 0x200C | _ => False end
  | _ => False
  end.
Proof. vm_compute. auto. Qed.

(** [small_kernel] with a page directory at 0x9000, whose first table, at
    0xA000, has the page behind the heap mapped. *)
Definition paged_kernel : kernel :=
  with_kernel_directory 0x9000
    (with_mem (store32 (store32 (k_mem small_kernel) 0x9000 0xA000) 0xA00C 0x3007) small_kernel).

(** when the heap grows, the endmost hole takes the new bytes wherever it
    lies: with the end of the heap in use, the hole grows over the blocks
    behind it, and the next block overlaps a block in use. *)
Theorem heap_growth_overlaps_live_block :
  let before := [CAlloc 30; CAlloc 4026; CWrite 0x2106 [1; 1; 1; 1]; CFree 0x200C] in
  match exec_calls before (paged_kernel, small_heap) with
  | Ok (k, h) =>
      hdr_is_hole (k_mem k) 0x2032 = 0 /\ hdr_size (k_mem k) 0x2032 = 4026 + 20 /\
      load32 (k_mem k) 0x2106 = 0x01010101 /\
      match alloc 1 200 0 k h with
      | Ok (p, k', _) => p = 0x200C /\ p + 200 > 0x2032 /\ load32 (k_mem k') 0x2106 <> 0x01010101
      | _ => False
      end
  | _ => False
  end.
Proof. vm_compute. split_and!; try reflexivity; discriminate. Qed.

(** [expand] rounds an even size up to no page, so the heap can end inside a
    page.  The next growth maps a page every 0x1000 bytes from there: the page
    of the new end is left without a frame, and the footer at the end of the
    heap, which [alloc] writes, lies in it. *)
Theorem growth_leaves_page_unmapped :
  match exec_calls [CAlloc 5000] (growing_kernel, growing_heap) with
  | Ok (k, h) =>
      h_end_address h = 0x439C /\
      match alloc 1 7404 0 k h with
      | Ok (_, k', h') =>
          let present x := page_present (load32 (k_mem k') (entry_of (k_mem k') 0x9000 x)) in
          h_end_address h' = 0x609C /\ present 0x5FFF = 1 /\ present 0x6000 = 0 /\
          load32 (k_mem k') (0x609C - SIZEOF_footer) = HEAP_MAGIC
      | _ => False
      end
  | _ => False
  end.
Proof. vm_compute. split_and!; reflexivity. Qed.

(** [find_smallest_hole] with alignment compares the whole hole with the
    request: [!=] binds tighter than [&], so the bytes up to the page boundary
    are left out only at odd addresses.  A small hole then "fits", and the
    block lies behind it, inside a block in use, whose data the header
    overwrites. *)
Theorem aligned_alloc_overlaps_live_block :
  let before := [CAlloc 100; CAlloc 100; CAlloc 5000; CWrite 0x2FF4 [1; 1; 1; 1]; CFree 0x200C] in
  match exec_calls before (paged_heap_kernel, paged_heap) with
  | Ok (k, h) =>
      hdr_is_hole (k_mem k) 0x20F0 = 0 /\ hdr_size (k_mem k) 0x20F0 = 5000 + 20 /\
      load32 (k_mem k) 0x2FF4 = 0x01010101 /\
      match alloc 1 30 1 k h with
      | Ok (p, k', _) => p = 0x3000 /\ 0x20F0 < p /\ p + 30 < 0x20F0 + 5020 /\ load32 (k_mem k') 0x2FF4 = HEAP_MAGIC
      | _ => False
      end
  | _ => False
  end.
Proof. vm_compute. split_and!; reflexivity. Qed.

(** ** contract *)

(** The length [contract] settles on. *)
Definition contracted (new_size : Z) : Z :=
  if negb (Z.land new_size 0x1000 =? 0) then HEAP_MIN_SIZE else Z.max new_size HEAP_MIN_SIZE.

Lemma land_bit12 x : Z.land x 0x1000 = 0 \/ Z.land x 0x1000 = 0x1000.
Proof.
  change 0x1000 with (Z.shiftl 1 12). destruct (Z.testbit x 12) eqn:E; [right|left]; apply Z.bits_inj';
    intros i Hi; rewrite Z.land_spec, Z.shiftl_spec by lia; destruct (Z.eq_dec i 12) as [->|Hne];
    rewrite ?E, ?Z.bits_0; try reflexivity;
    replace (Z.testbit 1 (i - 12)) with false by (symmetry; destruct (Z.lt_trichotomy i 12) as [|[|]]; [apply Z.testbit_neg_r; lia | lia | apply Z.bits_above_log2; simpl; lia]);
    apply andb_false_r.
Qed.

Lemma get_page_no_make address dir k :
  exists p, get_page_ptr_in_page_table no_kmalloc address 0 dir k = Ok (p, k).
Proof.
  unfold get_page_ptr_in_page_table. cbv zeta. case_match; [eauto|]. cbn [Z.eqb negb]. eauto.
Qed.

(** [contract] panics unless it is asked for less than the heap's length.
    Otherwise it returns.  When bit 12 of the requested length is set the heap
    is cut to [HEAP_MIN_SIZE], whatever lies behind; when it is clear it is
    cut to the requested length, which need not be a number of pages, or to
    [HEAP_MIN_SIZE]. *)
Theorem contract_result (new_size : Z) (k : kernel) (h : heap_t) :
  0 <= new_size -> 0 <= h_start_address h -> h_start_address h <= h_end_address h ->
  h_end_address h < 0x100000000 ->
  (h_end_address h - h_start_address h <= new_size ->
     contract new_size k h = Panic "new_size < heap->end_address-heap->start_address" "cpu/kheap.c" 105) /\
  (new_size < h_end_address h - h_start_address h -> 0x1000 <= h_end_address h - h_start_address h ->
     exists k', contract new_size k h =
       Ok (contracted new_size, k', with_end_address (u32 (h_start_address h + contracted new_size)) h)).
Proof.
  intros Hn Hs Hse He. unfold contract. rewrite (u32_small (h_end_address h - h_start_address h)) by lia. split; intros Hlen.
  - unfold ASSERT. replace (new_size <? h_end_address h - h_start_address h) with false by lia. reflexivity.
  - intros Hp. unfold ASSERT. replace (new_size <? h_end_address h - h_start_address h) with true by lia.
    cbn [mbind outcome_bind]. rewrite (u32_small (_ - _ - 0x1000)) by lia.
    set (i0 := h_end_address h - h_start_address h - 0x1000).
    assert ((let n := if negb (Z.land new_size 0x1000 =? 0) then u32 (Z.land new_size 0x1000 + 0x1000) else new_size in
      if n <? HEAP_MIN_SIZE then HEAP_MIN_SIZE else n) = contracted new_size) as E.
    { unfold contracted, HEAP_MIN_SIZE. destruct (land_bit12 new_size) as [-> | ->]; simpl; [cases_lia | reflexivity]. }
    cbv zeta in E. rewrite E. clear E.
    assert (HEAP_MIN_SIZE <= contracted new_size) as Hmin by (unfold contracted; case_match; lia).
    destruct (while_rule (fun st : kernel * Z => 0 <= st.2 <= i0) (fun st => Z.to_nat (st.2 / 0x1000 + 1))
      (fun '(_, i) => contracted new_size <? i) (contract_step h) (Z.to_nat (i0 / 0x1000 + 1)) (k, i0)) as ([k' j] & Ew & _).
    + intros [k1 j] Hj Hc. cbn [fst snd] in *. apply Z.ltb_lt in Hc. unfold HEAP_MIN_SIZE in Hmin. unfold contract_step.
      destruct (get_page_no_make (u32 (h_start_address h + j)) (k_kernel_directory k1) k1) as [p ->].
      cbn [mbind outcome_bind]. eexists. split; [reflexivity|]. cbn [snd]. rewrite u32_small by lia.
      split; [lia|]. assert (i0 < 0x100000000) by lia. zlia.
    + cbn [snd]. lia.
    + cbn [snd]. lia.
    + rewrite Ew. exists k'. reflexivity.
Qed.

Lemma contract_result_witness :
  exists k', contract 0x73014 small_kernel (with_end_address 0x82000 small_heap) =
    Ok (0x70000, k', with_end_address 0x72000 small_heap).
Proof.
  destruct (contract_result 0x73014 small_kernel (with_end_address 0x82000 small_heap)) as [_ H];
    [lia | simpl; lia | simpl; lia | simpl; lia |].
  apply H; simpl; lia.
Defined.
