(* ===== verification/Directories.v ===== *)
(** * cpu/paging.c: page directories

    The start of paging and the copy of an address space.  These functions call
    [kmalloc], which calls back into cpu/paging.c; they are modelled on top of
    both.  [copy_page_physical] of cpu/process.asm copies a page of physical
    memory, the field [k_phys]; the control registers are the fields of
    [cpu_t]. *)

From S2P Require Import Prelude Memory Util OrderedArray Kernel Paging KHeap.

Record cpu_t := mk_cpu { cr0 : Z; cr2 : Z; cr3 : Z }.

Definition copy_page_physical (src dest : Z) (k : kernel) : kernel :=
  with_phys (memcpy (k_phys k) src dest 0x1000) k.

Definition switch_page_directory (dir : Z) (c : cpu_t) (k : kernel) : cpu_t * kernel :=
  (mk_cpu (Z.lor (cr0 c) 0x80000000) (cr2 c) (dir_physicalAddr (k_mem k) dir), with_current_directory dir k).

(** [if (src->flag) table->flag = 1]. *)
Definition clone_flag (get : Z -> Z) (set : Z -> Z -> Z) (src dst : Z) (k : kernel) : kernel :=
  if negb (get (load32 (k_mem k) src) =? 0)
  then with_mem (store32 (k_mem k) dst (set 1 (load32 (k_mem k) dst))) k else k.

(** One entry of [clone_table]'s loop. *)
Definition clone_page (src dst : Z) (k : kernel) : outcome kernel :=
  if negb (page_frame (load32 (k_mem k) src) =? 0) then
    k ← alloc_frame dst 0 1 k;
    let k := clone_flag page_present set_present src dst k in
    let k := clone_flag page_rw set_rw src dst k in
    let k := clone_flag page_user set_user src dst k in
    let k := clone_flag page_accessed set_accessed src dst k in
    let k := clone_flag page_dirty set_dirty src dst k in
    Ok (copy_page_physical (u32 (page_frame (load32 (k_mem k) src) * 0x1000))
          (u32 (page_frame (load32 (k_mem k) dst) * 0x1000)) k)
  else Ok k.

(** The new table and its physical address. *)
Definition clone_table (fuel : nat) (src : Z) (k : kernel) : outcome (Z * Z * kernel) :=
  r ← kmalloc_ap fuel SIZEOF_page_table k;
  let '(table, physAddr, k) := r in
  let k := with_mem (memset (k_mem k) table 0 SIZEOF_page_directory) k in
  st ← while 1024 (fun '(_, i) => i <? 1024)
         (fun '(k, i) => k ← clone_page (src + 4 * i) (table + 4 * i) k; Ok (k, i + 1)) (k, 0);
  Ok (table, physAddr, st.1).

(** One table of [clone_directory]'s loop. *)
Definition clone_dir_entry (fuel : nat) (src dir i : Z) (k : kernel) : outcome kernel :=
  if dir_table (k_mem k) src i =? 0 then Ok k
  else if dir_table (k_mem k) (k_kernel_directory k) i =? dir_table (k_mem k) src i then
    let k := with_mem (store32 (k_mem k) (dir + 4 * i) (dir_table (k_mem k) src i)) k in
    Ok (with_mem (store32 (k_mem k) (dir + 0x1000 + 4 * i) (dir_table_physical (k_mem k) src i)) k)
  else
    r ← clone_table fuel (dir_table (k_mem k) src i) k;
    let '(table, phys, k) := r in
    let k := with_mem (store32 (k_mem k) (dir + 4 * i) table) k in
    Ok (with_mem (store32 (k_mem k) (dir + 0x1000 + 4 * i) (Z.lor phys 0x07)) k).

Definition clone_directory (fuel : nat) (src : Z) (k : kernel) : outcome (Z * kernel) :=
  r ← kmalloc_ap fuel SIZEOF_page_directory k;
  let '(dir, phys, k) := r in
  let k := with_mem (memset (k_mem k) dir 0 SIZEOF_page_directory) k in
  let offset := u32 ((dir + 0x1000) - dir) in
  let k := with_mem (store32 (k_mem k) (dir + 0x2000) (u32 (phys + offset))) k in
  st ← while 1024 (fun '(_, i) => i <? 1024)
         (fun '(k, i) => k ← clone_dir_entry fuel src dir i k; Ok (k, i + 1)) (k, 0);
  Ok (dir, st.1).

(** ** initialise_paging *)

(** [f] of the pages of the heap's initial area, as [initialise_paging]'s two
    counted loops have it. *)
Definition for_heap_pages (f : Z -> kernel -> outcome kernel) (k : kernel) : outcome kernel :=
  st ← while (Z.to_nat (KHEAP_INITIAL_SIZE / 0x1000)) (fun '(_, i) => i <? KHEAP_START + KHEAP_INITIAL_SIZE)
         (fun '(k, i) => k ← f i k; Ok (k, i + 0x1000)) (k, KHEAP_START);
  Ok st.1.

(** Map [i] in the kernel's directory. *)
Definition map_page (fuel : nat) (is_kernel is_writeable i : Z) (k : kernel) : outcome kernel :=
  r ← get_page_ptr_in_page_table (kmalloc_ap fuel) i 1 (k_kernel_directory k) k;
  alloc_frame r.1 is_kernel is_writeable r.2.

(** [n] bounds the iterations of the loop that maps the memory in use, which
    grows as tables are made. *)
Definition identity_map (fuel n : nat) (k : kernel) : outcome kernel :=
  st ← while n (fun '(k, i) => i <? u32 (k_placement_address k + 0x1000))
         (fun '(k, i) => k ← map_page fuel 0 0 i k; Ok (k, i + 0x1000)) (k, 0);
  Ok st.1.

(** The tables, up to the switch of the directory. *)
Definition paging_tables (fuel n : nat) (k : kernel) : outcome kernel :=
  let mem_end_page := 0x1000000 in
  let nframes := mem_end_page / 0x1000 in
  r ← kmalloc fuel (nframes / 8) k;
  let '(frames, k) := r in
  let k := with_frames frames nframes k in
  let k := with_mem (memset (k_mem k) frames 0 (nframes / 8)) k in
  r ← kmalloc_a fuel SIZEOF_page_directory k;
  let '(dir, k) := r in
  let k := with_kernel_directory dir k in
  let k := with_mem (memset (k_mem k) dir 0 SIZEOF_page_directory) k in
  let k := with_mem (store32 (k_mem k) (dir + 0x2000) (dir + 0x1000)) k in
  k ← for_heap_pages (fun i k =>
        r ← get_page_ptr_in_page_table (kmalloc_ap fuel) i 1 (k_kernel_directory k) k; Ok r.2) k;
  k ← identity_map fuel n k;
  for_heap_pages (map_page fuel 0 0) k.

(** The table of interrupt handlers is not part of this state: the registration
    of [page_fault] is in Boot. *)
Definition initialise_paging (fuel n : nat) (c : cpu_t) (k : kernel) : outcome (cpu_t * kernel) :=
  k ← paging_tables fuel n k;
  let '(c, k) := switch_page_directory (k_kernel_directory k) c k in
  h ← create_heap fuel KHEAP_START (KHEAP_START + KHEAP_INITIAL_SIZE) 0xCFFFF000 0 0 k;
  let k := with_kheap (Some h.1) h.2 in
  r ← clone_directory fuel (k_kernel_directory k) k;
  let '(dir, k) := r in
  let k := with_current_directory dir k in
  Ok (switch_page_directory dir c k).

(** ** clone_table *)

(** [clone_flag] ors one flag of the source entry into the copy. *)
Lemma clone_flag_mem get set src dst k :
  k_mem (clone_flag get set src dst k) =
    if negb (get (load32 (k_mem k) src) =? 0) then store32 (k_mem k) dst (set 1 (load32 (k_mem k) dst)) else k_mem k.
Proof. unfold clone_flag. case_match; reflexivity. Qed.

Lemma clone_flag_phys get set src dst k : k_phys (clone_flag get set src dst k) = k_phys k.
Proof. unfold clone_flag. case_match; reflexivity. Qed.

Lemma bf_bit pos w : 0 <= pos -> bf_get pos 1 w = 0 \/ bf_get pos 1 w = 1.
Proof.
  intros. unfold bf_get. rewrite Z.land_ones by lia. change (2 ^ 1) with 2.
  pose proof (Z.mod_pos_bound (Z.shiftr w pos) 2 ltac:(lia)). lia.
Qed.

(** One flag: the source entry stays; in the copy the flag is or'ed, other
    fields stay. *)
Lemma clone_flag_spec pos src dst k :
  0 <= pos < 12 -> src + 4 <= dst \/ dst + 4 <= src ->
  let k' := clone_flag (bf_get pos 1) (bf_set pos 1) src dst k in
  load32 (k_mem k') src = load32 (k_mem k) src /\
  bf_get pos 1 (load32 (k_mem k') dst) =
    Z.lor (bf_get pos 1 (load32 (k_mem k) dst)) (bf_get pos 1 (load32 (k_mem k) src)) /\
  (forall pos' width, 0 <= pos' -> 0 <= width -> pos' + width <= 32 -> pos' + width <= pos \/ pos < pos' ->
     bf_get pos' width (load32 (k_mem k') dst) = bf_get pos' width (load32 (k_mem k) dst)).
Proof.
  intros Hp Hd. cbv zeta. rewrite clone_flag_mem.
  destruct (bf_bit pos (load32 (k_mem k) src) ltac:(lia)) as [-> | ->]; cbn [Z.eqb negb].
  - rewrite Z.lor_0_r. auto.
  - rewrite load32_store32_ne, load32_store32_eq by lia. split_and!; [reflexivity | |].
    + rewrite bf_get_u32, bf_get_set_eq by lia.
      destruct (bf_bit pos (load32 (k_mem k) dst) ltac:(lia)) as [-> | ->]; reflexivity.
    + intros pos' width H1 H2 H3 H4. rewrite bf_get_u32, bf_get_set_ne by lia. reflexivity.
Qed.

Lemma page_frame_range w : 0 <= page_frame w < 0x100000.
Proof. unfold page_frame, bf_get. rewrite Z.land_ones by lia. apply Z.mod_pos_bound. lia. Qed.

(** A flag touches only the copy. *)
Definition only_entry (dst : Z) (k k' : kernel) : Prop := k' = with_mem (k_mem k') k /\ same_but dst 4 (k_mem k) (k_mem k').

Lemma only_entry_refl dst k : only_entry dst k k.
Proof. split; [destruct k; reflexivity | apply same_but_refl]. Qed.

Lemma only_entry_trans dst k1 k2 k3 : only_entry dst k1 k2 -> only_entry dst k2 k3 -> only_entry dst k1 k3.
Proof. intros [E1 H1] [E2 H2]. split; [rewrite E2, E1; reflexivity | exact (same_but_trans _ _ _ _ _ H1 H2)]. Qed.

Lemma clone_flag_frame get set src dst k : only_entry dst k (clone_flag get set src dst k).
Proof.
  unfold clone_flag. case_match; [split; [reflexivity | apply same_but_store32; lia]|]. split; [destruct k; reflexivity | apply same_but_refl].
Qed.

Lemma alloc_frame_mem page a b k k' : alloc_frame page a b k = Ok k' -> k' = with_mem (k_mem k') k.
Proof.
  unfold alloc_frame. destruct (negb _); [intros [= <-]; destruct k; reflexivity|].
  destruct (first_frame k) as [idx| | |]; try discriminate. cbn [mbind outcome_bind].
  destruct (idx =? u32 (-1)); [discriminate|]. intros [= <-]. reflexivity.
Qed.

Lemma frame_used_kept k m p g : outside_bitmap k p 4 -> frame_range k g -> same_but p 4 (k_mem k) m -> frame_used (with_mem m k) g = frame_used k g.
Proof.
  intros Ho Hg Hs. unfold frame_used. cbn [with_mem k_mem k_frames]. unfold outside_bitmap, bitmap_size, frame_range in *.
  rewrite (same_but_load32 _ _ _ _ _ Hs); [reflexivity|]. zlia.
Qed.

(** The entry of the copy of [w]. *)
Definition copied_entry (w f w' : Z) : Prop :=
  page_frame w' = f /\ page_present w' = 1 /\ page_rw w' = 1 /\ page_user w' = 1 /\
  page_accessed w' = page_accessed w /\ page_dirty w' = page_dirty w.

(** One page of [clone_table], and what it leaves. *)
Lemma clone_page_ok (k : kernel) (src dst g : Z) :
  0 <= k_nframes k <= 0x100000 -> outside_bitmap k dst 4 -> outside_bitmap k src 4 ->
  src + 4 <= dst \/ dst + 4 <= src -> frame_range k g -> frame_used k g = false ->
  let w := load32 (k_mem k) src in
  page_frame w <> 0 -> frame_used k (page_frame w) = true -> load32 (k_mem k) dst = 0 ->
  exists f k', clone_page src dst k = Ok k' /\ frame_used k f = false /\ frame_range k f /\
    (forall x, 0 <= x < f -> frame_used k x = true) /\ copied_entry w f (load32 (k_mem k') dst) /\
    (forall x, 0 <= x < 0x1000 -> load8 (k_phys k') (f * 0x1000 + x) = load8 (k_phys k) (page_frame w * 0x1000 + x)) /\
    same_but (f * 0x1000) 0x1000 (k_phys k) (k_phys k') /\
    (forall q, outside_bitmap k q 4 -> q + 4 <= dst \/ dst + 4 <= q -> load32 (k_mem k') q = load32 (k_mem k) q) /\
    (forall x, frame_range k x -> frame_used k' x = (f =? x) || frame_used k x) /\
    k' = with_phys (k_phys k') (with_mem (k_mem k') k).
Proof.
  intros Hn Hod Hos Hd Hg Hu w Hw Huw Hz. unfold clone_page. fold w. rewrite (proj2 (Z.eqb_neq _ _) Hw). cbn [negb].
  destruct (alloc_frame_spec k dst 0 1 g Hn Hod) as (f & k1 & E & Hr & Hfu & Hleast & Ew & Hused & Hq & Hkf & Hkn & Hph);
    [rewrite Hz; reflexivity | exact Hg | exact Hu |].
  rewrite E. cbn [mbind outcome_bind]. pose proof (Hq src Hos Hd) as Hsrc. fold w in Hsrc.
  pose proof (frame_range_bound k f ltac:(lia) Hr) as Hfb. pose proof (page_frame_range w) as Hwb.
  destruct (page_entry_fields 0 f 0 1 Hfb) as (F1 & F2 & F3 & F4 & F5 & F6 & _). rewrite Hz in Ew.
  rewrite <- Ew in F1, F2, F3, F4, F5, F6. change (page_accessed 0) with 0 in F5. change (page_dirty 0) with 0 in F6.
  assert (f <> page_frame w) as Hfw by congruence.
  unfold page_present, page_rw, page_user, page_accessed, page_dirty, page_frame, set_present, set_rw, set_user, set_accessed, set_dirty in *.
  destruct (clone_flag_spec 0 src dst k1 ltac:(lia) Hd) as (S2 & G2 & O2). set (k2 := clone_flag _ _ _ _ k1) in *.
  destruct (clone_flag_spec 1 src dst k2 ltac:(lia) Hd) as (S3 & G3 & O3). set (k3 := clone_flag _ _ _ _ k2) in *.
  destruct (clone_flag_spec 2 src dst k3 ltac:(lia) Hd) as (S4 & G4 & O4). set (k4 := clone_flag _ _ _ _ k3) in *.
  destruct (clone_flag_spec 3 src dst k4 ltac:(lia) Hd) as (S5 & G5 & O5). set (k5 := clone_flag _ _ _ _ k4) in *.
  destruct (clone_flag_spec 4 src dst k5 ltac:(lia) Hd) as (S6 & G6 & O6). set (k6 := clone_flag _ _ _ _ k5) in *.
  assert (forall b, b = 0 \/ b = 1 -> Z.lor 1 b = 1) as Hor by (intros b [-> | ->]; reflexivity).
  rewrite S5, S4, S3, S2, Hsrc in S6. rewrite S5, S4, S3, S2, Hsrc in G6. rewrite S4, S3, S2, Hsrc in G5.
  rewrite S3, S2, Hsrc in G4. rewrite S2, Hsrc in G3. rewrite Hsrc in G2.
  assert (bf_get 12 20 (load32 (k_mem k6) dst) = f) as Hframe by (rewrite O6, O5, O4, O3, O2 by lia; exact F4).
  rewrite S6, Hframe. fold w. eexists f, _. split; [reflexivity|]. cbn [copy_page_physical with_phys with_mem k_mem k_phys].
  assert (k_phys k6 = k_phys k) as Hp6 by (unfold k6, k5, k4, k3, k2; rewrite !clone_flag_phys; exact Hph).
  assert (only_entry dst k1 k6) as [Hk6 Hs6] by (repeat (eapply only_entry_trans; [|apply clone_flag_frame]); apply only_entry_refl).
  split_and!; try assumption.
  - unfold copied_entry, page_present, page_rw, page_user, page_accessed, page_dirty, page_frame. split_and!.
    + exact Hframe.
    + rewrite O6, O5, O4, O3, G2, F1 by lia. apply Hor, bf_bit. lia.
    + rewrite O6, O5, O4, G3, O2, F2 by lia. apply Hor, bf_bit. lia.
    + rewrite O6, O5, G4, O3, O2, F3 by lia. apply Hor, bf_bit. lia.
    + rewrite O6, G5, O4, O3, O2, F5 by lia. apply Z.lor_0_l.
    + rewrite G6, O5, O4, O3, O2, F6 by lia. apply Z.lor_0_l.
  - intros x Hx. rewrite Hp6, !u32_small by lia. apply (memcpy_spec _ _ _ 0x1000); lia.
  - rewrite Hp6, !u32_small by lia. apply (memcpy_spec _ _ _ 0x1000); lia.
  - intros q Hqo Hqd. rewrite (same_but_load32 _ _ _ _ _ Hs6) by lia. now apply Hq.
  - intros x Hx. rewrite <- Hused by exact Hx. transitivity (frame_used k6 x); [reflexivity|]. rewrite Hk6.
    apply (frame_used_kept k1 _ dst); [| |exact Hs6]; unfold outside_bitmap, frame_range, bitmap_size in *; rewrite ?Hkf, ?Hkn; assumption.
  - clearbody k6. pose proof (alloc_frame_mem _ _ _ _ _ E) as Ek1. destruct k6, k1, k. injection Hk6; injection Ek1. intros. subst. reflexivity.
Qed.

(** One page of [clone_table]: a mapped source entry whose frame is in use
    is copied to an empty entry by taking the least free frame and copying the
    4096 bytes of the source's frame; the accessed and dirty flags are copied.
    The copy is present, writable and open to user mode whatever the source's
    permissions are. *)
Theorem clone_page_copies (k : kernel) (src dst g : Z) :
  0 <= k_nframes k <= 0x100000 -> outside_bitmap k dst 4 -> outside_bitmap k src 4 ->
  src + 4 <= dst \/ dst + 4 <= src -> frame_range k g -> frame_used k g = false ->
  let w := load32 (k_mem k) src in
  page_frame w <> 0 -> frame_used k (page_frame w) = true -> load32 (k_mem k) dst = 0 ->
  exists f k', clone_page src dst k = Ok k' /\ frame_used k f = false /\ f <> page_frame w /\
    (forall x, 0 <= x < f -> frame_used k x = true) /\
    load32 (k_mem k') src = w /\
    (let w' := load32 (k_mem k') dst in
     page_frame w' = f /\ page_present w' = 1 /\ page_rw w' = 1 /\ page_user w' = 1 /\
     page_accessed w' = page_accessed w /\ page_dirty w' = page_dirty w) /\
    (forall x, 0 <= x < 0x1000 -> load8 (k_phys k') (f * 0x1000 + x) = load8 (k_phys k) (page_frame w * 0x1000 + x)) /\
    same_but (f * 0x1000) 0x1000 (k_phys k) (k_phys k').
Proof.
  intros Hn Hod Hos Hd Hg Hu w Hw Huw Hz.
  destruct (clone_page_ok k src dst g Hn Hod Hos Hd Hg Hu Hw Huw Hz) as (f & k' & E & Hf & _ & Hleast & He & Hp & Hps & Hq & _).
  exists f, k'. split_and!; try assumption; [congruence | now apply Hq].
Qed.

Lemma clone_page_copies_witness :
  let k := with_mem (store32 (k_mem example_kernel) 0x6000 (1 * 0x1000 + 5)) example_kernel in
  exists f k', clone_page 0x6000 0x5000 k = Ok k' /\ f <> 1 /\ page_rw (load32 (k_mem k) 0x6000) = 0 /\
    page_rw (load32 (k_mem k') 0x5000) = 1.
Proof.
  intros k. destruct (clone_page_copies k 0x6000 0x5000 2) as (f & k' & E & _ & Hf & _ & _ & (_ & _ & Hrw & _) & _);
    [simpl; lia | right; vm_compute; discriminate | right; vm_compute; discriminate | right; lia |
     split; [lia | vm_compute; reflexivity] | vm_compute; reflexivity | vm_compute; discriminate |
     vm_compute; reflexivity | vm_compute; reflexivity |].
  exists f, k'. split_and!; [exact E | exact Hf | reflexivity | exact Hrw].
Defined.

(** The loop does nothing on a table that maps nothing. *)
Lemma clone_empty_table src dst k :
  (forall i, 0 <= i < 1024 -> page_frame (load32 (k_mem k) (src + 4 * i)) = 0) ->
  while 1024 (fun '(_, i) => i <? 1024)
    (fun '(k, i) => k ← clone_page (src + 4 * i) (dst + 4 * i) k; Ok (k, i + 1)) (k, 0) = Ok (k, 1024).
Proof.
  intros Hz.
  destruct (while_rule (fun st : kernel * Z => st.1 = k /\ 0 <= st.2 <= 1024) (fun st => Z.to_nat (1024 - st.2))
    (fun '(_, i) => i <? 1024)
    (fun '(k, i) => k ← clone_page (src + 4 * i) (dst + 4 * i) k; Ok (k, i + 1)) 1024 (k, 0)) as ([k3 j] & E & [Hk Hj] & Hc).
  - intros [k3 i] [Hk Hi] Hc. cbn [fst snd] in *. subst k3. apply Z.ltb_lt in Hc. unfold clone_page.
    rewrite Hz by lia. eexists. split; [reflexivity|]. cbn [fst snd]. split; [split; [reflexivity | lia] | lia].
  - cbn [fst snd]. split; [reflexivity | lia].
  - cbn [snd]. lia.
  - cbn [fst snd] in *. subst k3. apply Z.ltb_ge in Hc. rewrite E. do 2 f_equal. lia.
Qed.

(** [clone_table] clears [sizeof(page_directory_t)] bytes of a chunk of
    [sizeof(page_table_t)]: whatever the allocator handed out or holds in the
    0x1004 bytes behind the table is zero afterwards, even if the source table
    maps nothing. *)
Theorem clone_table_clears_past_the_table (fuel : nat) (src : Z) (k : kernel) (table phys : Z) (k1 : kernel) :
  kmalloc_ap fuel SIZEOF_page_table k = Ok (table, phys, k1) ->
  src + 0x1000 <= table \/ table + 0x2004 <= src ->
  (forall i, 0 <= i < 1024 -> page_frame (load32 (k_mem k1) (src + 4 * i)) = 0) ->
  exists k', clone_table fuel src k = Ok (table, phys, k') /\
    (forall x, table + SIZEOF_page_table <= x < table + SIZEOF_page_directory -> load8 (k_mem k') x = 0).
Proof.
  intros Ha Hd Hz. unfold clone_table. rewrite Ha, bind_ok. cbv beta iota zeta.
  destruct (memset_spec (k_mem k1) table 0 SIZEOF_page_directory) as [Hset Hfr]; [unfold SIZEOF_page_directory; lia|].
  revert Hset Hfr. generalize (memset (k_mem k1) table 0 SIZEOF_page_directory) as m2. intros m2 Hset Hfr.
  rewrite clone_empty_table, ?bind_ok.
  - eexists. split; [reflexivity|]. cbn [fst with_mem k_mem]. intros x Hx. unfold SIZEOF_page_table in Hx.
    replace x with (table + (x - table)) by lia. apply Hset. lia.
  - intros i Hi. cbn [with_mem k_mem]. unfold SIZEOF_page_directory in Hfr.
    rewrite (same_but_load32 _ _ _ _ _ Hfr) by lia. apply Hz, Hi.
Qed.

Lemma clone_table_clears_past_the_table_witness :
  exists k', clone_table 0 0x7000 (mk_kernel (store8 ∅ 0x101004 7) ∅ 0x100000 None 0 0 0 0) = Ok (0x101000, 0x101000, k') /\
    load8 (k_mem k') 0x102004 = 0 /\ load8 (k_mem k') 0x103000 = 0.
Proof.
  destruct (clone_table_clears_past_the_table 0 0x7000 (mk_kernel (store8 ∅ 0x101004 7) ∅ 0x100000 None 0 0 0 0)
    0x101000 0x101000 (with_placement 0x102000 (mk_kernel (store8 ∅ 0x101004 7) ∅ 0x100000 None 0 0 0 0))) as (k' & E & Hz);
    [reflexivity | lia | |].
  - intros i Hi. cbn [with_placement k_mem]. rewrite load32_store8_ne by lia. reflexivity.
  - exists k'. unfold SIZEOF_page_table, SIZEOF_page_directory in Hz. split_and!; [exact E | apply Hz; lia | apply Hz; lia].
Defined.

(** ** clone_directory *)

(** The loop over the kernel's own directory: every table is shared. *)
Lemma clone_dir_links fuel src dir k :
  k_kernel_directory k = src -> src + 0x2000 <= dir \/ dir + 0x2000 <= src ->
  (forall i, 0 <= i < 1024 -> dir_table (k_mem k) dir i = 0 /\ dir_table_physical (k_mem k) dir i = 0) ->
  (forall i, 0 <= i < 1024 -> dir_table (k_mem k) src i = 0 -> dir_table_physical (k_mem k) src i = 0) ->
  exists m', while 1024 (fun '(_, i) => i <? 1024) (fun '(k, i) => k ← clone_dir_entry fuel src dir i k; Ok (k, i + 1)) (k, 0) =
      Ok (with_mem m' k, 1024) /\ same_but dir 0x2000 (k_mem k) m' /\
    (forall i, 0 <= i < 1024 -> dir_table m' dir i = dir_table (k_mem k) src i /\
       dir_table_physical m' dir i = dir_table_physical (k_mem k) src i).
Proof.
  intros Hk Hd Hz Hs. unfold dir_table, dir_table_physical in *.
  destruct (while_rule (fun st : kernel * Z => exists m, st.1 = with_mem m k /\ 0 <= st.2 <= 1024 /\ same_but dir 0x2000 (k_mem k) m /\
      (forall j, 0 <= j < 1024 -> load32 m (dir + 4 * j) = (if j <? st.2 then load32 (k_mem k) (src + 4 * j) else 0) /\
         load32 m (dir + 0x1000 + 4 * j) = (if j <? st.2 then load32 (k_mem k) (src + 0x1000 + 4 * j) else 0)))
    (fun st => Z.to_nat (1024 - st.2)) (fun '(_, i) => i <? 1024)
    (fun '(k, i) => k ← clone_dir_entry fuel src dir i k; Ok (k, i + 1)) 1024 (k, 0)) as ([k' i'] & E & (m & Ek & Hi & Hfr & Hw) & Hc).
  - intros [k2 i] (m & Ek & Hi & Hfr & Hw) Hc. cbn [fst snd] in *. subst k2. apply Z.ltb_lt in Hc.
    assert (forall q, q + 4 <= dir \/ dir + 0x2000 <= q -> load32 m q = load32 (k_mem k) q) as Hsame
      by (intros q Hq; apply (same_but_load32 _ _ _ _ _ Hfr); lia).
    unfold clone_dir_entry, dir_table, dir_table_physical. cbn [k_mem with_mem k_kernel_directory].
    rewrite Hk, !Hsame, Z.eqb_refl by lia. destruct (Z.eqb_spec (load32 (k_mem k) (src + 4 * i)) 0) as [Ez|Ez].
    + rewrite bind_ok. eexists. split; [reflexivity|]. cbn [fst snd]. split; [|lia]. exists m. split_and!; [reflexivity | lia | lia | exact Hfr |].
      intros j Hj. destruct (Hw j Hj) as [-> ->]. destruct (decide (j = i)) as [->|Hne];
        [rewrite Ez, (Hs i Hj Ez); cases_lia; auto | replace (j <? i + 1) with (j <? i) by lia; auto].
    + rewrite load32_store32_ne, Hsame, bind_ok by lia. eexists. split; [reflexivity|]. cbn [fst snd]. split; [|lia].
      eexists. split_and!; [reflexivity | lia | lia | |].
      * apply (same_but_trans _ _ _ (store32 m (dir + 4 * i) (load32 (k_mem k) (src + 4 * i)))); [|apply same_but_store32; lia].
        apply (same_but_trans _ _ _ m); [exact Hfr | apply same_but_store32; lia].
      * intros j Hj. destruct (decide (j = i)) as [->|Hne].
        -- rewrite load32_store32_ne, !load32_store32_eq by lia. rewrite !u32_small by apply load32_range.
           replace (i <? i + 1) with true by lia. auto.
        -- rewrite !load32_store32_ne by lia. destruct (Hw j Hj) as [-> ->]. replace (j <? i + 1) with (j <? i) by lia. auto.
  - exists (k_mem k). cbn [fst snd]. split_and!; [destruct k; reflexivity | lia | lia | apply same_but_refl |].
    intros j Hj. replace (j <? 0) with false by lia. now apply Hz.
  - cbn [snd]. lia.
  - cbn [fst snd] in *. subst k'. replace i' with 1024 in * by lia. exists m. split_and!; [exact E | exact Hfr |].
    intros i Hi'. destruct (Hw i Hi') as [-> ->]. replace (i <? 1024) with true by lia. auto.
Qed.

(** The copy of a directory without tables, which the loop leaves alone. *)
Lemma clone_empty_directory fuel src k dir phys k1 :
  kmalloc_ap fuel SIZEOF_page_directory k = Ok (dir, phys, k1) ->
  src + 0x1000 <= dir \/ dir + 0x2004 <= src ->
  (forall i, 0 <= i < 1024 -> dir_table (k_mem k1) src i = 0) ->
  exists m, clone_directory fuel src k = Ok (dir, with_mem m k1) /\ same_but dir 0x2004 (k_mem k1) m.
Proof.
  intros Ha Hd Hz. unfold clone_directory. rewrite Ha, bind_ok. cbv beta iota zeta.
  destruct (memset_spec (k_mem k1) dir 0 SIZEOF_page_directory) as [_ Hfr]; [unfold SIZEOF_page_directory; lia|].
  revert Hfr. generalize (memset (k_mem k1) dir 0 SIZEOF_page_directory) as m2. intros m2 Hfr. unfold SIZEOF_page_directory in Hfr.
  set (k2 := with_mem (store32 _ _ _) _).
  assert (forall i, 0 <= i < 1024 -> dir_table (k_mem k2) src i = 0) as Hz2.
  { intros i Hi. unfold dir_table, k2. cbn [with_mem k_mem].
    rewrite load32_store32_ne, (same_but_load32 _ _ _ _ _ Hfr) by lia. apply Hz, Hi. }
  destruct (while_rule (fun st : kernel * Z => st.1 = k2 /\ 0 <= st.2 <= 1024) (fun st => Z.to_nat (1024 - st.2))
    (fun '(_, i) => i <? 1024)
    (fun '(k, i) => k ← clone_dir_entry fuel src dir i k; Ok (k, i + 1)) 1024 (k2, 0)) as ([k3 j] & E & [Hk Hj] & _).
  - intros [k3 i] [Hk Hi] Hc. cbn [fst snd] in *. subst k3. apply Z.ltb_lt in Hc. unfold clone_dir_entry.
    rewrite Hz2 by lia. rewrite Z.eqb_refl, bind_ok. eexists. split; [reflexivity|]. cbn [fst snd]. split; [split; [reflexivity | lia] | lia].
  - cbn [fst snd]. split; [reflexivity | lia].
  - cbn [snd]. lia.
  - rewrite E, bind_ok. cbn [fst] in *. subst k3. eexists. split; [reflexivity|]. unfold k2. cbn [with_mem k_mem].
    intros x Hx. rewrite <- Hfr by lia. apply (same_but_store32 dir 0x2004); lia.
Qed.
