(* ===== verification/CloneHeap.v ===== *)
(** * clone_table on the kernel heap

    Once the heap exists, the table that [clone_table] makes is a page-aligned
    block of it.  [clone_table] clears more than the block: the header of the
    hole behind it goes, and with it the heap's invariant.  [fork] runs into
    this with its first call, for the table of the stack. *)

From S2P Require Import Prelude Memory Util OrderedArray Kernel Paging KHeap KHeapInv KHeapAlign HeapProps Directories.

(** [kmalloc_ap] on the heap is the aligned [alloc]. *)
Lemma kmalloc_ap_heap fuel sz k h p m' h' :
  k_kheap k = Some h -> alloc fuel sz 1 k h = Ok (p, with_mem m' k, h') ->
  exists phys, kmalloc_ap fuel sz k = Ok (p, phys, with_kheap (Some h') (with_mem m' k)).
Proof.
  intros Hk E. unfold kmalloc_ap, kmalloc_int. rewrite Hk. change (u8 1) with 1. rewrite E, bind_ok. cbv beta iota zeta.
  destruct (get_page_no_make p (k_kernel_directory (with_kheap (Some h') (with_mem m' k))) (with_kheap (Some h') (with_mem m' k))) as (q & ->).
  rewrite bind_ok. cbv beta iota zeta. rewrite bind_ok. eexists. reflexivity.
Qed.

(** A heap whose index names a hole without a header does not satisfy the
    invariant. *)
Lemma heap_inv_index_header m h bs l x :
  heap_inv m h bs -> oa_rep m (h_index h) l -> x ∈ l -> hdr_magic m x = HEAP_MAGIC.
Proof.
  intros Hi Hrep Hx. destruct (hi_index _ _ _ Hi) as (l' & Hrep' & Hp). rewrite (oa_rep_inj _ _ _ _ Hrep Hrep'), Hp in Hx.
  apply hole_addrs_in in Hx as (b & Hb & _ & <-). apply (hi_blocks _ _ _ Hi b Hb).
Qed.

(** C32: [clone_table] of a table that maps nothing, on a good heap whose search
    finds a hole that can be cut and reaches past what is cleared: it returns,
    the hole behind the new table is still in the index, but its header is
    zero, so its bytes cannot be allocated any more, and the heap is no longer
    well formed. *)
Theorem clone_table_corrupts_heap (fuel : nat) (src i a : Z) (k : kernel) (h : heap_t) (bs : list block) :
  let size := hdr_size (k_mem k) a in
  let pad := align_pad a in
  k_kheap k = Some h -> heap_inv (k_mem k) h bs ->
  find_smallest_hole (SIZEOF_page_table + 20) 1 (k_mem k) h = Ok i -> i <> -1 ->
  lookup_ordered_array (k_mem k) i (h_index h) = Ok a -> 0x1000 <= a ->
  20 <= pad -> pad + SIZEOF_header + SIZEOF_page_directory <= size ->
  src + 0x1000 <= oa_array (h_index h) \/ oa_array (h_index h) + index_room h <= src ->
  src + 0x1000 <= a \/ a + size <= src ->
  (forall j, 0 <= j < 1024 -> page_frame (load32 (k_mem k) (src + 4 * j)) = 0) ->
  exists table phys k' h', clone_table fuel src k = Ok (table, phys, k') /\ k_kheap k' = Some h' /\
    table = a + pad + SIZEOF_header /\ hdr_size (k_mem k') (table + SIZEOF_page_table + SIZEOF_footer) = 0 /\
    (forall bs', ~ heap_inv (k_mem k') h' bs').
Proof.
  cbv zeta. intros Hk Hi Ef Hne El Ha Hpad Hsize Hsrc1 Hsrc2 Hz. unfold SIZEOF_page_table, SIZEOF_page_directory, SIZEOF_header, SIZEOF_footer in *.
  destruct (alloc_aligned_spec fuel k h bs 0x1000 i Hi ltac:(lia) ltac:(lia) Ef Hne) as (bs1 & b & bs2 & -> & Hh & El' & Hsz & Hcut).
  rewrite El in El'. injection El' as ->. rewrite Hsz in *. clear Ef Hne El Hsz. set (pad := align_pad (b_addr b)) in *.
  destruct Hcut as (m1 & idx & Ea & Hi1 & Hfr1); [exact Ha | split; unfold SIZEOF_header, SIZEOF_footer; fold pad; lia |]. fold pad in Ea.
  pose proof (hi_start _ _ _ Hi). pose proof (hi_array _ _ _ Hi) as Harr. pose proof (hi_end _ _ _ Hi).
  assert (b ∈ bs1 ++ b :: bs2) as Hin by (rewrite elem_of_app, elem_of_cons; auto).
  pose proof (tiled_in _ _ _ b (hi_tiled _ _ _ Hi) Hin) as (Hba & _ & Hbe). unfold b_end in *.
  destruct (kmalloc_ap_heap _ _ _ _ _ _ _ Hk Ea) as (phys & Em). set (table := b_addr b + pad + 12) in *.
  set (rest := b_addr b + pad + 0x1014).
  assert (exists l, oa_rep m1 idx l /\ rest ∈ l) as (l & Hrep & Hl).
  { destruct (hi_index _ _ _ Hi1) as (l & Hrep & Hp). exists l. split; [exact Hrep|]. rewrite Hp, !hole_addrs_app, split_aligned_holes.
    fold pad. replace (b_size b =? pad + (0x1000 + 20)) with false by lia. rewrite !elem_of_app, !elem_of_cons. right. left. right. now left. }
  assert (forall m2, same_but table 0x2004 m1 m2 -> load32 m2 rest = 0 -> forall bs', ~ heap_inv m2 (with_index idx h) bs') as Hbroken.
  { intros m2 Hfr Hzero bs' Hi2. assert (oa_rep m2 idx l) as Hrep2.
    { destruct Hrep as [Hl1 Hw]. split; [exact Hl1|].
      apply (words_frame_block m1 m1 m2 (with_index idx h) table 0x2004 l _ Hi1 Hfr); [cbn; lia | | exact Hw].
      destruct (hi_index _ _ _ Hi1) as (l' & Hr' & Hp'). rewrite (oa_rep_inj _ _ _ _ (conj Hl1 Hw) Hr').
      pose proof (index_length _ _ _ _ Hi1 Hr' Hp') as Hlen. cbn [with_index h_index] in *. lia. }
    pose proof (heap_inv_index_header _ _ _ _ _ Hi2 Hrep2 Hl) as Hm. unfold hdr_magic in Hm. rewrite Hzero in Hm. discriminate. }
  unfold clone_table. change SIZEOF_page_table with 0x1000. rewrite Em, bind_ok. cbv beta iota zeta. change (k_mem (with_kheap _ _)) with m1.
  destruct (memset_spec m1 table 0 SIZEOF_page_directory) as [Hset Hfr]; [unfold SIZEOF_page_directory; lia|].
  revert Hset Hfr. generalize (memset m1 table 0 SIZEOF_page_directory) as m2. unfold SIZEOF_page_directory. intros m2 Hset Hfr.
  assert (forall q, table <= q -> q + 4 <= table + 0x2004 -> load32 m2 q = 0) as Hzero.
  { intros q H1 H2. unfold load32. replace q with (table + (q - table)) by lia. rewrite <- !Z.add_assoc, !Hset by lia. reflexivity. }
  rewrite clone_empty_table, bind_ok.
  - cbn [fst]. exists table, phys. do 2 eexists. split_and!; [reflexivity | reflexivity | reflexivity | |].
    + unfold hdr_size. cbn [k_mem with_mem]. apply Hzero; lia.
    + apply Hbroken; [exact Hfr | apply Hzero; unfold rest, table; lia].
  - intros j Hj. cbn [k_mem with_mem]. rewrite (same_but_load32 _ _ _ _ _ Hfr) by (unfold table; lia).
    replace (load32 m1 (src + 4 * j)) with (load32 (k_mem k) (src + 4 * j)); [apply Hz, Hj|].
    unfold load32. rewrite !Hfr1 by (unfold b_end; lia). reflexivity.
Qed.

Lemma clone_table_corrupts_heap_witness :
  exists phys k' h', clone_table 0 0x9000 (with_kheap (Some paged_heap) paged_heap_kernel) = Ok (0x3000, phys, k') /\
    k_kheap k' = Some h' /\ (forall bs, ~ heap_inv (k_mem k') h' bs).
Proof.
  destruct (clone_table_corrupts_heap 0 0x9000 0 0x2000 (with_kheap (Some paged_heap) paged_heap_kernel) paged_heap [mk_block 0x2000 0x4000 true])
    as (table & phys & k' & h' & E & Hk & -> & _ & Hbad);
    [reflexivity | apply paged_heap_inv | vm_compute; reflexivity | lia | vm_compute; reflexivity | lia | vm_compute; discriminate |
     vm_compute; discriminate | right; vm_compute; discriminate | right; vm_compute; discriminate | |].
  - intros j Hj. unfold paged_heap_kernel, write_header. cbn [with_kheap k_mem].
    rewrite !load32_store32_ne, load32_store8_ne, !load32_store32_ne by lia. reflexivity.
  - exists phys, k', h'. split_and!; [exact E | exact Hk | exact Hbad].
Defined.
