(* ===== verification/CloneTable.v ===== *)
(** * The copy of a page table

    The loop of [clone_table] over a table of 1024 entries: the child gets, for
    every page that is mapped, a frame of its own with the same bytes, and
    nothing of the parent changes. *)

From S2P Require Import Prelude Memory Util OrderedArray Kernel Paging KHeap KHeapInv KHeapGrow Directories.

(** The pages from entry [i] on that are mapped. *)
Definition mapped (m : mem) (src i : Z) : nat :=
  length (filter (fun j => page_frame (load32 m (src + 4 * j)) <> 0) (seqZ i (1024 - i))).

Lemma mapped_step m src i : 0 <= i < 1024 ->
  mapped m src i = ((if decide (page_frame (load32 m (src + 4 * i)) = 0%Z) then 0 else 1) + mapped m src (i + 1)%Z)%nat.
Proof.
  intros Hi. unfold mapped. rewrite (seqZ_cons i) by lia. replace (Z.succ i) with (i + 1) by lia. replace (Z.pred (1024 - i)) with (1024 - (i + 1)) by lia.
  rewrite filter_cons. destruct (decide (page_frame (load32 m (src + 4 * i)) = 0)) as [E|E].
  - rewrite decide_False by (rewrite E; auto). reflexivity.
  - rewrite decide_True by exact E. reflexivity.
Qed.

Lemma mapped_same m m' src : (forall j, 0 <= j < 1024 -> load32 m' (src + 4 * j) = load32 m (src + 4 * j)) -> mapped m' src 0 = mapped m src 0.
Proof.
  intros H. unfold mapped. assert (Forall (fun j => 0 <= j < 1024) (seqZ 0 (1024 - 0))) as Hl by (apply Forall_seqZ; intros j Hj; lia).
  induction Hl as [|j l Hj _ IH]; [reflexivity|]. rewrite !filter_cons, (H j Hj). case_decide; cbn [length]; now rewrite IH.
Qed.

Lemma mapped_in m src (l : list Z) :
  (forall j, 0 <= j < 1024 -> page_frame (load32 m (src + 4 * j)) <> 0 -> j ∈ l) -> (mapped m src 0 <= length l)%nat.
Proof.
  intros H. unfold mapped. apply submseteq_length, NoDup_submseteq; [apply NoDup_filter, NoDup_seqZ|].
  intros j [Hf Hj%elem_of_seqZ]%list_elem_of_filter. apply H; [lia | exact Hf].
Qed.

(** [n] frames to spare, of which one is taken. *)
Lemma frames_free_after k k' idx n : k_frames k' = k_frames k -> k_nframes k' = k_nframes k ->
  (forall f, frame_range k f -> frame_used k' f = (idx =? f) || frame_used k f) -> frames_free k (S n) -> frames_free k' n.
Proof.
  intros Ef En Hu Hfree. pose proof (frames_free_take k (k_mem k') idx n eq_refl) as Ht.
  assert (forall f, frame_used (with_mem (k_mem k') k) f = frame_used k' f) as Eu by (intros f; unfold frame_used; cbn [with_mem k_mem k_frames]; now rewrite Ef).
  destruct Ht as (l & H1 & H2 & H3); [intros f Hf; rewrite Eu; now apply Hu | exact Hfree |]. exists l. split_and!; [exact H1 | exact H2 |].
  apply (Forall_impl _ _ _ H3). intros f [Hr Hf]. rewrite Eu in Hf. unfold frame_range in *. rewrite En. auto.
Qed.

(** Only the two memories change. *)
Lemma only_memory_trans k0 k k' : k = with_phys (k_phys k) (with_mem (k_mem k) k0) -> k' = with_phys (k_phys k') (with_mem (k_mem k') k) ->
  k' = with_phys (k_phys k') (with_mem (k_mem k') k0).
Proof.
  intros Hk Hk'. transitivity (with_phys (k_phys k') (with_mem (k_mem k') (with_phys (k_phys k) (with_mem (k_mem k) k0)))); [|reflexivity].
  now rewrite <- Hk.
Qed.

(** ** What the loop has done *)

Section CloneTable.
Context (k0 : kernel) (src dst : Z).

Definition page_bytes (k : kernel) (f x : Z) : Z := load8 (k_phys k) (f * 0x1000 + x).

(** [w'] is the copy of the entry [w]. *)
Definition page_copy (k : kernel) (w w' : Z) : Prop :=
  (page_frame w = 0 /\ w' = 0) \/
  (page_frame w <> 0 /\ copied_entry w (page_frame w') w' /\ frame_range k0 (page_frame w') /\
   frame_used k0 (page_frame w') = false /\ frame_used k (page_frame w') = true /\
   (forall x, 0 <= x < 0x1000 -> page_bytes k (page_frame w') x = page_bytes k0 (page_frame w) x)).

(** The tables are clear of the bitmap and of each other, the frames of the
    source are in use, and so is frame 0. *)
Record cloneable : Prop := {
  cl_nframes : 0 <= k_nframes k0 <= 0x100000;
  cl_src : outside_bitmap k0 src 0x1000;
  cl_dst : outside_bitmap k0 dst 0x1000;
  cl_apart : src + 0x1000 <= dst \/ dst + 0x1000 <= src;
  cl_frames : forall j, 0 <= j < 1024 -> let f := page_frame (load32 (k_mem k0) (src + 4 * j)) in
    f <> 0 -> frame_range k0 f /\ frame_used k0 f = true;
  cl_zero : frame_range k0 0 /\ frame_used k0 0 = true;
}.

Record cloned_upto (i : Z) (k : kernel) : Prop := {
  cu_kernel : k = with_phys (k_phys k) (with_mem (k_mem k) k0);
  cu_mem : forall q, outside_bitmap k0 q 4 -> q + 4 <= dst \/ dst + 0x1000 <= q -> load32 (k_mem k) q = load32 (k_mem k0) q;
  cu_rest : forall j, i <= j < 1024 -> load32 (k_mem k) (dst + 4 * j) = 0;
  cu_used : forall g, frame_range k0 g -> frame_used k0 g = true -> frame_used k g = true;
  cu_old : forall g x, frame_range k0 g -> frame_used k0 g = true -> 0 <= x < 0x1000 -> page_bytes k g x = page_bytes k0 g x;
  cu_copy : forall j, 0 <= j < i -> page_copy k (load32 (k_mem k0) (src + 4 * j)) (load32 (k_mem k) (dst + 4 * j));
  cu_apart : forall j j', 0 <= j < i -> 0 <= j' < i -> j <> j' -> let f := page_frame (load32 (k_mem k) (dst + 4 * j)) in
    f <> 0 -> f <> page_frame (load32 (k_mem k) (dst + 4 * j'));
  cu_free : frames_free k (mapped (k_mem k0) src i);
}.

Context (Hcl : cloneable).

Lemma cloned_start : (forall j, 0 <= j < 1024 -> load32 (k_mem k0) (dst + 4 * j) = 0) -> frames_free k0 (mapped (k_mem k0) src 0) -> cloned_upto 0 k0.
Proof. intros Hz Hf. split; try (intros; lia); try (intros; reflexivity); try assumption; [destruct k0; reflexivity | auto]. Qed.

Lemma cloned_globals i k : cloned_upto i k -> k_frames k = k_frames k0 /\ k_nframes k = k_nframes k0.
Proof. intros [Hk _ _ _ _ _ _ _]. rewrite Hk. split; reflexivity. Qed.

(** A copy stays one when another page is copied. *)
Lemma page_copy_kept k k' f w w' : page_copy k w w' -> frame_used k f = false -> frame_range k0 f ->
  (forall g, frame_range k0 g -> frame_used k' g = (f =? g) || frame_used k g) -> same_but (f * 0x1000) 0x1000 (k_phys k) (k_phys k') ->
  page_copy k' w w'.
Proof.
  intros [Hz|(H1 & H2 & H3 & H4 & H5 & H6)] Hf Hr Hu Hp; [now left|]. right. split_and!; try assumption.
  - rewrite Hu, H5 by exact H3. apply orb_true_r.
  - intros x Hx. rewrite <- H6 by exact Hx. unfold page_bytes. apply Hp. assert (page_frame w' <> f) by congruence. lia.
Qed.

(** The frame of a copy is one that was not in use, or the entry is empty. *)
Lemma page_copy_frame k w w' f : page_copy k w w' -> frame_used k f = false -> frame_used k 0 = true -> page_frame w' <> f.
Proof. intros [[_ ->]|(_ & _ & _ & _ & Hu & _)] Hf Hz <-; [change (page_frame 0) with 0 in Hf|]; congruence. Qed.

(** One more page is copied, into the frame [f]. *)
Lemma cloned_page i k k' f n : let w := load32 (k_mem k0) (src + 4 * i) in let w' := load32 (k_mem k') (dst + 4 * i) in
  0 <= i < 1024 -> cloned_upto i k -> page_frame w <> 0 -> mapped (k_mem k0) src (i + 1) = n -> frames_free k (S n) ->
  frame_range k0 f -> frame_used k f = false -> copied_entry w f w' -> (forall x, 0 <= x < 0x1000 -> page_bytes k' f x = page_bytes k (page_frame w) x) ->
  same_but (f * 0x1000) 0x1000 (k_phys k) (k_phys k') ->
  (forall q, outside_bitmap k0 q 4 -> q + 4 <= dst + 4 * i \/ dst + 4 * i + 4 <= q -> load32 (k_mem k') q = load32 (k_mem k) q) ->
  (forall x, frame_range k0 x -> frame_used k' x = (f =? x) || frame_used k x) -> k' = with_phys (k_phys k') (with_mem (k_mem k') k) ->
  cloned_upto (i + 1) k'.
Proof.
  cbv zeta. intros Hi Hc E0 Hn Hfree Hfr Hfu Hent Hby Hph Hq Hu Hk'. pose proof Hc as [Hk Hm Hrest Hus Hold Hcopy Hap _]. pose proof Hcl as [_ Hs Hd Hsd Hfs [Hz0 Hz]].
  destruct (cloned_globals i k Hc) as [Ef En]. destruct (Hfs i Hi E0) as [Hwr Hwu]. unfold outside_bitmap in Hd.
  assert (forall j, 0 <= j < 1024 -> j <> i -> load32 (k_mem k') (dst + 4 * j) = load32 (k_mem k) (dst + 4 * j)) as Hother
    by (intros j Hj Hne; apply Hq; [unfold outside_bitmap; lia | lia]).
  assert (frame_used k 0 = true) as Hz1 by (now apply Hus).
  assert (forall g x, frame_range k0 g -> frame_used k0 g = true -> 0 <= x < 0x1000 -> page_bytes k' g x = page_bytes k g x) as Hkeep.
  { intros g x Hg Hgu Hx. assert (f <> g) by (specialize (Hus g Hg Hgu); congruence). unfold page_bytes. apply Hph. lia. }
  assert (page_copy k' (load32 (k_mem k0) (src + 4 * i)) (load32 (k_mem k') (dst + 4 * i))) as Hnew.
  { right. pose proof (proj1 Hent) as Ew. rewrite Ew. split_and!; try assumption.
    - destruct (frame_used k0 f) eqn:Eu; [|reflexivity]. specialize (Hus f Hfr Eu). congruence.
    - rewrite Hu, Z.eqb_refl by exact Hfr. reflexivity.
    - intros x Hx. rewrite Hby by exact Hx. now apply Hold. }
  split.
  - exact (only_memory_trans _ _ _ Hk Hk').
  - intros q Hqo Hqd. rewrite Hq by (assumption || lia). now apply Hm.
  - intros j Hj. rewrite Hother by lia. apply Hrest. lia.
  - intros g Hg Hgu. rewrite Hu by exact Hg. rewrite (Hus g Hg Hgu). apply orb_true_r.
  - intros g x Hg Hgu Hx. rewrite Hkeep by assumption. now apply Hold.
  - intros j Hj. destruct (decide (j = i)) as [->|Hne]; [exact Hnew|]. rewrite Hother by lia.
    apply (page_copy_kept k k' f); [apply Hcopy; lia | exact Hfu | exact Hfr | exact Hu | exact Hph].
  - intros j j' Hj Hj' Hne. cbv zeta.
    assert (forall j, 0 <= j < i -> page_frame (load32 (k_mem k) (dst + 4 * j)) <> f) as Hnf
      by (intros q Hq'; exact (page_copy_frame k _ _ f (Hcopy q Hq') Hfu Hz1)).
    destruct (decide (j = i)) as [->|Hji].
    + rewrite (Hother j') by lia. intros _. rewrite (proj1 Hent). intros Heq. apply (Hnf j'); [lia | now symmetry].
    + rewrite (Hother j) by lia. intros Hf0. destruct (decide (j' = i)) as [->|Hji'].
      * rewrite (proj1 Hent). apply Hnf. lia.
      * rewrite (Hother j') by lia. apply Hap; (lia || assumption).
  - rewrite Hn. apply (frames_free_after k k' f); [| | |exact Hfree].
    + rewrite Hk'. reflexivity.
    + rewrite Hk'. reflexivity.
    + intros x Hx. apply Hu. unfold frame_range in *. now rewrite <- En.
Qed.

Lemma cloned_step i k : 0 <= i < 1024 -> cloned_upto i k ->
  exists k', clone_page (src + 4 * i) (dst + 4 * i) k = Ok k' /\ cloned_upto (i + 1) k'.
Proof.
  intros Hi Hc. pose proof Hc as [Hk Hm Hrest Hus Hold Hcopy Hap Hfree]. pose proof Hcl as [Hn Hs Hd Hsd Hfr Hz].
  destruct (cloned_globals i k Hc) as [Ef En]. specialize (Hfr i Hi). cbv zeta in Hfr. rewrite mapped_step in Hfree by exact Hi.
  unfold outside_bitmap in Hs, Hd.
  assert (load32 (k_mem k) (src + 4 * i) = load32 (k_mem k0) (src + 4 * i)) as Ew by (apply Hm; unfold outside_bitmap; lia).
  set (w := load32 (k_mem k0) (src + 4 * i)) in *. destruct (decide (page_frame w = 0)) as [E0|E0].
  - exists k. split; [unfold clone_page; rewrite Ew, E0; reflexivity|]. split; try assumption.
    + intros j Hj. apply Hrest. lia.
    + intros j Hj. destruct (decide (j = i)) as [->|]; [left; split; [exact E0 | apply Hrest; lia] | apply Hcopy; lia].
    + intros j j' Hj Hj' Hne f Hf0. subst f. destruct (decide (j = i)) as [->|]; [rewrite Hrest in Hf0 by lia; now destruct Hf0|].
      destruct (decide (j' = i)) as [->|]; [rewrite (Hrest i) by lia; exact Hf0 | apply Hap; lia || assumption].
  - destruct (Hfr E0) as [Hwr Hwu]. pose proof Hfree as (l & Hnd & Hl & Hff). destruct l as [|g l]; [cbn in Hl; lia|].
    apply Forall_cons in Hff as [[Hgr Hgu] _].
    assert (forall q n, outside_bitmap k q n <-> outside_bitmap k0 q n) as Ho by (intros q n; unfold outside_bitmap, bitmap_size; now rewrite Ef, En).
    assert (forall f, frame_range k f <-> frame_range k0 f) as Hr by (intros f; unfold frame_range; now rewrite En).
    destruct (clone_page_ok k (src + 4 * i) (dst + 4 * i) g) as (f & k' & E & Hfu & Hfrg & _ & Hent & Hby & Hph & Hq & Hu & Hk');
      [now rewrite En | apply Ho; unfold outside_bitmap; lia | apply Ho; unfold outside_bitmap; lia | lia | exact Hgr | exact Hgu |
       now rewrite Ew | rewrite Ew; now apply Hus | apply Hrest; lia |].
    rewrite Ew in Hent, Hby. apply Hr in Hfrg. assert (forall x, frame_range k0 x -> frame_used k' x = (f =? x) || frame_used k x) as Hu' by (intros x Hx; now apply Hu, Hr).
    exists k'. split; [exact E|].
    apply (cloned_page i k k' f (mapped (k_mem k0) src (i + 1))); try assumption; try reflexivity.
    intros q Hqo Hqd. apply Hq; [now apply Ho | lia].
Qed.

Lemma clone_loop : (forall j, 0 <= j < 1024 -> load32 (k_mem k0) (dst + 4 * j) = 0) -> frames_free k0 (mapped (k_mem k0) src 0) ->
  exists k', while 1024 (fun '(_, i) => i <? 1024)
      (fun '(k, i) => k ← clone_page (src + 4 * i) (dst + 4 * i) k; Ok (k, i + 1)) (k0, 0) = Ok (k', 1024) /\ cloned_upto 1024 k'.
Proof.
  intros Hz Hf.
  destruct (while_rule (fun st : kernel * Z => 0 <= st.2 <= 1024 /\ cloned_upto st.2 st.1) (fun st => Z.to_nat (1024 - st.2))
    (fun '(_, i) => i <? 1024) (fun '(k, i) => k ← clone_page (src + 4 * i) (dst + 4 * i) k; Ok (k, i + 1)) 1024 (k0, 0))
    as ([k i] & E & [Hi Hc] & Hd).
  - intros [k i] [Hi Hc] Hlt. cbn [fst snd] in *. apply Z.ltb_lt in Hlt. destruct (cloned_step i k ltac:(lia) Hc) as (k' & E & Hc').
    exists (k', i + 1). rewrite E, bind_ok. cbn [fst snd]. split_and!; [reflexivity | lia | lia | exact Hc' | lia].
  - cbn [fst snd]. split; [lia | now apply cloned_start].
  - cbn [snd]. lia.
  - cbn [fst snd] in *. apply Z.ltb_ge in Hd. replace i with 1024 in * by lia. exists k. auto.
Qed.

End CloneTable.

(** ** [clone_table]

    [k] is the kernel once the table is allocated, [k'] the result. *)
Record table_cloned (k : kernel) (src table : Z) (k' : kernel) : Prop := {
  tc_copy : forall j, 0 <= j < 1024 -> page_copy k k' (load32 (k_mem k) (src + 4 * j)) (load32 (k_mem k') (table + 4 * j));
  tc_apart : forall j j', 0 <= j < 1024 -> 0 <= j' < 1024 -> j <> j' -> let f := page_frame (load32 (k_mem k') (table + 4 * j)) in
    f <> 0 -> f <> page_frame (load32 (k_mem k') (table + 4 * j'));
  tc_used : forall g, frame_range k g -> frame_used k g = true -> frame_used k' g = true;
  tc_old : forall g x, frame_range k g -> frame_used k g = true -> 0 <= x < 0x1000 -> page_bytes k' g x = page_bytes k g x;
}.

(** The memory that is cleared before the loop holds neither the bitmap nor the
    source. *)
Lemma cleared_cloneable k src table : cloneable k src table -> outside_bitmap k table SIZEOF_page_directory ->
  src + 0x1000 <= table \/ table + SIZEOF_page_directory <= src ->
  let k2 := with_mem (memset (k_mem k) table 0 SIZEOF_page_directory) k in
  cloneable k2 src table /\ (forall g, frame_range k g -> frame_used k2 g = frame_used k g) /\
  (forall q, q + 4 <= table \/ table + SIZEOF_page_directory <= q -> load32 (k_mem k2) q = load32 (k_mem k) q) /\
  (forall j, 0 <= j < 1024 -> load32 (k_mem k2) (table + 4 * j) = 0).
Proof.
  cbv zeta. unfold SIZEOF_page_directory. intros [Hn Hs Hd Hsd Hf [Hz0 Hz]] Ho Hst.
  destruct (memset_spec (k_mem k) table 0 0x2004 ltac:(lia)) as [Hset Hfr]. set (m2 := memset _ _ _ _) in *. clearbody m2.
  assert (forall q, q + 4 <= table \/ table + 0x2004 <= q -> load32 m2 q = load32 (k_mem k) q) as Hq
    by (intros q Hq; apply (same_but_load32 _ _ _ _ _ Hfr); lia).
  assert (forall g, frame_range k g -> frame_used (with_mem m2 k) g = frame_used k g) as Hu.
  { intros g Hg. unfold frame_used. cbn [with_mem k_mem k_frames]. rewrite Hq; [reflexivity|]. unfold outside_bitmap, bitmap_size, frame_range in *. zlia. }
  split_and!; [| exact Hu | exact Hq |].
  - split; try assumption.
    + intros j Hj. cbv zeta. cbn [with_mem k_mem]. rewrite Hq by lia. intros Hj0. destruct (Hf j Hj Hj0) as [Hr Hju]. split; [exact Hr | now rewrite Hu].
    + split; [exact Hz0 | rewrite Hu; assumption].
  - intros j Hj. apply load32_zero. intros x Hx. replace x with (table + (x - table)) by lia. apply Hset. lia.
Qed.

Lemma clone_table_ok (fuel : nat) (src : Z) (k : kernel) (table phys : Z) (k1 : kernel) :
  kmalloc_ap fuel SIZEOF_page_table k = Ok (table, phys, k1) -> cloneable k1 src table ->
  outside_bitmap k1 table SIZEOF_page_directory -> src + 0x1000 <= table \/ table + SIZEOF_page_directory <= src ->
  frames_free k1 (mapped (k_mem k1) src 0) ->
  exists k', clone_table fuel src k = Ok (table, phys, k') /\ table_cloned k1 src table k' /\
    (forall q, outside_bitmap k1 q 4 -> q + 4 <= table \/ table + SIZEOF_page_directory <= q -> load32 (k_mem k') q = load32 (k_mem k1) q) /\
    k' = with_phys (k_phys k') (with_mem (k_mem k') k1).
Proof.
  intros Ha Hcl Ho Hst Hfree. destruct (cleared_cloneable k1 src table Hcl Ho Hst) as (Hcl2 & Hu & Hq & Hz). pose proof (cl_src _ _ _ Hcl) as Hs.
  unfold clone_table. rewrite Ha, bind_ok. cbv beta iota zeta. set (k2 := with_mem (memset (k_mem k1) table 0 SIZEOF_page_directory) k1) in *.
  assert (forall j, 0 <= j < 1024 -> load32 (k_mem k2) (src + 4 * j) = load32 (k_mem k1) (src + 4 * j)) as Hsrc by (intros j Hj; apply Hq; lia).
  assert (mapped (k_mem k2) src 0 = mapped (k_mem k1) src 0) as Emap
    by exact (mapped_same _ _ _ Hsrc).
  assert (frames_free k2 (mapped (k_mem k2) src 0)) as Hfree2.
  { rewrite Emap. destruct Hfree as (l & H1 & H2 & H3). exists l. split_and!; [exact H1 | exact H2 |].
    apply (Forall_impl _ _ _ H3). intros f [Hr Hf]. split; [exact Hr | rewrite Hu; assumption]. }
  destruct (clone_loop k2 src table Hcl2 Hz Hfree2) as (k' & E & [Hk Hm _ Hus Hold Hcopy Hap _]).
  rewrite E, bind_ok. exists k'. split; [reflexivity|]. split_and!.
  - split.
    + intros j Hj. specialize (Hcopy j Hj). rewrite Hsrc in Hcopy by exact Hj. destruct Hcopy as [Hc|(H1 & H2 & H3 & H4 & H5 & H6)]; [now left|].
      right. split_and!; try assumption. now rewrite Hu in H4.
    + exact Hap.
    + intros g Hg Hgu. apply Hus; [exact Hg | now rewrite Hu].
    + intros g x Hg Hgu Hx. apply Hold; [exact Hg | now rewrite Hu | exact Hx].
  - intros q Hqo Hqd. rewrite Hm; [now apply Hq | exact Hqo | unfold SIZEOF_page_directory in Hqd; lia].
  - exact (only_memory_trans k1 k2 k' eq_refl Hk).
Qed.

(** What is cloned stays when memory apart from the two tables and the bitmap
    is written. *)
Lemma table_cloned_kept k src table k' m p n : table_cloned k src table k' -> same_but p n (k_mem k') m ->
  k_frames k' = k_frames k -> k_nframes k' = k_nframes k -> outside_bitmap k p n -> p + n <= table \/ table + 0x1000 <= p ->
  table_cloned k src table (with_mem m k').
Proof.
  intros [H1 H2 H3 H4] Hs Ef En Ho Ht.
  assert (forall j, 0 <= j < 1024 -> load32 m (table + 4 * j) = load32 (k_mem k') (table + 4 * j)) as Hw
    by (intros j Hj; apply (same_but_load32 _ _ _ _ _ Hs); lia).
  assert (forall g, frame_range k g -> frame_used (with_mem m k') g = frame_used k' g) as Hu.
  { intros g Hg. unfold frame_used. cbn [with_mem k_mem k_frames]. rewrite (same_but_load32 _ _ _ _ _ Hs); [reflexivity|].
    unfold outside_bitmap, bitmap_size, frame_range in *. rewrite Ef. zlia. }
  split; cbn [with_mem k_mem].
  - intros j Hj. rewrite Hw by exact Hj. destruct (H1 j Hj) as [Hc|(C1 & C2 & C3 & C4 & C5 & C6)]; [now left|]. right. split_and!; try assumption.
    rewrite Hu; assumption.
  - intros j j' Hj Hj'. cbv zeta. rewrite !Hw by assumption. now apply H2.
  - intros g Hg Hgu. rewrite Hu by exact Hg. now apply H3.
  - exact H4.
Qed.

(** The copy, seen from an earlier kernel with the same frames and source. *)
Lemma table_cloned_base k0 k src table k' : table_cloned k src table k' -> k_nframes k = k_nframes k0 -> k_phys k = k_phys k0 ->
  (forall g, frame_range k0 g -> frame_used k g = frame_used k0 g) ->
  (forall j, 0 <= j < 1024 -> load32 (k_mem k) (src + 4 * j) = load32 (k_mem k0) (src + 4 * j)) -> table_cloned k0 src table k'.
Proof.
  intros [H1 H2 H3 H4] En Ep Hu Hw. assert (forall g, frame_range k g <-> frame_range k0 g) as Hr by (intros g; unfold frame_range; now rewrite En).
  assert (forall g x, page_bytes k g x = page_bytes k0 g x) as Hp by (intros g x; unfold page_bytes; now rewrite Ep).
  split.
  - intros j Hj. specialize (H1 j Hj). rewrite Hw in H1 by exact Hj. destruct H1 as [Hc|(C1 & C2 & C3 & C4 & C5 & C6)]; [now left|]. apply Hr in C3.
    right. split_and!; try assumption; [now rewrite <- Hu | intros x Hx; rewrite <- Hp; now apply C6].
  - exact H2.
  - intros g Hg Hgu. apply H3; [now apply Hr | now rewrite Hu].
  - intros g x Hg Hgu Hx. rewrite <- Hp. apply H4; [now apply Hr | now rewrite Hu | exact Hx].
Qed.

(** ** [clone_directory] *)

(** The entry [j] of [dir] is that of [src]. *)
Definition same_entry (m' m : mem) (dir src j : Z) : Prop :=
  dir_table m' dir j = dir_table m src j /\ dir_table_physical m' dir j = dir_table_physical m src j.

Definition no_entry (m : mem) (dir j : Z) : Prop := dir_table m dir j = 0 /\ dir_table_physical m dir j = 0.

(** A table that is not there, or is the kernel's. *)
Definition shared (k : kernel) (src j : Z) : Prop :=
  (dir_table (k_mem k) src j = 0 /\ dir_table_physical (k_mem k) src j = 0) \/
  (dir_table (k_mem k) src j <> 0 /\ dir_table (k_mem k) (k_kernel_directory k) j = dir_table (k_mem k) src j).

Lemma link_entry fuel src dir i k : 0 <= i < 1024 -> src + 0x2000 <= dir \/ dir + 0x2000 <= src -> shared k src i -> no_entry (k_mem k) dir i ->
  exists m, clone_dir_entry fuel src dir i k = Ok (with_mem m k) /\ same_but dir 0x2000 (k_mem k) m /\
    same_entry m (k_mem k) dir src i /\
    (forall j, 0 <= j < 1024 -> j <> i -> same_entry m (k_mem k) dir dir j).
Proof.
  intros Hi Hd Hs [Hz1 Hz2]. unfold clone_dir_entry. destruct Hs as [[Hs1 Hs2]|[Hs1 Hs2]].
  - rewrite Hs1. exists (k_mem k). unfold same_entry. rewrite Hz1, Hz2, Hs1, Hs2. rewrite with_mem_id. split_and!; [reflexivity | apply same_but_refl | auto..].
  - rewrite (proj2 (Z.eqb_neq _ _) Hs1), Hs2, Z.eqb_refl. unfold same_entry, dir_table, dir_table_physical in *. cbn [with_mem k_mem].
    rewrite load32_store32_ne by lia. eexists. split; [reflexivity|]. split_and!.
    + eapply same_but_trans; apply same_but_store32; lia.
    + rewrite load32_store32_ne, load32_store32_eq, u32_small by (lia || apply load32_range). reflexivity.
    + rewrite load32_store32_eq, u32_small by (lia || apply load32_range). reflexivity.
    + intros j Hj Hne. now rewrite !load32_store32_ne by lia.
Qed.

Lemma within_apart a n q b k : a + n <= b \/ b + k <= a -> a <= q -> q + 4 <= a + n -> q + 4 <= b \/ b + k <= q.
Proof. lia. Qed.

Lemma within_apart' a n q b k : b + k <= a \/ a + n <= b -> a <= q -> q + 4 <= a + n -> q + 4 <= b \/ b + k <= q.
Proof. lia. Qed.

(** The loop over a directory [src] of which one table, at [idx], is not the
    kernel's. *)
Section CloneDirectory.
Context (fuel : nat) (src dir idx : Z) (k0 : kernel).

Let t := dir_table (k_mem k0) src idx.
Let kd := k_kernel_directory k0.

(** The memory that the clone reads, or has written. *)
Definition clone_reads : list (Z * Z) :=
  [(src, SIZEOF_page_directory); (kd, 0x1000); (t, 0x1000); (k_frames k0, bitmap_size k0)].

(** The areas are apart from the new directory, and all but the last from the
    bitmap. *)
Record directory_ready : Prop := {
  dr_idx : 0 <= idx < 1024;
  dr_private : t <> 0 /\ dir_table (k_mem k0) kd idx <> t;
  dr_shared : forall j, 0 <= j < 1024 -> j <> idx -> shared k0 src j;
  dr_apart : Forall (fun p => dir + SIZEOF_page_directory <= p.1 \/ p.1 + p.2 <= dir) clone_reads;
  dr_bitmap : Forall (fun p => outside_bitmap k0 p.1 p.2) [(src, SIZEOF_page_directory); (kd, 0x1000); (t, 0x1000)];
  dr_nframes : 0 <= k_nframes k0 <= 0x100000;
  dr_frames : forall j, 0 <= j < 1024 -> let f := page_frame (load32 (k_mem k0) (t + 4 * j)) in
    f <> 0 -> frame_range k0 f /\ frame_used k0 f = true;
  dr_zero : frame_range k0 0 /\ frame_used k0 0 = true;
  dr_free : frames_free k0 (mapped (k_mem k0) t 0);
}.

(** What is asked of the allocator, when the memory of the new directory has
    been written: a chunk apart from what the clone reads. *)
Record table_ready (m : mem) (table : Z) (k : kernel) : Prop := {
  tr_table : 0 <= table < 0x100000000;
  tr_globals : k_frames k = k_frames k0 /\ k_nframes k = k_nframes k0 /\ k_kernel_directory k = kd /\ k_phys k = k_phys k0;
  tr_kept : Forall (fun p => same_on p.1 p.2 m (k_mem k)) ((dir, SIZEOF_page_directory) :: clone_reads);
  tr_apart : Forall (fun p => table + SIZEOF_page_directory <= p.1 \/ p.1 + p.2 <= table) ((dir, SIZEOF_page_directory) :: clone_reads);
}.

Definition gives_table : Prop :=
  forall m, same_but dir SIZEOF_page_directory (k_mem k0) m ->
    exists table phys k, kmalloc_ap fuel SIZEOF_page_table (with_mem m k0) = Ok (table, phys, k) /\ table_ready m table k.

Definition same_words (a n : Z) (m m' : mem) : Prop := forall q, a <= q -> q + 4 <= a + n -> load32 m' q = load32 m q.

Definition reads_kept (m : mem) : Prop := Forall (fun p => same_words p.1 p.2 (k_mem k0) m) [(src, SIZEOF_page_directory); (kd, 0x1000); (t, 0x1000)].

(** The state of the loop before entry [i]. *)
Record linking (i : Z) (k : kernel) : Prop := {
  li_globals : k_frames k = k_frames k0 /\ k_nframes k = k_nframes k0 /\ k_kernel_directory k = kd;
  li_reads : reads_kept (k_mem k);
  li_entries : forall j, 0 <= j < 1024 -> j <> idx -> if j <? i then same_entry (k_mem k) (k_mem k0) dir src j else no_entry (k_mem k) dir j;
  li_physical : dir_physicalAddr (k_mem k) dir = dir_physicalAddr (k_mem k0) dir;
  li_before : i <= idx -> k = with_mem (k_mem k) k0 /\ same_but dir 0x2000 (k_mem k0) (k_mem k);
  li_after : idx < i -> exists table phys, table_cloned k0 t table k /\ dir_table (k_mem k) dir idx = table /\
    dir_table_physical (k_mem k) dir idx = u32 (Z.lor phys 7) /\ (table + SIZEOF_page_directory <= dir \/ dir + SIZEOF_page_directory <= table);
}.

Context (Hd : directory_ready) (Ha : gives_table).

Lemma same_on_word a n m m' : same_on a n m m' -> same_words a n m m'.
Proof. intros H q H1 H2. unfold load32. now rewrite !H by lia. Qed.

Lemma reads_word m q a n : reads_kept m -> (a, n) ∈ [(src, SIZEOF_page_directory); (kd, 0x1000); (t, 0x1000)] -> a <= q -> q + 4 <= a + n ->
  load32 m q = load32 (k_mem k0) q.
Proof. unfold reads_kept. rewrite Forall_forall. intros H Hin. exact (H _ Hin q). Qed.

(** Writes to the new directory. *)
Lemma reads_dir m m' : reads_kept m -> same_but dir 0x2000 m m' -> reads_kept m'.
Proof.
  unfold reads_kept. rewrite !Forall_forall. intros H Hs p Hp q H1 H2. rewrite <- (H p Hp q H1 H2). apply (same_but_load32 _ _ _ _ _ Hs).
  pose proof (dr_apart Hd) as Hap. rewrite Forall_forall in Hap. assert (p ∈ clone_reads) as Hin.
  { unfold clone_reads. rewrite !elem_of_cons, elem_of_nil in *. tauto. }
  specialize (Hap p Hin). unfold SIZEOF_page_directory in Hap. lia.
Qed.

Lemma reads_shared k j : 0 <= j < 1024 -> k_kernel_directory k = kd -> reads_kept (k_mem k) -> shared k0 src j ->
  shared k src j /\ same_entry (k_mem k) (k_mem k0) src src j.
Proof.
  intros Hj Hk Hr Hs. unfold shared, same_entry, dir_table, dir_table_physical in *. rewrite Hk. fold kd in Hs.
  rewrite (reads_word _ (src + 4 * j) src SIZEOF_page_directory Hr), (reads_word _ (src + 0x1000 + 4 * j) src SIZEOF_page_directory Hr),
    (reads_word _ (kd + 4 * j) kd 0x1000 Hr) by (first [left | right; left | unfold SIZEOF_page_directory; lia]).
  auto.
Qed.

Lemma linking_step i k : 0 <= i < 1024 -> i <> idx -> linking i k ->
  exists k', clone_dir_entry fuel src dir i k = Ok k' /\ linking (i + 1) k'.
Proof.
  intros Hi Hne [(G1 & G2 & G3) Hr He Hph Hb Haf]. pose proof (dr_apart Hd) as Hap. apply Forall_cons in Hap as [Hsd _]. cbn [fst snd] in Hsd.
  unfold SIZEOF_page_directory in Hsd.
  destruct (reads_shared k i Hi G3 Hr (dr_shared Hd i Hi Hne)) as [Hsh Hse]. pose proof (He i Hi Hne) as Hz. rewrite Z.ltb_irrefl in Hz.
  destruct (link_entry fuel src dir i k Hi ltac:(lia) Hsh Hz) as (m & E & Hs & Hei & Heo). exists (with_mem m k). split; [exact E|].
  split; cbn [with_mem k_mem].
  - auto.
  - exact (reads_dir _ _ Hr Hs).
  - intros j Hj Hji. destruct (decide (j = i)) as [->|Hn].
    + replace (i <? i + 1) with true by lia. destruct Hei, Hse. split; congruence.
    + replace (j <? i + 1) with (j <? i) by lia. destruct (Heo j Hj Hn) as [E1 E2]. specialize (He j Hj Hji). unfold same_entry, no_entry in *.
      now rewrite E1, E2.
  - rewrite <- Hph. unfold dir_physicalAddr. apply (same_but_load32 _ _ _ _ _ Hs). lia.
  - intros Hle. destruct (Hb ltac:(lia)) as [Hk Hs0]. split; [rewrite Hk; reflexivity | exact (same_but_trans _ _ _ _ _ Hs0 Hs)].
  - intros Hlt. destruct (Haf ltac:(lia)) as (table & phys & Hc & H1 & H2 & H3). destruct (Heo idx (dr_idx Hd) ltac:(lia)) as [E1 E2].
    exists table, phys. rewrite E1, E2. split_and!; try assumption.
    pose proof (dr_apart Hd) as Hb2. unfold clone_reads in Hb2. rewrite !Forall_cons in Hb2. unfold SIZEOF_page_directory in *. cbn [fst snd] in Hb2.
    apply (table_cloned_kept k0 t table k m dir 0x2000); try assumption; [unfold outside_bitmap; lia | lia].
Qed.

(** The kernel with the new table in hand. *)
Lemma ready_clone m table k : same_but dir SIZEOF_page_directory (k_mem k0) m -> table_ready m table k ->
  cloneable k t table /\ outside_bitmap k table SIZEOF_page_directory /\ (t + 0x1000 <= table \/ table + SIZEOF_page_directory <= t) /\
  frames_free k (mapped (k_mem k) t 0) /\ reads_kept (k_mem k) /\
  (forall g, frame_range k0 g -> frame_used k g = frame_used k0 g) /\
  (forall j, 0 <= j < 1024 -> load32 (k_mem k) (t + 4 * j) = load32 (k_mem k0) (t + 4 * j)).
Proof.
  intros Hs [_ (G1 & G2 & G3 & G4) Hk Hap]. pose proof Hd as [_ _ _ Hda Hdb Hn Hf [Hz0 Hz] Hfree].
  assert (Forall (fun p => same_on p.1 p.2 (k_mem k0) (k_mem k)) clone_reads) as Hkeep.
  { apply Forall_cons in Hk as [_ Hk]. rewrite Forall_forall in *. intros p Hp x Hx. rewrite (Hk p Hp x Hx). apply Hs. specialize (Hda p Hp). lia. }
  unfold clone_reads in *. rewrite !Forall_cons in *. cbn [fst snd] in *. destruct Hkeep as (K1 & K2 & K3 & K4 & _), Hap as (_ & A1 & A2 & A3 & A4 & _).
  destruct Hdb as (B1 & B2 & B3 & _).
  assert (forall j, 0 <= j < 1024 -> load32 (k_mem k) (t + 4 * j) = load32 (k_mem k0) (t + 4 * j)) as Hw by (intros j Hj; apply (same_on_word _ _ _ _ K3); lia).
  assert (forall g, frame_range k0 g -> frame_used k g = frame_used k0 g) as Hu.
  { intros g Hg. unfold frame_used. rewrite G1. rewrite (same_on_word _ _ _ _ K4); [reflexivity | |]; unfold bitmap_size, frame_range in *; zlia. }
  assert (forall g, frame_range k g <-> frame_range k0 g) as Hr by (intros g; unfold frame_range; now rewrite G2).
  assert (forall q n, outside_bitmap k q n <-> outside_bitmap k0 q n) as Ho by (intros q n; unfold outside_bitmap, bitmap_size; now rewrite G1, G2).
  split_and!.
  - split.
    + now rewrite G2.
    + now apply Ho.
    + apply Ho. unfold outside_bitmap, SIZEOF_page_directory in *. lia.
    + unfold SIZEOF_page_directory in *. lia.
    + intros j Hj. cbv zeta. rewrite Hw by exact Hj. intros Hj0. destruct (Hf j Hj Hj0) as [F1 F2]. split; [now apply Hr | rewrite Hu; assumption].
    + split; [now apply Hr | rewrite Hu; assumption].
  - apply Ho. unfold outside_bitmap in *. lia.
  - lia.
  - rewrite (mapped_same _ _ _ Hw). destruct Hfree as (l & L1 & L2 & L3). exists l. split_and!; [exact L1 | exact L2 |].
    apply (Forall_impl _ _ _ L3). intros g [R U]. split; [now apply Hr | rewrite Hu; assumption].
  - unfold reads_kept. rewrite !Forall_cons. split_and!; try (apply same_on_word; assumption). constructor.
  - exact Hu.
  - exact Hw.
Qed.

Lemma linking_clone k : linking idx k -> exists k', clone_dir_entry fuel src dir idx k = Ok k' /\ linking (idx + 1) k'.
Proof.
  intros [G Hr He Hph Hb _]. pose proof Hd as [Hidx [Ht0 Htk] _ Hda Hdb _ _ _ _]. destruct (Hb ltac:(lia)) as [Hk Hs].
  assert (same_but dir SIZEOF_page_directory (k_mem k0) (k_mem k)) as Hs' by (intros x Hx; apply Hs; unfold SIZEOF_page_directory in Hx; lia).
  destruct (Ha (k_mem k) Hs') as (table & phys & k2 & E & Hrdy). rewrite <- Hk in E.
  destruct (ready_clone (k_mem k) table k2 Hs' Hrdy) as (Hcl & Ho & Hta & Hfree & Hr2 & Hu & Hw).
  destruct (clone_table_ok fuel t k table phys k2 E Hcl Ho Hta Hfree) as (k3 & Ec & Htc & Hq & Hk3).
  destruct Hrdy as [Htab (G1 & G2 & G3 & G4) Hkeep Hap]. destruct G as (_ & _ & Gk).
  assert (k_frames k3 = k_frames k0 /\ k_nframes k3 = k_nframes k0 /\ k_kernel_directory k3 = kd) as G' by (rewrite Hk3; auto).
  set (m := store32 (store32 (k_mem k3) (dir + 4 * idx) table) (dir + 0x1000 + 4 * idx) (Z.lor phys 7)).
  unfold clone_reads in Hda, Hap, Hkeep. rewrite !Forall_cons in Hda. rewrite !Forall_cons in Hdb. rewrite !Forall_cons in Hap. rewrite !Forall_cons in Hkeep. cbn [fst snd] in Hda, Hdb, Hap, Hkeep. unfold SIZEOF_page_directory in *.
  destruct Hda as (D1 & D2 & D3 & D4 & _), Hdb as (B1 & B2 & B3 & _), Hap as (A0 & A1 & A2 & A3 & A4 & _), Hkeep as (K0 & _).
  assert (forall q, outside_bitmap k2 q 4 <-> outside_bitmap k0 q 4) as Hob by (intros q; unfold outside_bitmap, bitmap_size; now rewrite G1, G2).
  assert (forall a n, outside_bitmap k0 a n -> table + 0x2004 <= a \/ a + n <= table -> same_words a n (k_mem k2) (k_mem k3)) as Hq'
    by (intros a n O A q Q1 Q2; apply Hq; [apply Hob; exact (within_apart _ _ _ _ _ O Q1 Q2) | exact (within_apart' _ _ _ _ _ A Q1 Q2)]).
  assert (same_but dir 0x2000 (k_mem k3) m) as Hm by (eapply same_but_trans; apply same_but_store32; lia).
  exists (with_mem m k3). split; [|split; cbn [with_mem k_mem]].
  - unfold clone_dir_entry, dir_table. rewrite Gk, (reads_word _ (src + 4 * idx) src 0x2004 Hr), (reads_word _ (kd + 4 * idx) kd 0x1000 Hr)
      by (first [left | right; left | lia]).
    change (load32 (k_mem k0) (src + 4 * idx)) with t. change (load32 (k_mem k0) (kd + 4 * idx)) with (dir_table (k_mem k0) kd idx).
    rewrite !(proj2 (Z.eqb_neq _ _)) by assumption. rewrite Ec, bind_ok. reflexivity.
  - exact G'.
  - apply (reads_dir (k_mem k3)); [|exact Hm]. unfold reads_kept in *. rewrite !Forall_cons in *. cbn [fst snd] in *. destruct Hr2 as (R1 & R2 & R3 & _).
    unfold SIZEOF_page_directory in *. split_and!; [| | | constructor]; intros q Hq1 Hq2.
    + rewrite (Hq' _ _ B1 A1 q Hq1 Hq2). now apply R1.
    + rewrite (Hq' _ _ B2 A2 q Hq1 Hq2). now apply R2.
    + rewrite (Hq' _ _ B3 A3 q Hq1 Hq2). now apply R3.
  - intros j Hj Hji. specialize (He j Hj Hji). replace (j <? idx + 1) with (j <? idx) by lia. unfold same_entry, no_entry, dir_table, dir_table_physical in *.
    assert (forall q, dir <= q -> q + 4 <= dir + 0x2000 -> load32 (k_mem k3) q = load32 (k_mem k) q) as Hd3.
    { intros q H1 H2. rewrite (Hq' dir 0x2004 D4 A0) by lia. apply (same_on_word _ _ _ _ K0); lia. }
    unfold m. rewrite !load32_store32_ne, !Hd3 by lia. exact He.
  - rewrite <- Hph. unfold dir_physicalAddr. rewrite (same_but_load32 _ _ _ _ _ Hm) by lia.
    rewrite (Hq' dir 0x2004 D4 A0) by lia. apply (same_on_word _ _ _ _ K0); lia.
  - lia.
  - intros _. exists table, phys. split_and!.
    + apply (table_cloned_kept k0 t table k3 m dir 0x2000); [| exact Hm | apply G' | apply G' | unfold outside_bitmap; lia | lia].
      exact (table_cloned_base k0 k2 t table k3 Htc G2 G4 Hu Hw).
    + unfold dir_table, m. rewrite load32_store32_ne, load32_store32_eq, u32_small by lia. reflexivity.
    + unfold dir_table_physical, m. now rewrite load32_store32_eq.
    + exact A0.
Qed.

Lemma linking_loop : (forall j, 0 <= j < 1024 -> no_entry (k_mem k0) dir j) ->
  exists k', while 1024 (fun '(_, i) => i <? 1024) (fun '(k, i) => k ← clone_dir_entry fuel src dir i k; Ok (k, i + 1)) (k0, 0) = Ok (k', 1024) /\
    linking 1024 k'.
Proof.
  intros Hz. pose proof (dr_idx Hd) as Hidx.
  destruct (while_rule (fun st : kernel * Z => 0 <= st.2 <= 1024 /\ linking st.2 st.1) (fun st => Z.to_nat (1024 - st.2))
    (fun '(_, i) => i <? 1024) (fun '(k, i) => k ← clone_dir_entry fuel src dir i k; Ok (k, i + 1)) 1024 (k0, 0)) as ([k i] & E & [Hi Hl] & Hc).
  - intros [k i] [Hi Hl] Hlt. cbn [fst snd] in *. apply Z.ltb_lt in Hlt.
    assert (exists k', clone_dir_entry fuel src dir i k = Ok k' /\ linking (i + 1) k') as (k' & E & Hl').
    { destruct (decide (i = idx)) as [->|Hne]; [now apply linking_clone | apply linking_step; (lia || assumption)]. }
    exists (k', i + 1). rewrite E, bind_ok. cbn [fst snd]. split_and!; [reflexivity | lia | lia | exact Hl' | lia].
  - cbn [fst snd]. split; [lia|]. split; try reflexivity.
    + split_and!; reflexivity.
    + unfold reads_kept. apply Forall_forall. intros p _ q _ _. reflexivity.
    + intros j Hj _. replace (j <? 0) with false by lia. now apply Hz.
    + intros _. rewrite with_mem_id. split; [reflexivity | apply same_but_refl].
    + lia.
  - cbn [snd]. lia.
  - cbn [fst snd] in *. apply Z.ltb_ge in Hc. replace i with 1024 in * by lia. exists k. auto.
Qed.

End CloneDirectory.

(** The new directory's own memory may be written before. *)
Lemma ready_written src dir idx k m : directory_ready src dir idx k -> same_but dir SIZEOF_page_directory (k_mem k) m ->
  dir_table m src idx = dir_table (k_mem k) src idx /\ directory_ready src dir idx (with_mem m k) /\
  (forall g, frame_range k g -> frame_used (with_mem m k) g = frame_used k g) /\ reads_kept src idx k m.
Proof.
  intros [Hi Hp Hsh Ha Hb Hn Hf [Hz0 Hz] Hfree] Hs. pose proof Ha as Ha'. pose proof Hi as Hi'. unfold clone_reads in Ha'.
  rewrite !Forall_cons in Ha'. cbn [fst snd] in Ha'. set (t := dir_table (k_mem k) src idx) in *.
  unfold SIZEOF_page_directory in Ha'. destruct Ha' as (D1 & D2 & D3 & D4 & _).
  assert (forall q, q + 4 <= dir \/ dir + 0x2004 <= q -> load32 m q = load32 (k_mem k) q) as Hq by (intros q Hq; apply (same_but_load32 _ _ _ _ _ Hs); exact Hq).
  assert (dir_table m src idx = t) as Et by (unfold dir_table; apply Hq; lia).
  assert (forall g, frame_range k g -> frame_used (with_mem m k) g = frame_used k g) as Hu.
  { intros g Hg. unfold frame_used. cbn [with_mem k_mem k_frames]. rewrite Hq; [reflexivity|]. unfold bitmap_size, frame_range in *. zlia. }
  split_and!; [exact Et | | exact Hu |].
  2:{ unfold reads_kept. rewrite !Forall_cons. cbn [fst snd]. unfold SIZEOF_page_directory.
      split_and!; [| | | constructor]; intros q H1 H2; apply Hq; fold t in H2; lia. }
  split; cbn [with_mem k_mem k_kernel_directory]; rewrite ?Et; try assumption.
  - destruct Hp as [Hp1 Hp2]. split; [exact Hp1|]. unfold dir_table in *. rewrite Hq by lia. exact Hp2.
  - intros j Hj Hne. specialize (Hsh j Hj Hne). unfold shared, dir_table, dir_table_physical in *. cbn [with_mem k_mem k_kernel_directory].
    now rewrite !Hq by lia.
  - unfold clone_reads. cbn [with_mem k_mem k_kernel_directory k_frames]. rewrite Et. exact Ha.
  - intros j Hj. cbv zeta. rewrite Hq by lia. intros Hj0. destruct (Hf j Hj Hj0) as [Hr Hju]. split; [exact Hr | now rewrite Hu].
  - split; [exact Hz0 | now rewrite Hu].
  - rewrite (mapped_same (k_mem k) m t) by (intros j Hj; apply Hq; lia).
    destruct Hfree as (l & L1 & L2 & L3). exists l. split_and!; [exact L1 | exact L2 |].
    apply (Forall_impl _ _ _ L3). intros g [R U]. split; [exact R | now rewrite Hu].
Qed.

(** C31: [clone_directory], when one table of the source is not the kernel's: the
    child's directory has the tables of the kernel, and in place of the other a
    table of its own.  Every page that is mapped there has in the child a frame
    that was free, no two the same, with the same bytes; the frames that were in
    use before, the parent's pages among them, keep theirs, and the parent's
    directory and table stay.  Asked for are frames for the pages, and of the
    allocator a chunk apart from what the clone reads, whatever has been
    written to the new directory. *)
Theorem clone_directory_copies (fuel : nat) (src dir idx phys : Z) (k k1 : kernel) :
  kmalloc_ap fuel SIZEOF_page_directory k = Ok (dir, phys, k1) ->
  directory_ready src dir idx k1 -> gives_table fuel src dir idx k1 ->
  exists table phys2 k', clone_directory fuel src k = Ok (dir, k') /\
    dir_physicalAddr (k_mem k') dir = u32 (phys + 0x1000) /\
    (forall j, 0 <= j < 1024 -> j <> idx -> same_entry (k_mem k') (k_mem k1) dir src j) /\
    dir_table (k_mem k') dir idx = table /\ dir_table_physical (k_mem k') dir idx = u32 (Z.lor phys2 7) /\
    table_cloned k1 (dir_table (k_mem k1) src idx) table k' /\ reads_kept src idx k1 (k_mem k').
Proof.
  intros Ea Hd Hg. unfold clone_directory. rewrite Ea, bind_ok. cbv beta iota zeta.
  destruct (memset_spec (k_mem k1) dir 0 SIZEOF_page_directory ltac:(unfold SIZEOF_page_directory; lia)) as [Hset Hfr].
  revert Hset Hfr. generalize (memset (k_mem k1) dir 0 SIZEOF_page_directory) as m2. intros m2 Hset Hfr. cbn [with_mem k_mem].
  set (m3 := store32 m2 (dir + 0x2000) _). 
  assert (same_but dir SIZEOF_page_directory (k_mem k1) m3) as Hs by (apply (same_but_trans _ _ _ m2); [exact Hfr | apply same_but_store32; unfold SIZEOF_page_directory; lia]).
  assert (forall j, 0 <= j < 1024 -> no_entry m3 dir j) as Hz.
  { intros j Hj. unfold no_entry, dir_table, dir_table_physical, m3. rewrite !load32_store32_ne by lia.
    split; apply load32_zero; intros x Hx; replace x with (dir + (x - dir)) by lia; apply Hset; unfold SIZEOF_page_directory; lia. }
  destruct (ready_written src dir idx k1 m3 Hd Hs) as (Et & Hd3 & Hu & Hkeep).
  assert (gives_table fuel src dir idx (with_mem m3 k1)) as Hg3.
  { intros m Hm. destruct (Hg m (same_but_trans _ _ _ _ _ Hs Hm)) as (table & p & k2 & E & [R1 R2 R3 R4]). exists table, p, k2. split; [exact E|].
    split; unfold clone_reads in *; cbn [with_mem k_mem k_phys k_frames k_nframes k_kernel_directory]; rewrite ?Et; assumption. }
  destruct (linking_loop fuel src dir idx (with_mem m3 k1) Hd3 Hg3 Hz) as (k' & E & [_ Hr He Hph _ Haf]).
  destruct (Haf ltac:(pose proof (dr_idx _ _ _ _ Hd); lia)) as (table & phys2 & Hc & H1 & H2 & _).
  cbn [with_mem k_mem] in *. rewrite Et in Hc. unfold reads_kept in Hkeep, Hr. cbn [with_mem k_mem k_kernel_directory] in Hr.
  rewrite Et in Hr. rewrite !Forall_cons in Hkeep. rewrite !Forall_cons in Hr. cbn [fst snd] in Hkeep, Hr. destruct Hkeep as (K1 & K2 & K3 & _), Hr as (R1 & R2 & R3 & _).
  exists table, phys2, k'. split_and!; try assumption.
  - change (with_mem m3 (with_mem m2 k1)) with (with_mem m3 k1). rewrite E, bind_ok. reflexivity.
  - rewrite Hph. unfold dir_physicalAddr, m3. rewrite load32_store32_eq, (u32_small (u32 _)) by apply u32_range.
    replace (dir + 0x1000 - dir) with 0x1000 by lia. reflexivity.
  - intros j Hj Hne. specialize (He j Hj Hne). replace (j <? 1024) with true in He by lia. unfold same_entry in *.
    destruct He as [-> ->]. unfold dir_table, dir_table_physical. rewrite !K1 by (unfold SIZEOF_page_directory; lia). split; reflexivity.
  - apply (table_cloned_base k1 (with_mem m3 k1)); [exact Hc | reflexivity | reflexivity | exact Hu |].
    intros j Hj. apply K3; lia.
  - unfold reads_kept. rewrite !Forall_cons. cbn [fst snd]. split_and!; [| | | constructor]; intros q Q1 Q2.
    + rewrite R1, K1 by assumption. reflexivity.
    + rewrite R2, K2 by assumption. reflexivity.
    + rewrite R3, K3 by assumption. reflexivity.
Qed.

(** A parent with the kernel's table at entry 0 and one of its own at 895, which
    maps two pages, to the frames 1 and 2. *)
Definition parent_mem : mem :=
  let m := store32 (store32 (store32 ∅ 0x1000 7) 0x10000 0x40000) 0x11000 0x40007 in
  let m := store32 (store32 (store32 m 0x20000 0x40000) 0x10DFC 0x30000) 0x11DFC 0x30007 in
  store32 (store32 m 0x3000C 0x1005) 0x3001C 0x2007.

Definition parent_kernel : kernel := mk_kernel parent_mem (store8 (store8 ∅ 0x1009 65) 0x2FFF 66) 0x100000 None 0x1000 64 0x20000 0x10000.

(** A word apart from those of a list. *)
Ltac apart_words := rewrite !Forall_cons; split_and!; (lia || constructor).

Lemma parent_word q :
  Forall (fun p => q + 4 <= p \/ p + 4 <= q) [0x1000; 0x10000; 0x11000; 0x20000; 0x10DFC; 0x11DFC; 0x3000C; 0x3001C] -> load32 parent_mem q = 0.
Proof.
  rewrite !Forall_cons. intros (H1 & H2 & H3 & H4 & H5 & H6 & H7 & H8 & _). unfold parent_mem. cbv zeta.
  rewrite !load32_store32_ne by tauto. apply load32_zero. reflexivity.
Qed.

Lemma parent_ready : directory_ready 0x10000 0x101000 895 (with_placement 0x103004 (with_placement 0x101000 parent_kernel)).
Proof.
  split.
  - lia.
  - vm_compute. split; discriminate.
  - intros j Hj Hne. unfold shared. cbn [with_placement k_mem k_kernel_directory parent_kernel]. destruct (decide (j = 0)) as [->|Hj0].
    + right. split; [vm_compute; discriminate | reflexivity].
    + left. unfold dir_table, dir_table_physical. rewrite !parent_word by apart_words. split; reflexivity.
  - apply (bool_decide_unpack _). vm_compute. exact I.
  - apply (bool_decide_unpack _). vm_compute. exact I.
  - vm_compute. split; discriminate.
  - change (dir_table _ 0x10000 895) with 0x30000. cbn [with_placement k_mem parent_kernel]. intros j Hj. cbv zeta.
    destruct (decide (j = 3)) as [->|H3]; [intros _; split; [split; [vm_compute; discriminate | reflexivity] | reflexivity]|].
    destruct (decide (j = 7)) as [->|H7]; [intros _; split; [split; [vm_compute; discriminate | reflexivity] | reflexivity]|].
    rewrite parent_word by apart_words. intros Hf. now destruct Hf.
  - split; [split; [lia | reflexivity] | reflexivity].
  - exists [3; 4]. split_and!; [apply (bool_decide_unpack _); vm_compute; exact I | | repeat constructor; lia].
    change (dir_table _ 0x10000 895) with 0x30000. apply (mapped_in _ _ [3; 7]). cbn [with_placement k_mem parent_kernel]. intros j Hj Hf.
    destruct (decide (j = 3)) as [->|H3]; [left|]. destruct (decide (j = 7)) as [->|H7]; [right; left|].
    rewrite parent_word in Hf by apart_words. now destruct Hf.
Qed.

Lemma parent_table : gives_table 0 0x10000 0x101000 895 (with_placement 0x103004 (with_placement 0x101000 parent_kernel)).
Proof.
  intros m _. exists 0x104000, 0x104000. eexists. split; [reflexivity|]. split.
  - lia.
  - split_and!; reflexivity.
  - apply Forall_forall. intros p _ x _. reflexivity.
  - apply (bool_decide_unpack _). vm_compute. exact I.
Qed.

(** The page at entry 3 is copied to a frame of the child's own. *)
Lemma clone_directory_copies_witness :
  exists k' table, clone_directory 0 0x10000 parent_kernel = Ok (0x101000, k') /\ dir_table (k_mem k') 0x101000 0 = 0x40000 /\
    dir_table (k_mem k') 0x101000 895 = table /\
    let f := page_frame (load32 (k_mem k') (table + 4 * 3)) in frame_used parent_kernel f = false /\ load8 (k_phys k') (f * 0x1000 + 9) = 65.
Proof.
  destruct (clone_directory_copies 0 0x10000 0x101000 895 0x101000 parent_kernel _ eq_refl parent_ready parent_table)
    as (table & phys2 & k' & E & _ & He & Ht & _ & [Hc _ _ _] & _).
  exists k', table. destruct (He 0 ltac:(lia) ltac:(lia)) as [E0 _]. pose proof (Hc 3 ltac:(lia)) as H3.
  replace (load32 _ (dir_table _ 0x10000 895 + 4 * 3)) with 0x1005 in H3 by (vm_compute; reflexivity). change (page_frame 0x1005) with 1 in H3.
  split; [exact E | split; [exact E0 | split; [exact Ht |]]]. cbv zeta.
  destruct H3 as [[H _]|(_ & _ & _ & Hf & _ & Hb)]; [discriminate H|]. split; [exact Hf | exact (Hb 9 ltac:(lia))].
Defined.
