(* ===== verification/IdentityMap.v ===== *)
(** * The identity map that initialise_paging sets up

    [translate] is the page walk of the processor, as it reads the tables
    while paging is still off.  After the identity loop of [initialise_paging]
    it maps every address up to a page past the memory in use to itself. *)

From S2P Require Import Prelude Memory Util OrderedArray Kernel Paging KHeap Directories.

(** The page walk: the directory entry by the upper ten bits, the page-table
    entry by the middle ten. *)
Definition translate (m : mem) (dir addr : Z) : option Z :=
  let pde := load32 m (dir + 0x1000 + 4 * (addr / 0x400000)) in
  if Z.testbit pde 0 then
    let pte := load32 m (Z.land pde 0xFFFFF000 + 4 * (addr / 0x1000 mod 1024)) in
    if page_present pte =? 1 then Some (page_frame pte * 0x1000 + addr mod 0x1000) else None
  else None.

(** The globals that [alloc_frame] leaves alone. *)
Definition same_globals (k k' : kernel) : Prop :=
  k_placement_address k' = k_placement_address k /\ k_kheap k' = k_kheap k /\ k_frames k' = k_frames k /\
  k_nframes k' = k_nframes k /\ k_kernel_directory k' = k_kernel_directory k.

Lemma alloc_frame_globals page a b k k' : alloc_frame page a b k = Ok k' -> same_globals k k'.
Proof.
  unfold alloc_frame, same_globals. destruct (negb _); [intros [= <-]; auto|].
  destruct (first_frame k) as [idx| | |]; try discriminate. cbn [mbind outcome_bind].
  destruct (idx =? u32 (-1)); [discriminate|]. intros [= <-]. repeat split.
Qed.

(** Where the next page-aligned chunk of the bump allocator starts. *)
Definition next_page (p : Z) : Z := p - p mod 0x1000 + 0x1000.

Lemma kmalloc_ap_early fuel sz k : k_kheap k = None -> 0x1000 <= k_placement_address k < 0xFFFFE000 -> 0 <= sz < 0x1001 ->
  kmalloc_ap fuel sz k =
  Ok (next_page (k_placement_address k), next_page (k_placement_address k),
      with_placement (next_page (k_placement_address k) + sz) (with_placement (next_page (k_placement_address k)) k)).
Proof.
  intros Hk Hp Hs. unfold kmalloc_ap, kmalloc_int. rewrite Hk. rewrite land_FFFFF000 by lia.
  set (p := k_placement_address k) in *.
  replace ((1 =? 1) && negb (p - p mod 0x1000 =? 0)) with true by (symmetry; apply andb_true_intro; split; [reflexivity|]; zlia).
  unfold next_page. pose proof (Z.mod_pos_bound p 0x1000 ltac:(lia)). rewrite (u32_small (p - p mod 0x1000 + 0x1000)) by lia.
  cbn [k_placement_address with_placement mbind outcome_bind fst snd default]. rewrite u32_small by lia. reflexivity.
Qed.

(** The entry [alloc_frame(page, 0, 0)] writes for frame [f] into an empty one. *)
Definition mapped_entry (f : Z) : Z := u32 (page_entry 0 f 0 0).

Lemma mapped_entry_fields f : 0 <= f < 0x100000 ->
  page_frame (mapped_entry f) = f /\ page_present (mapped_entry f) = 1 /\ page_rw (mapped_entry f) = 0 /\ page_user (mapped_entry f) = 1.
Proof. intros Hf. destruct (page_entry_fields 0 f 0 0 Hf) as (H1 & H2 & H3 & H4 & _). auto. Qed.

(** ** Making a table *)

Lemma lor_7_bound t : 0 <= t < 0x100000000 -> 0 <= Z.lor t 7 < 0x100000000.
Proof.
  intros Ht. assert (0 <= Z.lor t 7) by (apply Z.lor_nonneg; lia). split; [lia|].
  destruct (Z.eq_dec (Z.lor t 7) 0); [lia|]. change 0x100000000 with (2 ^ 32). apply Z.log2_lt_pow2; [lia|].
  rewrite Z.log2_lor by lia. apply Z.max_lub_lt; [|reflexivity].
  destruct (Z.eq_dec t 0) as [->|]; [reflexivity | apply Z.log2_lt_pow2; lia].
Qed.

(** The state after a table at [t] was entered in the directory at [idx]. *)
Definition with_table (dir idx t : Z) (k : kernel) : kernel :=
  with_mem (store32 (store32 (k_mem k) (dir + 4 * idx) t) (dir + 0x1000 + 4 * idx) (Z.lor t 7))
    (with_placement (t + 0x1000) k).

Lemma with_table_entries dir idx t k : 0 <= idx < 1024 -> 0 <= t < 0x100000000 ->
  dir_table (k_mem (with_table dir idx t k)) dir idx = t /\ dir_table_physical (k_mem (with_table dir idx t k)) dir idx = Z.lor t 7.
Proof.
  intros Hi Ht. pose proof (lor_7_bound t Ht). unfold with_table, dir_table, dir_table_physical. cbn [with_mem k_mem].
  rewrite load32_store32_ne, !load32_store32_eq, !u32_small by lia. auto.
Qed.

Lemma with_table_elsewhere dir idx t k q :
  q + 4 <= dir + 4 * idx \/ dir + 4 * idx + 4 <= q -> q + 4 <= dir + 0x1000 + 4 * idx \/ dir + 0x1000 + 4 * idx + 4 <= q ->
  load32 (k_mem (with_table dir idx t k)) q = load32 (k_mem k) q.
Proof. intros H1 H2. unfold with_table. cbn [with_mem k_mem]. rewrite !load32_store32_ne by lia. reflexivity. Qed.

(** Before the heap exists a missing table is made on the next page. *)
Lemma make_table fuel a dir k :
  k_kheap k = None -> 0x1000 <= k_placement_address k < 0xFFFFE000 -> 0 <= a < 0x100000000 ->
  dir_table (k_mem k) dir (a / 0x400000) = 0 ->
  let t := next_page (k_placement_address k) in
  get_page_ptr_in_page_table (kmalloc_ap fuel) a 1 dir k =
    Ok (t + 4 * (a / 0x1000 mod 1024), with_table dir (a / 0x400000) t k).
Proof.
  intros Hk Hp Ha Hz t. unfold get_page_ptr_in_page_table. rewrite Z.div_div by lia. change (0x1000 * 1024) with 0x400000.
  rewrite Hz. cbn [Z.eqb negb]. rewrite kmalloc_ap_early by (assumption || (unfold SIZEOF_page_table; lia)). fold t. rewrite bind_ok.
  cbv beta iota zeta. unfold SIZEOF_page_table.
  change (with_mem _ (with_mem _ _)) with (with_table dir (a / 0x400000) t k).
  destruct (with_table_entries dir (a / 0x400000) t k) as [-> _]; [zlia | subst t; unfold next_page; zlia | reflexivity].
Qed.

(** ** Pages mapped in a row

    From [k0], whose table [tbl] is empty and whose frames below [first] are
    the ones in use: the first [j] entries of the table hold the frames from
    [first] on. *)

Section Window.
Context (fuel : nat) (k0 : kernel) (tbl first : Z).
Context (Htbl : outside_bitmap k0 tbl 0x1000) (Hmax : 0 <= k_nframes k0 <= 0x100000).

Record window (j : Z) (k : kernel) : Prop := {
  wn_globals : same_globals k0 k;
  wn_rest : forall q, outside_bitmap k0 q 4 -> q + 4 <= tbl \/ tbl + 0x1000 <= q -> load32 (k_mem k) q = load32 (k_mem k0) q;
  wn_entries : forall p, 0 <= p < 1024 -> load32 (k_mem k) (tbl + 4 * p) = if p <? j then mapped_entry (first + p) else 0;
  wn_used : forall f, frame_range k0 f -> frame_used k f = (f <? first + j);
}.

Lemma window_start : (forall p, 0 <= p < 1024 -> load32 (k_mem k0) (tbl + 4 * p) = 0) ->
  (forall f, frame_range k0 f -> frame_used k0 f = (f <? first)) -> window 0 k0.
Proof.
  intros Hz Hu. split; [repeat split | reflexivity | |].
  - intros p Hp. replace (p <? 0) with false by lia. now apply Hz.
  - intros f Hf. rewrite Z.add_0_r. now apply Hu.
Qed.

Lemma window_alloc j k : 0 <= j < 1024 -> frame_range k0 (first + j) -> window j k ->
  exists k', alloc_frame (tbl + 4 * j) 0 0 k = Ok k' /\ window (j + 1) k'.
Proof.
  intros Hj Hr0 [(G1 & G2 & G3 & G4 & G5) Hrest He Hu].
  assert (load32 (k_mem k) (tbl + 4 * j) = 0) as Hz by (rewrite He by lia; now replace (j <? j) with false by lia).
  unfold outside_bitmap, bitmap_size, frame_range in *.
  destruct (alloc_frame_spec k (tbl + 4 * j) 0 0 (first + j)) as (idx & k' & E & Hr & Hfree & Hleast & Hw & Hused & Hoth & Hf' & Hn' & _);
    unfold outside_bitmap, bitmap_size, frame_range in *; rewrite ?G3, ?G4 in *; try assumption; try lia.
  - rewrite Hz. reflexivity.
  - rewrite Hu by lia. lia.
  - assert (idx = first + j) as ->.
    { rewrite Hu in Hfree by exact Hr. destruct (Z.lt_total idx (first + j)) as [?|[?|?]]; [lia | assumption |].
      specialize (Hleast (first + j) ltac:(lia)). rewrite Hu in Hleast by lia. lia. }
    destruct (alloc_frame_globals _ _ _ _ _ E) as (F1 & F2 & F3 & F4 & F5). exists k'. split; [exact E|]. split.
    + repeat split; congruence.
    + intros q H1 H2. unfold outside_bitmap, bitmap_size in H1. rewrite Hoth by lia. now apply Hrest.
    + intros p Hpr. destruct (Z.eq_dec p j) as [->|Hne].
      * rewrite Hw, Hz. replace (j <? j + 1) with true by lia. reflexivity.
      * rewrite Hoth, He by lia. replace (p <? j + 1) with (p <? j) by lia. reflexivity.
    + intros f Hfr. unfold frame_range in Hfr. rewrite Hused, Hu by exact Hfr. lia.
Qed.

(** The page of address [a], whose table is [tbl]. *)
Lemma window_step j k a : 0 <= j < 1024 -> frame_range k0 (first + j) -> tbl <> 0 ->
  let w := k_kernel_directory k0 + 4 * (a / 0x400000) in
  outside_bitmap k0 w 4 -> w + 4 <= tbl \/ tbl + 0x1000 <= w -> load32 (k_mem k0) w = tbl -> a / 0x1000 mod 1024 = j -> window j k ->
  exists k', map_page fuel 0 0 a k = Ok k' /\ window (j + 1) k'.
Proof.
  cbv zeta. intros Hj Hr Ht Hw1 Hw2 Hw <- H. destruct (wn_globals _ _ H) as (_ & _ & _ & _ & G5).
  unfold map_page, get_page_ptr_in_page_table, dir_table. rewrite Z.div_div by lia. change (0x1000 * 1024) with 0x400000.
  rewrite G5, (wn_rest _ _ H), Hw by assumption. rewrite (proj2 (Z.eqb_neq _ _) Ht). cbn [negb mbind outcome_bind fst snd].
  now apply window_alloc.
Qed.

(** A loop over the pages of [tbl], up to page [J]. *)
Lemma window_loop (c : kernel * Z -> bool) (base J : Z) (d : nat) :
  let w := k_kernel_directory k0 + 4 * (base / 0x400000) in
  base mod 0x400000 = 0 -> J <= 1024 -> frame_range k0 (first + J - 1) -> 0 <= first -> tbl <> 0 ->
  outside_bitmap k0 w 4 -> w + 4 <= tbl \/ tbl + 0x1000 <= w -> load32 (k_mem k0) w = tbl ->
  (forall k j, window j k -> 0 <= j -> c (k, base + j * 0x1000) = (j <? J)) ->
  forall n j k, window j k -> 0 <= j -> j + Z.of_nat d = J -> (d <= n)%nat ->
  exists k', while n c (fun '(k, i) => k ← map_page fuel 0 0 i k; Ok (k, i + 0x1000)) (k, base + j * 0x1000) = Ok (k', base + J * 0x1000) /\
    window J k'.
Proof.
  cbv zeta. intros Hbase HJ Hr Hfirst Ht Hw1 Hw2 Hw Hc.
  induction d as [|d IH]; intros n j k H Hj Hd Hn.
  - exists k. replace j with J in * by lia. split; [|exact H]. apply while_done. rewrite Hc by (assumption || lia). lia.
  - destruct n as [|n]; [lia|]. unfold frame_range in *.
    destruct (window_step j k (base + j * 0x1000)) as (k1 & E1 & H1); try assumption; unfold frame_range;
      try (replace ((base + j * 0x1000) / 0x400000) with (base / 0x400000) by zlia; assumption); [lia | lia | zlia |].
    destruct (IH n (j + 1) k1 H1) as (k' & E & H'); [lia | lia | lia |]. exists k'. split; [|exact H'].
    rewrite <- E. replace (base + (j + 1) * 0x1000) with (base + j * 0x1000 + 0x1000) by lia.
    apply while_step; [rewrite Hc by (assumption || lia); lia|]. rewrite E1. reflexivity.
Qed.

End Window.

(** How the processor sees pages mapped in a row. *)
Lemma translate_window m dir tbl first base J addr :
  tbl mod 0x1000 = 0 -> 0 <= tbl < 0x100000000 -> base mod 0x400000 = 0 ->
  dir_table_physical m dir (base / 0x400000) = Z.lor tbl 7 ->
  (forall p, 0 <= p < J -> load32 m (tbl + 4 * p) = mapped_entry (first + p)) ->
  0 <= first -> first + J <= 0x100000 -> J <= 1024 -> base <= addr < base + J * 0x1000 ->
  translate m dir addr = Some (first * 0x1000 + (addr - base)).
Proof.
  intros Ha Ht Hb Hp He Hf HJ HJ' Hr. unfold translate, dir_table_physical in *.
  replace (addr / 0x400000) with (base / 0x400000) by zlia. rewrite Hp, Z.lor_spec. change (Z.testbit 7 0) with true. rewrite orb_true_r.
  assert (Z.land (Z.lor tbl 7) 0xFFFFF000 = tbl) as ->.
  { rewrite Z.land_lor_distr_l. change (Z.land 7 0xFFFFF000) with 0. rewrite Z.lor_0_r, land_FFFFF000 by lia. lia. }
  replace (addr / 0x1000 mod 1024) with ((addr - base) / 0x1000) by zlia. rewrite He by zlia.
  destruct (mapped_entry_fields (first + (addr - base) / 0x1000)) as (H1 & H2 & _); [zlia|]. rewrite H1, H2. cbn [Z.eqb Pos.eqb].
  f_equal. zlia.
Qed.

(** ** The identity loop

    The first turn makes the table of the first four megabytes; with it the
    loop maps the pages up to one behind the memory in use. *)
Lemma identity_map_spec (fuel n : nat) (k : kernel) :
  let p := k_placement_address k in
  let dir := k_kernel_directory k in
  let table := next_page p in
  let k0 := with_table dir 0 table k in
  k_kheap k = None -> 0x1000 <= p < 0x3FD000 -> k_frames k + bitmap_size k <= p -> dir + 0x2004 <= p ->
  outside_bitmap k dir 0x2004 -> 1024 <= 32 * (k_nframes k / 32) -> k_nframes k <= 0x100000 ->
  (forall f, frame_range k f -> frame_used k f = false) -> (forall q, 0 <= q < 1024 -> load32 (k_mem k) (table + 4 * q) = 0) ->
  dir_table (k_mem k) dir 0 = 0 -> (1024 <= n)%nat ->
  exists k', identity_map fuel n k = Ok k' /\ window k0 table 0 (table / 0x1000 + 2) k'.
Proof.
  cbv zeta. intros Hk Hp Hf Hd Ho Hn Hmax Hfree Hzero Ht Hfuel.
  set (p := k_placement_address k) in *. set (dir := k_kernel_directory k) in *.
  assert (p < next_page p <= p + 0x1000 /\ next_page p mod 0x1000 = 0) as [Htab Hal] by (unfold next_page; zlia).
  pose proof (make_table fuel 0 dir k Hk ltac:(fold p; lia) ltac:(lia) Ht) as Emake. cbv zeta in Emake. fold p in Emake.
  change (0 / 0x400000) with 0 in Emake. change (0 / 0x1000 mod 1024) with 0 in Emake.
  set (table := next_page p) in *. set (k0 := with_table dir 0 table k) in *.
  destruct (with_table_entries dir 0 table k ltac:(lia) ltac:(lia)) as [Et _]. fold k0 in Et. unfold dir_table in Et.
  assert (outside_bitmap k0 table 0x1000) as Hout by (right; change (k_frames k0) with (k_frames k); change (bitmap_size k0) with (bitmap_size k); lia).
  unfold outside_bitmap, bitmap_size in Ho, Hf.
  assert (window k0 table 0 0 k0) as H0.
  { apply window_start.
    - intros q Hq. unfold k0. rewrite with_table_elsewhere by lia. apply Hzero, Hq.
    - intros f Hfr. change (frame_range k f) in Hfr. specialize (Hfree f Hfr). unfold frame_range in Hfr. unfold frame_used in *.
      change (k_frames k0) with (k_frames k). unfold k0. rewrite with_table_elsewhere by zlia. rewrite Hfree. lia. }
  destruct n as [|n]; [lia|].
  assert (frame_range k0 0 /\ frame_range k0 (0 + (table / 0x1000 + 2) - 1)) as [Hr0 Hr1]
    by (unfold frame_range; change (k_nframes k0) with (k_nframes k); zlia).
  assert (0 <= k_nframes k0 <= 0x100000) as Hmax0 by (change (k_nframes k0) with (k_nframes k); zlia).
  destruct (window_alloc k0 table 0 Hout Hmax0 0 k0 ltac:(lia) Hr0 H0) as (k1 & E1 & H1).
  destruct (window_loop fuel k0 table 0 Hout Hmax0 (fun '(k, i) => i <? u32 (k_placement_address k + 0x1000)) 0 (table / 0x1000 + 2)
    (Z.to_nat (table / 0x1000 + 1))) with (n := n) (j := 1) (k := k1) as (k' & E & H'); try assumption; try lia; try zlia.
  - change (k_kernel_directory k0) with dir. change (0 / 0x400000) with 0. unfold outside_bitmap, bitmap_size.
    change (k_frames k0) with (k_frames k). change (k_nframes k0) with (k_nframes k). lia.
  - change (k_kernel_directory k0) with dir. change (0 / 0x400000) with 0. lia.
  - intros k2 j H2 Hj. destruct (wn_globals _ _ _ _ _ H2) as (-> & _). change (k_placement_address k0) with (table + 0x1000).
    rewrite u32_small by lia. zlia.
  - exists k'. split; [|exact H']. unfold identity_map.
    erewrite while_step; [| apply Z.ltb_lt; fold p; rewrite u32_small by lia; lia |].
    2: { unfold map_page. fold dir. rewrite Emake, bind_ok. cbn [fst snd]. rewrite Z.mul_0_r, Z.add_0_r in E1 |- *. rewrite E1, bind_ok. reflexivity. }
    change (0 + 0x1000) with (0 + 1 * 0x1000). rewrite E. reflexivity.
Qed.

(** The identity loop of [initialise_paging], before the heap exists, with all
    frames free, zeroed memory ahead of the bump allocator, and the memory in
    use below four megabytes: it ends, although the memory in use grows while
    it runs, and every address up to a page past the memory in use is
    translated to itself. *)
Theorem identity_map_is_identity (fuel n : nat) (k : kernel) :
  let p := k_placement_address k in
  let dir := k_kernel_directory k in
  k_kheap k = None -> 0x1000 <= p < 0x3FD000 -> k_frames k + bitmap_size k <= p -> dir + 0x2004 <= p ->
  outside_bitmap k dir 0x2004 -> 1024 <= 32 * (k_nframes k / 32) -> k_nframes k <= 0x100000 ->
  (forall f, frame_range k f -> frame_used k f = false) -> (forall q, p <= q < p + 0x2000 -> load8 (k_mem k) q = 0) ->
  dir_table (k_mem k) dir 0 = 0 -> (1024 <= n)%nat ->
  exists k', identity_map fuel n k = Ok k' /\ k_placement_address k' = next_page p + 0x1000 /\
    forall addr, 0 <= addr < k_placement_address k' + 0x1000 -> translate (k_mem k') dir addr = Some addr.
Proof.
  cbv zeta. intros Hk Hp Hf Hd Ho Hn Hmax Hfree Hzero Ht Hfuel.
  destruct (identity_map_spec fuel n k Hk Hp Hf Hd Ho Hn Hmax Hfree) as (k' & E & H'); [| exact Ht | exact Hfuel |].
  { intros q Hq. apply load32_zero. intros x Hx. apply Hzero. unfold next_page in Hx. zlia. }
  exists k'. split; [exact E|].
  set (p := k_placement_address k) in *. set (dir := k_kernel_directory k) in *. unfold outside_bitmap, bitmap_size in *.
  assert (p < next_page p <= p + 0x1000 /\ next_page p mod 0x1000 = 0) as [Htab Hal] by (unfold next_page; zlia).
  set (table := next_page p) in *. destruct (wn_globals _ _ _ _ _ H') as (Hpl & _).
  split; [exact Hpl|]. intros addr Hr. rewrite Hpl in Hr. change (k_placement_address _) with (table + 0x1000) in Hr.
  rewrite (translate_window _ dir table 0 0 (table / 0x1000 + 2)); try assumption; try lia; try zlia.
  - f_equal. lia.
  - change (0 / 0x400000) with 0. destruct (with_table_entries dir 0 table k ltac:(lia) ltac:(lia)) as [_ Eph].
    rewrite <- Eph. apply (wn_rest _ _ _ _ _ H').
    + unfold outside_bitmap, bitmap_size. change (k_frames (with_table _ _ _ _)) with (k_frames k). change (k_nframes (with_table _ _ _ _)) with (k_nframes k). lia.
    + lia.
  - intros q Hq. rewrite (wn_entries _ _ _ _ _ H') by zlia. now replace (q <? table / 0x1000 + 2) with true by lia.
Qed.

(** Memory in use up to 0x3000: the bitmap of 1024 frames and the directory. *)
Definition boot_kernel : kernel := mk_kernel ∅ ∅ 0x3000 None 0x200 1024 0x900 0.

Lemma identity_map_is_identity_witness :
  exists k', identity_map 0 1024 boot_kernel = Ok k' /\ translate (k_mem k') 0x900 0x5123 = Some 0x5123.
Proof.
  destruct (identity_map_is_identity 0 1024 boot_kernel) as (k' & E & Hp & H);
    [reflexivity | unfold boot_kernel; simpl; lia | vm_compute; discriminate | unfold boot_kernel; simpl; lia | right; vm_compute; discriminate | vm_compute; discriminate | unfold boot_kernel; simpl; lia | | | reflexivity | lia |].
  - intros f _. unfold frame_used, boot_kernel. cbn [k_mem k_frames]. replace (load32 ∅ _) with 0 by reflexivity. apply Z.testbit_0_l.
  - intros q _. reflexivity.
  - exists k'. split; [exact E|]. apply H. rewrite Hp. split; [discriminate | reflexivity].
Defined.
