(* ===== verification/PagingStart.v ===== *)
(** * initialise_paging, from the first call to the switch

    The steps of [initialise_paging] put together: the bitmap and the directory
    from the bump allocator, the table of the heap, the identity map, the
    heap's frames, the heap, and the copy of the directory that is made on it.
    [tables] says what a directory maps after them. *)

From S2P Require Import Prelude Memory Util OrderedArray Kernel Paging KHeap KHeapInv KHeapAlign HeapSafety HeapProps.
From S2P Require Import Directories CloneHeap IdentityMap.

(** ** The bump allocator *)

Lemma kmalloc_early fuel sz k : k_kheap k = None -> 0 <= k_placement_address k -> 0 <= sz ->
  k_placement_address k + sz < 0x100000000 ->
  kmalloc fuel sz k = Ok (k_placement_address k, with_placement (k_placement_address k + sz) k).
Proof. intros Hk Hp Hs Hb. unfold kmalloc, kmalloc_int. rewrite Hk. cbn [Z.eqb andb]. rewrite u32_small by lia. reflexivity. Qed.

Lemma kmalloc_a_early fuel sz k : k_kheap k = None -> 0x1000 <= k_placement_address k -> 0 <= sz ->
  k_placement_address k + 0x1000 + sz < 0x100000000 ->
  kmalloc_a fuel sz k = Ok (next_page (k_placement_address k), with_placement (next_page (k_placement_address k) + sz) k).
Proof.
  intros Hk Hp Hs Hb. unfold kmalloc_a, kmalloc_int. rewrite Hk. set (p := k_placement_address k) in *.
  rewrite land_FFFFF000 by lia. replace ((1 =? 1) && negb (p - p mod 0x1000 =? 0)) with true
    by (symmetry; apply andb_true_intro; split; [reflexivity | zlia]).
  cbn [with_placement k_placement_address mbind outcome_bind fst snd]. unfold next_page. rewrite !u32_small by zlia. reflexivity.
Qed.

(** ** The table of the heap *)

Lemma for_heap_tables fuel k :
  let dir := k_kernel_directory k in
  k_kheap k = None -> 0x1000 <= k_placement_address k < 0xFFFFE000 -> dir_table (k_mem k) dir 768 = 0 ->
  for_heap_pages (fun i k => r ← get_page_ptr_in_page_table (kmalloc_ap fuel) i 1 (k_kernel_directory k) k; Ok r.2) k =
    Ok (with_table dir 768 (next_page (k_placement_address k)) k).
Proof.
  cbv zeta. intros Hk Hp Hz. unfold for_heap_pages. change (Z.to_nat (KHEAP_INITIAL_SIZE / 0x1000)) with (S 255).
  pose proof (make_table fuel KHEAP_START (k_kernel_directory k) k Hk Hp ltac:(unfold KHEAP_START; lia) Hz) as E. cbv zeta in E.
  change (KHEAP_START / 0x400000) with 768 in E. set (k1 := with_table _ _ _ _) in *.
  erewrite while_step; [|reflexivity | rewrite E, bind_ok, bind_ok; reflexivity]. cbn [snd].
  destruct (while_rule (fun st : kernel * Z => st.1 = k1 /\ KHEAP_START + 0x1000 <= st.2 <= KHEAP_START + KHEAP_INITIAL_SIZE /\ st.2 mod 0x1000 = 0)
    (fun st => Z.to_nat ((KHEAP_START + KHEAP_INITIAL_SIZE - st.2) / 0x1000))
    (fun '(_, i) => i <? KHEAP_START + KHEAP_INITIAL_SIZE)
    (fun '(k, i) => k ← (r ← get_page_ptr_in_page_table (kmalloc_ap fuel) i 1 (k_kernel_directory k) k; Ok r.2); Ok (k, i + 0x1000))
    255 (k1, KHEAP_START + 0x1000)) as ([k' i'] & Ew & (Hk' & _) & _); unfold KHEAP_START, KHEAP_INITIAL_SIZE in *.
  - intros [k2 i] (Hk2 & Hi & Hm) Hc. cbn [fst snd] in Hk2, Hi, Hm. subst k2. apply Z.ltb_lt in Hc.
    unfold get_page_ptr_in_page_table. rewrite Z.div_div by lia. change (0x1000 * 1024) with 0x400000.
    replace (i / 0x400000) with 768 by zlia. change (k_kernel_directory k1) with (k_kernel_directory k).
    destruct (with_table_entries (k_kernel_directory k) 768 (next_page (k_placement_address k)) k) as [Et _];
      [lia | unfold next_page; zlia |]. fold k1 in Et. rewrite Et.
    rewrite (proj2 (Z.eqb_neq (next_page _) 0)) by (unfold next_page; zlia). cbn [negb].
    rewrite !bind_ok. eexists. split; [reflexivity|]. cbn [fst snd]. split_and!; [reflexivity | zlia | zlia | zlia | zlia].
  - cbn [fst snd]. split_and!; [reflexivity | lia | lia | reflexivity].
  - cbn [snd]. zlia.
  - rewrite Ew, bind_ok. cbn [fst] in *. now subst k'.
Qed.

(** ** What a directory maps

    [d] a directory as [initialise_paging] leaves it: [D] the kernel's
    directory, behind which the tables lie.  The pages up to [low_pages D] are
    mapped to themselves, the heap's to the frames behind them. *)

Definition low_pages (D : Z) : Z := D / 0x1000 + 7.

Definition heap_pages : Z := KHEAP_INITIAL_SIZE / 0x1000.

Record tables (m : mem) (d D : Z) : Prop := {
  tb_table : forall i, 0 <= i < 1024 ->
    dir_table m d i = if i =? 0 then D + 0x5000 else if i =? 768 then D + 0x3000 else 0;
  tb_physical : forall i, 0 <= i < 1024 ->
    dir_table_physical m d i = if i =? 0 then Z.lor (D + 0x5000) 7 else if i =? 768 then Z.lor (D + 0x3000) 7 else 0;
  tb_low : forall p, 0 <= p < low_pages D -> load32 m (D + 0x5000 + 4 * p) = mapped_entry p;
  tb_heap : forall p, 0 <= p < heap_pages -> load32 m (D + 0x3000 + 4 * p) = mapped_entry (low_pages D + p);
}.

Lemma tables_translate m d D addr : tables m d D -> D mod 0x1000 = 0 -> 0x1000 <= D < 0x3F5000 ->
  (0 <= addr < low_pages D * 0x1000 -> translate m d addr = Some addr) /\
  (0 <= addr < KHEAP_INITIAL_SIZE -> translate m d (KHEAP_START + addr) = Some (low_pages D * 0x1000 + addr)).
Proof.
  intros [_ Hp Hl Hh] Hm HD. unfold heap_pages, KHEAP_INITIAL_SIZE, KHEAP_START in *. change (0x100000 / 0x1000) with 256 in Hh.
  assert (0 < low_pages D <= 1020) as HJ by (unfold low_pages; zlia). split; intros Hr.
  - rewrite (translate_window m d (D + 0x5000) 0 0 (low_pages D)); try assumption; try lia; try zlia; [f_equal; lia | exact (Hp 0 ltac:(lia))].
  - rewrite (translate_window m d (D + 0x3000) (low_pages D) 0xC0000000 256); try assumption; try lia; try zlia; [f_equal; lia | exact (Hp 768 ltac:(lia))].
Qed.

(** ** The tables *)

(** The state behind the making of the directory. *)
Definition with_directory (k : kernel) : kernel :=
  let p := k_placement_address k in
  let D := next_page (p + 512) in
  mk_kernel (store32 (memset (memset (k_mem k) p 0 512) D 0 0x2004) (D + 0x2000) (D + 0x1000)) (k_phys k) (D + 0x2004) (k_kheap k)
    p 0x1000 D (k_current_directory k).

Lemma with_directory_load k q : let p := k_placement_address k in let D := next_page (p + 512) in
  0 <= p -> (forall x, p <= x < p + 0x8200 -> load8 (k_mem k) x = 0) -> p <= q -> q + 4 <= p + 0x8200 ->
  q + 4 <= D + 0x2000 \/ D + 0x2004 <= q -> load32 (k_mem (with_directory k)) q = 0.
Proof.
  cbv zeta. intros Hp Hz Hq Hq' Hout. unfold with_directory. cbn [k_mem]. set (p := k_placement_address k) in *. set (D := next_page (p + 512)) in *.
  rewrite load32_store32_ne by lia. destruct (memset_spec (k_mem k) p 0 512 ltac:(lia)) as [Hi1 Ho1].
  revert Hi1 Ho1. generalize (memset (k_mem k) p 0 512) as m1. intros m1 Hi1 Ho1.
  destruct (memset_spec m1 D 0 0x2004 ltac:(lia)) as [Hi2 Ho2]. revert Hi2 Ho2. generalize (memset m1 D 0 0x2004) as m2. intros m2 Hi2 Ho2.
  apply load32_zero. intros x Hx.
  assert (load8 m1 x = 0) as Hx1.
  { destruct (decide (p <= x < p + 512)) as [Hin|Hin]; [replace x with (p + (x - p)) by lia; apply Hi1; lia|].
    rewrite Ho1 by lia. apply Hz. lia. }
  destruct (decide (D <= x < D + 0x2004)) as [Hin|Hin]; [replace x with (D + (x - D)) by lia; apply Hi2; lia|].
  rewrite Ho2 by lia. exact Hx1.
Qed.

(** The second loop over the heap's pages. *)
Lemma for_heap_frames fuel k first :
  let tbl := dir_table (k_mem k) (k_kernel_directory k) 768 in
  let w := k_kernel_directory k + 4 * 768 in
  outside_bitmap k tbl 0x1000 -> 0 <= k_nframes k <= 0x100000 -> tbl <> 0 -> 0 <= first -> frame_range k (first + 255) ->
  outside_bitmap k w 4 -> w + 4 <= tbl \/ tbl + 0x1000 <= w ->
  (forall p, 0 <= p < 1024 -> load32 (k_mem k) (tbl + 4 * p) = 0) -> (forall f, frame_range k f -> frame_used k f = (f <? first)) ->
  exists k', for_heap_pages (map_page fuel 0 0) k = Ok k' /\ window k tbl first 256 k'.
Proof.
  cbv zeta. intros Hout Hmax Ht Hf Hr Hw1 Hw2 Hz Hu. set (tbl := dir_table _ _ _) in *.
  destruct (window_loop fuel k tbl first Hout Hmax (fun '(_, i) => i <? KHEAP_START + KHEAP_INITIAL_SIZE) KHEAP_START 256 256)
    with (n := 256%nat) (j := 0) (k := k) as (k' & E & H'); try assumption; try lia; try reflexivity.
  - now replace (first + 256 - 1) with (first + 255) by lia.
  - intros k2 j _ Hj. unfold KHEAP_START, KHEAP_INITIAL_SIZE. lia.
  - now apply window_start.
  - exists k'. split; [|exact H']. unfold for_heap_pages. change (Z.to_nat (KHEAP_INITIAL_SIZE / 0x1000)) with 256%nat.
    rewrite Z.mul_0_l, Z.add_0_r in E. rewrite E. reflexivity.
Qed.

Lemma paging_tables_start fuel n k :
  let p := k_placement_address k in
  k_kheap k = None -> 0x1000 <= p < 0x3F0000 ->
  paging_tables fuel n k =
    (k ← for_heap_pages (fun i k => r ← get_page_ptr_in_page_table (kmalloc_ap fuel) i 1 (k_kernel_directory k) k; Ok r.2) (with_directory k);
     k ← identity_map fuel n k; for_heap_pages (map_page fuel 0 0) k).
Proof.
  cbv zeta. intros Hk Hp. unfold paging_tables, with_directory. change (0x1000000 / 0x1000) with 0x1000. change (0x1000 / 8) with 512.
  rewrite kmalloc_early, bind_ok by (exact Hk || lia). cbv beta iota zeta.
  rewrite kmalloc_a_early, bind_ok by (try exact Hk; cbn [k_placement_address with_mem with_frames with_placement]; unfold SIZEOF_page_directory; lia).
  reflexivity.
Qed.

(** The state behind the identity map: the table of the heap is still empty. *)
Record low_mapped (p D : Z) (k : kernel) : Prop := {
  lm_globals : k_placement_address k = D + 0x6000 /\ k_kheap k = None /\ k_frames k = p /\ k_nframes k = 0x1000 /\ k_kernel_directory k = D;
  lm_table : forall i, 0 <= i < 1024 ->
    dir_table (k_mem k) D i = if i =? 0 then D + 0x5000 else if i =? 768 then D + 0x3000 else 0;
  lm_physical : forall i, 0 <= i < 1024 ->
    dir_table_physical (k_mem k) D i = if i =? 0 then Z.lor (D + 0x5000) 7 else if i =? 768 then Z.lor (D + 0x3000) 7 else 0;
  lm_low : forall q, 0 <= q < low_pages D -> load32 (k_mem k) (D + 0x5000 + 4 * q) = mapped_entry q;
  lm_heap : forall q, 0 <= q < 1024 -> load32 (k_mem k) (D + 0x3000 + 4 * q) = 0;
  lm_address : dir_physicalAddr (k_mem k) D = D + 0x1000;
  lm_used : forall f, frame_range k f -> frame_used k f = (f <? low_pages D);
}.

(** The state before it: the table of the heap is entered in the directory. *)
Record heap_table_made (p D : Z) (k : kernel) : Prop := {
  hm_globals : k_placement_address k = D + 0x4000 /\ k_kheap k = None /\ k_frames k = p /\ k_nframes k = 0x1000 /\ k_kernel_directory k = D;
  hm_zero : forall q, p <= q -> q + 4 <= p + 0x8200 -> q + 4 <= D + 0x2000 \/ D + 0x2004 <= q ->
    q + 4 <= D + 4 * 768 \/ D + 4 * 768 + 4 <= q -> q + 4 <= D + 0x1000 + 4 * 768 \/ D + 0x1000 + 4 * 768 + 4 <= q -> load32 (k_mem k) q = 0;
  hm_table : dir_table (k_mem k) D 768 = D + 0x3000;
  hm_physical : dir_table_physical (k_mem k) D 768 = Z.lor (D + 0x3000) 7;
  hm_address : dir_physicalAddr (k_mem k) D = D + 0x1000;
}.

Lemma with_directory_table k :
  let p := k_placement_address k in
  let D := next_page (p + 512) in
  k_kheap k = None -> 0x1000 <= p < 0x3F0000 -> (forall x, p <= x < p + 0x8200 -> load8 (k_mem k) x = 0) ->
  heap_table_made p D (with_table D 768 (D + 0x3000) (with_directory k)).
Proof.
  cbv zeta. intros Hk Hp Hz. set (p := k_placement_address k) in *.
  assert (p + 512 < next_page (p + 512) <= p + 512 + 0x1000) as HD by (unfold next_page; zlia).
  set (D := next_page (p + 512)) in *.
  destruct (with_table_entries D 768 (D + 0x3000) (with_directory k) ltac:(lia) ltac:(lia)) as [Et Eph]. split; [| |exact Et | exact Eph |].
  - split_and!; [unfold with_table; cbn [k_placement_address with_mem with_placement]; lia | exact Hk | reflexivity..].
  - intros q H1 H2 H3 H4 H5. rewrite with_table_elsewhere by assumption. apply with_directory_load; [fold p; lia | exact Hz | exact H1 | exact H2 | exact H3].
  - unfold dir_physicalAddr. rewrite with_table_elsewhere by lia. unfold with_directory. cbn [k_mem]. fold p. fold D.
    rewrite load32_store32_eq. apply u32_small. lia.
Qed.

Lemma identity_map_low fuel n p D k :
  heap_table_made p D k -> 0x1000 <= p < 0x3F0000 -> p + 512 < D <= p + 0x1200 -> D mod 0x1000 = 0 -> (1024 <= n)%nat ->
  exists k', identity_map fuel n k = Ok k' /\ low_mapped p D k'.
Proof.
  intros [(G1 & G2 & G3 & G4 & G5) Hz Et Eph Ead] Hp HD Hal Hn.
  assert (bitmap_size k = 512) as Hb by (unfold bitmap_size; rewrite G4; reflexivity).
  pose proof (identity_map_spec fuel n k) as H. cbv zeta in H. unfold outside_bitmap in H. rewrite G1, G3, G4, G5, Hb in H.
  replace (next_page (D + 0x4000)) with (D + 0x5000) in H by (unfold next_page; zlia).
  replace ((D + 0x5000) / 0x1000 + 2) with (low_pages D) in H by (unfold low_pages; zlia).
  destruct H as (k4 & E4 & H4); try assumption; change (32 * (0x1000 / 32)) with 0x1000; try lia.
  { intros f Hf. unfold frame_range in Hf. rewrite G4 in Hf. unfold frame_used. rewrite G3, Hz by zlia. apply Z.testbit_0_l. }
  { intros q Hq. apply Hz; lia. }
  { apply Hz; lia. }
  exists k4. split; [exact E4|]. destruct (with_table_entries D 0 (D + 0x5000) k ltac:(lia) ltac:(lia)) as [Et0 Eph0].
  pose proof (fun q => with_table_elsewhere D 0 (D + 0x5000) k q) as Hoth.
  assert (same_globals (with_placement (D + 0x6000) k) (with_table D 0 (D + 0x5000) k)) as HG
    by (split_and!; try reflexivity; unfold with_table; cbn [k_placement_address with_mem with_placement]; lia).
  revert H4 Et0 Eph0 Hoth HG. generalize (with_table D 0 (D + 0x5000) k) as k3. intros k3 H4 Et0 Eph0 Hoth (K1 & K2 & K3 & K4 & K5).
  cbn [k_placement_address k_kheap k_frames k_nframes k_kernel_directory with_placement] in *. rewrite G2 in K2. rewrite G3 in K3. rewrite G4 in K4. rewrite G5 in K5.
  destruct (wn_globals _ _ _ _ _ H4) as (F1 & F2 & F3 & F4 & F5).
  assert (forall q, p + 512 <= q -> q + 4 <= D + 0x5000 -> load32 (k_mem k4) q = load32 (k_mem k3) q) as Hw3.
  { intros q Hq1 Hq2. apply (wn_rest _ _ _ _ _ H4); [right|left; exact Hq2]. unfold bitmap_size. rewrite K3, K4. change (4 * (0x1000 / 32)) with 512. lia. }
  assert (forall q, p + 512 <= q -> q + 4 <= D + 0x5000 -> q + 4 <= D \/ D + 4 <= q -> q + 4 <= D + 0x1000 \/ D + 0x1004 <= q ->
    load32 (k_mem k4) q = load32 (k_mem k) q) as Hw by (intros q Hq1 Hq2 Hq3 Hq4; rewrite Hw3 by assumption; apply Hoth; lia).
  clear Hoth. unfold dir_table, dir_table_physical, dir_physicalAddr in *. split.
  - split_and!; congruence.
  - intros i Hi. unfold dir_table. destruct (Z.eqb_spec i 0) as [->|]; [now rewrite Hw3 by lia|]. rewrite Hw by lia.
    destruct (Z.eqb_spec i 768) as [->|]; [exact Et|]. apply Hz; lia.
  - intros i Hi. unfold dir_table_physical. destruct (Z.eqb_spec i 0) as [->|]; [now rewrite Hw3 by lia|]. rewrite Hw by lia.
    destruct (Z.eqb_spec i 768) as [->|]; [exact Eph|]. apply Hz; lia.
  - intros q Hq. rewrite (wn_entries _ _ _ _ _ H4) by (unfold low_pages in Hq; zlia). now replace (q <? low_pages D) with true by lia.
  - intros q Hq. rewrite Hw by lia. apply Hz; lia.
  - unfold dir_physicalAddr. rewrite Hw by lia. exact Ead.
  - intros f Hf. rewrite (wn_used _ _ _ _ _ H4); [reflexivity|]. unfold frame_range in *. now rewrite F4 in Hf.
Qed.

(** The tables before the switch. *)
Lemma paging_tables_spec fuel n k :
  let p := k_placement_address k in
  let D := next_page (p + 512) in
  k_kheap k = None -> 0x1000 <= p < 0x3F0000 -> (forall x, p <= x < p + 0x8200 -> load8 (k_mem k) x = 0) -> (1024 <= n)%nat ->
  exists k', paging_tables fuel n k = Ok k' /\ k_placement_address k' = D + 0x6000 /\ k_kheap k' = None /\
    k_frames k' = p /\ k_nframes k' = 0x1000 /\ k_kernel_directory k' = D /\ tables (k_mem k') D D /\
    dir_physicalAddr (k_mem k') D = D + 0x1000 /\
    (forall f, frame_range k' f -> frame_used k' f = (f <? low_pages D + heap_pages)).
Proof.
  cbv zeta. intros Hk Hp Hz Hn. rewrite paging_tables_start by assumption. pose proof (with_directory_table k Hk Hp Hz) as Hm.
  assert (k_placement_address k + 512 < next_page (k_placement_address k + 512) <= k_placement_address k + 512 + 0x1000 /\
    next_page (k_placement_address k + 512) mod 0x1000 = 0) as [HD Hal] by (unfold next_page; zlia).
  rewrite for_heap_tables, bind_ok; [| exact Hk | | ].
  2: { change (k_placement_address (with_directory k)) with (next_page (k_placement_address k + 512) + 0x2004). lia. }
  2: { apply with_directory_load; [lia | exact Hz | | | left];
       change (k_kernel_directory (with_directory k)) with (next_page (k_placement_address k + 512)); lia. }
  change (k_placement_address (with_directory k)) with (next_page (k_placement_address k + 512) + 0x2004).
  change (k_kernel_directory (with_directory k)) with (next_page (k_placement_address k + 512)).
  set (p := k_placement_address k) in *. set (D := next_page (p + 512)) in *.
  replace (next_page (D + 0x2004)) with (D + 0x3000) by (unfold next_page; zlia).
  destruct (identity_map_low fuel n p D _ Hm) as (k4 & E4 & H4); [lia | lia | exact Hal | exact Hn |]. rewrite E4, bind_ok. clear Hm E4.
  destruct (lm_globals _ _ _ H4) as (G1 & G2 & G3 & G4 & G5). pose proof (lm_table _ _ _ H4 768 ltac:(lia)) as Et4. cbn [Z.eqb Pos.eqb] in Et4.
  destruct (for_heap_frames fuel k4 (low_pages D)) as (k5 & E5 & H5); rewrite ?G5, ?Et4;
    unfold outside_bitmap, bitmap_size; rewrite ?G3, ?G4; change (4 * (0x1000 / 32)) with 512; try lia.
  { unfold low_pages. zlia. }
  { unfold frame_range, low_pages. rewrite G4. zlia. }
  { apply (lm_heap _ _ _ H4). }
  { apply (lm_used _ _ _ H4). }
  rewrite G5, Et4 in H5. destruct (wn_globals _ _ _ _ _ H5) as (F1 & F2 & F3 & F4 & F5).
  assert (forall q, p + 512 <= q -> q + 4 <= D + 0x3000 \/ D + 0x4000 <= q -> load32 (k_mem k5) q = load32 (k_mem k4) q) as Hw5.
  { intros q Hq1 Hq2. apply (wn_rest _ _ _ _ _ H5); [right | lia]. unfold bitmap_size. rewrite G3, G4. change (4 * (0x1000 / 32)) with 512. lia. }
  exists k5. split_and!; [exact E5 | lia | congruence.. | | |].
  - split.
    + intros i Hi. rewrite <- (lm_table _ _ _ H4 i Hi). apply Hw5; lia.
    + intros i Hi. rewrite <- (lm_physical _ _ _ H4 i Hi). apply Hw5; lia.
    + intros q Hq. rewrite <- (lm_low _ _ _ H4 q Hq). apply Hw5; lia.
    + intros q Hq. unfold heap_pages, KHEAP_INITIAL_SIZE in Hq. change (0x100000 / 0x1000) with 256 in Hq.
      rewrite (wn_entries _ _ _ _ _ H5) by lia. now replace (q <? 256) with true by lia.
  - rewrite <- (lm_address _ _ _ H4). apply Hw5; lia.
  - intros f Hf. apply (wn_used _ _ _ _ _ H5). unfold frame_range in *. congruence.
Qed.

(** ** The heap, and the copy of the directory *)

Lemma tables_frame m m' d D : tables m d D -> D + 0x6000 <= KHEAP_START -> 0 <= D -> low_pages D <= 1024 ->
  (forall q, q + 4 <= KHEAP_START -> load32 m' q = load32 m q) ->
  (forall i, 0 <= i < 1024 -> dir_table m' d i = dir_table m d i /\ dir_table_physical m' d i = dir_table_physical m d i) ->
  tables m' d D.
Proof.
  intros [Ht Hp Hl Hh] HD H0 HJ Hsame Hdir. split.
  - intros i Hi. rewrite (proj1 (Hdir i Hi)). now apply Ht.
  - intros i Hi. rewrite (proj2 (Hdir i Hi)). now apply Hp.
  - intros q Hq. rewrite Hsame by lia. now apply Hl.
  - intros q Hq. rewrite Hsame by (unfold heap_pages, KHEAP_INITIAL_SIZE in Hq; zlia). now apply Hh.
Qed.

(** [kmalloc_ap] on the heap, with the physical address it gives. *)
Lemma kmalloc_ap_heap_at fuel sz k h p m' h' tbl :
  k_kheap k = Some h -> alloc fuel sz 1 k h = Ok (p, with_mem m' k, h') ->
  dir_table m' (k_kernel_directory k) (p / 0x400000) = tbl -> tbl <> 0 ->
  kmalloc_ap fuel sz k = Ok (p, u32 (page_frame (load32 m' (tbl + 4 * (p / 0x1000 mod 1024))) * 0x1000 + Z.land p 0xFFF),
    with_kheap (Some h') (with_mem m' k)).
Proof.
  intros Hk E Ht Hne. unfold kmalloc_ap, kmalloc_int. rewrite Hk. change (u8 1) with 1. rewrite E, bind_ok. cbv beta iota zeta.
  unfold get_page_ptr_in_page_table. cbn [k_kernel_directory with_kheap with_mem k_mem]. rewrite Z.div_div by lia.
  change (0x1000 * 1024) with 0x400000. rewrite Ht, (proj2 (Z.eqb_neq _ _) Hne). reflexivity.
Qed.

(** The first hole of the heap, and what the aligned block for the directory
    leaves of it. *)
Definition first_hole : block := mk_block 0xC0080000 0x80000 true.

Definition boot_blocks : list block :=
  [mk_block 0xC0080000 0xFF4 true; mk_block 0xC0080FF4 0x2018 false; mk_block 0xC008300C 0x7CFF4 true].

Definition boot_heap : heap_t := created_heap KHEAP_START (KHEAP_START + KHEAP_INITIAL_SIZE) 0xCFFFF000 0 0.

(** The directory of the first task. *)
Definition first_directory : Z := 0xC0081000.

Lemma alloc_first_directory fuel k :
  heap_inv (k_mem k) boot_heap [first_hole] -> oa_rep (k_mem k) (h_index boot_heap) [0xC0080000] ->
  exists m' idx, alloc fuel SIZEOF_page_directory 1 k boot_heap = Ok (first_directory, with_mem m' k, with_index idx boot_heap) /\
    oa_array idx = KHEAP_START /\
    heap_inv m' (with_index idx boot_heap) boot_blocks /\ (forall q, q < KHEAP_START -> load8 m' q = load8 (k_mem k) q).
Proof.
  intros Hi Hrep. pose proof (hi_blocks _ _ _ Hi first_hole ltac:(left)) as [(_ & Hsz & _) _]. cbn [b_addr b_size first_hole] in Hsz.
  assert (find_smallest_hole (SIZEOF_page_directory + 20) 1 (k_mem k) boot_heap = Ok 0) as Ef.
  { unfold find_smallest_hole. change (Z.to_nat (oa_size (h_index boot_heap))) with 1%nat. cbn [find_hole_from].
    pose proof (lookup_ordered_array_spec _ _ _ 0%nat _ Hrep eq_refl) as El. change (Z.of_nat 0) with 0 in El.
    rewrite El, bind_ok. unfold hole_fits, aligned_hole_size. rewrite Hsz. reflexivity. }
  destruct (alloc_aligned_spec fuel k boot_heap [first_hole] SIZEOF_page_directory 0 Hi) as (bs1 & b & bs2 & E & _ & _ & _ & Hcut);
    [unfold SIZEOF_page_directory; lia | unfold SIZEOF_page_directory; lia | exact Ef | lia |].
  apply singleton_split in E as (-> & -> & ->).
  destruct Hcut as (m' & idx & Ea & Hi' & Hfr); [vm_compute; discriminate | split; vm_compute; [discriminate | right; discriminate] |].
  exists m', idx. split_and!; [exact Ea | exact (alloc_keeps_array SIZEOF_page_directory 1 k boot_heap 0 _ _ _ fuel Ef ltac:(discriminate) Ea) | exact Hi' |].
  intros q Hq. unfold KHEAP_START in Hq.
  apply Hfr; left; [change (q < 0xC0000000); lia | change (q < 0xC0080000); lia].
Qed.

Lemma load32_below m m' q : (forall x, x < KHEAP_START -> load8 m' x = load8 m x) -> q + 4 <= KHEAP_START -> load32 m' q = load32 m q.
Proof. intros H Hq. unfold load32. rewrite !H by lia. reflexivity. Qed.

(** The kernel's own directory lies below the heap. *)
Lemma tables_low m m' D : tables m D D -> 0 <= D < 0x3F2000 -> (forall x, x < KHEAP_START -> load8 m' x = load8 m x) -> tables m' D D.
Proof.
  intros Ht HD Hl. apply (tables_frame m); [exact Ht | unfold KHEAP_START; lia | lia | unfold low_pages; zlia | |].
  - intros q. now apply load32_below.
  - intros i Hi. unfold dir_table, dir_table_physical. rewrite !(load32_below m m') by (exact Hl || (unfold KHEAP_START; lia)). auto.
Qed.

(** A directory that was just cleared, as [m2], and given its address. *)
Lemma blank_directory_spec m m2 dir address : 0 <= address < 0x100000000 ->
  (forall i, 0 <= i < 0x2004 -> load8 m2 (dir + i) = u8 0) -> same_but dir 0x2004 m m2 ->
  let m3 := store32 m2 (dir + 0x2000) address in
  same_but dir 0x2004 m m3 /\ load32 m3 (dir + 0x2000) = address /\ (forall q, dir <= q -> q + 4 <= dir + 0x2000 -> load32 m3 q = 0).
Proof.
  cbv zeta. intros Ha Hz Hfr. split_and!.
  - apply (same_but_trans _ _ _ m2); [exact Hfr | apply same_but_store32; lia].
  - rewrite load32_store32_eq. now apply u32_small.
  - intros q H1 H2. rewrite load32_store32_ne by lia. apply load32_zero. intros x Hx.
    replace x with (dir + (x - dir)) by lia. apply Hz. lia.
Qed.

(** The copy of the kernel's directory on the new heap.  Its physical address
    is right because the heap's frames are contiguous. *)
Lemma clone_first_directory fuel D k :
  k_kheap k = Some boot_heap -> heap_inv (k_mem k) boot_heap [first_hole] -> oa_rep (k_mem k) (h_index boot_heap) [0xC0080000] ->
  tables (k_mem k) D D -> k_kernel_directory k = D -> 0x1000 <= D < 0x3F2000 -> D mod 0x1000 = 0 ->
  exists m' idx, clone_directory fuel D k = Ok (first_directory, with_kheap (Some (with_index idx boot_heap)) (with_mem m' k)) /\
    oa_array idx = KHEAP_START /\ heap_inv m' (with_index idx boot_heap) boot_blocks /\ tables m' first_directory D /\
    dir_physicalAddr m' first_directory = low_pages D * 0x1000 + 0x82000 /\
    (forall q, q < KHEAP_START -> load8 m' q = load8 (k_mem k) q).
Proof.
  intros Hk Hi Hrep Ht Hkd HD Hal. destruct (alloc_first_directory fuel k Hi Hrep) as (m1 & idx & Ea & Harr & Hi1 & Hlow).
  assert (forall q, q + 4 <= KHEAP_START -> load32 m1 q = load32 (k_mem k) q) as Hl1 by (intros q; now apply load32_below).
  assert (0 < low_pages D < 1020) as HJ by (unfold low_pages; zlia). unfold first_directory in *.
  pose proof (tb_table _ _ _ Ht 768 ltac:(lia)) as Etbl. cbn [Z.eqb Pos.eqb] in Etbl.
  pose proof (tb_heap _ _ _ Ht 0x81 ltac:(unfold heap_pages, KHEAP_INITIAL_SIZE; zlia)) as Epg.
  unfold clone_directory. rewrite (kmalloc_ap_heap_at _ _ _ _ _ _ _ (D + 0x3000) Hk Ea);
    [| unfold dir_table in *; rewrite Hkd, Hl1 by (unfold KHEAP_START; zlia); exact Etbl | lia].
  rewrite bind_ok. cbv beta iota zeta. change (0xC0081000 / 0x1000 mod 1024) with 0x81. change (Z.land 0xC0081000 0xFFF) with 0.
  rewrite Hl1, Epg by (unfold KHEAP_START; lia). destruct (mapped_entry_fields (low_pages D + 0x81)) as (-> & _); [lia|].
  cbn [k_mem with_mem with_kheap]. rewrite !(u32_small (_ * 0x1000 + 0)) by lia. change (u32 (0xC0081000 + 0x1000 - 0xC0081000)) with 0x1000.
  destruct (memset_spec m1 0xC0081000 0 SIZEOF_page_directory ltac:(unfold SIZEOF_page_directory; lia)) as [Hz2 Hfr2].
  revert Hz2 Hfr2. generalize (memset m1 0xC0081000 0 SIZEOF_page_directory) as m2. unfold SIZEOF_page_directory. intros m2 Hz2 Hfr2.
  rewrite (u32_small (_ + 0x1000)) by lia. set (phys := (low_pages D + 0x81) * 0x1000 + 0 + 0x1000).
  destruct (blank_directory_spec m1 m2 0xC0081000 phys ltac:(lia) Hz2 Hfr2) as (Hfr13 & Eph & Hz3).
  revert Hfr13 Eph Hz3. generalize (store32 m2 (0xC0081000 + 0x2000) phys) as m3. intros m3 Hfr13 Eph Hz3.
  assert (forall q, q + 4 <= KHEAP_START -> load32 m3 q = load32 (k_mem k) q) as Hl3.
  { intros q Hq. rewrite (same_but_load32 _ _ _ _ _ Hfr13) by (unfold KHEAP_START in Hq; lia). now apply Hl1. }
  destruct (clone_dir_links fuel D 0xC0081000 (with_kheap (Some (with_index idx boot_heap)) (with_mem m3 k))) as (m4 & E4 & Hfr4 & Hw4).
  { exact Hkd. } { lia. }
  { intros i Hi'. cbn [k_mem with_mem with_kheap]. unfold dir_table, dir_table_physical. rewrite !Hz3 by lia. auto. }
  { intros i Hi'. pose proof (tb_table _ _ _ Ht i Hi') as Ha. pose proof (tb_physical _ _ _ Ht i Hi') as Hb.
    unfold dir_table, dir_table_physical in *. cbn [k_mem with_mem with_kheap]. rewrite !Hl3, Ha, Hb by (unfold KHEAP_START; lia). cases_lia. }
  cbn [k_mem with_mem with_kheap] in Hfr4, Hw4.
  match goal with |- context [while 1024 _ _ (?kk, 0)] => change kk with (with_kheap (Some (with_index idx boot_heap)) (with_mem m3 k)) end.
  rewrite E4, bind_ok. cbn [fst]. exists m4, idx.
  assert (same_but 0xC0081000 0x2004 m1 m4) as Hfr14 by (eapply same_but_trans; [exact Hfr13 | eapply same_but_widen; [| |exact Hfr4]; lia]).
  split_and!; [reflexivity | exact Harr | | | |].
  - eapply heap_inv_same_but; [exact Hi1 | right; left | | | exact Hfr14]; cbn [b_size]; lia.
  - split.
    + intros i Hi'. rewrite (proj1 (Hw4 i Hi')). unfold dir_table. rewrite Hl3 by (unfold KHEAP_START; lia). apply (tb_table _ _ _ Ht i Hi').
    + intros i Hi'. rewrite (proj2 (Hw4 i Hi')). unfold dir_table_physical. rewrite Hl3 by (unfold KHEAP_START; lia). apply (tb_physical _ _ _ Ht i Hi').
    + intros q Hq. rewrite (same_but_load32 _ _ _ _ _ Hfr14), Hl1 by (unfold KHEAP_START; lia). apply (tb_low _ _ _ Ht q Hq).
    + intros q Hq. pose proof Hq as Hq'. unfold heap_pages, KHEAP_INITIAL_SIZE in Hq'. change (0x100000 / 0x1000) with 256 in Hq'.
      rewrite (same_but_load32 _ _ _ _ _ Hfr14), Hl1 by (unfold KHEAP_START; lia). apply (tb_heap _ _ _ Ht q Hq).
  - unfold dir_physicalAddr. rewrite (same_but_load32 _ _ _ _ _ Hfr4), Eph by lia. subst phys. lia.
  - intros q Hq. unfold KHEAP_START in *. rewrite Hfr14 by lia. now apply Hlow.
Qed.

(** ** The theorem *)

(** The whole call: what it leaves in memory and in the globals. *)
Lemma initialise_paging_ok (fuel n : nat) (c : cpu_t) (k : kernel) :
  let p := k_placement_address k in
  let D := next_page (p + 512) in
  k_kheap k = None -> 0x1000 <= p < 0x3F0000 -> (forall x, p <= x < p + 0x8200 -> load8 (k_mem k) x = 0) -> (1024 <= n)%nat ->
  exists c' k' idx, initialise_paging fuel n c k = Ok (c', k') /\ D + 0x7000 = low_pages D * 0x1000 /\ D mod 0x1000 = 0 /\ p + 512 < D <= p + 0x1200 /\
    Z.testbit (cr0 c') 31 = true /\ cr3 c' = dir_physicalAddr (k_mem k') first_directory /\
    dir_physicalAddr (k_mem k') first_directory = low_pages D * 0x1000 + 0x82000 /\
    (k_kernel_directory k' = D /\ k_current_directory k' = first_directory /\ k_placement_address k' = D + 0x6000 + SIZEOF_heap /\
     k_frames k' = p /\ k_nframes k' = 0x1000 /\ k_kheap k' = Some (with_index idx boot_heap)) /\ oa_array idx = KHEAP_START /\
    tables (k_mem k') D D /\ tables (k_mem k') first_directory D /\ heap_inv (k_mem k') (with_index idx boot_heap) boot_blocks /\
    (forall f, frame_range k' f -> frame_used k' f = (f <? low_pages D + heap_pages)).
Proof.
  cbv zeta. intros Hk Hp Hz Hn. destruct (paging_tables_spec fuel n k Hk Hp Hz Hn) as (k1 & E1 & G1 & G2 & G3 & G4 & G5 & Ht & Hpa & Hu).
  set (p := k_placement_address k) in *.
  assert (p + 512 < next_page (p + 512) <= p + 512 + 0x1000 /\ next_page (p + 512) mod 0x1000 = 0) as [HD Hal] by (unfold next_page; zlia).
  set (D := next_page (p + 512)) in *. clearbody D.
  assert (low_pages D * 0x1000 = D + 0x7000) as Hlow by (unfold low_pages; zlia).
  unfold initialise_paging. rewrite E1, bind_ok. unfold switch_page_directory at 1. cbv beta iota zeta.
  destruct (create_heap_spec fuel KHEAP_START (KHEAP_START + KHEAP_INITIAL_SIZE) 0xCFFFF000 0 0 (with_current_directory (k_kernel_directory k1) k1))
    as (m2 & E2 & Hfr2 & Hi2 & Hrep2);
    try (unfold KHEAP_START, KHEAP_INITIAL_SIZE, HEAP_INDEX_SIZE, SIZEOF_heap; cbn [k_placement_address with_current_directory]; first [exact G2 | reflexivity | lia]).
  rewrite E2, bind_ok. cbn [fst snd]. change (created_heap _ _ _ _ _) with boot_heap in *.
  cbn [k_placement_address with_current_directory k_mem] in Hfr2 |- *.
  assert (forall x, x < KHEAP_START -> load8 m2 x = load8 (k_mem k1) x) as Hl2 by (intros x Hx; apply Hfr2; lia).
  match goal with |- context [with_kheap (Some boot_heap) ?kk] => set (k2 := with_kheap (Some boot_heap) kk) end.
  destruct (clone_first_directory fuel D k2) as (m3 & idx & E3 & Harr3 & Hi3 & Ht3 & Hpa3 & Hl3); try reflexivity; try assumption; try lia.
  { change (k_mem k2) with m2. apply (tables_low (k_mem k1)); [exact Ht | lia | exact Hl2]. }
  change (k_kernel_directory k2) with (k_kernel_directory k1). rewrite G5, E3, bind_ok. unfold switch_page_directory.
  assert (forall x, x < KHEAP_START -> load8 m3 x = load8 (k_mem k1) x) as Hl13 by (intros x Hx; rewrite Hl3 by exact Hx; now apply Hl2).
  do 3 eexists. split; [reflexivity|]. cbn [cr0 cr3 k_mem k_kheap k_kernel_directory k_current_directory k_placement_address k_frames k_nframes with_mem with_kheap with_current_directory].
  split_and!; try assumption; try reflexivity; try lia.
  - rewrite Z.lor_spec. apply orb_true_r.
  - change (k_placement_address k2) with (k_placement_address k1 + SIZEOF_heap). rewrite G1. reflexivity.
  - apply (tables_low (k_mem k1)); [exact Ht | lia | exact Hl13].
  - exact Hi3.
  - intros f Hf. change (frame_range k1 f) in Hf. rewrite <- (Hu f Hf). unfold frame_used, frame_range in *.
    cbn [k_mem k_frames with_mem with_kheap with_current_directory]. change (k_frames k2) with (k_frames k1).
    rewrite (load32_below (k_mem k1)); [reflexivity | exact Hl13 | rewrite G3; rewrite G4 in Hf; unfold KHEAP_START; zlia].
Qed.

(** C12: [initialise_paging], with the end of the kernel below four megabytes less
    64 KB and the 0x8200 bytes behind it zero: it returns; paging is on; below
    [low_pages] both directories translate every address to itself, and the
    memory in use lies there; the heap's megabyte is mapped to the frames
    behind it and is a well-formed heap, whose one block in use is the
    directory of the first task; and what CR3 holds is where the processor finds the
    physical addresses of that directory's tables. *)
Theorem initialise_paging_starts (fuel n : nat) (c : cpu_t) (k : kernel) :
  let p := k_placement_address k in
  let D := next_page (p + 512) in
  let low := low_pages D * 0x1000 in
  k_kheap k = None -> 0x1000 <= p < 0x3F0000 -> (forall x, p <= x < p + 0x8200 -> load8 (k_mem k) x = 0) -> (1024 <= n)%nat ->
  exists c' k' h, initialise_paging fuel n c k = Ok (c', k') /\
    Z.testbit (cr0 c') 31 = true /\ k_kernel_directory k' = D /\ k_current_directory k' = first_directory /\
    (forall d, d = D \/ d = first_directory ->
       (forall a, 0 <= a < low -> translate (k_mem k') d a = Some a) /\
       (forall a, 0 <= a < KHEAP_INITIAL_SIZE -> translate (k_mem k') d (KHEAP_START + a) = Some (low + a))) /\
    k_placement_address k' <= low /\ translate (k_mem k') first_directory (first_directory + 0x1000) = Some (cr3 c') /\
    k_kheap k' = Some h /\ heap_inv (k_mem k') h boot_blocks /\
    (forall f, frame_range k' f -> frame_used k' f = (f <? low_pages D + heap_pages)).
Proof.
  cbv zeta. intros Hk Hp Hz Hn.
  destruct (initialise_paging_ok fuel n c k Hk Hp Hz Hn) as (c' & k' & idx & E & Hlow & Hal & HD & Hpg & Hcr & Hpa & (G1 & G2 & G3 & _ & _ & G6) & _ & Ht & Ht' & Hi & Hu).
  set (p := k_placement_address k) in *. set (D := next_page (p + 512)) in *. exists c', k', (with_index idx boot_heap).
  split_and!; try assumption.
  - intros d Hd. assert (tables (k_mem k') d D) as Htd by (destruct Hd as [-> | ->]; assumption).
    split; intros a Ha; apply (tables_translate _ _ _ a Htd Hal ltac:(lia)); exact Ha.
  - rewrite G3, <- Hlow. unfold SIZEOF_heap. lia.
  - rewrite Hcr, Hpa. change (first_directory + 0x1000) with (KHEAP_START + 0x82000).
    apply (tables_translate _ _ _ 0x82000 Ht' Hal ltac:(lia)). unfold KHEAP_INITIAL_SIZE. lia.
Qed.

(** The kernel ends at one megabyte: CR3 is 0x18A000. *)
Lemma initialise_paging_starts_witness :
  exists c' k' h, initialise_paging 0 1024 (mk_cpu 0x11 0 0) (mk_kernel ∅ ∅ 0x100000 None 0 0 0 0) = Ok (c', k') /\
    cr3 c' = 0x18A000 /\ translate (k_mem k') 0x101000 0x12345 = Some 0x12345 /\
    translate (k_mem k') first_directory 0xC0000004 = Some 0x108004 /\ k_kheap k' = Some h /\ heap_inv (k_mem k') h boot_blocks.
Proof.
  destruct (initialise_paging_starts 0 1024 (mk_cpu 0x11 0 0) (mk_kernel ∅ ∅ 0x100000 None 0 0 0 0))
    as (c' & k' & h & E & _ & _ & _ & Ht & _ & Hcr & Hh & Hi & _); [reflexivity | simpl; lia | intros x _; reflexivity | lia |].
  change (next_page (_ + 512)) with 0x101000 in Ht. change (low_pages 0x101000 * 0x1000) with 0x108000 in Ht.
  destruct (Ht 0x101000 (or_introl eq_refl)) as [Hl _], (Ht first_directory (or_intror eq_refl)) as [_ Hu].
  exists c', k', h. split_and!; [exact E | | apply Hl; lia | apply (Hu 4); unfold KHEAP_INITIAL_SIZE; lia | exact Hh | exact Hi].
  pose proof (Hu 0x82000 ltac:(unfold KHEAP_INITIAL_SIZE; lia)) as Hv. change (KHEAP_START + 0x82000) with (first_directory + 0x1000) in Hv.
  rewrite Hcr in Hv. injection Hv as ->. reflexivity.
Defined.
