(* ===== verification/Cleared.v ===== *)
(** * A range of memory cleared at once

    [memset] is a loop of stores.  For evaluation, a range of [2^d] bytes at a
    multiple of [2^d] is set in one pass over the tree of the memory, which
    builds only the branches that are looked at later ([set_block]); it is the
    same map ([memset_block]).  The heap clears 512 kilobytes for its index. *)

From S2P Require Import Prelude Memory Util.

(** ** Branches

    A key is a positive, read from its lowest bit.  [behind d i] is what is left
    of the key [i] behind [d] bits. *)
Fixpoint behind (d : nat) (i : positive) : option positive :=
  match d, i with
  | O, _ => Some i
  | S d, (i~0 | i~1)%positive => behind d i
  | S _, xH => None
  end.

Lemma behind_div d i t : behind d i = Some t <-> Zpos i / 2 ^ Z.of_nat d = Zpos t.
Proof.
  revert i. induction d as [|d IH]; intros i; cbn [behind].
  - rewrite Z.div_1_r. split; congruence.
  - replace (2 ^ Z.of_nat (S d)) with (2 * 2 ^ Z.of_nat d) by (rewrite <- Z.pow_succ_r by lia; f_equal; lia).
    rewrite <- Z.div_div by lia. destruct i as [i|i|].
    + rewrite IH. replace (Z.pos i~1 / 2) with (Z.pos i) by zlia. reflexivity.
    + rewrite IH. replace (Z.pos i~0 / 2) with (Z.pos i) by zlia. reflexivity.
    + change (1 / 2) with 0. rewrite Z.div_0_l by lia. split; discriminate.
Qed.

Section Block.
Context {A : Type} (v : A) (tail : positive).

Definition left_of {P} (mt : gmap_dep A P) : gmap_dep A (fun p => P (p~0)%positive) :=
  match mt with
  | GNodes (GNode100 l) | GNodes (GNode101 l _) | GNodes (GNode110 l _ _) | GNodes (GNode111 l _ _ _) => GNodes l
  | _ => GEmpty
  end.

Definition right_of {P} (mt : gmap_dep A P) : gmap_dep A (fun p => P (p~1)%positive) :=
  match mt with
  | GNodes (GNode001 r) | GNodes (GNode011 _ _ r) | GNodes (GNode101 _ r) | GNodes (GNode111 _ _ _ r) => GNodes r
  | _ => GEmpty
  end.

Definition here_of {P} (mt : gmap_dep A P) : option (P 1%positive * A) :=
  match mt with
  | GNodes (GNode010 p x) | GNodes (GNode011 p x _) | GNodes (GNode110 _ p x) | GNodes (GNode111 _ p x _) => Some (p, x)
  | _ => None
  end.

(** The tree with [v] at the keys that end in [tail] behind [d] bits. *)
Fixpoint fill (d : nat) {P} (HP : forall q, P q) (mt : gmap_dep A P) : gmap_dep_ne A P :=
  match d with
  | O => match gmap.gmap_dep_partial_alter (fun _ => Some v) tail (HP tail) mt with
         | GNodes t => t
         | GEmpty => gmap.gmap_dep_ne_singleton tail (HP tail) v
         end
  | S d =>
      let l := fill d (fun q => HP (q~0)%positive) (left_of mt) in
      let r := fill d (fun q => HP (q~1)%positive) (right_of mt) in
      match here_of mt with
      | None => GNode101 l r
      | Some (p, x) => GNode111 l p x r
      end
  end.

Lemma parts_of {P} (mt : gmap_dep A P) i :
  gmap.gmap_dep_lookup i mt =
    match i with
    | (i~0)%positive => gmap.gmap_dep_lookup i (left_of mt)
    | (i~1)%positive => gmap.gmap_dep_lookup i (right_of mt)
    | xH => snd <$> here_of mt
    end.
Proof. destruct mt as [|[]], i; reflexivity. Qed.

Lemma fill_lookup d : forall {P} (HP : forall q, P q) (mt : gmap_dep A P) i,
  gmap.gmap_dep_ne_lookup i (fill d HP mt) = if decide (behind d i = Some tail) then Some v else gmap.gmap_dep_lookup i mt.
Proof.
  induction d as [|d IH]; intros P HP mt i; cbn [fill behind].
  - transitivity (gmap.gmap_dep_lookup i (gmap.gmap_dep_partial_alter (fun _ => Some v) tail (HP tail) mt)).
    + destruct (gmap.gmap_dep_partial_alter _ _ _ mt) as [|t] eqn:E; [|reflexivity].
      pose proof (gmap.gmap_dep_lookup_partial_alter_eq (fun _ => Some v) mt tail (HP tail)) as H. rewrite E in H. discriminate H.
    + case_decide as H; [injection H as -> | rewrite gmap.gmap_dep_lookup_partial_alter_ne by congruence; reflexivity].
      apply gmap.gmap_dep_lookup_partial_alter_eq.
  - rewrite (parts_of mt i). destruct i as [i|i|], (here_of mt) as [[p x]|]; cbn [gmap.gmap_dep_ne_lookup fmap option_fmap option_map snd]; rewrite ?IH; try reflexivity.
    all: rewrite decide_False by discriminate; reflexivity.
Qed.

End Block.

(** ** A block of memory *)

Lemma any_key (q : positive) : gmap_key Z q.
Proof. constructor. now destruct q. Qed.

(** The bytes of the block at [Zpos t * 2 ^ d]. *)
Definition set_block (d : nat) (t : positive) (v : Z) (m : mem) : mem :=
  let '(GMap mt) := m in
  GMap (gmap.GNode (GNodes (fill v t d (fun q => any_key (q~0)%positive) (left_of mt))) (here_of mt) (right_of mt)).

Lemma lookup_set_block d t v (m : mem) a :
  set_block d t v m !! a = if decide (a / 2 ^ Z.of_nat d = Zpos t) then Some v else m !! a.
Proof.
  destruct m as [mt]. unfold set_block, lookup, gmap_lookup. cbn [gmap_car]. rewrite gmap.gmap_dep_lookup_GNode, (parts_of mt).
  assert (0 < 2 ^ Z.of_nat d) as Hd by (apply Z.pow_pos_nonneg; lia).
  destruct a as [|p|p].
  - rewrite decide_False; [reflexivity | rewrite Z.div_0_l by lia; discriminate].
  - change (encode (Z.pos p)) with (p~0)%positive. cbn [gmap.gmap_dep_lookup]. rewrite fill_lookup. 
    destruct (decide (behind d p = Some t)) as [E|E], (decide (Z.pos p / 2 ^ Z.of_nat d = Z.pos t)) as [E'|E']; try reflexivity;
      apply behind_div in E || apply behind_div in E'; contradiction.
  - rewrite decide_False; [reflexivity|]. pose proof (Z.div_le_upper_bound (Z.neg p) _ 0 Hd ltac:(lia)). lia.
Qed.

Lemma memset_lookup (m : mem) dest v len a : 0 <= len < 0x100000000 ->
  memset m dest v len !! a = if decide (dest <= a < dest + len) then Some (u8 v) else m !! a.
Proof.
  intros Hl. unfold memset. rewrite u32_small by lia.
  pose proof (for_up_rule (fun i (m' : mem) => m' !! a = if decide (dest <= a < dest + i) then Some (u8 v) else m !! a)
    (fun i m => store8 m (dest + i) v) (Z.to_nat len) 0 m) as H.
  rewrite Z.add_0_l, Z2Nat.id in H by lia. apply H; clear H.
  - intros j m' Hj E. unfold store8. destruct (decide (a = dest + j)) as [->|Hne].
    + rewrite lookup_insert_eq, decide_True by lia. reflexivity.
    + rewrite lookup_insert_ne, E by congruence.
      destruct (decide (dest <= a < dest + j)), (decide (dest <= a < dest + (j + 1))); (reflexivity || lia).
  - rewrite decide_False by lia. reflexivity.
Qed.

(** [memset] of a block. *)
Lemma memset_block d t (m : mem) v : (d < 32)%nat ->
  memset m (Zpos t * 2 ^ Z.of_nat d) v (2 ^ Z.of_nat d) = set_block d t (u8 v) m.
Proof.
  intros Hd. assert (0 < 2 ^ Z.of_nat d < 0x100000000) as Hp.
  { split; [apply Z.pow_pos_nonneg; lia|]. change 0x100000000 with (2 ^ 32). apply Z.pow_lt_mono_r; lia. }
  apply map_eq. intros a. rewrite memset_lookup, lookup_set_block by lia. revert Hp. generalize (2 ^ Z.of_nat d) as n. intros n Hn.
  destruct (decide (a / n = Z.pos t)) as [E|E].
  - rewrite decide_True; [reflexivity|]. rewrite <- E. pose proof (Z.mul_div_le a n ltac:(lia)). pose proof (Z.mul_succ_div_gt a n ltac:(lia)). nia.
  - rewrite decide_False; [reflexivity|]. intros H. apply E. symmetry. apply (Z.div_unique a n _ (a - Z.pos t * n)); lia.
Qed.

(** [memset] with a quick way for the index of the heap. *)
Definition memset_quick (m : mem) (dest v len : Z) : mem :=
  if (dest =? 0xC0000000) && (len =? 0x80000) then set_block 19 6144 (u8 v) m else memset m dest v len.

Lemma memset_is_quick m dest v len : memset m dest v len = memset_quick m dest v len.
Proof.
  unfold memset_quick. destruct (Z.eqb_spec dest 0xC0000000) as [->|]; [|reflexivity]. destruct (Z.eqb_spec len 0x80000) as [->|]; [|reflexivity].
  apply (memset_block 19 6144). lia.
Qed.
