(* ===== verification/Ports.v ===== *)
(** * drivers/ports.c: the I/O ports, and the interrupt controllers behind them

    The devices are not code of the repository: a driver is written against
    [PortDevice], whose two operations are the instructions [in] and [out], and
    a theorem about a driver states what it relies on of the device.
    [TwoPics] says that the ports 0x20, 0x21, 0xA0 and 0xA1 are two 8259
    interrupt controllers, as their data sheet has them; [two_pics] is the
    device that consists of just these. *)

From S2P Require Import Prelude.

Class PortDevice (D : Type) := {
  dev_in : Z -> D -> Z * D;
  dev_out : Z -> Z -> D -> D;
  dev_in_word : Z -> D -> Z * D;
  dev_out_word : Z -> Z -> D -> D;
}.

Section Ports.
Context {D : Type} `{PortDevice D}.

Definition port_byte_in (port : Z) (d : D) : Z * D :=
  let '(result, d) := dev_in (u16 port) d in (u8 result, d).

Definition port_byte_out (port data : Z) (d : D) : D := dev_out (u16 port) (u8 data) d.

Definition port_word_in (port : Z) (d : D) : Z * D :=
  let '(result, d) := dev_in_word (u16 port) d in (u16 result, d).

Definition port_word_out (port data : Z) (d : D) : D := dev_out_word (u16 port) (u16 data) d.

(** [io_wait] of cpu/isr.h writes a zero to port 0x80. *)
Definition io_wait (d : D) : D := dev_out 0x80 0 d.

End Ports.

(** ** The 8259 interrupt controller

    [pic_expect] is the initialization word it waits for, 0 when it operates;
    [pic_isr] are the interrupts in service. *)

Record pic := mk_pic {
  pic_imr : Z;
  pic_vector : Z;
  pic_cascade : Z;
  pic_mode : Z;
  pic_isr : Z;
  pic_expect : Z;
}.

(** The lowest set bit of [x] below bit [n] cleared: the end of the interrupt
    of highest priority. *)
Fixpoint clear_lowest (n : nat) (i x : Z) : Z :=
  match n with
  | O => x
  | S n' => if Z.testbit x i then Z.clearbit x i else clear_lowest n' (i + 1) x
  end.

(** A write to the command port: ICW1 starts the initialization and clears the
    mask, 0x20 is the non-specific end of interrupt. *)
Definition pic_command (v : Z) (p : pic) : pic :=
  if Z.testbit v 4 then mk_pic 0 (pic_vector p) (pic_cascade p) (pic_mode p) 0 2
  else if v =? 0x20 then
    mk_pic (pic_imr p) (pic_vector p) (pic_cascade p) (pic_mode p) (clear_lowest 8 0 (pic_isr p)) (pic_expect p)
  else p.

(** A write to the data port: the words of the initialization in order, then
    the mask. *)
Definition pic_data (v : Z) (p : pic) : pic :=
  if pic_expect p =? 2 then mk_pic (pic_imr p) (Z.land v 0xF8) (pic_cascade p) (pic_mode p) (pic_isr p) 3
  else if pic_expect p =? 3 then mk_pic (pic_imr p) (pic_vector p) v (pic_mode p) (pic_isr p) 4
  else if pic_expect p =? 4 then mk_pic (pic_imr p) (pic_vector p) (pic_cascade p) v (pic_isr p) 0
  else mk_pic v (pic_vector p) (pic_cascade p) (pic_mode p) (pic_isr p) (pic_expect p).

(** The two controllers seen through a device. *)
Class TwoPics (D : Type) `{PortDevice D} := {
  master : D -> pic;
  slave : D -> pic;
  master_out : forall port v d,
    master (dev_out port v d) =
      (if port =? 0x20 then pic_command v (master d) else if port =? 0x21 then pic_data v (master d) else master d);
  slave_out : forall port v d,
    slave (dev_out port v d) =
      (if port =? 0xA0 then pic_command v (slave d) else if port =? 0xA1 then pic_data v (slave d) else slave d);
  master_in : forall d, dev_in 0x21 d = (pic_imr (master d), d);
  slave_in : forall d, dev_in 0xA1 d = (pic_imr (slave d), d);
}.

(** The machine that has only these two. *)
Definition two_pics : Type := pic * pic.

#[export] Instance two_pics_ports : PortDevice two_pics := {
  dev_in port d :=
    (if port =? 0x21 then pic_imr d.1 else if port =? 0xA1 then pic_imr d.2 else 0, d);
  dev_out port v d :=
    ((if port =? 0x20 then pic_command v d.1 else if port =? 0x21 then pic_data v d.1 else d.1),
     (if port =? 0xA0 then pic_command v d.2 else if port =? 0xA1 then pic_data v d.2 else d.2));
  dev_in_word port d := (0, d);
  dev_out_word port v d := d;
}.

#[export] Instance two_pics_pics : TwoPics two_pics.
Proof. refine {| master := fst; slave := snd |}; reflexivity. Defined.

(** ** Which ports a driver touches

    [touches ins outs d d'] says that the machine gets from [d] to [d'] by
    reads of the ports [ins] and writes to the ports [outs] alone.  What those
    leave as it is, the driver leaves as it is. *)

Section Touches.
Context {D : Type} `{PortDevice D}.

Inductive touches (ins outs : list Z) : D -> D -> Prop :=
  | touches_none d : touches ins outs d d
  | touches_in port d d' : port ∈ ins -> touches ins outs (dev_in port d).2 d' -> touches ins outs d d'
  | touches_out port v d d' : port ∈ outs -> touches ins outs (dev_out port v d) d' -> touches ins outs d d'.

Context {ins outs : list Z}.

Lemma touches_trans d1 d2 d3 : touches ins outs d1 d2 -> touches ins outs d2 d3 -> touches ins outs d1 d3.
Proof. induction 1; intros; [assumption | eapply touches_in; eauto | eapply touches_out; eauto]. Qed.

Lemma touches_more ins' outs' d d' : touches ins outs d d' -> ins ⊆ ins' -> outs ⊆ outs' -> touches ins' outs' d d'.
Proof. intros Ht Hi Ho. induction Ht; [constructor | eapply touches_in; eauto | eapply touches_out; eauto]. Qed.

Lemma touches_keep {X : Type} (f : D -> X) d d' : touches ins outs d d' ->
  (forall port d, port ∈ ins -> f (dev_in port d).2 = f d) -> (forall port v d, port ∈ outs -> f (dev_out port v d) = f d) -> f d' = f d.
Proof.
  intros Ht Hi Ho. induction Ht as [|port d d' Hp _ IH|port v d d' Hp _ IH];
    [reflexivity | rewrite IH; apply Hi, Hp | rewrite IH; apply Ho, Hp].
Qed.

Lemma touches_byte_out port v d d' : u16 port ∈ outs -> touches ins outs (port_byte_out port v d) d' -> touches ins outs d d'.
Proof. unfold port_byte_out. apply touches_out. Qed.

Lemma touches_byte_in port v d d1 d' : u16 port ∈ ins -> port_byte_in port d = (v, d1) -> touches ins outs d1 d' -> touches ins outs d d'.
Proof.
  unfold port_byte_in. intros Hp E. destruct (dev_in (u16 port) d) as [v' d''] eqn:Ed. injection E as _ <-.
  intros Ht. apply (touches_in _ _ _ _ _ Hp). now rewrite Ed.
Qed.

Lemma touches_wait d d' : 0x80 ∈ outs -> touches ins outs (io_wait d) d' -> touches ins outs d d'.
Proof. unfold io_wait. apply touches_out. Qed.

(** The write of a byte at the end. *)
Lemma touches_then_out port v d d' : u16 port ∈ outs -> touches ins outs d d' -> touches ins outs d (port_byte_out port v d').
Proof. intros Hp Ht. apply (touches_trans _ _ _ Ht), touches_byte_out with port v; [exact Hp | constructor]. Qed.

Lemma touches_then_wait d d' : 0x80 ∈ outs -> touches ins outs d d' -> touches ins outs d (io_wait d').
Proof. intros Hp Ht. apply (touches_trans _ _ _ Ht), touches_wait; [exact Hp | constructor]. Qed.

End Touches.

(** Reading the ports leaves [f] of the machine as it is. *)
Class Unread {D X : Type} `{PortDevice D} (ports : list Z) (f : D -> X) : Prop :=
  unread : forall port d, port ∈ ports -> f (dev_in port d).2 = f d.

Create Rewrite HintDb pics.
#[export] Hint Rewrite @master_out @slave_out @master_in @slave_in : pics.
