(* ===== verification/Descriptors.v ===== *)
(** * cpu/idt.c and the descriptor tables of cpu/isr.c

    The gates of the interrupt descriptor table, the entries of the global
    descriptor table and the task state segment, as records with the source's
    fields.  [gate_offset], [entry_base] and [entry_limit] are how the
    processor reads them. *)

From S2P Require Import Prelude.

Definition KERNEL_CS : Z := 0x08.

Definition IDT_ENTRIES : nat := 256.

Record idt_gate_t := mk_gate {
  low_offset : Z;
  sel : Z;
  always0 : Z;
  flags : Z;
  high_offset : Z;
}.

Record idt_register_t := mk_idt_register { idt_limit : Z; idt_base : Z }.

Definition low_16 (address : Z) : Z := u16 (Z.land address 0xFFFF).

Definition high_16 (address : Z) : Z := u16 (Z.land (Z.shiftr address 16) 0xFFFF).

Definition zero_gate : idt_gate_t := mk_gate 0 0 0 0 0.

(** [idt[n] = g]: an index outside the array is undefined. *)
Definition put {A : Type} (t : list A) (n : Z) (g : A) : outcome (list A) :=
  if (0 <=? n) && (n <? Z.of_nat (length t)) then Ok (<[Z.to_nat n := g]> t) else Undef "index".

Definition set_idt_gate (n handler : Z) (idt : list idt_gate_t) : outcome (list idt_gate_t) :=
  put idt n (mk_gate (low_16 handler) KERNEL_CS 0 0x8E (high_16 handler)).

Definition set_idt_gate_user (n handler : Z) (idt : list idt_gate_t) : outcome (list idt_gate_t) :=
  put idt n (mk_gate (low_16 handler) KERNEL_CS 0 0xEE (high_16 handler)).

(** What [lidt] is given; [idt_addr] is the address of the array. *)
Definition set_idt (idt_addr : Z) : idt_register_t :=
  mk_idt_register (u16 (Z.of_nat IDT_ENTRIES * 8 - 1)) idt_addr.

(** ** The global descriptor table *)

Record gdt_entry_t := mk_gdt_entry {
  limit_low : Z;
  base_low : Z;
  base_middle : Z;
  access : Z;
  granularity : Z;
  base_high : Z;
}.

Record gdt_ptr_t := mk_gdt_ptr { gdt_limit : Z; gdt_base : Z }.

(** The fields of the task state segment that the code writes; the others stay
    zero. *)
Record tss_entry_t := mk_tss {
  tss_esp0 : Z;
  tss_ss0 : Z;
  tss_es : Z;
  tss_cs : Z;
  tss_ss : Z;
  tss_ds : Z;
  tss_fs : Z;
  tss_gs : Z;
}.

Definition SIZEOF_tss : Z := 104.

Definition zero_entry : gdt_entry_t := mk_gdt_entry 0 0 0 0 0 0.

Definition gdt_set_gate (num base limit access gran : Z) (gdt : list gdt_entry_t) : outcome (list gdt_entry_t) :=
  put gdt num
    (mk_gdt_entry (Z.land limit 0xFFFF) (Z.land base 0xFFFF) (Z.land (Z.shiftr base 16) 0xFF) access
       (Z.lor (Z.land (Z.shiftr limit 16) 0x0F) (Z.land gran 0xF0)) (Z.land (Z.shiftr base 24) 0xFF)).

(** [tss_addr] is the address of [tss_entry]. *)
Definition write_tss (num ss0 esp0 tss_addr : Z) (gdt : list gdt_entry_t)
    : outcome (list gdt_entry_t * tss_entry_t) :=
  let base := tss_addr in
  let limit := u32 (base + SIZEOF_tss) in
  gdt ← gdt_set_gate num base limit 0xE9 0x00 gdt;
  Ok (gdt, mk_tss esp0 ss0 0x13 0x0B 0x13 0x13 0x13 0x13).

(** The table, the task state segment, and what [lgdt] is given. *)
Definition init_gdt (gdt_addr tss_addr : Z) (gdt : list gdt_entry_t)
    : outcome (list gdt_entry_t * tss_entry_t * gdt_ptr_t) :=
  gdt ← gdt_set_gate 0 0 0 0 0 gdt;
  gdt ← gdt_set_gate 1 0 0xFFFFFFFF 0x9A 0xCF gdt;
  gdt ← gdt_set_gate 2 0 0xFFFFFFFF 0x92 0xCF gdt;
  gdt ← gdt_set_gate 3 0 0xFFFFFFFF 0xFA 0xCF gdt;
  gdt ← gdt_set_gate 4 0 0xFFFFFFFF 0xF2 0xCF gdt;
  r ← write_tss 5 0x10 0x0 tss_addr gdt;
  Ok (r.1, r.2, mk_gdt_ptr (8 * 6 - 1) gdt_addr).

Definition set_kernel_stack (stack : Z) (tss : tss_entry_t) : tss_entry_t :=
  mk_tss stack (tss_ss0 tss) (tss_es tss) (tss_cs tss) (tss_ss tss) (tss_ds tss) (tss_fs tss) (tss_gs tss).

(** ** How the processor reads them *)

Definition gate_offset (g : idt_gate_t) : Z := low_offset g + Z.shiftl (high_offset g) 16.

Definition gate_present (g : idt_gate_t) : bool := Z.testbit (flags g) 7.

Definition gate_dpl (g : idt_gate_t) : Z := Z.land (Z.shiftr (flags g) 5) 3.

Definition gate_type (g : idt_gate_t) : Z := Z.land (flags g) 0x1F.

Definition entry_base (e : gdt_entry_t) : Z :=
  base_low e + Z.shiftl (base_middle e) 16 + Z.shiftl (base_high e) 24.

(** The 20 bits of the limit, and the last offset of the segment: the bit 7 of
    the granularity counts pages. *)
Definition entry_limit20 (e : gdt_entry_t) : Z := limit_low e + Z.shiftl (Z.land (granularity e) 0xF) 16.

Definition entry_limit (e : gdt_entry_t) : Z :=
  if Z.testbit (granularity e) 7 then entry_limit20 e * 0x1000 + 0xFFF else entry_limit20 e.

Definition entry_dpl (e : gdt_entry_t) : Z := Z.land (Z.shiftr (access e) 5) 3.

Definition entry_present (e : gdt_entry_t) : bool := Z.testbit (access e) 7.

(** The kind of the segment, in the low five bits of the access byte, and
    whether its code or its stack is of 32 bits. *)
Definition entry_kind (e : gdt_entry_t) : Z := Z.land (access e) 0x1F.

Definition CODE_EXEC_READ : Z := 0x1A.

Definition DATA_READ_WRITE : Z := 0x12.

Definition TSS_AVAILABLE : Z := 0x09.

Definition entry_32bit (e : gdt_entry_t) : bool := Z.testbit (granularity e) 6.

(** A segment as the processor sees it. *)
Record segment := mk_segment { seg_base : Z; seg_limit : Z; seg_dpl : Z; seg_kind : Z; seg_present : bool; seg_32bit : bool }.

Definition segment_of (e : gdt_entry_t) : segment :=
  mk_segment (entry_base e) (entry_limit e) (entry_dpl e) (entry_kind e) (entry_present e) (entry_32bit e).

(** The entry a selector names: the selector is its offset, and the low two
    bits are the requested ring. *)
Definition selected (gdt : list gdt_entry_t) (selector : Z) : option segment :=
  segment_of <$> gdt !! Z.to_nat (Z.shiftr selector 3).

(** ** Lemmas *)

Lemma put_in {A} (t : list A) n g : 0 <= n < Z.of_nat (length t) -> put t n g = Ok (<[Z.to_nat n := g]> t).
Proof. intros H. unfold put. replace ((0 <=? n) && (n <? Z.of_nat (length t))) with true by lia. reflexivity. Qed.

Lemma put_out {A} (t : list A) n g : n < 0 \/ Z.of_nat (length t) <= n -> put t n g = Undef "index".
Proof. intros H. unfold put. replace ((0 <=? n) && (n <? Z.of_nat (length t))) with false by lia. reflexivity. Qed.

Lemma halves_16 x : 0 <= x < 0x100000000 -> low_16 x + Z.shiftl (high_16 x) 16 = x.
Proof.
  intros Hx. unfold low_16, high_16. rewrite !(land_low_mod _ 16 0xFFFF eq_refl ltac:(lia)).
  rewrite Z.shiftr_div_pow2, Z.shiftl_mul_pow2 by lia. zlia.
Qed.

Lemma base_pieces x :
  0 <= x < 0x100000000 ->
  Z.land x 0xFFFF + Z.shiftl (Z.land (Z.shiftr x 16) 0xFF) 16 + Z.shiftl (Z.land (Z.shiftr x 24) 0xFF) 24 = x.
Proof.
  intros Hx. rewrite (land_low_mod _ 16 0xFFFF eq_refl ltac:(lia)), !(land_low_mod _ 8 0xFF eq_refl ltac:(lia)).
  rewrite !Z.shiftr_div_pow2, !Z.shiftl_mul_pow2 by lia. zlia.
Qed.

Lemma land_lor_nibbles x g : Z.land (Z.lor (Z.land x 0x0F) (Z.land g 0xF0)) 0xF = Z.land x 0xF.
Proof.
  rewrite Z.land_lor_distr_l, <- !Z.land_assoc. change (Z.land 0x0F 0xF) with 0xF.
  change (Z.land 0xF0 0xF) with 0. rewrite Z.land_0_r, Z.lor_0_r. reflexivity.
Qed.

Lemma testbit7_nibbles x g : Z.testbit (Z.lor (Z.land x 0x0F) (Z.land g 0xF0)) 7 = Z.testbit g 7.
Proof.
  rewrite Z.lor_spec, !Z.land_spec. change (Z.testbit 0x0F 7) with false. change (Z.testbit 0xF0 7) with true.
  rewrite andb_false_r, andb_true_r. reflexivity.
Qed.

Lemma testbit6_nibbles x g : Z.testbit (Z.lor (Z.land x 0x0F) (Z.land g 0xF0)) 6 = Z.testbit g 6.
Proof.
  rewrite Z.lor_spec, !Z.land_spec. change (Z.testbit 0x0F 6) with false. change (Z.testbit 0xF0 6) with true.
  rewrite andb_false_r, andb_true_r. reflexivity.
Qed.

(** The limit that the fields [gdt_set_gate] writes give back. *)
Lemma limit20_pieces limit gran bl bm acc bh :
  entry_limit20 (mk_gdt_entry (Z.land limit 0xFFFF) bl bm acc (Z.lor (Z.land (Z.shiftr limit 16) 0x0F) (Z.land gran 0xF0)) bh) =
    limit mod 0x100000.
Proof.
  unfold entry_limit20. cbn [limit_low granularity]. rewrite land_lor_nibbles.
  rewrite (land_low_mod _ 16 0xFFFF eq_refl ltac:(lia)), (land_low_mod _ 4 0xF eq_refl ltac:(lia)).
  rewrite Z.shiftr_div_pow2, Z.shiftl_mul_pow2 by lia. zlia.
Qed.

Lemma limit_pieces limit gran bl bm acc bh :
  entry_limit (mk_gdt_entry (Z.land limit 0xFFFF) bl bm acc (Z.lor (Z.land (Z.shiftr limit 16) 0x0F) (Z.land gran 0xF0)) bh) =
    (if Z.testbit gran 7 then limit mod 0x100000 * 0x1000 + 0xFFF else limit mod 0x100000).
Proof. unfold entry_limit. rewrite limit20_pieces. cbn [granularity]. now rewrite testbit7_nibbles. Qed.

(** C40: [set_idt_gate] and [set_idt_gate_user] encode a handler: the processor
    reads back the handler's address, the kernel's code segment, and a present
    32-bit interrupt gate, of ring 0 or ring 3; the other gates stay.  An index
    outside the table is undefined. *)
Theorem idt_gate_roundtrip (n handler : Z) (idt : list idt_gate_t) :
  0 <= handler < 0x100000000 ->
  (n < 0 \/ Z.of_nat (length idt) <= n ->
     set_idt_gate n handler idt = Undef "index" /\ set_idt_gate_user n handler idt = Undef "index") /\
  (0 <= n < Z.of_nat (length idt) ->
     exists g gu, set_idt_gate n handler idt = Ok (<[Z.to_nat n := g]> idt) /\
       set_idt_gate_user n handler idt = Ok (<[Z.to_nat n := gu]> idt) /\
       gate_offset g = handler /\ gate_offset gu = handler /\ sel g = 0x08 /\ sel gu = 0x08 /\
       gate_present g = true /\ gate_present gu = true /\ gate_type g = 14 /\ gate_type gu = 14 /\
       gate_dpl g = 0 /\ gate_dpl gu = 3).
Proof.
  intros Hh. unfold set_idt_gate, set_idt_gate_user. split; intros Hn.
  - rewrite !put_out by exact Hn. auto.
  - do 2 eexists. rewrite !put_in by exact Hn. split_and!; try reflexivity; apply (halves_16 handler Hh).
Qed.

Lemma idt_gate_roundtrip_witness :
  exists g, set_idt_gate 33 0x00104ABC (replicate 256 zero_gate) = Ok (<[33%nat := g]> (replicate 256 zero_gate)) /\
    gate_offset g = 0x00104ABC.
Proof.
  destruct (idt_gate_roundtrip 33 0x00104ABC (replicate 256 zero_gate)) as [_ H]; [lia|].
  destruct H as (g & gu & E & _ & Ho & _); [rewrite length_replicate; lia|].
  exists g. split; [exact E | exact Ho].
Defined.

(** [gdt_set_gate] encodes a segment: the processor reads back the base, the
    low 20 bits of the limit (pages with the granularity bit) and the access
    byte; the other entries stay. *)
Theorem gdt_gate_roundtrip (num base limit acc gran : Z) (gdt : list gdt_entry_t) :
  0 <= base < 0x100000000 -> 0 <= limit < 0x100000000 -> 0 <= num < Z.of_nat (length gdt) ->
  exists e, gdt_set_gate num base limit acc gran gdt = Ok (<[Z.to_nat num := e]> gdt) /\
    entry_base e = base /\ entry_limit20 e = limit mod 0x100000 /\ access e = acc /\
    entry_limit e = (if Z.testbit gran 7 then limit mod 0x100000 * 0x1000 + 0xFFF else limit mod 0x100000).
Proof.
  intros Hb Hl Hn. unfold gdt_set_gate. rewrite put_in by exact Hn. eexists. split; [reflexivity|].
  split_and!.
  - apply (base_pieces base Hb).
  - apply limit20_pieces.
  - reflexivity.
  - apply limit_pieces.
Qed.

Lemma gdt_gate_roundtrip_witness :
  exists e, gdt_set_gate 1 0 0xFFFFFFFF 0x9A 0xCF (replicate 6 zero_entry) = Ok (<[1%nat := e]> (replicate 6 zero_entry)) /\
    entry_limit e = 0xFFFFFFFF.
Proof.
  destruct (gdt_gate_roundtrip 1 0 0xFFFFFFFF 0x9A 0xCF (replicate 6 zero_entry)) as (e & E & _ & _ & _ & Hl);
    [lia | lia | simpl; lia |]. exists e. split; [exact E | exact Hl].
Defined.

(** C30: [init_gdt] sets up the segments that the rest of the kernel names by
    their selectors, as the processor reads them: at 0x08 and 0x10 present
    flat 32-bit segments of 4 GB of ring 0 for code and data, at 0x18 and 0x20
    the same of ring 3, and at 0x28 a present task state segment at its address.
    The task state names the data segment of ring 0 for the kernel stack.
    The table register covers exactly the six entries.  The limit of the task
    state segment is the low 20 bits of its end, not of its size. *)
Theorem init_gdt_segments (gdt_addr tss_addr : Z) (gdt : list gdt_entry_t) :
  length gdt = 6%nat -> 0 <= tss_addr -> tss_addr + SIZEOF_tss < 0x100000000 ->
  exists gdt' tss p, init_gdt gdt_addr tss_addr gdt = Ok (gdt', tss, p) /\
    p = mk_gdt_ptr (8 * Z.of_nat (length gdt') - 1) gdt_addr /\ gdt' !! 0%nat = Some zero_entry /\
    selected gdt' KERNEL_CS = Some (mk_segment 0 0xFFFFFFFF 0 CODE_EXEC_READ true true) /\
    selected gdt' 0x10 = Some (mk_segment 0 0xFFFFFFFF 0 DATA_READ_WRITE true true) /\
    selected gdt' 0x18 = Some (mk_segment 0 0xFFFFFFFF 3 CODE_EXEC_READ true true) /\
    selected gdt' 0x20 = Some (mk_segment 0 0xFFFFFFFF 3 DATA_READ_WRITE true true) /\
    selected gdt' 0x28 = Some (mk_segment tss_addr ((tss_addr + SIZEOF_tss) mod 0x100000) 3 TSS_AVAILABLE true false) /\
    selected gdt' (tss_ss0 tss) = Some (mk_segment 0 0xFFFFFFFF 0 DATA_READ_WRITE true true) /\
    selected gdt' (tss_cs tss) = Some (mk_segment 0 0xFFFFFFFF 0 CODE_EXEC_READ true true) /\
    Forall (fun s => selected gdt' s = Some (mk_segment 0 0xFFFFFFFF 0 DATA_READ_WRITE true true) /\ Z.land s 3 = 3)
      [tss_ss tss; tss_ds tss; tss_es tss; tss_fs tss; tss_gs tss].
Proof.
  intros Hlen Ha He. destruct gdt as [|g0 [|g1 [|g2 [|g3 [|g4 [|g5 [|]]]]]]]; try discriminate Hlen.
  unfold init_gdt, write_tss, SIZEOF_tss in *. rewrite u32_small by lia.
  do 3 eexists. split; [reflexivity|]. split_and!; try reflexivity; [|repeat constructor].
  change (Some (segment_of (mk_gdt_entry (Z.land (tss_addr + 104) 0xFFFF) (Z.land tss_addr 0xFFFF)
    (Z.land (Z.shiftr tss_addr 16) 0xFF) 0xE9 (Z.lor (Z.land (Z.shiftr (tss_addr + 104) 16) 0x0F) (Z.land 0 0xF0))
    (Z.land (Z.shiftr tss_addr 24) 0xFF))) = Some (mk_segment tss_addr ((tss_addr + 104) mod 0x100000) 3 TSS_AVAILABLE true false)).
  unfold segment_of. rewrite limit_pieces. unfold entry_base, entry_32bit. cbn [base_low base_middle base_high granularity].
  rewrite base_pieces, testbit6_nibbles by lia. reflexivity.
Qed.

Lemma init_gdt_segments_witness :
  exists gdt' tss p, init_gdt 0x5000 0x6000 (replicate 6 zero_entry) = Ok (gdt', tss, p) /\
    selected gdt' 0x28 = Some (mk_segment 0x6000 0x6068 3 TSS_AVAILABLE true false).
Proof.
  destruct (init_gdt_segments 0x5000 0x6000 (replicate 6 zero_entry)) as (gdt' & tss & p & E & _ & _ & _ & _ & _ & _ & Ht & _);
    [reflexivity | lia | reflexivity |].
  exists gdt', tss, p. split; [exact E | exact Ht].
Defined.
