(* ===== verification/Interrupts.v ===== *)
(** * cpu/isr.c: the interrupt controllers, the gates and the dispatch

    The machine is a type [D] with the ports' operations.  A handler is named
    by a constructor of [isr_t], the five functions the kernel registers; what
    a handler does to the machine is the argument [run].  A handler gets the
    registers by value, so what it writes there is lost when it returns. *)

From S2P Require Import Prelude Ports Descriptors.

Record registers_t := mk_registers {
  r_ds : Z; r_edi : Z; r_esi : Z; r_ebp : Z; r_esp : Z; r_ebx : Z; r_edx : Z; r_ecx : Z; r_eax : Z;
  r_int_no : Z; r_err_code : Z;
  r_eip : Z; r_cs : Z; r_eflags : Z; r_useresp : Z; r_ss : Z;
}.

Definition with_eip (eip : Z) (r : registers_t) : registers_t :=
  mk_registers (r_ds r) (r_edi r) (r_esi r) (r_ebp r) (r_esp r) (r_ebx r) (r_edx r) (r_ecx r) (r_eax r)
    (r_int_no r) (r_err_code r) eip (r_cs r) (r_eflags r) (r_useresp r) (r_ss r).

Definition with_eax (eax : Z) (r : registers_t) : registers_t :=
  mk_registers (r_ds r) (r_edi r) (r_esi r) (r_ebp r) (r_esp r) (r_ebx r) (r_edx r) (r_ecx r) eax
    (r_int_no r) (r_err_code r) (r_eip r) (r_cs r) (r_eflags r) (r_useresp r) (r_ss r).

Inductive isr_t := timer_callback_isr | keyboard_callback_isr | page_fault_isr | general_fault_isr | syscall_handler_isr.

#[export] Instance isr_t_eq_dec : EqDecision isr_t.
Proof. solve_decision. Defined.

Definition PIC1_COMMAND : Z := 0x20.

Definition PIC1_DATA : Z := 0x21.

Definition PIC2_COMMAND : Z := 0xA0.

Definition PIC2_DATA : Z := 0xA1.

Definition ICW1_INIT : Z := 0x10.

Definition ICW1_ICW4 : Z := 0x01.

Definition ICW4_8086 : Z := 0x01.

Definition PIC_EOI : Z := 0x20.

(** The table of handlers: 256 entries, [None] for the null pointer. *)
Definition interrupt_handlers : list (option isr_t) := replicate 256 None.

Definition register_interrupt_handler (n : Z) (handler : isr_t) (hs : list (option isr_t))
    : outcome (list (option isr_t)) :=
  put hs (u8 n) (Some handler).

Definition exception_messages : list string :=
  ["Division By Zero"; "Debug"; "Non Maskable Interrupt"; "Breakpoint"; "Into Detected Overflow";
   "Out of Bounds"; "Invalid Opcode"; "No Coprocessor";
   "Double Fault"; "Coprocessor Segment Overrun"; "Bad TSS"; "Segment Not Present"; "Stack Fault";
   "General Protection Fault"; "Page Fault"; "Unknown Interrupt";
   "Coprocessor Fault"; "Alignment Check"; "Machine Check"; "Reserved"; "Reserved"; "Reserved";
   "Reserved"; "Reserved";
   "Reserved"; "Reserved"; "Reserved"; "Reserved"; "Reserved"; "Reserved"; "Reserved"; "Reserved"]%string.

Section Interrupts.
Context {D : Type} `{PortDevice D}.

Definition PIC_sendEOI (irq : Z) (d : D) : D :=
  let d := if 40 <=? irq then port_byte_out PIC2_COMMAND PIC_EOI d else d in
  port_byte_out PIC1_COMMAND PIC_EOI d.

Definition PIC_remap (offset1 offset2 : Z) (d : D) : D :=
  let '(a1, d) := port_byte_in PIC1_DATA d in
  let '(a2, d) := port_byte_in PIC2_DATA d in
  let d := io_wait (port_byte_out PIC1_COMMAND (Z.lor ICW1_INIT ICW1_ICW4) d) in
  let d := io_wait (port_byte_out PIC2_COMMAND (Z.lor ICW1_INIT ICW1_ICW4) d) in
  let d := io_wait (port_byte_out PIC1_DATA offset1 d) in
  let d := io_wait (port_byte_out PIC2_DATA offset2 d) in
  let d := io_wait (port_byte_out PIC1_DATA 4 d) in
  let d := io_wait (port_byte_out PIC2_DATA 2 d) in
  let d := io_wait (port_byte_out PIC1_DATA ICW4_8086 d) in
  let d := io_wait (port_byte_out PIC2_DATA ICW4_8086 d) in
  let d := port_byte_out PIC1_DATA a1 d in
  port_byte_out PIC2_DATA a2 d.

Definition IRQ_set_mask (IRQline : Z) (d : D) : D :=
  let '(port, line) := if IRQline <? 8 then (PIC1_DATA, IRQline) else (PIC2_DATA, u8 (IRQline - 8)) in
  let '(v, d) := port_byte_in port d in
  let value := u8 (Z.lor v (Z.shiftl 1 line)) in
  port_byte_out port value d.

Definition IRQ_clear_mask (IRQline : Z) (d : D) : D :=
  let '(port, line) := if IRQline <? 8 then (PIC1_DATA, IRQline) else (PIC2_DATA, u8 (IRQline - 8)) in
  let '(v, d) := port_byte_in port d in
  let value := u8 (Z.land v (Z.lnot (Z.shiftl 1 line))) in
  port_byte_out port value d.

(** The gates [first], [first + 1], ... of the handlers [hs]. *)
Fixpoint set_idt_gates (first : Z) (hs : list Z) (idt : list idt_gate_t) : outcome (list idt_gate_t) :=
  match hs with
  | [] => Ok idt
  | h :: hs' => idt ← set_idt_gate first h idt; set_idt_gates (first + 1) hs' idt
  end.

(** [isr n] and [irq n] are the addresses of the assembly entry points,
    [isr3_handler] that of the C one. *)
Definition isr_install (isr irq : Z -> Z) (isr3_handler isr128 idt_addr : Z) (d : D)
    : outcome (list idt_gate_t * idt_register_t * D) :=
  let idt := replicate IDT_ENTRIES zero_gate in
  idt ← set_idt_gates 0 [isr 0; isr 1; isr 2; isr3_handler; isr 4; isr 5; isr 6; isr 7; isr 8; isr 9;
    isr 10; isr 11; isr 12; isr 13; isr 14; isr 15; isr 16; isr 17; isr 18; isr 19; isr 20; isr 21;
    isr 22; isr 23; isr 24; isr 25; isr 26; isr 27; isr 28; isr 29; isr 30; isr 31] idt;
  let d := PIC_remap 0x20 0x28 d in
  idt ← set_idt_gates 32 [irq 0; irq 1; irq 2; irq 3; irq 4; irq 5; irq 6; irq 7; irq 8; irq 9; irq 10;
    irq 11; irq 12; irq 13; irq 14; irq 15] idt;
  idt ← set_idt_gate_user 128 isr128 idt;
  Ok (idt, set_idt idt_addr, d).

Context (run : isr_t -> registers_t -> D -> outcome (registers_t * D)).

(** The registers that [isr_handler] leaves on the stack, and the machine. *)
Definition isr_handler (hs : list (option isr_t)) (regs : registers_t) (d : D) : outcome (registers_t * D) :=
  let int_no := Z.land (r_int_no regs) 0xFF in
  let regs := if int_no =? 0 then with_eip (u32 (r_eip regs + 2)) regs else regs in
  match hs !! Z.to_nat int_no with
  | Some (Some handler) => r ← run handler regs d; Ok (regs, r.2)
  | Some None => Ok (regs, d)
  | None => Undef "index"
  end.

Definition irq_handler (hs : list (option isr_t)) (r : registers_t) (d : D) : outcome (registers_t * D) :=
  let d := PIC_sendEOI (u8 (r_int_no r)) d in
  match hs !! Z.to_nat (r_int_no r) with
  | Some (Some handler) => q ← run handler r d; Ok (r, q.2)
  | Some None => Ok (r, d)
  | None => Undef "index"
  end.

End Interrupts.

(** ** Lemmas *)

(** [register_interrupt_handler] sets one entry. *)
Lemma register_sets n h hs : 0 <= n < 256 -> length hs = 256%nat ->
  register_interrupt_handler n h hs = Ok (<[Z.to_nat n := Some h]> hs).
Proof. intros Hn Hl. unfold register_interrupt_handler. rewrite u8_small by lia. apply put_in. lia. Qed.

Lemma set_idt_gates_in first hs idt :
  0 <= first -> first + Z.of_nat (length hs) <= Z.of_nat (length idt) ->
  Forall (fun h => 0 <= h < 0x100000000) hs ->
  exists idt', set_idt_gates first hs idt = Ok idt' /\ length idt' = length idt /\
    (forall n : nat, Z.of_nat n < first \/ first + Z.of_nat (length hs) <= Z.of_nat n -> idt' !! n = idt !! n) /\
    (forall (n : nat) h, hs !! n = Some h ->
       exists g, idt' !! (Z.to_nat first + n)%nat = Some g /\ gate_offset g = h /\ sel g = 0x08 /\ flags g = 0x8E).
Proof.
  revert first idt. induction hs as [|h hs IH]; intros first idt Hf Hl Hh; simpl in Hl.
  - exists idt. split_and!; [reflexivity | reflexivity | reflexivity | intros n h Hn; discriminate].
  - apply Forall_cons in Hh as [Hh0 Hh]. cbn [set_idt_gates]. unfold set_idt_gate.
    rewrite put_in by lia. cbn [mbind outcome_bind].
    set (g := mk_gate _ _ _ _ _).
    destruct (IH (first + 1) (<[Z.to_nat first := g]> idt)) as (idt' & E & Hlen & Hout & Hin);
      [lia | rewrite length_insert; lia | exact Hh |].
    exists idt'. rewrite length_insert in Hlen. split_and!; [exact E | exact Hlen | |].
    + intros n Hn. simpl in Hn. rewrite Hout by lia. apply list_lookup_insert_ne. lia.
    + intros [|n] h' Hn; simpl in Hn.
      * injection Hn as <-. exists g. rewrite Hout by lia. rewrite Nat.add_0_r, list_lookup_insert_eq by lia.
        split_and!; [reflexivity | apply (halves_16 h Hh0) | reflexivity | reflexivity].
      * destruct (Hin n h' Hn) as (g' & Hg & Hr). exists g'. split; [|exact Hr].
        rewrite <- Hg. f_equal. lia.
Qed.

Section Pics.
Context {D : Type} `{HP : PortDevice D} `{!TwoPics D}.

Lemma port_in_master d : 0 <= pic_imr (master d) < 0x100 -> port_byte_in 0x21 d = (pic_imr (master d), d).
Proof.
  intros Hr. unfold port_byte_in. change (u16 0x21) with 0x21. rewrite master_in, u8_small by exact Hr. reflexivity.
Qed.

Lemma port_in_slave d : 0 <= pic_imr (slave d) < 0x100 -> port_byte_in 0xA1 d = (pic_imr (slave d), d).
Proof.
  intros Hr. unfold port_byte_in. change (u16 0xA1) with 0xA1. rewrite slave_in, u8_small by exact Hr. reflexivity.
Qed.

(** The two controllers as a machine of their own. *)
Definition pics_of (d : D) : two_pics := (master d, slave d).

Lemma pics_of_out port v d : pics_of (dev_out port v d) = dev_out port v (pics_of d).
Proof. unfold pics_of. cbn [dev_out two_pics_ports fst snd]. now rewrite master_out, slave_out. Qed.

Lemma PIC_remap_pics o1 o2 d :
  pic_expect (master d) = 0 -> pic_expect (slave d) = 0 ->
  0 <= pic_imr (master d) < 0x100 -> 0 <= pic_imr (slave d) < 0x100 ->
  master (PIC_remap o1 o2 d) = mk_pic (pic_imr (master d)) (Z.land (u8 o1) 0xF8) 4 1 0 0 /\
  slave (PIC_remap o1 o2 d) = mk_pic (pic_imr (slave d)) (Z.land (u8 o2) 0xF8) 2 1 0 0.
Proof.
  intros Hm Hs Hrm Hrs. unfold PIC_remap, PIC1_DATA, PIC2_DATA, PIC1_COMMAND, PIC2_COMMAND.
  rewrite port_in_master by exact Hrm. rewrite port_in_slave by exact Hrs.
  unfold io_wait, port_byte_out. rewrite !(u8_small (pic_imr _)) by assumption.
  change (@master D HP TwoPics0) with (fun d => (pics_of d).1) in *.
  change (@slave D HP TwoPics0) with (fun d => (pics_of d).2) in *. cbv beta in *.
  generalize (u8 o1) as v1, (u8 o2) as v2. intros v1 v2. rewrite !pics_of_out. revert Hm Hs.
  generalize (pics_of d) as p. intros [[i1 v1' c1 m1 s1 em] [i2 v2' c2 m2 s2 es]] Hm Hs.
  cbn [fst snd pic_expect pic_imr] in *. subst em es. split; cbv -[Z.land]; reflexivity.
Qed.

(** The ports of the two controllers, and that of [io_wait]. *)
Definition pic_ins : list Z := [0x21; 0xA1].

Definition pic_outs : list Z := [0x20; 0x21; 0xA0; 0xA1; 0x80].

Lemma PIC_remap_only o1 o2 d : touches pic_ins pic_outs d (PIC_remap o1 o2 d).
Proof.
  unfold PIC_remap. destruct (port_byte_in PIC1_DATA d) as [a1 d1] eqn:E1. destruct (port_byte_in PIC2_DATA d1) as [a2 d2] eqn:E2.
  eapply touches_byte_in; [|exact E1|]; [by left|]. eapply touches_byte_in; [|exact E2|]; [by right; left|]. clear E1 E2. cbv zeta.
  repeat (apply touches_then_out || apply touches_then_wait; [apply (bool_decide_unpack _); vm_compute; exact I|]). constructor.
Qed.

(** The machine's interrupt controllers operate. *)
Definition pics_ready (d : D) : Prop :=
  pic_expect (master d) = 0 /\ pic_expect (slave d) = 0 /\
  0 <= pic_imr (master d) < 0x100 /\ 0 <= pic_imr (slave d) < 0x100.

(** Interrupt line [j] of the sixteen is masked. *)
Definition line_masked (d : D) (j : Z) : bool :=
  if j <? 8 then Z.testbit (pic_imr (master d)) j else Z.testbit (pic_imr (slave d)) (j - 8).

Lemma pics_mask_out port v d :
  pics_ready d -> 0 <= v < 0x100 ->
  (port = 0x21 -> pic_imr (master (port_byte_out port v d)) = v /\ pic_imr (slave (port_byte_out port v d)) = pic_imr (slave d)) /\
  (port = 0xA1 -> pic_imr (slave (port_byte_out port v d)) = v /\ pic_imr (master (port_byte_out port v d)) = pic_imr (master d)).
Proof.
  intros (Hm & Hs & _) Hv. unfold port_byte_out. rewrite (u8_small v) by exact Hv.
  split; intros ->; rewrite master_out, slave_out; cbn [u16 Z.modulo Z.div_eucl]; unfold pic_data; rewrite ?Hm, ?Hs; split; reflexivity.
Qed.

End Pics.

(** A bit of a mask set or cleared by the source's expressions. *)
Lemma mask_bit_set v n i :
  0 <= v < 0x100 -> 0 <= n < 8 -> 0 <= i < 8 ->
  Z.testbit (u8 (Z.lor v (Z.shiftl 1 n))) i = (i =? n) || Z.testbit v i.
Proof.
  intros Hv Hn Hi. unfold u8. change 0x100 with (2 ^ 8). rewrite Z.mod_pow2_bits_low, Z.lor_spec by lia.
  rewrite Z.shiftl_spec by lia. destruct (Z.eqb_spec i n) as [->|Hne].
  - rewrite Z.sub_diag, orb_true_r. reflexivity.
  - replace (Z.testbit 1 (i - n)) with false; [apply orb_false_r|].
    symmetry. destruct (Z.lt_ge_cases i n); [apply Z.testbit_neg_r; lia|].
    apply Z.bits_above_log2; simpl; lia.
Qed.

Lemma mask_bit_clear v n i :
  0 <= v < 0x100 -> 0 <= n < 8 -> 0 <= i < 8 ->
  Z.testbit (u8 (Z.land v (Z.lnot (Z.shiftl 1 n)))) i = negb (i =? n) && Z.testbit v i.
Proof.
  intros Hv Hn Hi. unfold u8. change 0x100 with (2 ^ 8). rewrite Z.mod_pow2_bits_low, Z.land_spec, Z.lnot_spec by lia.
  rewrite Z.shiftl_spec by lia. destruct (Z.eqb_spec i n) as [->|Hne].
  - rewrite Z.sub_diag. apply andb_false_r.
  - replace (Z.testbit 1 (i - n)) with false; [apply andb_true_r|].
    symmetry. destruct (Z.lt_ge_cases i n); [apply Z.testbit_neg_r; lia|].
    apply Z.bits_above_log2; simpl; lia.
Qed.

(** ** Properties *)

(** [IRQ_set_mask] and [IRQ_clear_mask], on two operating 8259 controllers,
    mask and unmask exactly the given one of the sixteen lines. *)
Theorem IRQ_mask_one_line {D : Type} `{PortDevice D} `{!TwoPics D} (line j : Z) (d : D) :
  pics_ready d -> 0 <= line < 16 -> 0 <= j < 16 ->
  line_masked (IRQ_set_mask line d) j = (j =? line) || line_masked d j /\
  line_masked (IRQ_clear_mask line d) j = negb (j =? line) && line_masked d j.
Proof.
  intros Hr Hl Hj. pose proof Hr as (_ & _ & Hm & Hs).
  unfold IRQ_set_mask, IRQ_clear_mask, line_masked, PIC1_DATA, PIC2_DATA. destruct (Z.ltb_spec line 8).
  - rewrite port_in_master by exact Hm. split.
    + destruct (proj1 (pics_mask_out 0x21 (u8 (Z.lor (pic_imr (master d)) (Z.shiftl 1 line))) d Hr (u8_range _)) eq_refl) as [-> ->].
      destruct (Z.ltb_spec j 8); [apply mask_bit_set; lia|]. replace (j =? line) with false by lia. reflexivity.
    + destruct (proj1 (pics_mask_out 0x21 (u8 (Z.land (pic_imr (master d)) (Z.lnot (Z.shiftl 1 line)))) d Hr (u8_range _)) eq_refl) as [-> ->].
      destruct (Z.ltb_spec j 8); [apply mask_bit_clear; lia|]. replace (j =? line) with false by lia. reflexivity.
  - rewrite port_in_slave by exact Hs. rewrite (u8_small (line - 8)) by lia. split.
    + destruct (proj2 (pics_mask_out 0xA1 (u8 (Z.lor (pic_imr (slave d)) (Z.shiftl 1 (line - 8)))) d Hr (u8_range _)) eq_refl) as [-> ->].
      destruct (Z.ltb_spec j 8); [replace (j =? line) with false by lia; reflexivity|].
      rewrite mask_bit_set by lia. f_equal. lia.
    + destruct (proj2 (pics_mask_out 0xA1 (u8 (Z.land (pic_imr (slave d)) (Z.lnot (Z.shiftl 1 (line - 8))))) d Hr (u8_range _)) eq_refl) as [-> ->].
      destruct (Z.ltb_spec j 8); [replace (j =? line) with false by lia; reflexivity|].
      rewrite mask_bit_clear by lia. f_equal. f_equal. lia.
Qed.

(** Two controllers after the boot, all lines unmasked. *)
Definition fresh_pics : two_pics := (mk_pic 0 0x08 4 1 0 0, mk_pic 0 0x70 2 1 0 0).

Lemma fresh_pics_ready : pics_ready fresh_pics.
Proof. unfold pics_ready, fresh_pics. simpl. lia. Qed.

Lemma IRQ_mask_one_line_witness :
  line_masked (IRQ_set_mask 9 fresh_pics) 9 = (9 =? 9) || line_masked fresh_pics 9 /\
  line_masked (IRQ_clear_mask 9 fresh_pics) 9 = negb (9 =? 9) && line_masked fresh_pics 9.
Proof. apply (IRQ_mask_one_line 9 9 fresh_pics fresh_pics_ready); lia. Defined.

(** The entry points are addresses. *)
Definition entry_points (isr irq : Z -> Z) (isr3_handler isr128 : Z) : Prop :=
  (forall n, 0 <= isr n < 0x100000000) /\ (forall n, 0 <= irq n < 0x100000000) /\
  0 <= isr3_handler < 0x100000000 /\ 0 <= isr128 < 0x100000000.

(** The gate of vector [n] leads to [handler], from ring [dpl]. *)
Definition gate_to (idt : list idt_gate_t) (n : nat) (handler dpl : Z) : Prop :=
  exists g, idt !! n = Some g /\ gate_offset g = handler /\ gate_present g = true /\ gate_dpl g = dpl /\ gate_type g = 14.

Lemma gate_to_of idt n h : (exists g, idt !! n = Some g /\ gate_offset g = h /\ sel g = 0x08 /\ flags g = 0x8E) -> gate_to idt n h 0.
Proof. intros (g & Hg & Ho & _ & Hf). exists g. unfold gate_present, gate_dpl, gate_type. rewrite Hf. auto. Qed.

(** The vector that line [i] raises. *)
Definition line_vector {D : Type} `{TwoPics D} (d : D) (i : Z) : Z :=
  if i <? 8 then pic_vector (master d) + i else pic_vector (slave d) + (i - 8).

Lemma isr_install_ok {D : Type} `{PortDevice D} `{!TwoPics D}
    (isr irq : Z -> Z) (isr3_handler isr128 idt_addr : Z) (d : D) :
  pics_ready d -> entry_points isr irq isr3_handler isr128 ->
  exists idt d', isr_install isr irq isr3_handler isr128 idt_addr d =
      Ok (idt, mk_idt_register 2047 idt_addr, d') /\
    d' = PIC_remap 0x20 0x28 d /\
    (forall n : nat, (n < 32)%nat -> gate_to idt n (if decide (n = 3%nat) then isr3_handler else isr (Z.of_nat n)) 0) /\
    (forall i : nat, (i < 16)%nat -> gate_to idt (Z.to_nat (line_vector d' (Z.of_nat i))) (irq (Z.of_nat i)) 0) /\
    gate_to idt 128 isr128 3 /\
    (forall n : nat, (48 <= n < 256)%nat -> n <> 128%nat -> idt !! n = Some zero_gate) /\
    pics_ready d' /\ (forall j, line_masked d' j = line_masked d j).
Proof.
  intros (Hm & Hs & Hrm & Hrs) (Hisr & Hirq & H3 & H128). unfold isr_install.
  destruct (PIC_remap_pics 0x20 0x28 d Hm Hs Hrm Hrs) as [Em Es].
  change (Z.land (u8 0x20) 0xF8) with 0x20 in Em. change (Z.land (u8 0x28) 0xF8) with 0x28 in Es.
  match goal with |- context [set_idt_gates 0 ?l ?t] =>
    destruct (set_idt_gates_in 0 l t) as (t1 & E1 & L1 & O1 & I1) end;
    [lia | simpl; lia | repeat constructor; first [apply Hisr | apply H3] |].
  rewrite length_replicate in L1. unfold IDT_ENTRIES in *. rewrite E1. cbn [mbind outcome_bind].
  match goal with |- context [set_idt_gates 32 ?l ?t] =>
    destruct (set_idt_gates_in 32 l t) as (t2 & E2 & L2 & O2 & I2) end;
    [lia | rewrite L1; simpl; lia | repeat constructor; apply Hirq |].
  rewrite E2. cbn [mbind outcome_bind]. unfold set_idt_gate_user. rewrite put_in by (rewrite L2, L1; simpl; lia).
  cbn [mbind outcome_bind]. do 2 eexists. split; [reflexivity|]. split; [reflexivity|].
  set (g := mk_gate _ _ _ _ _). cbn [length] in O1, O2.
  assert (forall n, n <> 128%nat -> <[Z.to_nat 128 := g]> t2 !! n = t2 !! n) as Hg
    by (intros n Hn; apply list_lookup_insert_ne; lia).
  assert (forall n h, n <> 128%nat -> gate_to t2 n h 0 -> gate_to (<[Z.to_nat 128 := g]> t2) n h 0) as Hgate
    by (intros n h Hn (x & Hx); exists x; rewrite Hg; auto).
  split_and!.
  - intros n Hn. apply Hgate; [lia|]. apply gate_to_of. rewrite O2 by lia.
    apply (I1 n). do 32 (destruct n as [|n]; [reflexivity|]). lia.
  - intros i Hi. assert (line_vector (PIC_remap 0x20 0x28 d) (Z.of_nat i) = 32 + Z.of_nat i) as ->.
    { unfold line_vector. rewrite Em, Es. cbn -[Z.add Z.of_nat Z.sub]. destruct (Z.ltb_spec (Z.of_nat i) 8); lia. }
    apply Hgate; [lia|]. apply gate_to_of. replace (Z.to_nat (32 + Z.of_nat i)) with (Z.to_nat 32 + i)%nat by lia.
    apply (I2 i). do 16 (destruct i as [|i]; [reflexivity|]). lia.
  - exists g. rewrite list_lookup_insert_eq by (rewrite L2, L1; simpl; lia).
    split_and!; [reflexivity | apply (halves_16 isr128 H128) | reflexivity | reflexivity | reflexivity].
  - intros n Hn Hne. rewrite Hg, O2, O1 by (exact Hne || lia). apply lookup_replicate_2. simpl. lia.
  - unfold pics_ready. rewrite Em, Es. auto.
  - intros j. unfold line_masked. rewrite Em, Es. reflexivity.
Qed.

(** C29: [isr_install] connects the interrupts: the gates of the exceptions 0..31
    lead to their entry points (the breakpoint's to the C handler), line [i] of
    the two controllers raises a vector whose gate leads to entry point
    [irq i], the system call gate is open to ring 3, every other gate is not
    present, and the masks of the lines are what they were. *)
Theorem isr_install_connects {D : Type} `{PortDevice D} `{!TwoPics D}
    (isr irq : Z -> Z) (isr3_handler isr128 idt_addr : Z) (d : D) :
  pics_ready d -> entry_points isr irq isr3_handler isr128 ->
  exists idt d', isr_install isr irq isr3_handler isr128 idt_addr d =
      Ok (idt, mk_idt_register 2047 idt_addr, d') /\
    (forall n : nat, (n < 32)%nat -> gate_to idt n (if decide (n = 3%nat) then isr3_handler else isr (Z.of_nat n)) 0) /\
    (forall i : nat, (i < 16)%nat -> gate_to idt (Z.to_nat (line_vector d' (Z.of_nat i))) (irq (Z.of_nat i)) 0) /\
    gate_to idt 128 isr128 3 /\
    (forall n : nat, (48 <= n < 256)%nat -> n <> 128%nat -> idt !! n = Some zero_gate) /\
    pics_ready d' /\ (forall j, line_masked d' j = line_masked d j).
Proof.
  intros Hp He. destruct (isr_install_ok isr irq isr3_handler isr128 idt_addr d Hp He) as (idt & d' & E & _ & H'). eauto.
Qed.

Lemma isr_install_connects_witness :
  exists idt d', isr_install (fun n => u8 n + 0x1000) (fun n => u8 n + 0x2000) 0x3000 0x4000 0x5000 fresh_pics =
      Ok (idt, mk_idt_register 2047 0x5000, d') /\
    gate_to idt 33 0x2001 0.
Proof.
  assert (entry_points (fun n => u8 n + 0x1000) (fun n => u8 n + 0x2000) 0x3000 0x4000) as He.
  { split_and!; try lia; intros n; pose proof (u8_range n); lia. }
  destruct (isr_install_connects (fun n => u8 n + 0x1000) (fun n => u8 n + 0x2000) 0x3000 0x4000 0x5000 fresh_pics
    fresh_pics_ready He) as (idt & d' & E & _ & Hi & _).
  exists idt, d'. split; [exact E|]. specialize (Hi 1%nat ltac:(lia)).
  vm_compute in E. injection E as _ <-. exact Hi.
Defined.

(** ** Dispatch *)

(** The interrupts in service after the end-of-interrupt of a vector. *)
Lemma PIC_sendEOI_pics {D : Type} `{PortDevice D} `{!TwoPics D} (v : Z) (d : D) :
  pic_isr (master (PIC_sendEOI v d)) = clear_lowest 8 0 (pic_isr (master d)) /\
  pic_isr (slave (PIC_sendEOI v d)) =
    (if 40 <=? v then clear_lowest 8 0 (pic_isr (slave d)) else pic_isr (slave d)).
Proof.
  unfold PIC_sendEOI, PIC1_COMMAND, PIC2_COMMAND, PIC_EOI, port_byte_out.
  destruct (40 <=? v); rewrite ?master_out, ?slave_out; split; reflexivity.
Qed.

(** [irq_handler] ends the interrupt at the controllers and then runs the
    registered handler, if there is one, on the machine that leaves: the
    highest-priority interrupt in service at the master ends, and for the
    vectors from 40 up the slave's too.  Without a handler nothing else
    happens.  The registers that go back to the interrupted code are those
    that came in, whatever the handler did to its copy. *)
Theorem irq_handler_acknowledges {D : Type} `{PortDevice D} `{!TwoPics D}
    (run : isr_t -> registers_t -> D -> outcome (registers_t * D)) (hs : list (option isr_t)) (r : registers_t) (d : D) :
  length hs = 256%nat -> 0 <= r_int_no r < 256 ->
  exists d1, pic_isr (master d1) = clear_lowest 8 0 (pic_isr (master d)) /\
    pic_isr (slave d1) = (if 40 <=? r_int_no r then clear_lowest 8 0 (pic_isr (slave d)) else pic_isr (slave d)) /\
    (hs !! Z.to_nat (r_int_no r) = Some None -> irq_handler run hs r d = Ok (r, d1)) /\
    (forall h, hs !! Z.to_nat (r_int_no r) = Some (Some h) ->
       (forall r' d', run h r d1 = Ok (r', d') -> irq_handler run hs r d = Ok (r, d')) /\
       (forall msg file line, run h r d1 = Panic msg file line -> irq_handler run hs r d = Panic msg file line)).
Proof.
  intros Hlen Hr. exists (PIC_sendEOI (r_int_no r) d).
  destruct (PIC_sendEOI_pics (r_int_no r) d) as [Em Es]. split_and!; [exact Em | exact Es | |].
  - intros Hh. unfold irq_handler. rewrite Hh, u8_small by lia. reflexivity.
  - intros h Hh. unfold irq_handler. rewrite Hh, u8_small by lia. split.
    + intros r' d' ->. reflexivity.
    + intros msg file line ->. reflexivity.
Qed.

Lemma irq_handler_acknowledges_witness :
  exists d1 : two_pics, pic_isr (slave d1) = 0 /\
    irq_handler (fun _ r d => Ok (r, d)) interrupt_handlers
      (mk_registers 0 0 0 0 0 0 0 0 0 42 0 0 0 0 0 0) (mk_pic 0 0x20 4 1 4 0, mk_pic 0 0x28 2 1 4 0) =
      Ok (mk_registers 0 0 0 0 0 0 0 0 0 42 0 0 0 0 0 0, d1).
Proof.
  destruct (irq_handler_acknowledges (D := two_pics) (fun _ r d => Ok (r, d)) interrupt_handlers
    (mk_registers 0 0 0 0 0 0 0 0 0 42 0 0 0 0 0 0) (mk_pic 0 0x20 4 1 4 0, mk_pic 0 0x28 2 1 4 0))
    as (d1 & _ & Hs & Hn & _); [reflexivity | simpl; lia |].
  exists d1. split; [exact Hs | apply Hn; reflexivity].
Defined.
