(* ===== verification/Syscall.v ===== *)
(** * cpu/syscall.c: the system calls

    [syscall_handler] is registered for vector 0x80.  The table has one entry,
    [print_string]; what it does to the machine is the argument [call], with
    the five words the handler pushes for it. *)

From S2P Require Import Prelude Ports Descriptors Interrupts.

Inductive syscall_t := print_string.

Definition syscalls : list syscall_t := [print_string].

Definition num_syscalls : Z := 1.

Definition initialise_syscalls (hs : list (option isr_t)) : outcome (list (option isr_t)) :=
  register_interrupt_handler 0x80 syscall_handler_isr hs.

Section Syscall.
Context {D : Type} (call : syscall_t -> list Z -> D -> outcome (Z * D)).

Definition syscall_handler (regs : registers_t) (d : D) : outcome (registers_t * D) :=
  if num_syscalls <=? r_eax regs then Ok (regs, d)
  else
    match syscalls !! Z.to_nat (r_eax regs) with
    | Some location =>
        r ← call location [r_ebx regs; r_ecx regs; r_edx regs; r_esi regs; r_edi regs] d;
        Ok (with_eax r.1 regs, r.2)
    | None => Undef "index"
    end.

(** The handlers of the machine, with the system calls'. *)
Definition with_syscalls (run : isr_t -> registers_t -> D -> outcome (registers_t * D)) (h : isr_t)
    (regs : registers_t) (d : D) : outcome (registers_t * D) :=
  if decide (h = syscall_handler_isr) then syscall_handler regs d else run h regs d.

End Syscall.

(** a system call through vector 0x80.  A number outside the table does
    nothing; number 0 calls [print_string] with the caller's EBX and the next
    four registers.  In both cases the registers that go back to the caller
    are the ones that came in: the value the call returns is written to the
    handler's copy of the registers and never reaches the caller. *)
Theorem syscall_result_is_lost {D : Type} (call : syscall_t -> list Z -> D -> outcome (Z * D))
    (run : isr_t -> registers_t -> D -> outcome (registers_t * D)) (hs hs' : list (option isr_t))
    (regs : registers_t) (d : D) :
  length hs = 256%nat -> initialise_syscalls hs = Ok hs' -> r_int_no regs = 0x80 -> 0 <= r_eax regs ->
  (num_syscalls <= r_eax regs -> isr_handler (with_syscalls call run) hs' regs d = Ok (regs, d)) /\
  (r_eax regs < num_syscalls -> forall ret d',
     call print_string [r_ebx regs; r_ecx regs; r_edx regs; r_esi regs; r_edi regs] d = Ok (ret, d') ->
     syscall_handler call regs d = Ok (with_eax ret regs, d') /\
     isr_handler (with_syscalls call run) hs' regs d = Ok (regs, d')).
Proof.
  intros Hlen Hs Hint Heax. unfold initialise_syscalls, register_interrupt_handler in Hs.
  change (u8 0x80) with 128 in Hs. rewrite put_in in Hs by lia. injection Hs as <-.
  assert (<[Z.to_nat 128 := Some syscall_handler_isr]> hs !! Z.to_nat 128 = Some (Some syscall_handler_isr)) as Hl
    by (apply list_lookup_insert_eq; lia).
  unfold isr_handler. rewrite Hint. change (Z.land 0x80 0xFF) with 128. cbn [Z.eqb]. rewrite Hl.
  unfold with_syscalls, num_syscalls. rewrite decide_True by reflexivity. unfold syscall_handler, num_syscalls. split.
  - intros He. replace (1 <=? r_eax regs) with true by lia. reflexivity.
  - intros He ret d' E. replace (1 <=? r_eax regs) with false by lia.
    replace (r_eax regs) with 0 by lia. change (syscalls !! Z.to_nat 0) with (Some print_string). cbv iota beta. rewrite E. split; reflexivity.
Qed.

Lemma syscall_result_is_lost_witness :
  exists hs', initialise_syscalls interrupt_handlers = Ok hs' /\
    isr_handler (with_syscalls (fun _ args d => Ok (7, d ++ args)) (fun _ r d => Ok (r, d))) hs'
      (mk_registers 0 5 4 0 0 1 3 2 0 0x80 0 0 0 0 0 0) [] =
      Ok (mk_registers 0 5 4 0 0 1 3 2 0 0x80 0 0 0 0 0 0, [1; 2; 3; 4; 5]).
Proof.
  eexists. split; [reflexivity|].
  eapply (syscall_result_is_lost (fun _ args d => Ok (7, d ++ args)) (fun _ r d => Ok (r, d)) interrupt_handlers);
    [reflexivity | reflexivity | reflexivity | simpl; lia | reflexivity | reflexivity].
Defined.
