(* ===== verification/Task.v ===== *)
(** * cpu/task.c and cpu/timer.c: tasks, the two queues and the scheduler

    A [task_t] is a record in a store by pointer; the ready queue and the sleep
    queue are linked through the [next] fields of the same records.  The
    assembly that saves and loads the processor's registers is the record
    [context]: [switch_task] is given the registers it reads and leaves those
    of the task it switches to.  [read_eip] returns the saved instruction
    pointer, or 0x12345 when the task has just been switched to. *)

From S2P Require Import Prelude Memory Util OrderedArray Kernel Paging KHeap Descriptors Directories.

Definition KERNEL_STACK_SIZE : Z := 0x1000.

Definition SIZEOF_task : Z := 32.

Record task_t := mk_task {
  t_id : Z;
  t_esp : Z;
  t_ebp : Z;
  t_eip : Z;
  t_page_directory : Z;
  t_kernel_stack : Z;
  t_end_of_sleep : Z;
  t_next : Z;
}.

(** The registers a switch saves and loads; EAX and CR3 are only loaded. *)
Record context := mk_context { c_eip : Z; c_esp : Z; c_ebp : Z; c_eax : Z; c_cr3 : Z }.

Record sched := mk_sched {
  s_kernel : kernel;
  s_tasks : gmap Z task_t;
  s_current : Z;
  s_ready : Z;
  s_sleep : Z;
  s_next_pid : Z;
  s_tick : Z;
  s_tss : tss_entry_t;
  s_cpu : context;
}.

Definition with_kernel (k : kernel) (s : sched) : sched :=
  mk_sched k (s_tasks s) (s_current s) (s_ready s) (s_sleep s) (s_next_pid s) (s_tick s) (s_tss s) (s_cpu s).

Definition with_tasks (ts : gmap Z task_t) (s : sched) : sched :=
  mk_sched (s_kernel s) ts (s_current s) (s_ready s) (s_sleep s) (s_next_pid s) (s_tick s) (s_tss s) (s_cpu s).

Definition with_current (p : Z) (s : sched) : sched :=
  mk_sched (s_kernel s) (s_tasks s) p (s_ready s) (s_sleep s) (s_next_pid s) (s_tick s) (s_tss s) (s_cpu s).

Definition with_ready (p : Z) (s : sched) : sched :=
  mk_sched (s_kernel s) (s_tasks s) (s_current s) p (s_sleep s) (s_next_pid s) (s_tick s) (s_tss s) (s_cpu s).

Definition with_sleep (p : Z) (s : sched) : sched :=
  mk_sched (s_kernel s) (s_tasks s) (s_current s) (s_ready s) p (s_next_pid s) (s_tick s) (s_tss s) (s_cpu s).

Definition with_next_pid (n : Z) (s : sched) : sched :=
  mk_sched (s_kernel s) (s_tasks s) (s_current s) (s_ready s) (s_sleep s) n (s_tick s) (s_tss s) (s_cpu s).

Definition with_tick (n : Z) (s : sched) : sched :=
  mk_sched (s_kernel s) (s_tasks s) (s_current s) (s_ready s) (s_sleep s) (s_next_pid s) n (s_tss s) (s_cpu s).

Definition with_cpu (t : tss_entry_t) (c : context) (s : sched) : sched :=
  mk_sched (s_kernel s) (s_tasks s) (s_current s) (s_ready s) (s_sleep s) (s_next_pid s) (s_tick s) t c.

Definition set_next (q : Z) (t : task_t) : task_t :=
  mk_task (t_id t) (t_esp t) (t_ebp t) (t_eip t) (t_page_directory t) (t_kernel_stack t) (t_end_of_sleep t) q.

Definition set_end_of_sleep (e : Z) (t : task_t) : task_t :=
  mk_task (t_id t) (t_esp t) (t_ebp t) (t_eip t) (t_page_directory t) (t_kernel_stack t) e (t_next t).

Definition set_regs (eip esp ebp : Z) (t : task_t) : task_t :=
  mk_task (t_id t) esp ebp eip (t_page_directory t) (t_kernel_stack t) (t_end_of_sleep t) (t_next t).

(** [*p], and an assignment to a field of it: through a pointer that is not a
    task's this is undefined. *)
Definition deref (ts : gmap Z task_t) (p : Z) : outcome task_t :=
  match ts !! p with Some t => Ok t | None => Undef "no task at this pointer" end.

Definition assign (p : Z) (f : task_t -> task_t) (ts : gmap Z task_t) : outcome (gmap Z task_t) :=
  t ← deref ts p; Ok (<[p := f t]> ts).

(** ** Walks along a queue

    [while (t->next) t = t->next], and [while (t->next != q) t = t->next]. *)

Fixpoint walk_last (fuel : nat) (ts : gmap Z task_t) (p : Z) : outcome Z :=
  t ← deref ts p;
  if t_next t =? 0 then Ok p
  else match fuel with O => NoFuel | S f => walk_last f ts (t_next t) end.

Fixpoint walk_to (fuel : nat) (q : Z) (ts : gmap Z task_t) (p : Z) : outcome Z :=
  t ← deref ts p;
  if t_next t =? q then Ok p
  else match fuel with O => NoFuel | S f => walk_to f q ts (t_next t) end.

(** As many steps as there are tasks. *)
Definition all_tasks (s : sched) : nat := size (s_tasks s).

(** ** switch_task *)

(** The removal of the current task from the ready queue. *)
Definition dequeue_current (s : sched) : outcome sched :=
  cur ← deref (s_tasks s) (s_current s);
  s ← (if s_ready s =? s_current s then Ok (with_ready (t_next cur) s)
       else
         p ← walk_to (all_tasks s) (s_current s) (s_tasks s) (s_ready s);
         ts ← assign p (set_next (t_next cur)) (s_tasks s);
         Ok (with_tasks ts s));
  ts ← assign (s_current s) (set_next 0) (s_tasks s);
  Ok (with_tasks ts s).

(** The end of [switch_task]: the registers, the page directory and the kernel
    stack of the task at [next]. *)
Definition load_task (next : Z) (s : sched) : outcome sched :=
  let s := with_current next s in
  t ← deref (s_tasks s) next;
  let k := with_current_directory (t_page_directory t) (s_kernel s) in
  Ok (with_cpu (set_kernel_stack (u32 (t_kernel_stack t + KERNEL_STACK_SIZE)) (s_tss s))
        (mk_context (t_eip t) (t_esp t) (t_ebp t) 0x12345 (dir_physicalAddr (k_mem k) (t_page_directory t)))
        (with_kernel k s)).

Definition switch_task (eip esp ebp : Z) (s : sched) : outcome sched :=
  if s_current s =? 0 then Ok s
  else
    alone ← (if s_current s =? s_ready s then t ← deref (s_tasks s) (s_ready s); Ok (t_next t =? 0) else Ok false);
    if (alone : bool) then Ok s
    else if eip =? 0x12345 then Ok s
    else
      ts ← assign (s_current s) (set_regs eip esp ebp) (s_tasks s);
      let s := with_tasks ts s in
      cur ← deref (s_tasks s) (s_current s);
      let tmp_current_task := if t_next cur =? 0 then s_ready s else t_next cur in
      s ← (if negb (t_end_of_sleep cur =? 0) then dequeue_current s else Ok s);
      load_task tmp_current_task s.

(** ** The timer *)

(** The part of the wake-up that takes the task at [p] out of the sleep queue
    and appends it to the ready queue. *)
Definition wake (p : Z) (s : sched) : outcome sched :=
  ts ← assign p (set_end_of_sleep 0) (s_tasks s);
  let s := with_tasks ts s in
  t ← deref (s_tasks s) p;
  s ← (if p =? s_sleep s then Ok (with_sleep (t_next t) s)
       else
         q ← walk_to (all_tasks s) p (s_tasks s) (s_sleep s);
         ts ← assign q (set_next (t_next t)) (s_tasks s);
         Ok (with_tasks ts s));
  q ← walk_last (all_tasks s) (s_tasks s) (s_ready s);
  ts ← assign q (set_next p) (s_tasks s);
  ts ← assign p (set_next 0) ts;
  Ok (with_tasks ts s).

(** The loop over the sleep queue.  It goes on along the [next] field as it is
    after the body, so it ends after a task that was woken. *)
Fixpoint wake_sleepers (fuel : nat) (p : Z) (s : sched) : outcome sched :=
  if p =? 0 then Ok s
  else
    t ← deref (s_tasks s) p;
    s ← (if t_end_of_sleep t <? s_tick s then wake p s else Ok s);
    t ← deref (s_tasks s) p;
    match fuel with O => NoFuel | S f => wake_sleepers f (t_next t) s end.

Definition timer_callback (eip esp ebp : Z) (s : sched) : outcome sched :=
  let s := with_tick (u32 (s_tick s + 1)) s in
  if s_next_pid s =? 1 then Ok s
  else
    s ← wake_sleepers (all_tasks s) (s_sleep s) s;
    switch_task eip esp ebp s.

(** [init_timer]: the divisor that is sent, low byte first. *)
Definition timer_divisor (freq : Z) : Z * Z :=
  let divisor := 1193180 / freq in (u8 (Z.land divisor 0xFF), u8 (Z.land (Z.shiftr divisor 8) 0xFF)).

(** ** sleep

    [sleep] in three parts, as a timer interrupt may come between them: the
    mark, the entry into the sleep queue, the switch.  The Boolean is false
    when there is nothing else to run and [sleep] only prints. *)

Definition sleep_mark (epoches : Z) (s : sched) : outcome (bool * sched) :=
  alone ← (if negb (s_current s =? 0) && (s_current s =? s_ready s)
           then t ← deref (s_tasks s) (s_ready s); Ok (t_next t =? 0) else Ok false);
  if (alone : bool) then Ok (false, s)
  else
    ts ← assign (s_current s) (set_end_of_sleep (u32 (s_tick s + epoches))) (s_tasks s);
    Ok (true, with_tasks ts s).

Definition sleep_enqueue (s : sched) : outcome sched :=
  if s_sleep s =? 0 then Ok (with_sleep (s_current s) s)
  else
    q ← walk_last (all_tasks s) (s_tasks s) (s_sleep s);
    ts ← assign q (set_next (s_current s)) (s_tasks s);
    Ok (with_tasks ts s).

Definition sleep (epoches eip esp ebp : Z) (s : sched) : outcome sched :=
  r ← sleep_mark epoches s;
  let '(goes, s) := r in
  if (goes : bool) then s ← sleep_enqueue s; switch_task eip esp ebp s else Ok s.

(** ** fork *)

(** [fork] up to [read_eip]: the new task and its place in the ready queue. *)
Definition fork_create (fuel : nat) (s : sched) : outcome (Z * sched) :=
  r ← clone_directory fuel (k_current_directory (s_kernel s)) (s_kernel s);
  let '(directory, k) := r in
  r ← kmalloc fuel SIZEOF_task k;
  let '(new_task, k) := r in
  r ← kmalloc_a fuel KERNEL_STACK_SIZE k;
  let '(stack, k) := r in
  let t := mk_task (s_next_pid s) 0 0 0 directory stack 0 0 in
  let s := with_next_pid (u32 (s_next_pid s + 1)) (with_tasks (<[new_task := t]> (s_tasks s)) (with_kernel k s)) in
  q ← walk_last (all_tasks s) (s_tasks s) (s_ready s);
  ts ← assign q (set_next new_task) (s_tasks s);
  Ok (new_task, with_tasks ts s).

(** [fork] after [read_eip], in the parent or in the child. *)
Definition fork_return (parent_task new_task eip esp ebp : Z) (s : sched) : outcome (Z * sched) :=
  if s_current s =? parent_task then
    ts ← assign new_task (set_regs eip esp ebp) (s_tasks s);
    t ← deref ts new_task;
    Ok (t_id t, with_tasks ts s)
  else Ok (0, s).

Definition fork (fuel : nat) (eip esp ebp : Z) (s : sched) : outcome (Z * sched) :=
  let parent_task := s_current s in
  r ← fork_create fuel s;
  let '(new_task, s) := r in
  fork_return parent_task new_task eip esp ebp s.

Definition getpid (s : sched) : outcome Z := t ← deref (s_tasks s) (s_current s); Ok (t_id t).

(** ** initialise_tasking *)

(** One page of the new stack, as the first loop of [move_stack] maps it. *)
Definition map_stack_page (fuel : nat) (i : Z) (k : kernel) : outcome kernel :=
  r ← get_page_ptr_in_page_table (kmalloc_ap fuel) i 1 (k_current_directory k) k;
  alloc_frame r.1 0 1 r.2.

(** One word of the second loop: a value inside the old stack is moved. *)
Definition remap_word (old_stack_pointer initial_esp offset i : Z) (m : mem) : mem :=
  let tmp := load32 m i in
  if (old_stack_pointer <? tmp) && (tmp <? initial_esp) then store32 m i (u32 (tmp + offset)) else m.

(** The two loops of [move_stack]. *)
Definition map_stack (fuel : nat) (new_stack_start size : Z) (k : kernel) : outcome kernel :=
  st ← while (Z.to_nat (size / 0x1000 + 1)) (fun '(_, i) => u32 (new_stack_start - size) <=? i)
         (fun '(k, i) => k ← map_stack_page fuel i k; Ok (k, u32 (i - 0x1000))) (k, new_stack_start);
  Ok st.1.

Definition remap_stack (old_stack_pointer initial_esp offset new_stack_start size : Z) (m : mem) : outcome mem :=
  st ← while (Z.to_nat (size / 4 + 1)) (fun '(_, i) => u32 (new_stack_start - size) <? i)
         (fun '(m, i) => Ok (remap_word old_stack_pointer initial_esp offset i m, u32 (i - 4))) (m, new_stack_start);
  Ok st.1.

(** [end_] is the address of the linker's symbol.  The result is the memory and
    the new stack and base pointers. *)
Definition move_stack (fuel : nat) (end_ new_stack_start size old_stack_pointer old_base_pointer : Z) (k : kernel)
    : outcome (kernel * Z * Z) :=
  let initial_esp := u32 (end_ + KERNEL_STACK_SIZE) in
  k ← map_stack fuel new_stack_start size k;
  let offset := u32 (new_stack_start - initial_esp) in
  let new_stack_pointer := u32 (old_stack_pointer + offset) in
  let new_base_pointer := u32 (old_base_pointer + offset) in
  let m := memcpy (k_mem k) old_stack_pointer new_stack_pointer (i32 (initial_esp - old_stack_pointer)) in
  m ← remap_stack old_stack_pointer initial_esp offset new_stack_start size m;
  Ok (with_mem m k, new_stack_pointer, new_base_pointer).

Definition initialise_tasking (fuel : nat) (end_ esp ebp : Z) (s : sched) : outcome sched :=
  r ← move_stack fuel end_ 0xE0000000 KERNEL_STACK_SIZE esp ebp (s_kernel s);
  let '(k, esp, ebp) := r in
  r ← kmalloc fuel SIZEOF_task k;
  let '(task, k) := r in
  let pid := s_next_pid s in
  r ← kmalloc_a fuel KERNEL_STACK_SIZE k;
  let '(stack, k) := r in
  let t := mk_task pid 0 0 0 (k_current_directory k) stack 0 0 in
  Ok (mk_sched k (<[task := t]> (s_tasks s)) task task (s_sleep s) (u32 (pid + 1)) (s_tick s) (s_tss s)
        (mk_context (c_eip (s_cpu s)) esp ebp (c_eax (s_cpu s)) (c_cr3 (s_cpu s)))).
