(* ===== verification/TaskInv.v ===== *)
(** * The scheduler: queues as lists

    [seg ts p l q]: following [next] from [p] one meets the tasks [l] and comes
    to [q].  The abstract scheduler [asched] has the two queues as lists, the
    sleepers with their deadlines; [sched_rel] relates the two, and each
    operation of cpu/task.c and cpu/timer.c implements one of the abstract
    operations. *)

From S2P Require Import Prelude Memory Util OrderedArray Kernel Paging KHeap Descriptors Directories Task.

Fixpoint seg (ts : gmap Z task_t) (p : Z) (l : list Z) (q : Z) : Prop :=
  match l with
  | [] => p = q
  | x :: l' => p = x /\ x <> 0 /\ exists t, ts !! x = Some t /\ seg ts (t_next t) l' q
  end.

(** The tasks of [ts] and [ts'] agree on the field [f]. *)
Definition agree {A} (f : task_t -> A) (ts ts' : gmap Z task_t) : Prop := forall p, f <$> ts' !! p = f <$> ts !! p.

(** ** The abstract scheduler *)

Record asched := mk_asched {
  a_ready : list Z;
  a_sleep : list (Z * Z);
  a_current : Z;
  a_tick : Z;
}.

(** The element behind [c]. *)
Fixpoint after (c : Z) (l : list Z) : option Z :=
  match l with
  | [] => None
  | x :: l' => if x =? c then head l' else after c l'
  end.

(** The task that runs after [c]: the next of the queue, the first after the
    last. *)
Definition successor (l : list Z) (c : Z) : Z := default (hd c l) (after c l).

Definition a_switch (a : asched) : asched :=
  mk_asched (a_ready a) (a_sleep a) (successor (a_ready a) (a_current a)) (a_tick a).

(** The first sleeper whose deadline is behind [tick], and the others. *)
Fixpoint first_expired (tick : Z) (l : list (Z * Z)) : option (Z * list (Z * Z)) :=
  match l with
  | [] => None
  | (p, d) :: l' =>
      if d <? tick then Some (p, l')
      else match first_expired tick l' with Some (q, r) => Some (q, (p, d) :: r) | None => None end
  end.

Definition a_wake (a : asched) : asched :=
  match first_expired (a_tick a) (a_sleep a) with
  | Some (p, r) => mk_asched (a_ready a ++ [p]) r (a_current a) (a_tick a)
  | None => a
  end.

Definition a_timer (a : asched) : asched :=
  a_switch (a_wake (mk_asched (a_ready a) (a_sleep a) (a_current a) (u32 (a_tick a + 1)))).

Definition a_sleep_for (n : Z) (a : asched) : asched :=
  if decide (a_ready a = [a_current a]) then a
  else mk_asched (filter (fun p => p <> a_current a) (a_ready a)) (a_sleep a ++ [(a_current a, u32 (a_tick a + n))])
         (successor (a_ready a) (a_current a)) (a_tick a).

Definition a_fork (p : Z) (a : asched) : asched :=
  mk_asched (a_ready a ++ [p]) (a_sleep a) (a_current a) (a_tick a).

Record sched_rel (s : sched) (a : asched) : Prop := {
  sr_ready : seg (s_tasks s) (s_ready s) (a_ready a) 0;
  sr_sleep : seg (s_tasks s) (s_sleep s) (a_sleep a).*1 0;
  sr_nodup : NoDup (a_ready a ++ (a_sleep a).*1);
  sr_current : s_current s = a_current a;
  sr_runs : a_current a ∈ a_ready a;
  sr_awake : forall p t, p ∈ a_ready a -> s_tasks s !! p = Some t -> t_end_of_sleep t = 0;
  sr_asleep : forall p d t, (p, d) ∈ a_sleep a -> s_tasks s !! p = Some t -> t_end_of_sleep t = d /\ d <> 0;
  sr_tick : s_tick s = a_tick a;
}.

(** ** Segments *)

Lemma seg_app ts p l1 l2 q : seg ts p (l1 ++ l2) q <-> exists r, seg ts p l1 r /\ seg ts r l2 q.
Proof.
  revert p. induction l1 as [|x l1 IH]; intros p; simpl.
  - split; [eauto | intros (r & -> & H); exact H].
  - split.
    + intros (-> & Hx & t & Ht & H). apply IH in H as (r & H1 & H2). eauto 10.
    + intros (r & (-> & Hx & t & Ht & H1) & H2). split_and!; auto. exists t. split; [exact Ht|]. apply IH. eauto.
Qed.

Lemma seg_snoc ts p l x q :
  seg ts p (l ++ [x]) q <-> seg ts p l x /\ x <> 0 /\ exists t, ts !! x = Some t /\ t_next t = q.
Proof.
  rewrite seg_app. simpl. split.
  - intros (r & H1 & -> & Hx & t & Ht & Hq). eauto 6.
  - intros (H1 & Hx & t & Ht & Hq). exists x. split_and!; auto. eauto.
Qed.

Lemma seg_agree ts ts' p l q :
  (forall x, x ∈ l -> t_next <$> ts' !! x = t_next <$> ts !! x) -> seg ts p l q -> seg ts' p l q.
Proof.
  revert p. induction l as [|x l IH]; intros p Ha; simpl; [auto|].
  intros (-> & Hx & t & Ht & H). split_and!; [reflexivity | exact Hx |].
  pose proof (Ha x ltac:(left)) as E. rewrite Ht in E. destruct (ts' !! x) as [t'|]; [|discriminate].
  injection E as E. exists t'. split; [reflexivity|]. rewrite E. apply IH; [|exact H].
  intros y Hy. apply Ha. now right.
Qed.

Lemma seg_in ts p l q x : seg ts p l q -> x ∈ l -> x <> 0 /\ exists t, ts !! x = Some t.
Proof.
  revert p. induction l as [|y l IH]; intros p H Hx; [now apply elem_of_nil in Hx|].
  destruct H as (-> & Hy & t & Ht & H). apply elem_of_cons in Hx as [->|Hx]; eauto.
Qed.

Lemma seg_zero ts p l : seg ts p l 0 -> (p =? 0) = bool_decide (l = []).
Proof.
  destruct l as [|x l]; simpl; [intros ->; reflexivity|]. intros (-> & Hx & _).
  apply Z.eqb_neq in Hx. rewrite Hx. reflexivity.
Qed.

Lemma seg_length ts p l q : seg ts p l q -> NoDup l -> (length l <= size ts)%nat.
Proof.
  intros H Hn. rewrite <- (size_dom (D := gset Z)), <- (size_list_to_set (C := gset Z) l Hn).
  apply subseteq_size. intros x Hx. apply elem_of_list_to_set in Hx.
  destruct (seg_in _ _ _ _ _ H Hx) as (_ & t & Ht). apply elem_of_dom. eauto.
Qed.

(** Changing the [next] field of the last task of a segment. *)
Lemma seg_set_last ts p l x q r t :
  seg ts p (l ++ [x]) q -> x ∉ l -> ts !! x = Some t -> seg (<[x := set_next r t]> ts) p (l ++ [x]) r.
Proof.
  rewrite !seg_snoc. intros (H & Hx & _) Hn Ht. split_and!; [|exact Hx|].
  - revert H. apply seg_agree. intros y Hy. rewrite lookup_insert_ne by congruence. reflexivity.
  - exists (set_next r t). rewrite lookup_insert_eq. auto.
Qed.

(** A change elsewhere. *)
Lemma seg_insert ts p l q x t : x ∉ l -> seg ts p l q -> seg (<[x := t]> ts) p l q.
Proof.
  intros Hx. apply seg_agree. intros y Hy. rewrite lookup_insert_ne by congruence. reflexivity.
Qed.

Lemma seg_update ts p l q x t t' :
  ts !! x = Some t -> t_next t' = t_next t -> seg ts p l q -> seg (<[x := t']> ts) p l q.
Proof.
  intros Ht He. apply seg_agree. intros y _. destruct (decide (y = x)) as [->|Hne].
  - rewrite lookup_insert_eq, Ht. simpl. congruence.
  - rewrite lookup_insert_ne by congruence. reflexivity.
Qed.

Lemma agree_insert {A} (f : task_t -> A) ts p t t' : ts !! p = Some t -> f t' = f t -> agree f ts (<[p := t']> ts).
Proof.
  intros Ht He q. destruct (decide (q = p)) as [->|Hne].
  - rewrite lookup_insert_eq, Ht. simpl. congruence.
  - rewrite lookup_insert_ne by congruence. reflexivity.
Qed.

Lemma agree_refl {A} (f : task_t -> A) ts : agree f ts ts.
Proof. intros p. reflexivity. Qed.

Lemma agree_trans {A} (f : task_t -> A) ts1 ts2 ts3 : agree f ts1 ts2 -> agree f ts2 ts3 -> agree f ts1 ts3.
Proof. intros H1 H2 p. now rewrite H2. Qed.

Lemma agree_lookup {A} (f : task_t -> A) ts ts' p t' :
  agree f ts ts' -> ts' !! p = Some t' -> exists t, ts !! p = Some t /\ f t' = f t.
Proof.
  intros H Ht. specialize (H p). rewrite Ht in H. destruct (ts !! p) as [t|]; [|discriminate].
  exists t. split; [reflexivity|]. now injection H.
Qed.

(** ** Walks *)

Lemma deref_some ts p t : ts !! p = Some t -> deref ts p = Ok t.
Proof. unfold deref. intros ->. reflexivity. Qed.

Lemma assign_some ts p t f : ts !! p = Some t -> assign p f ts = Ok (<[p := f t]> ts).
Proof. unfold assign. intros H. rewrite (deref_some _ _ _ H). reflexivity. Qed.

Lemma walk_last_spec ts l x : forall p fuel,
  seg ts p (l ++ [x]) 0 -> (length l <= fuel)%nat -> walk_last fuel ts p = Ok x.
Proof.
  induction l as [|y l IH]; intros p fuel H Hf; simpl in H, Hf; destruct H as (-> & Hy & t & Ht & H).
  - destruct fuel; simpl; rewrite (deref_some _ _ _ Ht), bind_ok, H; reflexivity.
  - destruct fuel as [|fuel]; [lia|]. cbn [walk_last]. rewrite (deref_some _ _ _ Ht), bind_ok.
    pose proof (seg_zero _ _ _ H) as Hz. rewrite bool_decide_eq_false_2 in Hz by (destruct l; discriminate).
    rewrite Hz. apply IH; [exact H | lia].
Qed.

Lemma walk_to_spec ts q l x : forall p fuel,
  seg ts p (l ++ [x]) q -> q ∉ l ++ [x] -> (length l <= fuel)%nat -> walk_to fuel q ts p = Ok x.
Proof.
  induction l as [|y l IH]; intros p fuel H Hq Hf; simpl in H, Hf; destruct H as (-> & Hy & t & Ht & H).
  - destruct fuel; simpl; rewrite (deref_some _ _ _ Ht), bind_ok, H, Z.eqb_refl; reflexivity.
  - destruct fuel as [|fuel]; [lia|]. cbn [walk_to]. rewrite (deref_some _ _ _ Ht), bind_ok.
    simpl in Hq. apply not_elem_of_cons in Hq as [_ Hq].
    assert (t_next t <> q) as Hne.
    { destruct (l ++ [x]) as [|z l'] eqn:E; [destruct l; discriminate|]. destruct H as (-> & _).
      apply not_elem_of_cons in Hq as [Hq _]. congruence. }
    apply Z.eqb_neq in Hne. rewrite Hne. apply IH; [exact H | exact Hq | lia].
Qed.

(** ** The successor *)

Lemma after_split c l1 l2 : c ∉ l1 -> after c (l1 ++ c :: l2) = head l2.
Proof.
  induction l1 as [|x l1 IH]; intros Hc; simpl; [now rewrite Z.eqb_refl|].
  apply not_elem_of_cons in Hc as [Hx Hc]. replace (x =? c) with false by lia. now apply IH.
Qed.

Lemma successor_split c l1 l2 :
  c ∉ l1 -> successor (l1 ++ c :: l2) c = hd (hd c (l1 ++ [c])) l2.
Proof.
  intros Hc. unfold successor. rewrite after_split by exact Hc. destruct l2; [destruct l1; reflexivity | reflexivity].
Qed.

Lemma successor_in c l : c ∈ l -> NoDup l -> successor l c ∈ l.
Proof.
  intros Hc Hn. apply list_elem_of_split in Hc as (l1 & l2 & ->).
  apply NoDup_app in Hn as (_ & Hd & _). rewrite successor_split.
  - destruct l2 as [|y l2]; simpl; [destruct l1; simpl; rewrite ?elem_of_app, ?elem_of_cons; auto|].
    rewrite elem_of_app, !elem_of_cons. auto.
  - intros Hin. apply (Hd c Hin). left.
Qed.

(** ** Unlinking a task from a queue

    Either the task is the head, or the walk finds the task before it. *)

Lemma unlink_spec ts head l1 x l2 t fuel :
  seg ts head (l1 ++ x :: l2) 0 -> NoDup (l1 ++ x :: l2) -> ts !! x = Some t -> (size ts <= fuel)%nat ->
  (head = x /\ seg ts (t_next t) (l1 ++ l2) 0) \/
  (exists z tz, head <> x /\ walk_to fuel x ts head = Ok z /\ ts !! z = Some tz /\ z ∈ l1 /\ z <> x /\
     seg (<[z := set_next (t_next t) tz]> ts) head (l1 ++ l2) 0).
Proof.
  intros H Hn Ht Hf. pose proof (seg_length _ _ _ _ H Hn) as Hlen. rewrite length_app in Hlen. simpl in Hlen.
  apply NoDup_app in Hn as (Hn1 & Hd & Hn2). apply NoDup_cons in Hn2 as [Hc2 _].
  assert (x ∉ l1) as Hc1 by (intros Hin; apply (Hd _ Hin); left).
  apply seg_app in H as (y & H1 & -> & Hc & t' & Ht' & H2). assert (t' = t) as -> by congruence.
  destruct l1 as [|z l1 _] using rev_ind; [left; auto | right].
  assert (z ∈ l1 ++ [z]) as Hzin by (rewrite elem_of_app, list_elem_of_singleton; auto).
  destruct (seg_in _ _ _ _ _ H1 Hzin) as (Hz0 & tz & Htz). exists z, tz. split_and!.
  - intros E. apply Hc1. rewrite <- E. destruct l1 as [|w l1]; destruct H1 as (-> & _); left.
  - apply (walk_to_spec _ _ l1 z _ _ H1 Hc1). rewrite length_app in Hlen. simpl in Hlen. lia.
  - exact Htz.
  - exact Hzin.
  - intros ->. contradiction.
  - apply seg_app. exists (t_next t). split.
    + apply (seg_set_last _ _ _ _ _ _ _ H1); [|exact Htz].
      apply NoDup_app in Hn1 as (_ & Hn1 & _). intros Hin. apply (Hn1 z Hin). left.
    + apply seg_insert; [|exact H2]. intros Hin. apply (Hd z Hzin). now right.
Qed.

(** The current task leaves the ready queue. *)
Lemma dequeue_current_spec s l1 l2 t :
  seg (s_tasks s) (s_ready s) (l1 ++ s_current s :: l2) 0 -> NoDup (l1 ++ s_current s :: l2) ->
  s_tasks s !! s_current s = Some t ->
  exists ts r, dequeue_current s = Ok (with_tasks ts (with_ready r s)) /\ seg ts r (l1 ++ l2) 0 /\
    ts !! s_current s = Some (set_next 0 t) /\ agree (set_next 0) (s_tasks s) ts /\
    (forall p, p ∉ l1 -> p <> s_current s -> ts !! p = s_tasks s !! p).
Proof.
  intros H Hn Ht. assert (s_current s ∉ l1 ++ l2) as Hc.
  { rewrite <- Permutation_middle in Hn. now apply NoDup_cons in Hn as [Hc _]. }
  unfold dequeue_current. rewrite (deref_some _ _ _ Ht), bind_ok.
  destruct (unlink_spec _ _ _ _ _ _ (all_tasks s) H Hn Ht ltac:(reflexivity)) as
    [(-> & Hs) | (z & tz & Hne & Hw & Htz & Hz & Hzc & Hs)].
  - rewrite Z.eqb_refl, bind_ok. cbn [with_ready s_current s_tasks].
    rewrite (assign_some _ _ _ _ Ht), bind_ok. eexists _, _. split; [reflexivity|]. split_and!.
    + apply seg_insert; assumption.
    + apply lookup_insert_eq.
    + eapply agree_insert; [exact Ht | reflexivity].
    + intros p _ Hp. apply lookup_insert_ne. congruence.
  - rewrite (proj2 (Z.eqb_neq _ _) Hne), Hw, bind_ok, (assign_some _ _ _ _ Htz), !bind_ok.
    cbn [with_tasks s_current s_tasks].
    assert (<[z := set_next (t_next t) tz]> (s_tasks s) !! s_current s = Some t) as Ht'
      by (rewrite lookup_insert_ne by congruence; exact Ht).
    rewrite (assign_some _ _ _ _ Ht'), bind_ok. eexists _, (s_ready s). split; [reflexivity|]. split_and!.
    + apply seg_insert; assumption.
    + apply lookup_insert_eq.
    + eapply agree_trans; [|eapply agree_insert; [exact Ht' | reflexivity]].
      eapply agree_insert; [exact Htz | reflexivity].
    + intros p Hp Hpc. rewrite !lookup_insert_ne by congruence. reflexivity.
Qed.

(** Appending a task at the end of a queue. *)
Lemma queue_append_spec ts head l x fuel :
  seg ts head l 0 -> l <> [] -> NoDup l -> x <> 0 -> (size ts <= fuel)%nat ->
  exists z tz, walk_last fuel ts head = Ok z /\ z ∈ l /\ ts !! z = Some tz /\
    seg (<[z := set_next x tz]> ts) head l x.
Proof.
  intros H Hne Hn Hx Hf. pose proof (seg_length _ _ _ _ H Hn) as Hlen.
  destruct l as [|z l _] using rev_ind; [contradiction|].
  assert (z ∈ l ++ [z]) as Hzin by (rewrite elem_of_app, list_elem_of_singleton; auto).
  destruct (seg_in _ _ _ _ _ H Hzin) as (_ & tz & Htz). exists z, tz. split_and!.
  - apply (walk_last_spec _ l z _ _ H). rewrite length_app in Hlen. simpl in Hlen. lia.
  - exact Hzin.
  - exact Htz.
  - apply (seg_set_last _ _ _ _ _ _ _ H); [|exact Htz].
    apply NoDup_app in Hn as (_ & Hn & _). intros Hin. apply (Hn z Hin). left.
Qed.

(** ** The switch *)

(** The processor runs the task at [p]: its registers, its page directory and
    its kernel stack are loaded. *)
Definition running (p : Z) (s : sched) : Prop :=
  s_current s = p /\ exists t, s_tasks s !! p = Some t /\
    s_cpu s = mk_context (t_eip t) (t_esp t) (t_ebp t) 0x12345
                (dir_physicalAddr (k_mem (s_kernel s)) (t_page_directory t)) /\
    k_current_directory (s_kernel s) = t_page_directory t /\
    tss_esp0 (s_tss s) = u32 (t_kernel_stack t + KERNEL_STACK_SIZE).

Definition same_queues (s s' : sched) : Prop :=
  s_ready s' = s_ready s /\ s_sleep s' = s_sleep s /\ s_tick s' = s_tick s /\ s_next_pid s' = s_next_pid s /\
  s_tasks s' = s_tasks s.

Lemma load_task_spec p t s :
  s_tasks s !! p = Some t -> exists s', load_task p s = Ok s' /\ running p s' /\ same_queues s s'.
Proof.
  intros Ht. unfold load_task. cbn [with_current s_tasks s_kernel s_tss]. rewrite (deref_some _ _ _ Ht), bind_ok.
  eexists. split; [reflexivity|]. split.
  - split; [reflexivity|]. exists t. split; [exact Ht|]. split_and!; reflexivity.
  - split_and!; reflexivity.
Qed.

(** [switch_task] when another task is ready: the registers are saved, the
    current task leaves the queue if it sleeps, and the next one is loaded. *)
Lemma switch_task_eq eip esp ebp s l1 l2 t :
  seg (s_tasks s) (s_ready s) (l1 ++ s_current s :: l2) 0 -> NoDup (l1 ++ s_current s :: l2) -> l1 ++ l2 <> [] ->
  s_tasks s !! s_current s = Some t -> eip <> 0x12345 ->
  switch_task eip esp ebp s =
    (s1 ← (if negb (t_end_of_sleep t =? 0)
           then dequeue_current (with_tasks (<[s_current s := set_regs eip esp ebp t]> (s_tasks s)) s)
           else Ok (with_tasks (<[s_current s := set_regs eip esp ebp t]> (s_tasks s)) s));
     load_task (successor (l1 ++ s_current s :: l2) (s_current s)) s1).
Proof.
  intros H Hn Hne Ht He. apply NoDup_app in Hn as (_ & Hd & _).
  assert (s_current s ∉ l1) as Hc1 by (intros Hin; apply (Hd _ Hin); left).
  apply seg_app in H as (y & H1 & -> & Hc & t' & Ht' & H2). assert (t' = t) as -> by congruence.
  pose proof (seg_zero _ _ _ H2) as Hz. unfold switch_task. rewrite (proj2 (Z.eqb_neq _ _) Hc).
  assert ((if s_current s =? s_ready s then t0 ← deref (s_tasks s) (s_ready s); Ok (t_next t0 =? 0) else Ok false) =
    Ok false) as ->.
  { destruct (Z.eqb_spec (s_current s) (s_ready s)) as [E|_]; [|reflexivity].
    rewrite <- E, (deref_some _ _ _ Ht), bind_ok, Hz. f_equal. apply bool_decide_eq_false_2. intros ->.
    destruct l1 as [|z l1]; [apply Hne; reflexivity|]. destruct H1 as (Hr & _). apply Hc1. rewrite E, Hr. left. }
  rewrite bind_ok. rewrite (proj2 (Z.eqb_neq _ _) He), (assign_some _ _ _ _ Ht), bind_ok. cbv zeta.
  cbn [with_tasks s_tasks s_current s_ready].
  rewrite (deref_some _ _ (set_regs eip esp ebp t)) by apply lookup_insert_eq. rewrite bind_ok.
  cbn [set_regs t_next t_end_of_sleep]. rewrite Hz, successor_split by exact Hc1.
  assert ((if bool_decide (l2 = []) then s_ready s else t_next t) = hd (hd (s_current s) (l1 ++ [s_current s])) l2) as ->.
  - case_bool_decide as E2.
    + subst l2. simpl. destruct l1 as [|z l1]; [contradiction Hne; reflexivity|]. destruct H1 as (-> & _). reflexivity.
    + destruct l2 as [|w l2]; [contradiction|]. destruct H2 as (-> & _). reflexivity.
  - reflexivity.
Qed.

(** ** The operations implement the abstract ones *)

Lemma sched_rel_split s a :
  sched_rel s a -> exists l1 l2 t, a_ready a = l1 ++ s_current s :: l2 /\ s_tasks s !! s_current s = Some t /\
    NoDup (l1 ++ s_current s :: l2) /\ t_end_of_sleep t = 0.
Proof.
  intros H. pose proof (sr_runs _ _ H) as Hin. rewrite <- (sr_current _ _ H) in Hin.
  destruct (seg_in _ _ _ _ _ (sr_ready _ _ H) Hin) as (_ & t & Ht). pose proof (sr_awake _ _ H _ _ Hin Ht).
  apply list_elem_of_split in Hin as (l1 & l2 & E). exists l1, l2, t. split_and!; auto.
  pose proof (sr_nodup _ _ H) as Hn. rewrite E in Hn. apply NoDup_app in Hn. tauto.
Qed.

Lemma singleton_app {A} (x : A) l1 l2 : l1 ++ x :: l2 = [x] <-> l1 ++ l2 = [].
Proof.
  destruct l1 as [|y l1]; simpl; [split; [intros [=]; auto | intros ->; reflexivity]|].
  split; [intros [= _ E]; destruct l1; discriminate | discriminate].
Qed.

(** Saving registers of a task keeps the relation. *)
Lemma sched_rel_save eip esp ebp p t s a :
  sched_rel s a -> s_tasks s !! p = Some t -> sched_rel (with_tasks (<[p := set_regs eip esp ebp t]> (s_tasks s)) s) a.
Proof.
  intros H Ht. constructor; cbn [with_tasks s_tasks s_ready s_sleep s_current s_tick]; try apply H.
  - eapply seg_update; [exact Ht | reflexivity | apply H].
  - eapply seg_update; [exact Ht | reflexivity | apply H].
  - intros q t' Hq Hl. destruct (decide (q = p)) as [->|Hne].
    + rewrite lookup_insert_eq in Hl. injection Hl as <-. apply (sr_awake _ _ H _ _ Hq Ht).
    + rewrite lookup_insert_ne in Hl by congruence. apply (sr_awake _ _ H _ _ Hq Hl).
  - intros q d t' Hq Hl. destruct (decide (q = p)) as [->|Hne].
    + rewrite lookup_insert_eq in Hl. injection Hl as <-. apply (sr_asleep _ _ H _ _ _ Hq Ht).
    + rewrite lookup_insert_ne in Hl by congruence. apply (sr_asleep _ _ H _ _ _ Hq Hl).
Qed.

(** The relation only looks at the queues and the current task. *)
Lemma sched_rel_switch s s' a p :
  sched_rel s a -> same_queues s s' -> s_current s' = p -> p ∈ a_ready a ->
  sched_rel s' (mk_asched (a_ready a) (a_sleep a) p (a_tick a)).
Proof.
  intros H (E1 & E2 & E3 & _ & E5) Hp Hin.
  constructor; cbn [a_ready a_sleep a_current a_tick]; rewrite ?E1, ?E2, ?E3, ?E5; auto; apply H.
Qed.

Lemma switch_alone eip esp ebp s a : sched_rel s a -> a_ready a = [a_current a] -> switch_task eip esp ebp s = Ok s.
Proof.
  intros H E. pose proof (sr_ready _ _ H) as Hr. rewrite E in Hr. destruct Hr as (Hr & Hc & t & Ht & Hn).
  unfold switch_task. rewrite (sr_current _ _ H), Hr, (proj2 (Z.eqb_neq _ _) Hc), Z.eqb_refl.
  rewrite (deref_some _ _ _ Ht), !bind_ok, Hn. reflexivity.
Qed.

Lemma switch_task_rel eip esp ebp s a :
  sched_rel s a -> eip <> 0x12345 ->
  exists s', switch_task eip esp ebp s = Ok s' /\ sched_rel s' (a_switch a) /\ s_next_pid s' = s_next_pid s /\
    (a_ready a <> [a_current a] -> running (a_current (a_switch a)) s' /\
       exists t, s_tasks s !! s_current s = Some t /\ s_tasks s' = <[s_current s := set_regs eip esp ebp t]> (s_tasks s)).
Proof.
  intros H He. destruct (sched_rel_split s a H) as (l1 & l2 & t & E & Ht & Hn & Hend).
  pose proof (sr_current _ _ H) as Hc. destruct (decide (l1 ++ l2 = [])) as [Ha|Hne].
  - assert (a_ready a = [a_current a]) as Hal by (rewrite E, <- Hc; apply singleton_app, Ha).
    exists s. rewrite (switch_alone eip esp ebp s a H Hal). split_and!; [reflexivity | | reflexivity | congruence].
    unfold a_switch, successor. rewrite Hal. cbn [after]. rewrite Z.eqb_refl. simpl.
    rewrite <- Hal. destruct a. exact H.
  - pose proof (sr_ready _ _ H) as Hr. rewrite E in Hr.
    rewrite (switch_task_eq eip esp ebp s l1 l2 t Hr Hn Hne Ht He), Hend. cbn [Z.eqb negb]. rewrite bind_ok.
    set (s1 := with_tasks _ s). pose proof (sched_rel_save eip esp ebp _ _ _ _ H Ht) as H1. fold s1 in H1.
    assert (successor (l1 ++ s_current s :: l2) (s_current s) ∈ a_ready a) as Hin.
    { rewrite E. apply successor_in; [rewrite elem_of_app, elem_of_cons; auto | exact Hn]. }
    destruct (seg_in _ _ _ _ _ (sr_ready _ _ H1) Hin) as (_ & tn & Htn).
    destruct (load_task_spec _ _ s1 Htn) as (s' & El & Hrun & Hsame). exists s'. rewrite El.
    rewrite E, Hc in Hin |- *. rewrite Hc in Hrun. unfold a_switch. rewrite E, Hc. split_and!.
    + reflexivity.
    + rewrite <- Hc, <- E. apply (sched_rel_switch s1); [exact H1 | exact Hsame | | ].
      * rewrite E, Hc. apply Hrun.
      * rewrite E, Hc. exact Hin.
    + apply Hsame.
    + intros _. split; [exact Hrun|]. exists t. rewrite <- Hc. split; [exact Ht|]. apply Hsame.
Qed.

(** ** Waking a sleeper *)

(** What a task is apart from its place and its deadline. *)
Definition core (t : task_t) : Z * Z * Z * Z * Z * Z :=
  (t_id t, t_esp t, t_ebp t, t_eip t, t_page_directory t, t_kernel_stack t).

(** The tasks but [p] keep their deadlines. *)
Definition ends_but (p : Z) (ts ts' : gmap Z task_t) : Prop :=
  forall q, q <> p -> t_end_of_sleep <$> ts' !! q = t_end_of_sleep <$> ts !! q.

Lemma ends_but_insert p ts q t t' :
  (q <> p -> ts !! q = Some t /\ t_end_of_sleep t' = t_end_of_sleep t) -> ends_but p ts (<[q := t']> ts).
Proof.
  intros H r Hr. destruct (decide (r = q)) as [->|Hne].
  - destruct (H Hr) as [Ht He]. rewrite lookup_insert_eq, Ht. cbn. now rewrite He.
  - rewrite lookup_insert_ne by congruence. reflexivity.
Qed.

Lemma ends_but_trans p ts1 ts2 ts3 : ends_but p ts1 ts2 -> ends_but p ts2 ts3 -> ends_but p ts1 ts3.
Proof. intros H1 H2 q Hq. now rewrite H2, H1. Qed.

(** The unlinking half of [wake], and the appending half. *)
Lemma wake_unlink s d1 p d2 t :
  seg (s_tasks s) (s_sleep s) (d1 ++ p :: d2) 0 -> NoDup (d1 ++ p :: d2) -> s_tasks s !! p = Some t ->
  exists ts h, (if p =? s_sleep s then Ok (with_sleep (t_next t) s)
       else q ← walk_to (all_tasks s) p (s_tasks s) (s_sleep s);
            ts ← assign q (set_next (t_next t)) (s_tasks s); Ok (with_tasks ts s)) = Ok (with_tasks ts (with_sleep h s)) /\
    seg ts h (d1 ++ d2) 0 /\ ts !! p = Some t /\ agree core (s_tasks s) ts /\ agree t_end_of_sleep (s_tasks s) ts /\
    (forall q, q ∉ d1 -> ts !! q = s_tasks s !! q).
Proof.
  intros H Hn Ht.
  destruct (unlink_spec _ _ _ _ _ _ (all_tasks s) H Hn Ht ltac:(reflexivity)) as
    [(-> & Hs) | (z & tz & Hne & Hw & Htz & Hz & Hzc & Hs)].
  - rewrite Z.eqb_refl. exists (s_tasks s), (t_next t).
    split; [destruct s; reflexivity | split_and!; auto; intros q; reflexivity].
  - rewrite (proj2 (Z.eqb_neq p _)) by congruence. rewrite Hw, bind_ok, (assign_some _ _ _ _ Htz), bind_ok.
    exists (<[z := set_next (t_next t) tz]> (s_tasks s)), (s_sleep s). split; [destruct s; reflexivity|].
    split_and!; [exact Hs | rewrite lookup_insert_ne by congruence; exact Ht | | |].
    + eapply agree_insert; [exact Htz | reflexivity].
    + eapply agree_insert; [exact Htz | reflexivity].
    + intros q Hq. apply lookup_insert_ne. congruence.
Qed.

Lemma wake_spec s rq d1 p d2 :
  seg (s_tasks s) (s_ready s) rq 0 -> rq <> [] -> seg (s_tasks s) (s_sleep s) (d1 ++ p :: d2) 0 ->
  NoDup (rq ++ d1 ++ p :: d2) ->
  exists ts h t', wake p s = Ok (with_tasks ts (with_sleep h s)) /\
    seg ts (s_ready s) (rq ++ [p]) 0 /\ seg ts h (d1 ++ d2) 0 /\ ts !! p = Some t' /\ t_end_of_sleep t' = 0 /\
    t_next t' = 0 /\ ends_but p (s_tasks s) ts /\ agree core (s_tasks s) ts.
Proof.
  intros Hr Hne Hs Hn. apply NoDup_app in Hn as (Hnr & Hdis & Hns).
  assert (p ∈ d1 ++ p :: d2) as Hpin by (rewrite elem_of_app, elem_of_cons; auto).
  destruct (seg_in _ _ _ _ _ Hs Hpin) as (Hp0 & t & Ht).
  assert (p ∉ rq) as Hprq by (intros Hin; apply (Hdis _ Hin Hpin)).
  set (s1 := with_tasks (<[p := set_end_of_sleep 0 t]> (s_tasks s)) s).
  assert (s_tasks s1 !! p = Some (set_end_of_sleep 0 t)) as Ht1 by apply lookup_insert_eq.
  assert (seg (s_tasks s1) (s_sleep s1) (d1 ++ p :: d2) 0) as Hs1 by (eapply seg_update; [exact Ht | reflexivity | exact Hs]).
  destruct (wake_unlink s1 d1 p d2 _ Hs1 Hns Ht1) as (ts2 & h & E2 & Hs2 & Ht2 & Hc2 & He2 & Hoff2).
  assert (p ∉ d1 ++ d2) as Hpd by (rewrite <- Permutation_middle in Hns; now apply NoDup_cons in Hns as [Hns _]).
  assert (seg ts2 (s_ready s) rq 0) as Hr2.
  { apply (seg_agree (s_tasks s)); [|exact Hr]. intros x Hx. rewrite Hoff2.
    - unfold s1. cbn [with_tasks s_tasks]. rewrite lookup_insert_ne by congruence. reflexivity.
    - intros Hin. apply (Hdis x Hx). rewrite elem_of_app. auto. }
  destruct (queue_append_spec ts2 (s_ready s) rq p (size ts2) Hr2 Hne Hnr Hp0 ltac:(reflexivity)) as (z & tz & Hw & Hz & Htz & Hr3).
  assert (z <> p) as Hzp by congruence.
  set (ts3 := <[z := set_next p tz]> ts2) in *. assert (ts3 !! p = Some (set_end_of_sleep 0 t)) as Ht3
    by (unfold ts3; rewrite lookup_insert_ne by congruence; exact Ht2).
  exists (<[p := set_next 0 (set_end_of_sleep 0 t)]> ts3), h, (set_next 0 (set_end_of_sleep 0 t)). split_and!.
  - unfold wake. rewrite (assign_some _ _ _ _ Ht), bind_ok. cbv zeta. fold s1.
    rewrite (deref_some _ _ _ Ht1), bind_ok, E2, bind_ok. unfold all_tasks. cbn [with_tasks with_sleep s_tasks s_ready].
    change (s_ready s1) with (s_ready s). rewrite Hw, bind_ok, (assign_some _ _ _ _ Htz), bind_ok.
    rewrite (assign_some _ _ _ _ Ht3). reflexivity.
  - apply seg_snoc. split_and!; [|exact Hp0|].
    + apply seg_insert; [exact Hprq | exact Hr3].
    + eexists. rewrite lookup_insert_eq. split; reflexivity.
  - apply seg_insert; [exact Hpd|]. apply seg_insert; [|exact Hs2].
    intros Hin. apply (Hdis z Hz). rewrite elem_of_app in Hin |- *. rewrite elem_of_cons. tauto.
  - apply lookup_insert_eq.
  - reflexivity.
  - reflexivity.
  - apply (ends_but_trans p _ (s_tasks s1)); [apply (ends_but_insert _ _ _ t); intros; contradiction|].
    apply (ends_but_trans p _ ts2); [intros q _; apply He2|].
    apply (ends_but_trans p _ ts3); [apply (ends_but_insert _ _ _ tz); intros _; split; [exact Htz | reflexivity] |].
    apply (ends_but_insert _ _ _ t). intros; contradiction.
  - apply (agree_trans _ _ (s_tasks s1)); [eapply agree_insert; [exact Ht | reflexivity]|].
    apply (agree_trans _ _ ts2); [exact Hc2|].
    apply (agree_trans _ _ ts3); [eapply agree_insert; [exact Htz | reflexivity]|].
    eapply agree_insert; [exact Ht3 | reflexivity].
Qed.

(** A sleeper of the abstract scheduler moves to the ready queue. *)
Lemma wake_rel s a done p d rest :
  sched_rel s a -> a_sleep a = done ++ (p, d) :: rest ->
  exists s' t', wake p s = Ok s' /\ sched_rel s' (mk_asched (a_ready a ++ [p]) (done ++ rest) (a_current a) (a_tick a)) /\
    s_tasks s' !! p = Some t' /\ t_next t' = 0 /\ agree core (s_tasks s) (s_tasks s') /\
    s_next_pid s' = s_next_pid s /\ s_current s' = s_current s /\ s_kernel s' = s_kernel s.
Proof.
  intros H E. pose proof (sr_sleep _ _ H) as Hs. pose proof (sr_nodup _ _ H) as Hn.
  rewrite E, fmap_app, fmap_cons in Hs, Hn. cbn [fst] in Hs, Hn.
  assert (a_ready a <> []) as Hne by (intros E0; pose proof (sr_runs _ _ H) as Hin; rewrite E0 in Hin; now apply elem_of_nil in Hin).
  destruct (wake_spec s (a_ready a) done.*1 p rest.*1 (sr_ready _ _ H) Hne Hs Hn) as
    (ts & h & t' & Ew & Hr' & Hs' & Ht' & He' & Hn' & Hends & Hcore).
  eexists _, t'. split; [exact Ew|]. cbn [with_tasks with_sleep s_tasks s_next_pid s_current s_kernel]. split_and!; try assumption; try reflexivity.
  constructor; cbn [with_tasks with_sleep s_tasks s_ready s_sleep s_current s_tick a_ready a_sleep a_current a_tick];
    try apply H; [exact Hr' | rewrite fmap_app; exact Hs' | | | | ].
  - rewrite fmap_app, <- app_assoc. cbn [app]. rewrite (Permutation_middle done.*1). exact Hn.
  - rewrite elem_of_app. left. apply H.
  - intros q tq Hq Hl. destruct (decide (q = p)) as [->|Hqp]; [congruence|].
    apply elem_of_app in Hq as [Hq|Hq]; [|apply list_elem_of_singleton in Hq; congruence].
    specialize (Hends q Hqp). rewrite Hl in Hends. destruct (s_tasks s !! q) as [t0|] eqn:E0; [|discriminate].
    injection Hends as ->. apply (sr_awake _ _ H _ _ Hq E0).
  - intros q e tq Hq Hl.
    assert (q <> p) as Hqp.
    { intros ->. apply NoDup_app in Hn as (_ & _ & Hn). rewrite <- Permutation_middle in Hn.
      apply NoDup_cons in Hn as [Hn _]. apply Hn. rewrite <- fmap_app. apply list_elem_of_fmap. exists (p, e). auto. }
    specialize (Hends q Hqp). rewrite Hl in Hends. destruct (s_tasks s !! q) as [t0|] eqn:E0; [|discriminate].
    injection Hends as ->. apply (sr_asleep _ _ H q e t0); [|exact E0].
    rewrite E. rewrite elem_of_app in *. rewrite elem_of_cons. tauto.
Qed.

Lemma wake_sleepers_from fuel : forall s a done rest p,
  sched_rel s a -> a_sleep a = done ++ rest -> seg (s_tasks s) p rest.*1 0 -> (length rest <= fuel)%nat ->
  exists s', wake_sleepers fuel p s = Ok s' /\ agree core (s_tasks s) (s_tasks s') /\
    s_next_pid s' = s_next_pid s /\ s_current s' = s_current s /\ s_kernel s' = s_kernel s /\
    match first_expired (a_tick a) rest with
    | Some (q, r) => sched_rel s' (mk_asched (a_ready a ++ [q]) (done ++ r) (a_current a) (a_tick a))
    | None => sched_rel s' a
    end.
Proof.
  induction fuel as [|fuel IH]; intros s a done rest p H E Hseg Hf.
  { destruct rest as [|[x d] rest]; [simpl in Hseg; subst p; exists s; split_and!; first [reflexivity | exact H | intros q; reflexivity] | simpl in Hf; lia]. }
  destruct rest as [|[x d] rest]; [simpl in Hseg; subst p; exists s; split_and!; first [reflexivity | exact H | intros q; reflexivity] |].
  simpl in Hf. rewrite fmap_cons in Hseg. destruct Hseg as (-> & Hx & t & Ht & Hseg). cbn [fst] in *.
  cbn [wake_sleepers]. rewrite (proj2 (Z.eqb_neq _ _) Hx), (deref_some _ _ _ Ht), bind_ok.
  destruct (sr_asleep _ _ H x d t) as [Hd _]; [rewrite E, elem_of_app, elem_of_cons; auto | exact Ht |].
  rewrite Hd, (sr_tick _ _ H). cbn [first_expired]. destruct (d <? a_tick a) eqn:Ed.
  - destruct (wake_rel s a done x d rest H E) as (s' & t' & Ew & Hrel & Ht' & Hn' & Hc & Hpid & Hcur & Hk).
    rewrite Ew, bind_ok, (deref_some _ _ _ Ht'), bind_ok, Hn'. exists s'. split; [destruct fuel; reflexivity|].
    split_and!; assumption.
  - rewrite bind_ok, (deref_some _ _ _ Ht), bind_ok.
    destruct (IH s a (done ++ [(x, d)]) rest (t_next t) H) as (s' & Ew & Hc & Hpid & Hcur & Hk & Hm);
      [rewrite E, <- app_assoc; reflexivity | exact Hseg | lia |].
    exists s'. split_and!; try assumption. destruct (first_expired (a_tick a) rest) as [[q r]|]; [|exact Hm].
    rewrite <- app_assoc in Hm. exact Hm.
Qed.

Lemma wake_sleepers_rel s a :
  sched_rel s a -> exists s', wake_sleepers (all_tasks s) (s_sleep s) s = Ok s' /\ sched_rel s' (a_wake a) /\
    agree core (s_tasks s) (s_tasks s') /\ s_next_pid s' = s_next_pid s /\ s_current s' = s_current s /\
    s_kernel s' = s_kernel s.
Proof.
  intros H. destruct (wake_sleepers_from (all_tasks s) s a [] (a_sleep a) (s_sleep s)) as (s' & E & Hc & Hp & Hcur & Hk & Hm);
    [exact H | reflexivity | apply H | |].
  - pose proof (seg_length _ _ _ _ (sr_sleep _ _ H)) as Hl. rewrite length_fmap in Hl. apply Hl.
    pose proof (sr_nodup _ _ H) as Hn. apply NoDup_app in Hn. tauto.
  - exists s'. split_and!; try assumption. unfold a_wake.
    destruct (first_expired (a_tick a) (a_sleep a)) as [[q r]|]; exact Hm.
Qed.

(** A tick changes nothing else. *)
Lemma sched_rel_tick s a n :
  sched_rel s a -> sched_rel (with_tick n s) (mk_asched (a_ready a) (a_sleep a) (a_current a) n).
Proof. intros H. constructor; try apply H; reflexivity. Qed.

Lemma timer_callback_rel eip esp ebp s a :
  sched_rel s a -> s_next_pid s <> 1 -> eip <> 0x12345 ->
  exists s', timer_callback eip esp ebp s = Ok s' /\ sched_rel s' (a_timer a) /\ s_next_pid s' = s_next_pid s /\
    (a_ready (a_wake (mk_asched (a_ready a) (a_sleep a) (a_current a) (u32 (a_tick a + 1)))) <> [a_current a] ->
     running (a_current (a_timer a)) s').
Proof.
  intros H Hp He. unfold timer_callback. rewrite (sr_tick _ _ H).
  pose proof (sched_rel_tick s a (u32 (a_tick a + 1)) H) as H1. set (s1 := with_tick _ s) in *.
  cbv zeta. change (s_next_pid s1) with (s_next_pid s). rewrite (proj2 (Z.eqb_neq _ _) Hp).
  destruct (wake_sleepers_rel s1 _ H1) as (s2 & E2 & H2 & _ & Hp2 & _ & _). rewrite E2, bind_ok.
  destruct (switch_task_rel eip esp ebp s2 _ H2 He) as (s3 & E3 & H3 & Hp3 & Hrun).
  exists s3. split_and!; [exact E3 | exact H3 | now rewrite Hp3, Hp2 |].
  intros Hne. assert (a_current (a_wake (mk_asched (a_ready a) (a_sleep a) (a_current a) (u32 (a_tick a + 1)))) = a_current a) as Ec.
  { unfold a_wake. destruct (first_expired _ _) as [[q r]|]; reflexivity. }
  apply Hrun. rewrite Ec. exact Hne.
Qed.

(** ** sleep *)

Lemma filter_remove (c : Z) l1 l2 :
  NoDup (l1 ++ c :: l2) -> filter (fun p => p <> c) (l1 ++ c :: l2) = l1 ++ l2.
Proof.
  intros Hn. rewrite filter_app, filter_cons, decide_False by (intros H; now apply H).
  assert (forall l : list Z, c ∉ l -> filter (fun p => p <> c) l = l) as Hid.
  { intros l. induction l as [|x l IH]; intros Hc; [reflexivity|].
    apply not_elem_of_cons in Hc as [Hx Hc]. rewrite filter_cons, decide_True, IH by congruence. reflexivity. }
  apply NoDup_app in Hn as (_ & Hd & Hn). apply NoDup_cons in Hn as [Hn _].
  rewrite !Hid; [reflexivity | exact Hn | intros Hin; apply (Hd _ Hin); left].
Qed.

(** The mark: refused when nothing else is ready. *)
Lemma sleep_mark_spec n s l1 l2 t :
  seg (s_tasks s) (s_ready s) (l1 ++ s_current s :: l2) 0 -> NoDup (l1 ++ s_current s :: l2) ->
  s_tasks s !! s_current s = Some t ->
  sleep_mark n s =
    if bool_decide (l1 ++ l2 = []) then Ok (false, s)
    else Ok (true, with_tasks (<[s_current s := set_end_of_sleep (u32 (s_tick s + n)) t]> (s_tasks s)) s).
Proof.
  intros H Hn Ht. assert (s_current s ∉ l1 ++ l2) as Hc.
  { rewrite <- Permutation_middle in Hn. now apply NoDup_cons in Hn as [Hc _]. }
  assert (s_current s ∈ l1 ++ s_current s :: l2) as Hin by (rewrite elem_of_app, elem_of_cons; auto).
  destruct (seg_in _ _ _ _ _ H Hin) as [Hc0 _].
  destruct (unlink_spec _ _ _ _ _ _ (all_tasks s) H Hn Ht ltac:(reflexivity)) as
    [(E & Hs) | (z & tz & Hne & _ & _ & Hz & _ & _)]; unfold sleep_mark; rewrite (proj2 (Z.eqb_neq _ _) Hc0); cbn [negb andb].
  - rewrite E, Z.eqb_refl, (deref_some _ _ _ Ht), bind_ok, bind_ok, (seg_zero _ _ _ Hs).
    case_bool_decide; [reflexivity|]. rewrite (assign_some _ _ _ _ Ht). reflexivity.
  - rewrite (proj2 (Z.eqb_neq (s_current s) _)) by congruence. rewrite bind_ok, bool_decide_eq_false_2.
    + rewrite (assign_some _ _ _ _ Ht). reflexivity.
    + intros E. apply app_eq_nil in E as [-> _]. now apply elem_of_nil in Hz.
Qed.

(** The entry into the sleep queue leaves its last [next] pointing at the
    current task. *)
Lemma sleep_enqueue_spec s sq :
  seg (s_tasks s) (s_sleep s) sq 0 -> NoDup sq -> s_current s <> 0 -> s_current s ∉ sq ->
  exists ts h, sleep_enqueue s = Ok (with_tasks ts (with_sleep h s)) /\ seg ts h sq (s_current s) /\
    agree core (s_tasks s) ts /\ agree t_end_of_sleep (s_tasks s) ts /\
    (forall p, p ∉ sq -> ts !! p = s_tasks s !! p).
Proof.
  intros H Hn Hc Hin. unfold sleep_enqueue. rewrite (seg_zero _ _ _ H). case_bool_decide as E.
  - subst sq. exists (s_tasks s), (s_current s).
    split; [destruct s; reflexivity | split_and!; [reflexivity | apply agree_refl | apply agree_refl | intros; reflexivity]].
  - destruct (queue_append_spec _ _ _ (s_current s) (all_tasks s) H E Hn Hc ltac:(reflexivity)) as (z & tz & Hw & Hz & Htz & Hs).
    rewrite Hw, bind_ok, (assign_some _ _ _ _ Htz), bind_ok. eexists _, (s_sleep s).
    split; [destruct s; reflexivity|]. split_and!; [exact Hs | | |].
    + eapply agree_insert; [exact Htz | reflexivity].
    + eapply agree_insert; [exact Htz | reflexivity].
    + intros p Hp. apply lookup_insert_ne. congruence.
Qed.

(** The switch away from a marked and queued task. *)
Lemma switch_sleeping eip esp ebp s l1 l2 sq t :
  seg (s_tasks s) (s_ready s) (l1 ++ s_current s :: l2) 0 -> seg (s_tasks s) (s_sleep s) sq (s_current s) ->
  NoDup (l1 ++ s_current s :: l2 ++ sq) -> l1 ++ l2 <> [] -> s_tasks s !! s_current s = Some t ->
  t_end_of_sleep t <> 0 -> eip <> 0x12345 ->
  exists s', switch_task eip esp ebp s = Ok s' /\ running (successor (l1 ++ s_current s :: l2) (s_current s)) s' /\
    seg (s_tasks s') (s_ready s') (l1 ++ l2) 0 /\ seg (s_tasks s') (s_sleep s') (sq ++ [s_current s]) 0 /\
    agree t_end_of_sleep (s_tasks s) (s_tasks s') /\ s_tick s' = s_tick s /\ s_next_pid s' = s_next_pid s.
Proof.
  intros Hr Hs Hn Hne Ht He Heip. rewrite app_comm_cons, app_assoc in Hn.
  apply NoDup_app in Hn as (Hnr & Hdis & Hns).
  rewrite (switch_task_eq eip esp ebp s l1 l2 t Hr Hnr Hne Ht Heip), (proj2 (Z.eqb_neq _ _) He). cbn [negb].
  set (s1 := with_tasks _ s). set (t1 := set_regs eip esp ebp t).
  assert (s_tasks s1 !! s_current s1 = Some t1) as Ht1 by apply lookup_insert_eq.
  assert (seg (s_tasks s1) (s_ready s1) (l1 ++ s_current s1 :: l2) 0) as Hr1 by (eapply seg_update; [exact Ht | reflexivity | exact Hr]).
  assert (seg (s_tasks s1) (s_sleep s1) sq (s_current s1)) as Hs1 by (eapply seg_update; [exact Ht | reflexivity | exact Hs]).
  destruct (dequeue_current_spec s1 l1 l2 t1 Hr1 Hnr Ht1) as (ts2 & r & E2 & Hr2 & Ht2 & Ha2 & Hoff). rewrite E2, bind_ok.
  assert (successor (l1 ++ s_current s :: l2) (s_current s) ∈ l1 ++ l2) as Hin.
  { assert (s_current s ∉ l1) as Hc1 by (apply NoDup_app in Hnr as (_ & Hd & _); intros Hin; apply (Hd _ Hin); left).
    rewrite successor_split, elem_of_app by exact Hc1. destruct l2 as [|w l2]; [|right; left].
    destruct l1 as [|v l1]; [contradiction Hne; reflexivity | left; left]. }
  destruct (seg_in _ _ _ _ _ Hr2 Hin) as (_ & tn & Htn).
  destruct (load_task_spec _ tn (with_tasks ts2 (with_ready r s1)) Htn) as (s' & El & Hrun & (Q1 & Q2 & Q3 & Q4 & Q5)).
  exists s'. rewrite El. cbn [with_tasks with_ready s_ready s_sleep s_tick s_next_pid s_tasks] in *.
  rewrite Q1, Q2, Q3, Q4, Q5. split_and!; try reflexivity; [exact Hrun | exact Hr2 | |].
  - apply seg_snoc. split_and!.
    + revert Hs1. apply seg_agree. intros x Hx. rewrite Hoff; [reflexivity | |].
      * intros Hx1. apply (Hdis x); [rewrite elem_of_app; auto | exact Hx].
      * intros ->. apply (Hdis (s_current s)); [rewrite elem_of_app, elem_of_cons; auto | exact Hx].
    + apply (seg_in _ _ _ _ (s_current s) Hr). rewrite elem_of_app, elem_of_cons. auto.
    + exists (set_next 0 t1). split; [exact Ht2 | reflexivity].
  - apply (agree_trans _ _ (s_tasks s1)); [eapply agree_insert; [exact Ht | reflexivity]|].
    intros p. specialize (Ha2 p). destruct (ts2 !! p) as [x|], (s_tasks s1 !! p) as [y|]; try discriminate; [|reflexivity].
    injection Ha2 as Ha2. cbn. f_equal. congruence.
Qed.

(** The state after a sleep: the current task is in the sleep queue with its
    deadline and the next one runs. *)
Lemma sleep_sched_rel n s a l1 l2 t s' :
  sched_rel s a -> a_ready a = l1 ++ s_current s :: l2 -> l1 ++ l2 <> [] -> s_tasks s !! s_current s = Some t ->
  let d := u32 (s_tick s + n) in
  d <> 0 -> running (successor (a_ready a) (s_current s)) s' ->
  seg (s_tasks s') (s_ready s') (l1 ++ l2) 0 -> seg (s_tasks s') (s_sleep s') ((a_sleep a).*1 ++ [s_current s]) 0 ->
  agree t_end_of_sleep (<[s_current s := set_end_of_sleep d t]> (s_tasks s)) (s_tasks s') -> s_tick s' = s_tick s ->
  sched_rel s' (a_sleep_for n a).
Proof.
  cbv zeta. intros H E Ha Ht Hd Hrun Hr' Hs' He1 Hk'. set (d := u32 (s_tick s + n)) in *.
  pose proof (sr_nodup _ _ H) as Hnd. pose proof Hnd as Hnd'. apply NoDup_app in Hnd' as (Hn & Hdis & _). rewrite E in Hn.
  assert (s_current s ∈ a_ready a) as Hcin by (rewrite E, elem_of_app, elem_of_cons; auto).
  unfold a_sleep_for. rewrite E, <- (sr_current _ _ H), decide_False by (rewrite singleton_app; exact Ha).
  rewrite filter_remove by exact Hn. rewrite E in Hnd, Hrun.
  constructor; cbn [a_ready a_sleep a_current a_tick].
  - exact Hr'.
  - rewrite fmap_app. exact Hs'.
  - rewrite fmap_app. cbn [fmap list_fmap fst]. rewrite app_assoc, <- Permutation_cons_append.
    rewrite <- (Permutation_middle l1 l2) in Hnd. exact Hnd.
  - apply Hrun.
  - rewrite successor_split by (apply NoDup_app in Hn as (_ & Hd1 & _); intros Hin; apply (Hd1 _ Hin); left).
    rewrite elem_of_app. destruct l2 as [|w l2]; [|right; left].
    destruct l1 as [|v l1]; [contradiction Ha; reflexivity | left; left].
  - intros p tp Hp Hl. destruct (agree_lookup _ _ _ _ _ He1 Hl) as (t0 & Ht0 & ->).
    assert (p <> s_current s) as Hpc.
    { intros ->. rewrite <- Permutation_middle in Hn. apply NoDup_cons in Hn as [Hn _]. contradiction. }
    rewrite lookup_insert_ne in Ht0 by congruence.
    apply (sr_awake _ _ H p t0); [|exact Ht0]. rewrite E. rewrite elem_of_app in *. rewrite elem_of_cons. tauto.
  - intros p e tp Hp Hl. destruct (agree_lookup _ _ _ _ _ He1 Hl) as (t0 & Ht0 & ->).
    apply elem_of_app in Hp as [Hp|Hp].
    + assert (p <> s_current s) as Hpc.
      { intros ->. apply (Hdis _ Hcin), list_elem_of_fmap. exists (s_current s, e). auto. }
      rewrite lookup_insert_ne in Ht0 by congruence. apply (sr_asleep _ _ H p e t0 Hp Ht0).
    + apply list_elem_of_singleton in Hp. injection Hp as -> ->. rewrite lookup_insert_eq in Ht0. injection Ht0 as <-.
      rewrite <- (sr_tick _ _ H). split; [reflexivity | exact Hd].
  - rewrite Hk'. apply H.
Qed.

Lemma sleep_rel n eip esp ebp s a :
  sched_rel s a -> eip <> 0x12345 -> u32 (s_tick s + n) <> 0 ->
  exists s', sleep n eip esp ebp s = Ok s' /\ sched_rel s' (a_sleep_for n a) /\ s_next_pid s' = s_next_pid s /\
    (a_ready a = [a_current a] -> s' = s) /\
    (a_ready a <> [a_current a] -> running (successor (a_ready a) (a_current a)) s').
Proof.
  intros H Heip Hd. destruct (sched_rel_split s a H) as (l1 & l2 & t & E & Ht & Hn & Hend).
  pose proof (sr_current _ _ H) as Hc. pose proof (sr_ready _ _ H) as Hr. rewrite E in Hr. unfold sleep.
  rewrite (sleep_mark_spec n s l1 l2 t Hr Hn Ht). rewrite E. case_bool_decide as Ha.
  { rewrite bind_ok. exists s. apply singleton_app with (x := s_current s) in Ha. rewrite Hc in Ha |- *.
    unfold a_sleep_for. rewrite E, Hc, decide_True by exact Ha.
    split_and!; [reflexivity | exact H | reflexivity | reflexivity | contradiction]. }
  rewrite bind_ok. cbv iota beta.
  set (e := u32 (s_tick s + n)) in *. set (t1 := set_end_of_sleep e t).
  set (s1 := with_tasks _ s). pose proof (sr_nodup _ _ H) as Hnd. rewrite E in Hnd.
  pose proof Hnd as Hnd'. apply NoDup_app in Hnd' as (_ & Hdis & Hns).
  assert (s_current s ∈ l1 ++ s_current s :: l2) as Hcin by (rewrite elem_of_app, elem_of_cons; auto).
  destruct (seg_in _ _ _ _ _ Hr Hcin) as [Hc0 _].
  assert (seg (s_tasks s1) (s_sleep s1) (a_sleep a).*1 0) as Hs1 by (eapply seg_update; [exact Ht | reflexivity | apply H]).
  destruct (sleep_enqueue_spec s1 _ Hs1 Hns Hc0 (Hdis _ Hcin)) as (ts2 & h & E2 & Hs2 & _ & He2 & Hoff).
  rewrite E2, bind_ok. set (s2 := with_tasks ts2 (with_sleep h s1)).
  assert (s_tasks s2 !! s_current s2 = Some t1) as Ht2.
  { change (ts2 !! s_current s = Some t1). rewrite (Hoff _ (Hdis _ Hcin)). apply lookup_insert_eq. }
  assert (seg (s_tasks s2) (s_ready s2) (l1 ++ s_current s2 :: l2) 0) as Hr2.
  { apply (seg_agree (s_tasks s1)); [|eapply seg_update; [exact Ht | reflexivity | exact Hr]].
    intros x Hx. change (s_tasks s2) with ts2. rewrite (Hoff _ (Hdis _ Hx)). reflexivity. }
  destruct (switch_sleeping eip esp ebp s2 l1 l2 (a_sleep a).*1 t1 Hr2 Hs2) as
    (s' & Es & Hrun & Hr' & Hs' & He' & Hk' & Hp'); [rewrite <- app_assoc in Hnd; exact Hnd | exact Ha | exact Ht2 | exact Hd | exact Heip |].
  change (s_current s2) with (s_current s) in *. rewrite Hc in Hrun, Hs'.
  exists s'. split_and!; [exact Es | | exact Hp' | intros E0; rewrite <- Hc in E0; apply singleton_app in E0; contradiction | intros _; rewrite Hc; exact Hrun].
  assert (agree t_end_of_sleep (s_tasks s1) (s_tasks s')) as He1 by (eapply agree_trans; [exact He2 | exact He']).
  rewrite <- Hc, <- E in Hrun. rewrite <- Hc in Hs'.
  apply (sleep_sched_rel n s a l1 l2 t); assumption.
Qed.

(** ** fork *)

(** A task that does not exist yet is in no queue. *)
Lemma fresh_not_queued s a p : sched_rel s a -> s_tasks s !! p = None -> (p ∉ a_ready a) /\ (p ∉ (a_sleep a).*1).
Proof.
  intros H Hp. split; intros Hin.
  - destruct (seg_in _ _ _ _ _ (sr_ready _ _ H) Hin) as (_ & t0 & Ht0). congruence.
  - destruct (seg_in _ _ _ _ _ (sr_sleep _ _ H) Hin) as (_ & t0 & Ht0). congruence.
Qed.

(** The new task [p], linked behind the last one, [z], is ready. *)
Lemma fork_sched_rel s a p t t' z tz s' :
  sched_rel s a -> s_tasks s !! p = None -> p <> 0 -> t_end_of_sleep t' = 0 -> t_next t' = 0 ->
  z ∈ a_ready a -> s_tasks s !! z = Some tz ->
  let ts := <[z := set_next p tz]> (<[p := t]> (s_tasks s)) in
  seg ts (s_ready s) (a_ready a) p -> s_tasks s' = <[p := t']> ts ->
  s_ready s' = s_ready s -> s_sleep s' = s_sleep s -> s_current s' = s_current s -> s_tick s' = s_tick s ->
  sched_rel s' (a_fork p a).
Proof.
  cbv zeta. intros H Hfresh Hn0 Hd' Hnx' Hz Htz Hr Ets Er Es Ec Et.
  destruct (fresh_not_queued s a p H Hfresh) as [Hpr Hps]. assert (z <> p) as Hzn by congruence.
  pose proof (sr_nodup _ _ H) as Hnd. pose proof Hnd as Hnd'. apply NoDup_app in Hnd' as (_ & Hdis & _).
  assert (forall q, q <> p -> t_end_of_sleep <$> s_tasks s' !! q = t_end_of_sleep <$> s_tasks s !! q) as Hend.
  { intros q Hq. rewrite Ets, lookup_insert_ne by congruence. destruct (decide (q = z)) as [->|Hqz].
    - rewrite lookup_insert_eq, Htz. reflexivity.
    - rewrite !lookup_insert_ne by congruence. reflexivity. }
  constructor; cbn [a_fork a_ready a_sleep a_current a_tick]; rewrite ?Er, ?Es, ?Ec, ?Et; try apply H.
  - rewrite Ets. apply seg_snoc. split_and!; [|exact Hn0|].
    + apply seg_insert; [exact Hpr | exact Hr].
    + eexists. rewrite lookup_insert_eq. split; [reflexivity | exact Hnx'].
  - rewrite Ets. apply seg_insert; [exact Hps|]. apply seg_insert; [apply (Hdis z Hz)|]. apply seg_insert; [exact Hps | apply H].
  - rewrite <- app_assoc. cbn [app]. rewrite <- Permutation_middle. constructor; [|exact Hnd]. rewrite elem_of_app. tauto.
  - rewrite elem_of_app. left. apply H.
  - intros q tq Hq Hl. destruct (decide (q = p)) as [->|Hqp].
    + rewrite Ets, lookup_insert_eq in Hl. injection Hl as <-. exact Hd'.
    + specialize (Hend q Hqp). rewrite Hl in Hend.
      apply elem_of_app in Hq as [Hq|Hq]; [|apply list_elem_of_singleton in Hq; congruence].
      destruct (s_tasks s !! q) as [t0|] eqn:E0; [|discriminate]. injection Hend as ->. apply (sr_awake _ _ H q t0 Hq E0).
  - intros q d tq Hq Hl. assert (q <> p) as Hqp.
    { intros ->. apply Hps, list_elem_of_fmap. exists (p, d). auto. }
    specialize (Hend q Hqp). rewrite Hl in Hend.
    destruct (s_tasks s !! q) as [t0|] eqn:E0; [|discriminate]. injection Hend as ->. apply (sr_asleep _ _ H q d t0 Hq E0).
Qed.

Lemma fork_rel fuel eip esp ebp s a directory k1 new_task k2 stack k3 :
  sched_rel s a -> clone_directory fuel (k_current_directory (s_kernel s)) (s_kernel s) = Ok (directory, k1) ->
  kmalloc fuel SIZEOF_task k1 = Ok (new_task, k2) -> kmalloc_a fuel KERNEL_STACK_SIZE k2 = Ok (stack, k3) ->
  new_task <> 0 -> s_tasks s !! new_task = None ->
  exists s', fork fuel eip esp ebp s = Ok (s_next_pid s, s') /\ sched_rel s' (a_fork new_task a) /\
    s_next_pid s' = u32 (s_next_pid s + 1) /\ s_kernel s' = k3 /\
    s_tasks s' !! new_task = Some (mk_task (s_next_pid s) esp ebp eip directory stack 0 0) /\
    (forall p, p <> new_task -> t_id <$> s_tasks s' !! p = t_id <$> s_tasks s !! p).
Proof.
  intros H Ed Ek Ea Hn0 Hfresh. unfold fork, fork_create.
  rewrite Ed, bind_ok. cbv iota beta. rewrite Ek, bind_ok. cbv iota beta. rewrite Ea, bind_ok. cbv iota beta zeta.
  set (t := mk_task (s_next_pid s) 0 0 0 directory stack 0 0). set (ts1 := <[new_task := t]> (s_tasks s)).
  cbn [with_next_pid with_tasks with_kernel s_tasks s_ready s_next_pid s_kernel s_sleep s_current s_tick s_tss s_cpu].
  assert (forall l p q, seg (s_tasks s) p l q -> seg ts1 p l q) as Hseg1.
  { intros l p q Hs. apply seg_insert; [|exact Hs]. intros Hin.
    destruct (seg_in _ _ _ _ _ Hs Hin) as (_ & t0 & Ht0). congruence. }
  assert (a_ready a <> []) as Hne by (intros E0; pose proof (sr_runs _ _ H) as Hin; rewrite E0 in Hin; now apply elem_of_nil in Hin).
  pose proof (sr_nodup _ _ H) as Hnd. pose proof Hnd as Hnd'. apply NoDup_app in Hnd' as (Hnr & Hdis & _).
  destruct (queue_append_spec ts1 (s_ready s) (a_ready a) new_task (size ts1) (Hseg1 _ _ _ (sr_ready _ _ H)) Hne Hnr Hn0
    ltac:(reflexivity)) as (z & tz & Hw & Hz & Htz & Hr).
  match goal with |- context [walk_last ?f ?ts ?p] => change (walk_last f ts p) with (walk_last (size ts1) ts1 (s_ready s)) end.
  rewrite Hw, bind_ok, (assign_some _ _ _ _ Htz), !bind_ok.
  set (ts2 := <[z := set_next new_task tz]> ts1) in *.
  destruct (fresh_not_queued s a new_task H Hfresh) as [Hnew _].
  assert (z <> new_task) as Hzn by congruence.
  assert (ts2 !! new_task = Some t) as Htn by (unfold ts2, ts1; rewrite lookup_insert_ne by congruence; apply lookup_insert_eq).
  cbv iota beta zeta. unfold fork_return. cbn [s_current with_tasks s_tasks]. rewrite Z.eqb_refl.
  rewrite (assign_some _ _ _ _ Htn), bind_ok. rewrite (deref_some _ _ (set_regs eip esp ebp t)) by apply lookup_insert_eq.
  rewrite bind_ok. eexists. split; [reflexivity|].
  cbn [with_tasks s_tasks s_next_pid s_kernel]. split_and!; [|reflexivity | reflexivity | apply lookup_insert_eq |].
  2:{ intros p Hp. unfold ts2. rewrite lookup_insert_ne by congruence. destruct (decide (p = z)) as [->|Hpz].
      - rewrite lookup_insert_eq. unfold ts1 in Htz. rewrite lookup_insert_ne in Htz by congruence. rewrite Htz. reflexivity.
      - unfold ts1. rewrite !lookup_insert_ne by congruence. reflexivity. }
  unfold ts1 in Htz. rewrite lookup_insert_ne in Htz by congruence.
  apply (fork_sched_rel s a new_task t (set_regs eip esp ebp t) z tz); try assumption; reflexivity.
Qed.
