(* ===== verification/TaskProps.v ===== *)
(** * Properties of the scheduler

    Each operation implements the abstract one; on runs no task is lost, the
    ready tasks run in turn and sleepers are woken.  The last section has the
    runs on which the queues break. *)

From S2P Require Import Prelude Memory Util OrderedArray Kernel Paging KHeap Descriptors Directories Task TaskInv.

(** ** A machine with three tasks

    Tasks 0x10 and 0x20 are ready, the first of them runs; 0x30 sleeps until
    tick 8.  The tick count is 7. *)

Definition example_task (id eip end_of_sleep next : Z) : task_t :=
  mk_task id (0x9000 + id) (0x9100 + id) eip 0x8000 (0x7000 * id) end_of_sleep next.

Definition example_sched : sched :=
  mk_sched (mk_kernel ∅ ∅ 0x100000 None 0 0 0x8000 0x8000)
    (<[0x10 := example_task 1 0x111 0 0x20]> (<[0x20 := example_task 2 0x222 0 0]> (<[0x30 := example_task 3 0x333 8 0]> ∅)))
    0x10 0x10 0x30 4 7 (mk_tss 0 0x10 0x13 0x0B 0x13 0x13 0x13 0x13) (mk_context 0 0 0 0 0).

Definition example_asched : asched := mk_asched [0x10; 0x20] [(0x30, 8)] 0x10 7.

Lemma example_rel : sched_rel example_sched example_asched.
Proof.
  constructor; try reflexivity.
  - simpl. split_and!; [reflexivity | discriminate |]. eexists. split; [reflexivity|].
    split_and!; [reflexivity | discriminate |]. eexists. split; reflexivity.
  - simpl. split_and!; [reflexivity | discriminate |]. eexists. split; reflexivity.
  - apply (bool_decide_unpack _). vm_compute. exact I.
  - left.
  - intros p t Hp Ht. repeat (apply elem_of_cons in Hp as [->|Hp]; [vm_compute in Ht; injection Ht as <-; reflexivity|]).
    now apply elem_of_nil in Hp.
  - intros p d t Hp Ht. apply list_elem_of_singleton in Hp. injection Hp as -> ->.
    vm_compute in Ht. injection Ht as <-. split; [reflexivity | discriminate].
Qed.

(** ** Refinement *)

(** [switch_task], with the scheduler in a good state, implements the
    abstract switch: with one ready task nothing changes; otherwise the
    registers of the current task are saved, the next ready task in turn
    becomes the current one, and the processor runs it: its registers, page
    directory and kernel stack are loaded. *)
Theorem switch_task_refines (eip esp ebp : Z) (s : sched) (a : asched) :
  sched_rel s a -> eip <> 0x12345 ->
  exists s', switch_task eip esp ebp s = Ok s' /\ sched_rel s' (a_switch a) /\
    (a_ready a = [a_current a] -> s' = s) /\
    (a_ready a <> [a_current a] -> running (successor (a_ready a) (a_current a)) s' /\
       exists t, s_tasks s !! s_current s = Some t /\ s_tasks s' = <[s_current s := set_regs eip esp ebp t]> (s_tasks s)).
Proof.
  intros H He. destruct (switch_task_rel eip esp ebp s a H He) as (s' & E & H' & _ & Hrun).
  exists s'. split_and!; [exact E | exact H' | | exact Hrun].
  intros Ha. rewrite (switch_alone eip esp ebp s a H Ha) in E. injection E as <-. reflexivity.
Qed.

Lemma switch_task_refines_witness :
  exists s', switch_task 0x444 1 2 example_sched = Ok s' /\ running 0x20 s' /\ c_eip (s_cpu s') = 0x222.
Proof.
  destruct (switch_task_refines 0x444 1 2 example_sched example_asched example_rel) as (s' & E & _ & _ & Hr); [discriminate|].
  exists s'. split; [exact E|]. destruct Hr as [Hr _]; [discriminate|]. split; [exact Hr|].
  vm_compute in E. injection E as <-. reflexivity.
Defined.

(** C6: [timer_callback], once tasking is on, implements the abstract tick: the
    tick count goes up with wrap-around, the first sleeper whose deadline is
    behind it moves to the end of the ready queue, and the next ready task
    runs. *)
Theorem timer_callback_refines (eip esp ebp : Z) (s : sched) (a : asched) :
  sched_rel s a -> s_next_pid s <> 1 -> eip <> 0x12345 ->
  exists s', timer_callback eip esp ebp s = Ok s' /\ sched_rel s' (a_timer a) /\ s_next_pid s' = s_next_pid s /\
    (a_ready (a_timer a) <> [a_current a] -> running (a_current (a_timer a)) s').
Proof. apply timer_callback_rel. Qed.

Lemma timer_callback_refines_witness :
  exists s1 s2, timer_callback 0x444 1 2 example_sched = Ok s1 /\ timer_callback 0x555 3 4 s1 = Ok s2 /\
    sched_rel s2 (mk_asched [0x10; 0x20; 0x30] [] 0x30 9).
Proof.
  destruct (timer_callback_refines 0x444 1 2 example_sched example_asched example_rel) as (s1 & E1 & H1 & Hp & _);
    [discriminate | discriminate |].
  destruct (timer_callback_refines 0x555 3 4 s1 (a_timer example_asched) H1) as (s2 & E2 & H2 & _ & _);
    [rewrite Hp; discriminate | discriminate |].
  exists s1, s2. split_and!; [exact E1 | exact E2 | exact H2].
Defined.

(** C7: [sleep] implements the abstract one: with no other ready task it
    refuses and nothing changes; otherwise, unless the deadline wraps to 0, the
    current task leaves the ready queue for the end of the sleep queue with the
    deadline [tick + epoches], and the next ready task runs. *)
Theorem sleep_refines (epoches eip esp ebp : Z) (s : sched) (a : asched) :
  sched_rel s a -> eip <> 0x12345 -> u32 (s_tick s + epoches) <> 0 ->
  exists s', sleep epoches eip esp ebp s = Ok s' /\ sched_rel s' (a_sleep_for epoches a) /\
    (a_ready a = [a_current a] -> s' = s) /\
    (a_ready a <> [a_current a] -> running (successor (a_ready a) (a_current a)) s').
Proof.
  intros H He Hd. destruct (sleep_rel epoches eip esp ebp s a H He Hd) as (s' & E & H' & _ & Ha & Hr). eauto.
Qed.

Lemma sleep_refines_witness :
  exists s', sleep 50 0x444 1 2 example_sched = Ok s' /\ sched_rel s' (mk_asched [0x20] [(0x30, 8); (0x10, 57)] 0x20 7).
Proof.
  destruct (sleep_refines 50 0x444 1 2 example_sched example_asched example_rel) as (s' & E & H & _);
    [discriminate | discriminate |]. exists s'. split; [exact E | exact H].
Defined.

(** [fork], when the address space is cloned and the two chunks are
    allocated and the task's is new, returns the child's pid, the next one, in
    the parent.  The child is appended to the ready queue with the parent's
    registers and the cloned directory, and when the child comes to run the
    same call returns 0 there. *)
Theorem fork_refines (fuel : nat) (eip esp ebp : Z) (s : sched) (a : asched)
    (directory new_task stack : Z) (k1 k2 k3 : kernel) :
  sched_rel s a -> clone_directory fuel (k_current_directory (s_kernel s)) (s_kernel s) = Ok (directory, k1) ->
  kmalloc fuel SIZEOF_task k1 = Ok (new_task, k2) -> kmalloc_a fuel KERNEL_STACK_SIZE k2 = Ok (stack, k3) ->
  new_task <> 0 -> s_tasks s !! new_task = None ->
  exists s', fork fuel eip esp ebp s = Ok (s_next_pid s, s') /\ sched_rel s' (a_fork new_task a) /\
    s_next_pid s' = u32 (s_next_pid s + 1) /\
    s_tasks s' !! new_task = Some (mk_task (s_next_pid s) esp ebp eip directory stack 0 0) /\
    (forall s'', s_current s'' = new_task -> fork_return (s_current s) new_task eip esp ebp s'' = Ok (0, s'')).
Proof.
  intros H Ed Ek Ea Hn0 Hfresh.
  destruct (fork_rel fuel eip esp ebp s a directory k1 new_task k2 stack k3 H Ed Ek Ea Hn0 Hfresh) as (s' & E & H' & Hp & _ & Ht & _).
  exists s'. split_and!; [exact E | exact H' | exact Hp | exact Ht |].
  intros s'' Hc. unfold fork_return. rewrite Hc. destruct (Z.eqb_spec new_task (s_current s)) as [Heq|_]; [|reflexivity].
  exfalso. rewrite (sr_current _ _ H) in Heq.
  destruct (seg_in _ _ _ _ _ (sr_ready _ _ H) (sr_runs _ _ H)) as (_ & t & Hl). congruence.
Qed.

Lemma fork_refines_witness :
  exists s', fork 0 0x444 1 2 example_sched = Ok (4, s') /\
    sched_rel s' (mk_asched [0x10; 0x20; 0x103004] [(0x30, 8)] 0x10 7).
Proof.
  destruct (clone_empty_directory 0 0x8000 (mk_kernel ∅ ∅ 0x100000 None 0 0 0x8000 0x8000) 0x101000 0x101000
    (mk_kernel ∅ ∅ 0x103004 None 0 0 0x8000 0x8000)) as (m & E); [reflexivity | lia | intros i Hi; reflexivity |]. destruct E as [E _].
  destruct (fork_refines 0 0x444 1 2 example_sched example_asched 0x101000 0x103004 0x104000
    (mk_kernel m ∅ 0x103004 None 0 0 0x8000 0x8000) (mk_kernel m ∅ 0x103024 None 0 0 0x8000 0x8000)
    (mk_kernel m ∅ 0x105000 None 0 0 0x8000 0x8000) example_rel) as (s' & Ef & H & _);
    [exact E | reflexivity | reflexivity | discriminate | reflexivity |].
  exists s'. split; [exact Ef | exact H].
Defined.

(** ** Runs *)

(** The kernel's calls in any order.  A step needs that the tick count does not
    wrap a deadline to 0, that a fork gets its memory, and that the saved
    instruction pointer is not the mark 0x12345. *)
Inductive sched_step : sched -> sched -> Prop :=
| step_timer eip esp ebp s s' :
    s_next_pid s <> 1 -> eip <> 0x12345 -> timer_callback eip esp ebp s = Ok s' -> sched_step s s'
| step_switch eip esp ebp s s' :
    eip <> 0x12345 -> switch_task eip esp ebp s = Ok s' -> sched_step s s'
| step_sleep n eip esp ebp s s' :
    u32 (s_tick s + n) <> 0 -> eip <> 0x12345 -> sleep n eip esp ebp s = Ok s' -> sched_step s s'
| step_fork fuel eip esp ebp s directory new_task stack k1 k2 k3 pid s' :
    clone_directory fuel (k_current_directory (s_kernel s)) (s_kernel s) = Ok (directory, k1) ->
    kmalloc fuel SIZEOF_task k1 = Ok (new_task, k2) -> kmalloc_a fuel KERNEL_STACK_SIZE k2 = Ok (stack, k3) ->
    new_task <> 0 -> s_tasks s !! new_task = None ->
    fork fuel eip esp ebp s = Ok (pid, s') -> sched_step s s'.

Inductive sched_run : sched -> sched -> Prop :=
| sched_run_refl s : sched_run s s
| sched_run_step s1 s2 s3 : sched_step s1 s2 -> sched_run s2 s3 -> sched_run s1 s3.

(** The tasks of a scheduler. *)
Definition a_tasks (a : asched) : list Z := a_ready a ++ (a_sleep a).*1.

Lemma first_expired_perm tick l p r : first_expired tick l = Some (p, r) -> l.*1 ≡ₚ p :: r.*1.
Proof.
  revert p r. induction l as [|[q d] l IH]; intros p r H; simpl in H; [discriminate|].
  destruct (d <? tick); [injection H as <- <-; reflexivity|].
  destruct (first_expired tick l) as [[x y]|] eqn:E; [|discriminate]. injection H as <- <-.
  cbn [fmap list_fmap fst]. rewrite (IH x y eq_refl). apply Permutation_swap.
Qed.

Lemma a_wake_tasks a : a_tasks (a_wake a) ≡ₚ a_tasks a.
Proof.
  unfold a_wake, a_tasks. destruct (first_expired (a_tick a) (a_sleep a)) as [[p r]|] eqn:E; [|reflexivity].
  cbn [a_ready a_sleep]. rewrite (first_expired_perm _ _ _ _ E), <- app_assoc. reflexivity.
Qed.

Lemma a_sleep_tasks n a : NoDup (a_ready a) -> a_current a ∈ a_ready a -> a_tasks (a_sleep_for n a) ≡ₚ a_tasks a.
Proof.
  intros Hn Hin. unfold a_sleep_for, a_tasks. case_decide; [reflexivity|]. cbn [a_ready a_sleep].
  apply list_elem_of_split in Hin as (l1 & l2 & E). rewrite E in Hn |- *. rewrite filter_remove by exact Hn.
  rewrite fmap_app. cbn [fmap list_fmap fst]. rewrite <- (Permutation_middle l1 l2), app_assoc, <- Permutation_cons_append.
  reflexivity.
Qed.

Lemma sched_step_rel s s' a :
  sched_rel s a -> sched_step s s' ->
  exists a' l, sched_rel s' a' /\ a_tasks a' ≡ₚ l ++ a_tasks a.
Proof.
  intros H Hst. destruct Hst as [eip esp ebp s s' Hp He E | eip esp ebp s s' He E | n eip esp ebp s s' Hd He E |
    fuel eip esp ebp s directory new_task stack k1 k2 k3 pid s' Ed Ek Ea Hn0 Hf E].
  - destruct (timer_callback_rel eip esp ebp s a H Hp He) as (s1 & E1 & H1 & _). rewrite E in E1. injection E1 as <-.
    exists (a_timer a), []. split; [exact H1|]. unfold a_timer, a_switch, a_tasks. cbn [a_ready a_sleep app].
    apply (a_wake_tasks (mk_asched _ _ _ _)).
  - destruct (switch_task_rel eip esp ebp s a H He) as (s1 & E1 & H1 & _). rewrite E in E1. injection E1 as <-.
    exists (a_switch a), []. split; [exact H1 | reflexivity].
  - destruct (sleep_rel n eip esp ebp s a H He Hd) as (s1 & E1 & H1 & _). rewrite E in E1. injection E1 as <-.
    exists (a_sleep_for n a), []. split; [exact H1|]. apply a_sleep_tasks; [|apply H].
    pose proof (sr_nodup _ _ H) as Hn. apply NoDup_app in Hn. tauto.
  - destruct (fork_rel fuel eip esp ebp s a directory k1 new_task k2 stack k3 H Ed Ek Ea Hn0 Hf) as (s1 & E1 & H1 & _).
    rewrite E in E1. injection E1 as -> <-. exists (a_fork new_task a), [new_task]. split; [exact H1|].
    unfold a_fork, a_tasks. cbn [a_ready a_sleep]. rewrite <- app_assoc. symmetry. apply (Permutation_middle (a_ready a)).
Qed.

Lemma sched_run_rel s s' :
  sched_run s s' -> forall a, sched_rel s a -> exists a' l, sched_rel s' a' /\ a_tasks a' ≡ₚ l ++ a_tasks a.
Proof.
  induction 1 as [s|s1 s2 s3 Hst Hrun IH]; intros a H; [exists a, []; auto|].
  destruct (sched_step_rel s1 s2 a H Hst) as (a2 & l2 & H2 & P2).
  destruct (IH a2 H2) as (a3 & l3 & H3 & P3). exists a3, (l3 ++ l2). split; [exact H3|].
  rewrite P3, P2, app_assoc. reflexivity.
Qed.

(** C2: on every run of ticks, switches, sleeps and forks from a good state, no
    task is lost or duplicated: each task is in exactly one of the two queues
    afterwards, the queues are proper lists, and the current task is a ready
    one. *)
Theorem sched_runs_keep_tasks (s s' : sched) (a : asched) :
  sched_rel s a -> sched_run s s' ->
  exists a', sched_rel s' a' /\ NoDup (a_tasks a') /\ s_current s' ∈ a_ready a' /\
    (forall p, p ∈ a_tasks a -> p ∈ a_tasks a').
Proof.
  intros H Hrun. destruct (sched_run_rel s s' Hrun a H) as (a' & l & H' & P). exists a'.
  split_and!; [exact H' | apply H' | rewrite (sr_current _ _ H'); apply H' |].
  intros p Hp. rewrite P, elem_of_app. auto.
Qed.

Lemma sched_runs_keep_tasks_witness :
  exists s a', sched_run example_sched s /\ sched_rel s a' /\ 0x10 ∈ a_tasks a'.
Proof.
  destruct (sleep_rel 50 0x444 1 2 example_sched example_asched example_rel) as (s1 & E1 & H1 & Hp1 & _);
    [discriminate | discriminate |].
  destruct (timer_callback_rel 0x555 3 4 s1 _ H1) as (s2 & E2 & _); [rewrite Hp1; discriminate | discriminate |].
  assert (sched_run example_sched s2) as Hrun.
  { eapply sched_run_step; [eapply (step_sleep 50); [| |exact E1]; discriminate|].
    eapply sched_run_step; [eapply step_timer; [| |exact E2]; [rewrite Hp1|]; discriminate|]. apply sched_run_refl. }
  destruct (sched_runs_keep_tasks _ _ _ example_rel Hrun) as (a' & H' & _ & _ & Hk).
  exists s2, a'. split_and!; [exact Hrun | exact H' | apply Hk; left].
Defined.

(** ** Turns *)

(** [n] timer interrupts; [regs i] are the registers the [i]-th finds. *)
Fixpoint timer_ticks (regs : nat -> Z * Z * Z) (n : nat) (s : sched) : outcome sched :=
  match n with
  | O => Ok s
  | S n' => s ← timer_ticks regs n' s; timer_callback (regs n').1.1 (regs n').1.2 (regs n').2 s
  end.

Definition real_eips (regs : nat -> Z * Z * Z) : Prop := forall i, (regs i).1.1 <> 0x12345.

(** The same ticks of the abstract scheduler. *)
Fixpoint a_ticks (n : nat) (a : asched) : asched :=
  match n with O => a | S n' => a_timer (a_ticks n' a) end.

Lemma timer_ticks_rel regs n s a :
  real_eips regs -> sched_rel s a -> s_next_pid s <> 1 ->
  exists s', timer_ticks regs n s = Ok s' /\ sched_rel s' (a_ticks n a) /\ s_next_pid s' <> 1.
Proof.
  intros Hr H Hp. induction n as [|n (s1 & E1 & H1 & Hp1)]; [exists s; auto|].
  destruct (timer_callback_rel (regs n).1.1 (regs n).1.2 (regs n).2 s1 _ H1 Hp1 (Hr n)) as (s2 & E2 & H2 & Hp2 & _).
  exists s2. cbn [timer_ticks a_ticks]. rewrite E1, bind_ok. split_and!; [exact E2 | exact H2 | congruence].
Qed.

Lemma successor_lookup l i c :
  NoDup l -> l !! i = Some c -> l !! (S i mod length l)%nat = Some (successor l c).
Proof.
  intros Hn Hi. pose proof (take_drop_middle _ _ _ Hi) as E. pose proof (lookup_lt_Some _ _ _ Hi) as Hlt.
  assert (c ∉ take i l) as Hc.
  { intros Hin. rewrite <- E in Hn. apply NoDup_app in Hn as (_ & Hd & _). apply (Hd c Hin). left. }
  rewrite <- E at 3. rewrite successor_split by exact Hc.
  destruct (drop (S i) l) as [|w l2] eqn:Ed.
  - assert (S i = length l) as -> by (pose proof (f_equal length Ed) as El; rewrite length_drop in El; simpl in El; lia).
    rewrite Nat.Div0.mod_same. cbn [hd]. replace (l !! 0%nat) with ((take i l ++ [c]) !! 0%nat) by now rewrite E.
    destruct (take i l); reflexivity.
  - assert (S i < length l)%nat by (pose proof (f_equal length Ed) as El; rewrite length_drop in El; simpl in El; lia).
    rewrite Nat.mod_small by assumption. cbn [hd].
    replace (S i) with (S i + 0)%nat by lia. rewrite <- lookup_drop, Ed. reflexivity.
Qed.

(** C8: the ready tasks run in turn: with no sleepers, after [n] ticks the task
    [n] places further in the ready queue runs, counted around its end. *)
Theorem round_robin (regs : nat -> Z * Z * Z) (s : sched) (rq : list Z) (i : nat) (c tick : Z) :
  real_eips regs -> s_next_pid s <> 1 -> sched_rel s (mk_asched rq [] c tick) -> rq !! i = Some c ->
  forall n, exists s', timer_ticks regs n s = Ok s' /\ rq !! ((i + n) mod length rq)%nat = Some (s_current s').
Proof.
  intros Hr Hp H Hi n. destruct (timer_ticks_rel regs n s _ Hr H Hp) as (s' & E & H' & _). exists s'. split; [exact E|].
  rewrite (sr_current _ _ H'). clear H' E s'. pose proof (lookup_lt_Some _ _ _ Hi) as Hlt.
  assert (NoDup rq) as Hn by (pose proof (sr_nodup _ _ H) as Hn; cbn [a_ready a_sleep] in Hn; now rewrite app_nil_r in Hn).
  enough (a_ready (a_ticks n (mk_asched rq [] c tick)) = rq /\ a_sleep (a_ticks n (mk_asched rq [] c tick)) = [] /\
    rq !! ((i + n) mod length rq)%nat = Some (a_current (a_ticks n (mk_asched rq [] c tick)))) by tauto.
  induction n as [|n (IHr & IHs & IHc)].
  - rewrite Nat.add_0_r, Nat.mod_small by exact Hlt. auto.
  - cbn [a_ticks]. unfold a_timer, a_wake, a_switch. rewrite IHs. cbn [first_expired a_sleep a_ready a_current].
    rewrite IHr. split_and!; [reflexivity | reflexivity |].
    rewrite <- (successor_lookup rq _ _ Hn IHc). f_equal.
    rewrite Nat.add_succ_r, <- Nat.add_1_r, <- (Nat.add_1_r (_ mod _)), Nat.Div0.add_mod_idemp_l. reflexivity.
Qed.

Lemma example_rel_awake : sched_rel (with_sleep 0 example_sched) (mk_asched [0x10; 0x20] [] 0x10 7).
Proof.
  pose proof example_rel as H. constructor; try apply H; try reflexivity.
  - apply (bool_decide_unpack _). vm_compute. exact I.
  - intros p d t Hp. now apply elem_of_nil in Hp.
Qed.

Lemma round_robin_witness :
  exists s', timer_ticks (fun _ => (0x444, 1, 2)) 3 (with_sleep 0 example_sched) = Ok s' /\ s_current s' = 0x20.
Proof.
  destruct (round_robin (fun _ => (0x444, 1, 2)) (with_sleep 0 example_sched) [0x10; 0x20] 0 0x10 7) with (n := 3%nat)
    as (s' & E & Hc); [intros i; discriminate | discriminate | apply example_rel_awake | reflexivity |].
  exists s'. split; [exact E|]. injection Hc as <-. reflexivity.
Defined.

(** ** Waking up *)

Lemma first_expired_position tick l j p d :
  l !! j = Some (p, d) -> d < tick ->
  exists q r, first_expired tick l = Some (q, r) /\ (q = p \/ exists j', j = S j' /\ r !! j' = Some (p, d)).
Proof.
  revert j. induction l as [|[x e] l IH]; intros j Hj Hd; [discriminate|]. simpl. destruct j as [|j].
  - injection Hj as -> ->. replace (d <? tick) with true by lia. eauto.
  - simpl in Hj. destruct (e <? tick); [eauto 8|].
    destruct (IH j Hj Hd) as (q & r & -> & [-> | (j' & -> & Hr)]); [eauto|].
    exists q, ((x, e) :: r). split; [reflexivity|]. right. exists (S j'). auto.
Qed.

Lemma a_timer_ready a p : p ∈ a_ready a -> p ∈ a_ready (a_timer a).
Proof.
  intros Hp. unfold a_timer, a_switch, a_wake. cbn [a_ready a_sleep a_tick].
  destruct (first_expired _ _) as [[q r]|]; cbn [a_ready]; [rewrite elem_of_app; auto | exact Hp].
Qed.

Lemma a_ticks_ready n a p : p ∈ a_ready a -> p ∈ a_ready (a_ticks n a).
Proof. intros Hp. induction n as [|n IH]; [exact Hp | apply a_timer_ready, IH]. Qed.

Lemma a_ticks_shift n a : a_ticks (S n) a = a_ticks n (a_timer a).
Proof. induction n as [|n IH]; [reflexivity|]. cbn [a_ticks] in *. now rewrite IH. Qed.

Lemma a_sleeper_wakes j : forall a p d,
  a_sleep a !! j = Some (p, d) -> d <= a_tick a -> 0 <= a_tick a -> a_tick a + Z.of_nat j + 1 < 0x100000000 ->
  p ∈ a_ready (a_ticks (S j) a).
Proof.
  induction j as [|j IH]; intros a p d Hj Hd Ht Hb;
    (destruct (first_expired_position (u32 (a_tick a + 1)) _ _ _ _ Hj) as (q & r & E & [-> | (j' & Ej & Hr)]);
      [rewrite u32_small; lia | |]); rewrite a_ticks_shift.
  - cbn [a_ticks]. unfold a_timer, a_switch, a_wake. cbn [a_ready a_sleep a_tick]. rewrite E. cbn [a_ready].
    rewrite elem_of_app, list_elem_of_singleton. auto.
  - discriminate.
  - apply a_ticks_ready. unfold a_timer, a_switch, a_wake. cbn [a_ready a_sleep a_tick]. rewrite E. cbn [a_ready].
    rewrite elem_of_app, list_elem_of_singleton. auto.
  - injection Ej as <-. apply (IH _ p d); unfold a_timer, a_switch, a_wake; cbn [a_ready a_sleep a_tick]; rewrite E; cbn [a_sleep a_tick];
      [exact Hr | rewrite u32_small; lia | apply u32_range | rewrite u32_small; lia].
Qed.

(** C9: no task sleeps for ever: one whose deadline has been reached and that
    has [j] tasks before it in the sleep queue is ready after at most [j + 1]
    ticks, as long as the tick count does not wrap. *)
Theorem sleeper_wakes (regs : nat -> Z * Z * Z) (s : sched) (a : asched) (j : nat) (p d : Z) :
  real_eips regs -> s_next_pid s <> 1 -> sched_rel s a -> a_sleep a !! j = Some (p, d) ->
  d <= a_tick a -> 0 <= a_tick a -> a_tick a + Z.of_nat j + 1 < 0x100000000 ->
  exists s' a', timer_ticks regs (S j) s = Ok s' /\ sched_rel s' a' /\ p ∈ a_ready a'.
Proof.
  intros Hr Hp H Hj Hd Ht Hb. destruct (timer_ticks_rel regs (S j) s a Hr H Hp) as (s' & E & H' & _).
  exists s', (a_ticks (S j) a). split_and!; [exact E | exact H' |]. apply (a_sleeper_wakes j a p d Hj Hd Ht Hb).
Qed.

Lemma example_rel_late : sched_rel (with_tick 9 example_sched) (mk_asched [0x10; 0x20] [(0x30, 8)] 0x10 9).
Proof. apply (sched_rel_tick example_sched example_asched), example_rel. Qed.

Lemma sleeper_wakes_witness :
  exists s' a', timer_ticks (fun _ => (0x444, 1, 2)) 1 (with_tick 9 example_sched) = Ok s' /\ sched_rel s' a' /\ 0x30 ∈ a_ready a'.
Proof.
  apply (sleeper_wakes (fun _ => (0x444, 1, 2)) (with_tick 9 example_sched) (mk_asched [0x10; 0x20] [(0x30, 8)] 0x10 9) 0 0x30 8);
    [intros i; discriminate | discriminate | apply example_rel_late | reflexivity | simpl; lia | simpl; lia | simpl; lia].
Defined.

(** a tick wakes one sleeper: the loop goes on along the [next] field of the
    task it has just put at the end of the ready queue, so with two sleepers
    past their deadlines the second sleeps on. *)
Theorem timer_wakes_only_one (eip esp ebp : Z) (s : sched) (a : asched) (p d q e : Z) (rest : list (Z * Z)) :
  sched_rel s a -> s_next_pid s <> 1 -> eip <> 0x12345 -> a_sleep a = (p, d) :: (q, e) :: rest ->
  d < u32 (a_tick a + 1) -> e < u32 (a_tick a + 1) ->
  exists s' a', timer_callback eip esp ebp s = Ok s' /\ sched_rel s' a' /\ a_sleep a' = (q, e) :: rest.
Proof.
  intros H Hp He E Hd Hq. destruct (timer_callback_rel eip esp ebp s a H Hp He) as (s' & Et & H' & _).
  exists s', (a_timer a). split_and!; [exact Et | exact H' |].
  unfold a_timer, a_switch, a_wake. cbn [a_ready a_sleep a_tick]. rewrite E. cbn [first_expired].
  replace (d <? u32 (a_tick a + 1)) with true by lia. reflexivity.
Qed.

Lemma timer_wakes_only_one_witness :
  exists s1 s2 a2, sleep 0 0x444 1 2 example_sched = Ok s1 /\
    timer_callback 0x555 3 4 (with_tick 100 s1) = Ok s2 /\ sched_rel s2 a2 /\ a_sleep a2 = [(0x10, 7)].
Proof.
  destruct (sleep_rel 0 0x444 1 2 example_sched example_asched example_rel) as (s1 & E1 & H1 & Hp1 & _);
    [discriminate | discriminate |].
  destruct (timer_wakes_only_one 0x555 3 4 (with_tick 100 s1) _ 0x30 8 0x10 7 [] (sched_rel_tick s1 _ 100 H1)) as (s2 & a2 & E2 & H2 & Ea);
    [cbn [with_tick s_next_pid]; rewrite Hp1; discriminate | discriminate | reflexivity | reflexivity | reflexivity |].
  exists s1, s2, a2. split_and!; [exact E1 | exact E2 | exact H2 | exact Ea].
Defined.

(** ** Runs on which the queues break *)

(** [p] is met on a walk of at most [n] steps along a queue. *)
Fixpoint queued (n : nat) (ts : gmap Z task_t) (p head : Z) : bool :=
  match n with
  | O => false
  | S n' =>
      (head =? p) ||
      match ts !! head with Some t => if t_next t =? 0 then false else queued n' ts p (t_next t) | None => false end
  end.

(** [sleep] does not turn interrupts off.  A tick between its mark and its
    entry into the sleep queue takes the task out of the ready queue, and it
    is in no queue: it never runs again. *)
Theorem sleep_interrupted_loses_task :
  match sleep_mark 50 example_sched with
  | Ok (true, s) =>
      match timer_callback 0x444 1 2 s with
      | Ok s' => queued 3 (s_tasks s') 0x10 (s_ready s') = false /\ queued 3 (s_tasks s') 0x10 (s_sleep s') = false /\
          s_current s' = 0x20 /\ is_Some (s_tasks s' !! 0x10)
      | _ => False
      end
  | _ => False
  end.
Proof. vm_compute. eauto. Qed.

(** a deadline that wraps to 0 is taken for no deadline: the task sleeps
    and stays ready, its [next] field serves both queues, and after the next
    tick another ready task is lost from the ready queue. *)
Theorem sleep_until_zero_breaks_queues :
  match sleep 4294967289 0x444 1 2 (with_sleep 0 example_sched) with
  | Ok s =>
      queued 3 (s_tasks s) 0x10 (s_ready s) = true /\ queued 3 (s_tasks s) 0x10 (s_sleep s) = true /\
      match timer_callback 0x555 3 4 s with
      | Ok s' => queued 3 (s_tasks s) 0x20 (s_ready s) = true /\ queued 3 (s_tasks s') 0x20 (s_ready s') = false
      | _ => False
      end
  | _ => False
  end.
Proof. vm_compute. auto. Qed.
