(* ===== verification/TaskStart.v ===== *)
(** * The start of tasking

    [move_stack] copies the boot stack below 0xE0000000 and relocates what
    points into it; [initialise_tasking] makes the first task, with which the
    scheduler's invariant holds. *)

From S2P Require Import Prelude Memory Util OrderedArray Kernel Paging KHeap Directories Ports Descriptors Interrupts Task TaskInv.

(** ** The stack *)

(** A word of the stack after the move. *)
Definition relocate (sp top offset w : Z) : Z := if (sp <? w) && (w <? top) then u32 (w + offset) else w.

Lemma remap_word_spec sp top offset i m : 0 <= i ->
  load32 (remap_word sp top offset i m) i = relocate sp top offset (load32 m i) /\ same_but i 4 m (remap_word sp top offset i m).
Proof.
  intros Hi. unfold remap_word, relocate. destruct ((sp <? load32 m i) && (load32 m i <? top)) eqn:E.
  - rewrite load32_store32_eq. split; [apply u32_idem | apply same_but_store32; lia].
  - split; [reflexivity | apply same_but_refl].
Qed.

(** The second loop: every word of the new stack but the lowest is relocated. *)
Lemma remap_stack_spec sp top offset start size m :
  0 < size <= start -> start < 0x100000000 -> size mod 4 = 0 ->
  exists m', remap_stack sp top offset start size m = Ok m' /\
    (forall t, 0 <= t < size / 4 -> load32 m' (start - 4 * t) = relocate sp top offset (load32 m (start - 4 * t))) /\
    same_but (start - size + 4) size m m'.
Proof.
  intros Hs Hst Hm. unfold remap_stack. rewrite (u32_small (start - size)) by lia.
  destruct (while_rule (fun st : mem * Z => exists n, st.2 = start - 4 * n /\ 0 <= n <= size / 4 /\
      (forall t, 0 <= t < size / 4 -> load32 st.1 (start - 4 * t) =
         if t <? n then relocate sp top offset (load32 m (start - 4 * t)) else load32 m (start - 4 * t)) /\
      same_but (start - size + 4) size m st.1)
    (fun st => Z.to_nat ((st.2 - (start - size)) / 4)) (fun '(_, i) => start - size <? i)
    (fun '(m, i) => Ok (remap_word sp top offset i m, u32 (i - 4))) (Z.to_nat (size / 4 + 1)) (m, start))
    as ([m' i'] & E & (n & Hi & Hn & Hw & Hfr) & Hc).
  - intros [m1 i] (n & Hi & Hn & Hw & Hfr) Hc. cbn [fst snd] in *. apply Z.ltb_lt in Hc. subst i.
    destruct (remap_word_spec sp top offset (start - 4 * n) m1 ltac:(lia)) as [Eq Hoth].
    eexists. split; [reflexivity|]. cbn [fst snd]. rewrite (u32_small (_ - 4)) by zlia. split; [|zlia].
    exists (n + 1). split_and!; [lia | lia | zlia | |].
    + intros t Ht. destruct (decide (t = n)) as [->|Hne].
      * rewrite Eq, Hw by lia. replace (n <? n) with false by lia. replace (n <? n + 1) with true by lia. reflexivity.
      * rewrite (same_but_load32 _ _ _ _ _ Hoth), Hw by lia. replace (t <? n + 1) with (t <? n) by lia. reflexivity.
    + apply (same_but_trans _ _ _ m1); [exact Hfr | eapply same_but_widen; [| |exact Hoth]; zlia].
  - exists 0. cbn [fst snd]. split_and!; [lia | lia | zlia | | apply same_but_refl].
    intros t Ht. now replace (t <? 0) with false by lia.
  - cbn [snd]. zlia.
  - cbn [fst snd] in *. rewrite E, bind_ok. exists m'. split_and!; [reflexivity | | exact Hfr].
    apply Z.ltb_ge in Hc. intros t Ht. rewrite Hw by exact Ht. now replace (t <? n) with true by zlia.
Qed.

(** The saved frame pointers from [bp] on. *)
Fixpoint frames (m : mem) (bp : Z) (l : list Z) : Prop :=
  match l with
  | [] => True
  | q :: l' => load32 m bp = q /\ frames m q l'
  end.

(** The move, for the theorems below. *)
Lemma move_stack_ok (fuel : nat) (end_ start size sp bp : Z) (k k1 : kernel) :
  let top := end_ + KERNEL_STACK_SIZE in
  let offset := start - top in
  map_stack fuel start size k = Ok k1 ->
  0 <= end_ -> 0 < size -> size mod 4 = 0 -> top <= start - size -> start < 0x100000000 ->
  0 <= sp -> top - size < sp <= bp -> bp <= top -> (top - sp) mod 4 = 0 ->
  exists m', move_stack fuel end_ start size sp bp k = Ok (with_mem m' k1, sp + offset, bp + offset) /\
    (forall a, sp <= a -> a + 4 <= top -> (a - sp) mod 4 = 0 ->
       load32 m' (a + offset) = relocate sp top offset (load32 (k_mem k1) a)) /\
    (forall l, frames (k_mem k1) bp l -> Forall (fun q => sp < q < top) l ->
       Forall (fun a => a + 4 <= top /\ (a - sp) mod 4 = 0) (removelast (bp :: l)) ->
       frames m' (bp + offset) (map (Z.add offset) l)) /\
    same_but (start - size + 4) size (k_mem k1) m'.
Proof.
  cbv zeta. intros Emap He Hs Hm Htop Hst Hsp0 Hsp Hbp Hal. unfold move_stack. rewrite Emap, bind_ok.
  rewrite (u32_small (end_ + KERNEL_STACK_SIZE)) by (unfold KERNEL_STACK_SIZE in *; lia).
  set (top := end_ + KERNEL_STACK_SIZE) in *. assert (0 <= top) by (unfold top, KERNEL_STACK_SIZE; lia). clearbody top. cbv zeta.
  rewrite (u32_small (start - top)), (u32_small (sp + _)), (u32_small (bp + _)), (i32_small (top - sp)) by lia.
  set (offset := start - top). assert (offset = start - top) as Hoff by reflexivity. clearbody offset.
  destruct (memcpy_spec (k_mem k1) sp (sp + offset) (top - sp) ltac:(lia) ltac:(lia)) as [Hc Hfr1].
  revert Hc Hfr1. generalize (memcpy (k_mem k1) sp (sp + offset) (top - sp)) as m1. intros m1 Hc Hfr1.
  destruct (remap_stack_spec sp top offset start size m1 ltac:(lia) ltac:(lia) Hm) as (m2 & E2 & Hw2 & Hfr2).
  rewrite E2, bind_ok. exists m2.
  assert (forall a, sp <= a -> a + 4 <= top -> (a - sp) mod 4 = 0 ->
    load32 m2 (a + offset) = relocate sp top offset (load32 (k_mem k1) a)) as Hw.
  { intros a H1 H2 H3. replace (a + offset) with (start - 4 * ((top - a) / 4)) by zlia. rewrite Hw2 by zlia.
    replace (start - 4 * ((top - a) / 4)) with (a + offset) by zlia. f_equal. unfold load32.
    assert (forall x, 0 <= x < 4 -> load8 m1 (a + offset + x) = load8 (k_mem k1) (a + x)) as Hb.
    { intros x Hx. replace (a + offset + x) with (sp + offset + (a + x - sp)) by lia. rewrite Hc by lia. f_equal. lia. }
    pose proof (Hb 0 ltac:(lia)) as B0. rewrite !Z.add_0_r in B0. now rewrite B0, !Hb by lia. }
  split_and!; [reflexivity | exact Hw | |].
  - clear Hw2 Hfr2 Hfr1 Hc E2. intros l. revert bp Hsp Hbp. induction l as [|q l IH]; intros bp Hsp Hbp Hf Hq Ha; [exact I|].
    destruct Hf as [Hq0 Hf]. apply Forall_cons in Hq as [Hq1 Hq]. change (removelast (bp :: q :: l)) with (bp :: removelast (q :: l)) in Ha.
    apply Forall_cons in Ha as [[Ha1 Ha2] Ha]. cbn [map frames]. rewrite Hw, Hq0 by lia. unfold relocate.
    replace ((sp <? q) && (q <? top)) with true by lia. rewrite u32_small by lia. split; [lia|].
    rewrite (Z.add_comm offset q). apply IH; (assumption || lia).
  - apply (same_but_trans _ _ _ m1); [|exact Hfr2]. eapply same_but_widen; [| |exact Hfr1]; zlia.
Qed.


(** C24: [move_stack], when the pages of the new stack can be had and the stack in
    use, from the stack pointer [sp] to its top, is smaller than [size]: the
    words of the stack are at the same distance from the new top, those that
    point into the old stack moved with it; so the chain of frame pointers is
    the old chain, moved.  Nothing else changes. *)
Theorem move_stack_relocates (fuel : nat) (end_ start size sp bp : Z) (k k1 : kernel) :
  let top := end_ + KERNEL_STACK_SIZE in
  let offset := start - top in
  map_stack fuel start size k = Ok k1 ->
  0 <= end_ -> 0 < size -> size mod 4 = 0 -> top <= start - size -> start < 0x100000000 ->
  0 <= sp -> top - size < sp <= bp -> bp <= top -> (top - sp) mod 4 = 0 ->
  exists m', move_stack fuel end_ start size sp bp k = Ok (with_mem m' k1, sp + offset, bp + offset) /\
    (forall a, sp <= a -> a + 4 <= top -> (a - sp) mod 4 = 0 ->
       load32 m' (a + offset) = relocate sp top offset (load32 (k_mem k1) a)) /\
    (forall l, frames (k_mem k1) bp l -> Forall (fun q => sp < q < top) l ->
       Forall (fun a => a + 4 <= top /\ (a - sp) mod 4 = 0) (removelast (bp :: l)) ->
       frames m' (bp + offset) (map (Z.add offset) l)) /\
    same_but (start - size + 4) size (k_mem k1) m'.
Proof. exact (move_stack_ok fuel end_ start size sp bp k k1). Qed.

(** The pages of a stack that are mapped already. *)
Definition mapped_kernel (m : mem) : kernel :=
  mk_kernel (store32 (store32 (store32 (store32 m 0x8E00 0xA000) 0x8DFC 0xB000) 0xA000 0x50007) 0xBFFC 0x51007)
    ∅ 0x100000 None 0 0 0x8000 0x8000.

(** A stack of three words at 0x101FF4, whose frame pointer leads to a saved one. *)
Definition boot_stack : mem := store32 (store32 ∅ 0x101FF4 0x101FF8) 0x101FF8 0.

Lemma move_stack_relocates_witness :
  exists m', move_stack 0 0x101000 0xE0000000 0x1000 0x101FF0 0x101FF4 (mapped_kernel boot_stack) =
      Ok (with_mem m' (mapped_kernel boot_stack), 0xDFFFFFF0, 0xDFFFFFF4) /\
    frames m' 0xDFFFFFF4 [0xDFFFFFF8].
Proof.
  destruct (move_stack_relocates 0 0x101000 0xE0000000 0x1000 0x101FF0 0x101FF4 (mapped_kernel boot_stack) (mapped_kernel boot_stack))
    as (m' & E & _ & Hf & _); [vm_compute; reflexivity | first [reflexivity | unfold KERNEL_STACK_SIZE; lia] .. |].
  exists m'. split; [exact E|]. apply (Hf [0x101FF8]); [vm_compute; auto | repeat constructor; unfold KERNEL_STACK_SIZE; lia |].
  repeat constructor; (unfold KERNEL_STACK_SIZE; lia || reflexivity).
Defined.

(** ** The first task *)

(** The first task, once its stack is moved and its chunks are there. *)
Lemma first_task_ready (fuel : nat) (end_ sp bp sp' bp' : Z) (s : sched) (k1 k2 k3 : kernel) (task stack : Z) :
  move_stack fuel end_ 0xE0000000 KERNEL_STACK_SIZE sp bp (s_kernel s) = Ok (k1, sp', bp') ->
  kmalloc fuel SIZEOF_task k1 = Ok (task, k2) -> kmalloc_a fuel KERNEL_STACK_SIZE k2 = Ok (stack, k3) -> task <> 0 -> s_sleep s = 0 ->
  exists s', initialise_tasking fuel end_ sp bp s = Ok s' /\ sched_rel s' (mk_asched [task] [] task (s_tick s)) /\ s_kernel s' = k3 /\
    s_tasks s' !! task = Some (mk_task (s_next_pid s) 0 0 0 (k_current_directory k3) stack 0 0) /\
    s_next_pid s' = u32 (s_next_pid s + 1) /\ c_esp (s_cpu s') = sp' /\ c_ebp (s_cpu s') = bp'.
Proof.
  intros Em Ek Ea Hne Hsl. eexists. split; [unfold initialise_tasking; rewrite Em, bind_ok; cbv beta iota zeta; rewrite Ek, bind_ok; cbv beta iota zeta;
    rewrite Ea, bind_ok; cbv beta iota zeta; reflexivity|].
  cbn [s_tasks s_next_pid s_cpu s_kernel c_esp c_ebp]. rewrite lookup_insert_eq. split_and!; try reflexivity.
  constructor; cbn [s_tasks s_ready s_sleep s_current s_tick a_ready a_sleep a_current a_tick fmap list_fmap app]; try reflexivity.
  - simpl. split_and!; [reflexivity | exact Hne |]. eexists. rewrite lookup_insert_eq. split; reflexivity.
  - exact Hsl.
  - apply NoDup_singleton.
  - left.
  - intros p t Hp Ht. apply list_elem_of_singleton in Hp as ->. rewrite lookup_insert_eq in Ht. injection Ht as <-. reflexivity.
  - intros p d t Hp. now apply elem_of_nil in Hp.
Qed.

(** [initialise_tasking], when the pages of the stack and the two chunks can be
    had: it returns on the moved stack, with one task, which has the next pid
    and the current directory, is ready and runs: the scheduler starts in a
    good state. *)
Theorem initialise_tasking_starts (fuel : nat) (end_ sp bp : Z) (s : sched) (k1 : kernel) :
  let top := end_ + KERNEL_STACK_SIZE in
  let offset := 0xE0000000 - top in
  map_stack fuel 0xE0000000 KERNEL_STACK_SIZE (s_kernel s) = Ok k1 ->
  0 <= end_ -> top <= 0xDFFFF000 -> 0 <= sp -> end_ < sp <= bp -> bp <= top -> (top - sp) mod 4 = 0 -> s_sleep s = 0 ->
  (forall m, same_but 0xDFFFF004 0x1000 (k_mem k1) m -> exists task k2 stack k3,
     kmalloc fuel SIZEOF_task (with_mem m k1) = Ok (task, k2) /\ kmalloc_a fuel KERNEL_STACK_SIZE k2 = Ok (stack, k3) /\ task <> 0) ->
  exists s' task t, initialise_tasking fuel end_ sp bp s = Ok s' /\ sched_rel s' (mk_asched [task] [] task (s_tick s)) /\
    s_tasks s' !! task = Some t /\ t_id t = s_next_pid s /\ t_page_directory t = k_current_directory (s_kernel s') /\
    s_next_pid s' = u32 (s_next_pid s + 1) /\ c_esp (s_cpu s') = sp + offset /\ c_ebp (s_cpu s') = bp + offset.
Proof.
  cbv zeta. intros Emap He Htop Hsp0 Hsp Hbp Hal Hsl Halloc.
  destruct (move_stack_ok fuel end_ 0xE0000000 KERNEL_STACK_SIZE sp bp (s_kernel s) k1 Emap) as (m & Em & _ & _ & Hfr);
    try (unfold KERNEL_STACK_SIZE in *; first [reflexivity | lia | assumption]).
  destruct (Halloc m Hfr) as (task & k2 & stack & k3 & Ek & Ea & Hne).
  destruct (first_task_ready fuel end_ sp bp _ _ s _ k2 k3 task stack Em Ek Ea Hne Hsl) as (s' & E & Hr & <- & Hl & Hn & H1 & H2).
  eexists s', task, _. split_and!; [exact E | exact Hr | exact Hl | reflexivity | reflexivity | exact Hn | exact H1 | exact H2].
Qed.

(** The first task of a kernel whose stack pages are mapped. *)
Lemma initialise_tasking_starts_witness :
  exists s' task, initialise_tasking 0 0x101000 0x101FF0 0x101FF4
      (mk_sched (mapped_kernel boot_stack) ∅ 0 0 0 1 0 (mk_tss 0 0x10 0x13 0x0B 0x13 0x13 0x13 0x13) (mk_context 0 0 0 0 0)) = Ok s' /\
    sched_rel s' (mk_asched [task] [] task 0) /\ s_next_pid s' = 2 /\ c_esp (s_cpu s') = 0xDFFFFFF0.
Proof.
  destruct (initialise_tasking_starts 0 0x101000 0x101FF0 0x101FF4
    (mk_sched (mapped_kernel boot_stack) ∅ 0 0 0 1 0 (mk_tss 0 0x10 0x13 0x0B 0x13 0x13 0x13 0x13) (mk_context 0 0 0 0 0)) (mapped_kernel boot_stack))
    as (s' & task & t & E & Hr & _ & _ & _ & Hp & He & _);
    [vm_compute; reflexivity | first [reflexivity | unfold KERNEL_STACK_SIZE; lia] .. | |].
  - intros m _. do 4 eexists. split; [reflexivity|]. split; [reflexivity | discriminate].
  - exists s', task. split_and!; [exact E | exact Hr | exact Hp | exact He].
Defined.
