(* ===== verification/KernelStart.v ===== *)
(** * From paging to the first task

    The machine after [initialise_paging], [memory_up], and what
    [initialise_tasking] does on it: the pages of the new stack, for which the
    heap gives the tables, then the task and its kernel stack.  Together they
    are the part of [main] between the devices and the test. *)

From S2P Require Import Prelude Memory Util OrderedArray Kernel Paging KHeap KHeapInv KHeapAlign KHeapGrow HeapSafety HeapProps.
From S2P Require Import Directories CloneHeap IdentityMap PagingStart Ports Descriptors Interrupts Task TaskInv TaskStart.

(** ** The invariant of the start

    The last block of the heap, from [a] to its end, is a hole with room; the
    other holes, among [front], are smaller than a page.  [D] is the kernel's
    directory, and [n] frames are to spare. *)
Record memory_up (D : Z) (n : nat) (front : list block) (a : Z) (k : kernel) : Prop := {
  mu_heap : exists idx, k_kheap k = Some (with_index idx boot_heap) /\ oa_array idx = KHEAP_START /\
    heap_inv (k_mem k) (with_index idx boot_heap) (front ++ [mk_block a (0xC0100000 - a) true]);
  mu_small : forall b, b ∈ front -> b_hole b = true -> b_size b < 0x1000;
  mu_rest : 0xC0080000 <= a <= 0xC00C0000 /\ a mod 0x1000 <= 0x80;
  mu_dir : mk_block 0xC0080FF4 0x2018 false ∈ front;
  mu_globals : k_kernel_directory k = D /\ k_current_directory k = first_directory /\ 0x1000 <= D < 0x3F2000;
  mu_bitmap : 0 <= k_frames k /\ k_frames k + 512 <= D /\ k_nframes k = 0x1000;
  mu_tables : tables (k_mem k) D D;
  mu_frames : frames_free k n;
}.

(** What the invariant reads below the heap. *)
Lemma tables_near m m' D : tables m D D -> 0x1000 <= D < 0x3F2000 -> (forall x, D <= x < D + 0x7000 -> load8 m' x = load8 m x) -> tables m' D D.
Proof.
  intros [Ht Hp Hl Hh] HD Hs. unfold dir_table, dir_table_physical, heap_pages, KHEAP_INITIAL_SIZE in *. change (0x100000 / 0x1000) with 256 in *.
  assert (low_pages D <= 1024) as HJ by (unfold low_pages; zlia).
  assert (forall q, D <= q -> q + 4 <= D + 0x7000 -> load32 m' q = load32 m q) as Hw by (intros q H1 H2; unfold load32; rewrite !Hs by lia; reflexivity).
  split; unfold dir_table, dir_table_physical, heap_pages, KHEAP_INITIAL_SIZE; change (0x100000 / 0x1000) with 256.
  - intros i Hi. rewrite Hw by lia. now apply Ht.
  - intros i Hi. rewrite Hw by lia. now apply Hp.
  - intros q Hq. rewrite Hw by lia. now apply Hl.
  - intros q Hq. rewrite Hw by lia. now apply Hh.
Qed.

Lemma frames_free_same k k' n : k_frames k' = k_frames k -> k_nframes k' = k_nframes k -> k_nframes k = 0x1000 ->
  (forall x, k_frames k <= x < k_frames k + 512 -> load8 (k_mem k') x = load8 (k_mem k) x) -> frames_free k n -> frames_free k' n.
Proof.
  intros Ef En E Hs (l & Hnd & Hl & Hf). exists l. split_and!; [exact Hnd | exact Hl |]. apply Forall_forall. intros f Hin.
  rewrite Forall_forall in Hf. destruct (Hf f Hin) as [Hr Hu]. unfold frame_range, frame_used in *. rewrite Ef, En. split; [exact Hr|].
  rewrite E in Hr. change (32 * (0x1000 / 32)) with 0x1000 in Hr.
  replace (load32 (k_mem k') (k_frames k + 4 * (f / 32))) with (load32 (k_mem k) (k_frames k + 4 * (f / 32))); [exact Hu|].
  unfold load32. rewrite !Hs by zlia. reflexivity.
Qed.

(** The heap changes, and nothing below it. *)
Lemma memory_up_heap D n front a k idx m' front' a' :
  memory_up D n front a k -> oa_array idx = KHEAP_START ->
  heap_inv m' (with_index idx boot_heap) (front' ++ [mk_block a' (0xC0100000 - a') true]) ->
  (forall b, b ∈ front' -> b_hole b = true -> b_size b < 0x1000) -> 0xC0080000 <= a' <= 0xC00C0000 -> a' mod 0x1000 <= 0x80 ->
  mk_block 0xC0080FF4 0x2018 false ∈ front' -> (forall x, x < KHEAP_START -> load8 m' x = load8 (k_mem k) x) ->
  memory_up D n front' a' (with_kheap (Some (with_index idx boot_heap)) (with_mem m' k)).
Proof.
  intros Hm Ha Hi Hsm Hr1 Hr2 Hd Hs. pose proof (mu_globals _ _ _ _ _ Hm) as (G1 & G2 & G3). pose proof (mu_bitmap _ _ _ _ _ Hm) as (B1 & B2 & B3).
  unfold KHEAP_START in Hs. constructor; try assumption; try exact (conj Hr1 Hr2); try apply Hm.
  - exists idx. auto.
  - apply (tables_near (k_mem k)); [apply Hm | exact G3 | intros x Hx; apply Hs; lia].
  - apply (frames_free_same k); try reflexivity; [exact B3 | intros x Hx; apply Hs; lia | apply Hm].
Qed.

(** ** A page from the heap *)

(** The search finds a hole if some entry fits. *)
Lemma find_hole_from_finds m size al a l n i :
  oa_rep m a l -> (i + n = length l)%nat -> (exists j x, (i <= j)%nat /\ l !! j = Some x /\ hole_fits m size al x = true) ->
  exists p, find_hole_from m size al a n (Z.of_nat i) = Ok p /\ p <> -1.
Proof.
  intros Hrep. revert i. induction n as [|n IH]; intros i Hin (j & x & Hj & Hx & Hf); cbn [find_hole_from].
  - apply lookup_lt_Some in Hx. lia.
  - destruct (lookup_lt_is_Some_2 l i) as [y Hy]; [lia|]. rewrite (lookup_ordered_array_spec _ _ _ _ _ Hrep Hy), bind_ok.
    destruct (hole_fits m size al y) eqn:E; [exists (Z.of_nat i); split; [reflexivity | lia]|].
    replace (Z.of_nat i + 1) with (Z.of_nat (S i)) by lia. apply IH; [lia|]. exists j, x. split_and!; [|exact Hx | exact Hf].
    destruct (decide (j = i)) as [->|]; [congruence | lia].
Qed.

(** A page-aligned request of a page fits in a hole that is larger than two,
    and in none that is smaller than one. *)
Lemma page_fits m x : 0 <= hdr_size m x < 0x80000000 ->
  (hole_fits m 0x1014 1 x = true -> 0x1014 <= hdr_size m x) /\ (0x2014 <= hdr_size m x -> hole_fits m 0x1014 1 x = true).
Proof.
  intros Hs. unfold hole_fits, aligned_hole_size. change (0 <? 1) with true. cbv iota. rewrite (i32_small (hdr_size m x)), (i32_small 0x1014) by lia.
  set (o := if page_bits_test _ then _ else _).
  assert (0 <= o <= 0x1000) as Ho.
  { subst o. destruct (page_bits_test _); [|lia]. pose proof (Z.mod_pos_bound (u32 (x + SIZEOF_header)) 0x1000 ltac:(lia)). rewrite i32_small by lia. lia. }
  rewrite i32_small by lia. split; [intros H; apply Z.leb_le in H; lia | intros H; apply Z.leb_le; lia].
Qed.

(** The page behind [a]. *)
Definition page_behind (a : Z) : Z := a - a mod 0x1000 + 0x1000.

(** The search for a page finds the last hole: the others are too small. *)
Lemma page_search D n front a k idx : memory_up D n front a k -> a <= 0xC00B0000 -> k_kheap k = Some (with_index idx boot_heap) ->
  heap_inv (k_mem k) (with_index idx boot_heap) (front ++ [mk_block a (0xC0100000 - a) true]) ->
  exists i, find_smallest_hole (0x1000 + 20) 1 (k_mem k) (with_index idx boot_heap) = Ok i /\ i <> -1 /\
    forall bs1 b bs2, front ++ [mk_block a (0xC0100000 - a) true] = bs1 ++ b :: bs2 -> b_hole b = true ->
      lookup_ordered_array (k_mem k) i idx = Ok (b_addr b) -> hdr_size (k_mem k) (b_addr b) = b_size b -> bs2 = [].
Proof.
  intros Hm Ha Hk Hi. pose proof (mu_rest _ _ _ _ _ Hm) as [Hr1 Hr2].
  set (h := with_index idx boot_heap) in *. set (rest := mk_block a (0xC0100000 - a) true) in *.
  destruct (hi_index _ _ _ Hi) as (l & Hrep & Hp).
  assert (rest ∈ front ++ [rest]) as Hrest by (rewrite elem_of_app; right; left).
  assert (a ∈ l) as Hrl by (rewrite Hp; apply hole_addrs_in; exists rest; auto).
  assert (hdr_size (k_mem k) a = 0xC0100000 - a) as Hrs by (apply (hi_blocks _ _ _ Hi rest Hrest)).
  apply list_elem_of_lookup in Hrl as [j Hj].
  destruct (find_hole_from_finds (k_mem k) 0x1014 1 (h_index h) l (length l) 0 Hrep eq_refl) as (i & Ef & Hne).
  { exists j, a. split_and!; [lia | exact Hj | apply page_fits; lia]. }
  exists i. split_and!; [unfold find_smallest_hole; rewrite (proj1 Hrep), Nat2Z.id; exact Ef | exact Hne |].
  intros bs1 b bs2 Ebs Hh El Hsz. destruct (find_hole_from_fits _ _ _ _ _ _ 0 _ Hrep eq_refl Ef Hne) as (j' & x & -> & Hx & Hfit).
  change idx with (h_index h) in El. rewrite (lookup_ordered_array_spec _ _ _ _ _ Hrep Hx) in El. injection El as ->.
  assert (0x1000 <= b_size b) as Hbig.
  { rewrite <- Hsz in *. apply page_fits in Hfit; [lia|]. rewrite Hsz. pose proof (tiled_in _ _ _ b (hi_tiled _ _ _ Hi) ltac:(rewrite Ebs, elem_of_app, elem_of_cons; auto)) as Hb.
    change (h_end_address h) with 0xC0100000 in Hb. change (h_start_address h) with 0xC0080000 in Hb. unfold b_end in Hb. lia. }
  destruct bs2 as [|c bs2 _] using rev_ind; [reflexivity|]. rewrite app_comm_cons, app_assoc in Ebs. apply app_inj_tail in Ebs as [Ef1 _].
  pose proof (mu_small _ _ _ _ _ Hm b ltac:(rewrite Ef1, elem_of_app, elem_of_cons; auto) Hh). lia.
Qed.

Lemma page_behind_pad a : a mod 0x1000 <= 0x80 ->
  align_pad a + 12 = page_behind a - a /\ 20 <= align_pad a < 0x1000 /\ a < page_behind a <= a + 0x1000 /\ page_behind a mod 0x1000 = 0.
Proof. unfold align_pad, page_behind, SIZEOF_header. zlia. Qed.

Lemma alloc_page fuel D n front a k :
  memory_up D n front a k -> a <= 0xC00B0000 ->
  exists h m' idx, k_kheap k = Some h /\ alloc fuel 0x1000 1 k h = Ok (page_behind a, with_mem m' k, with_index idx boot_heap) /\
    memory_up D n (front ++ [mk_block a (align_pad a) true; mk_block (page_behind a - 12) 0x1014 false]) (page_behind a + 0x1008)
      (with_kheap (Some (with_index idx boot_heap)) (with_mem m' k)) /\
    (forall x, x < KHEAP_START \/ 0xC0080000 <= x < a -> load8 m' x = load8 (k_mem k) x).
Proof.
  intros Hm Ha. pose proof (mu_rest _ _ _ _ _ Hm) as [Hr1 Hr2]. destruct (mu_heap _ _ _ _ _ Hm) as (idx & Hk & Harr & Hi).
  set (h := with_index idx boot_heap) in *. set (rest := mk_block a (0xC0100000 - a) true) in *.
  destruct (page_search D n front a k idx Hm Ha Hk Hi) as (i & Ef & Hne & Hlast).
  destruct (alloc_aligned_spec fuel k h (front ++ [rest]) 0x1000 _ Hi ltac:(lia) ltac:(lia) Ef Hne) as (bs1 & b & bs2 & Ebs & Hh & El & Hsz & Hcut).
  pose proof (Hlast bs1 b bs2 Ebs Hh El Hsz) as ->.
  apply app_inj_tail in Ebs as [<- <-]. cbn [b_addr b_size rest] in *.
  destruct (page_behind_pad a Hr2) as (Hpad & Hpad2 & Hpb & Hpm).
  destruct Hcut as (m' & idx' & Ea & Hi' & Hfr); [lia | split; unfold SIZEOF_header, SIZEOF_footer; cbv zeta; cbn [b_addr b_size rest]; change (0x1000 + 20) with 0x1014; lia |].
  replace (a + align_pad a + 12) with (page_behind a) in Ea by lia.
  assert (oa_array idx' = KHEAP_START) as Harr'.
  { rewrite <- Harr. exact (alloc_keeps_array 0x1000 1 k h _ _ _ _ fuel Ef Hne Ea). }
  assert (forall x, x < KHEAP_START \/ 0xC0080000 <= x < a -> load8 m' x = load8 (k_mem k) x) as Hsame.
  { intros x Hx'. unfold KHEAP_START in *. apply Hfr; [|lia]. change (oa_array (h_index h)) with (oa_array idx). unfold index_room.
    pose proof (hi_array _ _ _ Hi) as Hia. change (h_index h) with idx in *. change (h_start_address h) with 0xC0080000 in Hia. lia. }
  exists h, m', idx'. split_and!; [exact Hk | exact Ea | | exact Hsame].
  apply (memory_up_heap D n front a k); [exact Hm | exact Harr' | | | lia | zlia | |].
  - rewrite app_nil_r in Hi'. rewrite <- app_assoc. cbn [app]. unfold split_aligned, carve in Hi'. cbn [b_addr b_size rest] in Hi'.
    change (0x1000 + 20) with 0x1014 in Hi'. rewrite (proj2 (Z.eqb_neq _ _)) in Hi' by lia.
    replace (a + align_pad a) with (page_behind a - 12) in Hi' by lia.
    replace (page_behind a - 12 + 0x1014) with (page_behind a + 0x1008) in Hi' by lia.
    replace (0xC0100000 - a - align_pad a - 0x1014) with (0xC0100000 - (page_behind a + 0x1008)) in Hi' by lia. exact Hi'.
  - intros b Hb Hbh. apply elem_of_app in Hb as [Hb|Hb]; [now apply (mu_small _ _ _ _ _ Hm)|].
    apply elem_of_cons in Hb as [->|Hb]; [cbn [b_size]; lia|]. apply list_elem_of_singleton in Hb as ->. discriminate.
  - rewrite elem_of_app. left. apply Hm.
  - intros x Hx'. apply Hsame. auto.
Qed.

Lemma dir_768 D n front a k m' : memory_up D n front a k -> (forall x, x < KHEAP_START -> load8 m' x = load8 (k_mem k) x) ->
  forall p, KHEAP_START <= p < 0xC0400000 -> dir_table m' (k_kernel_directory k) (p / 0x400000) = D + 0x3000.
Proof.
  intros Hm Hs p Hp. pose proof (mu_globals _ _ _ _ _ Hm) as (-> & _ & HD). unfold KHEAP_START in *. replace (p / 0x400000) with 768 by zlia.
  pose proof (tb_table _ _ _ (mu_tables _ _ _ _ _ Hm) 768 ltac:(lia)) as Et. cbn [Z.eqb Pos.eqb] in Et. rewrite <- Et.
  unfold dir_table. apply load32_below; [exact Hs | unfold KHEAP_START; lia].
Qed.

(** A page for a table, and one for a stack. *)
Lemma kmalloc_page fuel D n front a k :
  memory_up D n front a k -> a <= 0xC00B0000 ->
  exists phys k', kmalloc_ap fuel 0x1000 k = Ok (page_behind a, phys, k') /\ kmalloc_a fuel 0x1000 k = Ok (page_behind a, k') /\
    memory_up D n (front ++ [mk_block a (align_pad a) true; mk_block (page_behind a - 12) 0x1014 false]) (page_behind a + 0x1008) k' /\
    (forall x, x < KHEAP_START \/ 0xC0080000 <= x < a -> load8 (k_mem k') x = load8 (k_mem k) x).
Proof.
  intros Hm Ha. destruct (alloc_page fuel D n front a k Hm Ha) as (h & m' & idx & Hk & Ea & Hm' & Hs).
  pose proof (mu_rest _ _ _ _ _ Hm) as [Hr _]. pose proof (mu_globals _ _ _ _ _ Hm) as (_ & _ & HD). do 2 eexists. split_and!.
  - apply (kmalloc_ap_heap_at _ _ _ _ _ _ _ (D + 0x3000) Hk Ea); [|lia].
    apply (dir_768 D n front a k m' Hm); [intros x Hx; apply Hs; auto | unfold page_behind, KHEAP_START; zlia].
  - unfold kmalloc_a, kmalloc_int. rewrite Hk. change (u8 1) with 1. rewrite Ea. reflexivity.
  - exact Hm'.
  - exact Hs.
Qed.

Lemma split_hole_small b need d : 0 <= need -> d ∈ split_hole b need -> b_hole d = true -> b_size d <= b_size b.
Proof.
  intros Hn Hd Hh. unfold split_hole in Hd. destruct (_ <? _); apply elem_of_cons in Hd as [->|Hd]; try discriminate; [now apply elem_of_nil in Hd|].
  apply list_elem_of_singleton in Hd as ->. cbn [b_size]. lia.
Qed.

(** What becomes of the invariant when 52 bytes are cut from a hole: from the
    last one, or from one in front of it. *)
Definition cut_keeps (D : Z) (n : nat) (front : list block) (a : Z) (k : kernel) (b : block) : Prop :=
  exists front' a' c, memory_up D n front' a' k /\ a' <= a + 52 /\ c ∈ front' /\ b_hole c = false /\ b_addr c = b_addr b /\ 52 <= b_size c /\
    (forall d, d ∈ front -> b_hole d = false -> d ∈ front').

Lemma cut_last D n front a k m' idx : let rest := mk_block a (0xC0100000 - a) true in
  memory_up D n front a k -> a mod 0x1000 <= 0x40 -> a <= 0xC00B0000 -> oa_array idx = KHEAP_START ->
  heap_inv m' (with_index idx boot_heap) (front ++ split_hole rest 52) -> (forall x, x < KHEAP_START -> load8 m' x = load8 (k_mem k) x) ->
  cut_keeps D n front a (with_kheap (Some (with_index idx boot_heap)) (with_mem m' k)) rest.
Proof.
  intros rest Hm Hmod Ha Harr Hi Hs. pose proof (mu_rest _ _ _ _ _ Hm) as [Hr1 Hr2].
  unfold split_hole, SIZEOF_header, SIZEOF_footer in Hi. cbn [b_addr b_size rest] in Hi. replace (0xC0100000 - a - 52 <? 12 + 8) with false in Hi by lia.
  exists (front ++ [mk_block a 52 false]), (a + 52), (mk_block a 52 false). split_and!; try reflexivity; try lia.
  - apply (memory_up_heap D n front a k); [exact Hm | exact Harr | | | lia | zlia | rewrite elem_of_app; left; apply Hm | exact Hs].
    + rewrite <- app_assoc. cbn [app]. replace (0xC0100000 - (a + 52)) with (0xC0100000 - a - 52) by lia. exact Hi.
    + intros d Hd Hdh. apply elem_of_app in Hd as [Hd|Hd]; [now apply (mu_small _ _ _ _ _ Hm)|].
      apply list_elem_of_singleton in Hd as ->. discriminate.
  - rewrite elem_of_app. right. left.
  - intros d Hd _. rewrite elem_of_app. auto.
Qed.

Lemma cut_front D n bs1 b bs2 a k m' idx : let rest := mk_block a (0xC0100000 - a) true in
  memory_up D n (bs1 ++ b :: bs2) a k -> b_hole b = true -> 52 <= b_size b -> oa_array idx = KHEAP_START ->
  heap_inv m' (with_index idx boot_heap) (bs1 ++ split_hole b 52 ++ bs2 ++ [rest]) -> (forall x, x < KHEAP_START -> load8 m' x = load8 (k_mem k) x) ->
  cut_keeps D n (bs1 ++ b :: bs2) a (with_kheap (Some (with_index idx boot_heap)) (with_mem m' k)) b.
Proof.
  intros rest Hm Hh Hsz Harr Hi Hs. pose proof (mu_rest _ _ _ _ _ Hm) as [Hr1 Hr2].
  destruct (split_hole_first b 52) as (c & cs & Ec & Hhc & Hac & Hcs).
  exists (bs1 ++ split_hole b 52 ++ bs2), a, c. split_and!; [ | lia | | exact Hhc | exact Hac | lia |].
  - apply (memory_up_heap D n (bs1 ++ b :: bs2) a k); [exact Hm | exact Harr | | | exact Hr1 | exact Hr2 | | exact Hs].
    + rewrite <- !app_assoc. exact Hi.
    + intros d Hd Hdh. pose proof (mu_small _ _ _ _ _ Hm b ltac:(rewrite elem_of_app, elem_of_cons; auto) Hh) as Hbs.
      apply elem_of_app in Hd as [Hd|Hd]; [apply (mu_small _ _ _ _ _ Hm); [rewrite elem_of_app; auto | exact Hdh]|].
      apply elem_of_app in Hd as [Hd|Hd]; [|apply (mu_small _ _ _ _ _ Hm); [rewrite elem_of_app, elem_of_cons; auto | exact Hdh]].
      pose proof (split_hole_small b 52 d ltac:(lia) Hd Hdh). lia.
    + pose proof (mu_dir _ _ _ _ _ Hm) as Hd. rewrite !elem_of_app, ?elem_of_cons in *. destruct Hd as [Hd|[<-|Hd]]; [auto | discriminate | auto].
  - rewrite Ec, !elem_of_app, elem_of_cons. auto.
  - intros d Hd Hdh. rewrite !elem_of_app, ?elem_of_cons in *. destruct Hd as [Hd|[->|Hd]]; [auto | congruence | auto].
Qed.

(** A chunk for a task. *)
Lemma kmalloc_small fuel D n front a k :
  memory_up D n front a k -> a mod 0x1000 <= 0x40 -> a <= 0xC00B0000 ->
  exists p k' front' a' b, kmalloc fuel SIZEOF_task k = Ok (p, k') /\ memory_up D n front' a' k' /\ a' <= a + 52 /\
    b ∈ front' /\ b_hole b = false /\ b_addr b + 12 = p /\ SIZEOF_task + 20 <= b_size b /\
    (forall c, c ∈ front -> b_hole c = false -> c ∈ front').
Proof.
  intros Hm Hmod Ha. pose proof (mu_rest _ _ _ _ _ Hm) as [Hr1 Hr2]. destruct (mu_heap _ _ _ _ _ Hm) as (idx & Hk & Harr & Hi).
  set (h := with_index idx boot_heap) in *. set (rest := mk_block a (0xC0100000 - a) true) in *. unfold SIZEOF_task.
  assert (rest ∈ front ++ [rest]) as Hrest by (rewrite elem_of_app; right; left).
  destruct (alloc_pick fuel k h _ 32 Hi ltac:(lia) ltac:(lia)) as (bs1 & b & bs2 & l & j & Ebs & Hh & Hsz & _ & Ea & Hrep & Hp & Hj).
  { exists rest. split_and!; [exact Hrest | reflexivity | cbn [b_size rest]; lia]. }
  rewrite Ebs in Hi, Hp. destruct (alloc_at_spec k h bs1 b bs2 l j 32 Hi Hh ltac:(lia) Hsz Hrep Hp Hj) as (m' & idx' & Ea' & Hi' & Hfr & _).
  rewrite Ea' in Ea. pose proof (alloc_at_keeps_array _ _ _ _ _ _ _ _ _ Ea') as Harr'. cbn [h_index with_index h] in Harr'. rewrite Harr in Harr'.
  assert (forall x, x < KHEAP_START -> load8 m' x = load8 (k_mem k) x) as Hsame.
  { pose proof (tiled_in _ _ _ b (hi_tiled _ _ _ Hi) ltac:(rewrite elem_of_app, elem_of_cons; auto)) as (Hb1 & _ & _).
    change (h_start_address h) with 0xC0080000 in Hb1. intros x Hx. apply Hfr; [left|left; unfold KHEAP_START in Hx; lia].
    change (oa_array (h_index h)) with (oa_array idx). lia. }
  assert (kmalloc fuel 32 k = Ok (b_addr b + 12, with_kheap (Some (with_index idx' boot_heap)) (with_mem m' k))) as Ek.
  { unfold kmalloc, kmalloc_int. rewrite Hk. change (u8 0) with 0. rewrite Ea. reflexivity. }
  change (32 + 20) with 52 in *.
  assert (cut_keeps D n front a (with_kheap (Some (with_index idx' boot_heap)) (with_mem m' k)) b) as (front' & a' & c & H1 & H2 & H3 & H4 & H5 & H6 & H7).
  { destruct bs2 as [|z bs2 _] using rev_ind.
    - apply app_inj_tail in Ebs as [<- <-]. rewrite app_nil_r in Hi'. now apply cut_last.
    - rewrite app_comm_cons, app_assoc in Ebs. apply app_inj_tail in Ebs as [-> <-]. now apply cut_front. }
  exists (b_addr b + 12). eexists. exists front', a', c. split_and!; [exact Ek | exact H1 | exact H2 | exact H3 | exact H4 | lia | lia | exact H7].
Qed.

(** ** The pages of the stack *)

(** Writes to the data of a block in use, and to the bitmap. *)
Lemma memory_up_data D n n' front a k m' b N :
  memory_up D n front a k -> b ∈ front -> 0 <= N -> N + 20 <= b_size b -> frames_free (with_mem m' k) n' ->
  (forall x, KHEAP_START <= x < 0xC0100000 -> x < b_addr b + 12 \/ b_addr b + 12 + N <= x -> load8 m' x = load8 (k_mem k) x) ->
  (forall x, D <= x < D + 0x7000 -> load8 m' x = load8 (k_mem k) x) ->
  memory_up D n' front a (with_mem m' k).
Proof.
  intros Hm Hb HN Hsz Hf Hs Hlow. destruct (mu_heap _ _ _ _ _ Hm) as (idx & Hk & Harr & Hi). constructor; try apply Hm; [| | exact Hf].
  - exists idx. split_and!; [exact Hk | exact Harr |].
    apply (heap_inv_data_area (k_mem k) _ _ _ b N); [exact Hi | rewrite elem_of_app; auto | exact HN | exact Hsz |].
    cbn [h_index with_index]. rewrite Harr. exact Hs.
  - apply (tables_near (k_mem k)); [apply Hm | apply (mu_globals _ _ _ _ _ Hm) | exact Hlow].
Qed.

(** One page of the stack: its table comes from the heap. *)
Lemma map_stack_page_spec fuel D n front a k i :
  memory_up D (S n) front a k -> 0xC0083004 <= a <= 0xC00B0000 -> 0 <= i < 0x100000000 ->
  dir_table (k_mem k) first_directory (i / 0x400000) = 0 ->
  exists k' front', map_stack_page fuel i k = Ok k' /\ memory_up D n front' (page_behind a + 0x1008) k' /\
    (forall j, 0 <= j < 1024 -> j <> i / 0x400000 -> dir_table (k_mem k') first_directory j = dir_table (k_mem k) first_directory j).
Proof.
  intros Hm Ha Hi Hz. set (idx := i / 0x400000) in *. assert (0 <= idx < 1024) as Hidx by (subst idx; zlia).
  destruct (kmalloc_page fuel D (S n) front a k Hm ltac:(lia)) as (phys & k1 & Ek & _ & Hm1 & Hs1).
  pose proof (mu_globals _ _ _ _ _ Hm) as (_ & Hcur & HD). pose proof (mu_bitmap _ _ _ _ _ Hm1) as (B1 & B2 & B3).
  assert (a < page_behind a <= a + 0x1000) as Hp by (unfold page_behind; zlia). set (p := page_behind a) in *.
  set (front1 := front ++ _) in *.
  unfold map_stack_page, get_page_ptr_in_page_table. rewrite Hcur, Z.div_div by lia. change (0x1000 * 1024) with 0x400000. fold idx. rewrite Hz.
  change (negb (0 =? 0)) with false. change (negb (1 =? 0)) with true. cbv iota. change SIZEOF_page_table with 0x1000. rewrite Ek, bind_ok. cbv beta iota zeta. cbn [k_mem with_mem].
  set (m2 := store32 (k_mem k1) (first_directory + 4 * idx) p). set (m3 := store32 m2 (first_directory + 0x1000 + 4 * idx) (Z.lor phys 7)).
  assert (dir_table m3 first_directory idx = p) as Et.
  { unfold dir_table, m3, m2. rewrite load32_store32_ne, load32_store32_eq by lia. apply u32_small. lia. }
  rewrite Et, bind_ok. cbn [fst snd]. set (page := p + 4 * (i / 0x1000 mod 1024)). assert (p <= page /\ page + 4 <= p + 0x1000) as Hpage by (subst page; zlia).
  change (with_mem m3 (with_mem m2 k1)) with (with_mem m3 k1).
  assert (same_but first_directory 0x2004 (k_mem k1) m3) as Hfr3.
  { apply (same_but_trans _ _ _ m2); (eapply same_but_widen; [| |apply same_but_store32; [apply Z.le_refl | apply Z.le_refl]]; lia). }
  assert (memory_up D (S n) front1 (p + 0x1008) (with_mem m3 k1)) as Hm3.
  { apply (memory_up_data D (S n) _ _ _ k1 m3 (mk_block 0xC0080FF4 0x2018 false) 0x2004);
      [exact Hm1 | apply Hm1 | lia | cbn [b_size]; lia | | |].
    - apply (frames_free_same k1); try reflexivity; [exact B3 | | apply Hm1].
      intros x Hx. apply Hfr3. unfold first_directory. lia.
    - intros x _ Hx. apply Hfr3. unfold first_directory. cbn [b_addr] in Hx. lia.
    - intros x Hx. apply Hfr3. unfold first_directory. lia. }
  assert (bitmap_size (with_mem m3 k1) = 512) as Hbm by (unfold bitmap_size; cbn [k_nframes with_mem]; rewrite B3; reflexivity).
  destruct (alloc_frame_step (with_mem m3 k1) page 0 1 n) as (m4 & Ea & Hf4 & Hs4);
    [cbn [k_nframes with_mem]; lia | unfold outside_bitmap; rewrite Hbm; cbn [k_frames with_mem]; lia | apply Hm3 |].
  rewrite Hbm in Hs4. cbn [k_mem k_frames with_mem] in Hs4.
  exists (with_mem m4 k1), front1. split_and!; [exact Ea | |].
  - apply (memory_up_data D (S n) n front1 (p + 0x1008) (with_mem m3 k1) m4 (mk_block (p - 12) 0x1014 false) 0x1000);
      [exact Hm3 | unfold front1; rewrite elem_of_app, !elem_of_cons; auto | lia | cbn [b_size]; lia | exact Hf4 | |];
      intros x Hx; [intros Hx'; cbn [b_addr] in Hx'|]; unfold KHEAP_START in *; apply Hs4; lia.
  - intros j Hj Hne. unfold dir_table, first_directory in *. cbn [k_mem with_mem].
    rewrite <- (same_on_load32 0xC0081000 0x1000 (k_mem k) (k_mem k1) (0xC0081000 + 4 * j)); [| intros x Hx; apply Hs1; lia | lia | lia].
    transitivity (load32 m3 (0xC0081000 + 4 * j)).
    + apply (same_on_load32 0xC0081000 0x1000); [intros x Hx; apply Hs4; lia | lia | lia].
    + unfold m3, m2. rewrite !load32_store32_ne by lia. reflexivity.
Qed.

(** The two pages that [move_stack] asks for lie under two directory entries. *)
Lemma map_stack_spec fuel D n front a k :
  memory_up D (S (S n)) front a k -> 0xC0083004 <= a <= 0xC0090000 ->
  dir_table (k_mem k) first_directory 896 = 0 -> dir_table (k_mem k) first_directory 895 = 0 ->
  exists k' front' a', map_stack fuel 0xE0000000 KERNEL_STACK_SIZE k = Ok k' /\ memory_up D n front' a' k' /\
    a' mod 0x1000 = 8 /\ a <= a' <= a + 0x6000.
Proof.
  intros Hm Ha H1 H2.
  destruct (map_stack_page_spec fuel D (S n) front a k 0xE0000000 Hm ltac:(lia) ltac:(lia) H1) as (k1 & front1 & E1 & Hm1 & Hd1).
  assert (page_behind a mod 0x1000 = 0 /\ a < page_behind a <= a + 0x1000) as [Hp1 Hp2] by (unfold page_behind; zlia).
  set (a1 := page_behind a + 0x1008) in *. rewrite <- (Hd1 895) in H2 by (change (0xE0000000 / 0x400000) with 896; lia).
  destruct (map_stack_page_spec fuel D n front1 a1 k1 0xDFFFF000 Hm1 ltac:(lia) ltac:(lia) H2) as (k2 & front2 & E2 & Hm2 & _).
  exists k2, front2, (page_behind a1 + 0x1008). split_and!; [|exact Hm2 | unfold page_behind; zlia | unfold page_behind; zlia | unfold page_behind; zlia].
  unfold map_stack, KERNEL_STACK_SIZE. change (Z.to_nat (0x1000 / 0x1000 + 1)) with 2%nat. change (u32 (0xE0000000 - 0x1000)) with 0xDFFFF000.
  cbn [while]. change (0xDFFFF000 <=? 0xE0000000) with true. cbv iota. rewrite E1, !bind_ok. change (u32 (0xE0000000 - 0x1000)) with 0xDFFFF000.
  change (0xDFFFF000 <=? 0xDFFFF000) with true. cbv iota. rewrite E2, !bind_ok. reflexivity.
Qed.

(** The stack lies above the heap. *)
Lemma memory_up_high D n front a k m : memory_up D n front a k -> same_but 0xDFFFF004 0x1000 (k_mem k) m -> memory_up D n front a (with_mem m k).
Proof.
  intros Hm Hs. pose proof (mu_globals _ _ _ _ _ Hm) as (_ & _ & HD). pose proof (mu_bitmap _ _ _ _ _ Hm) as (B1 & B2 & B3).
  apply (memory_up_data D n _ _ _ k m (mk_block 0xC0080FF4 0x2018 false) 0); [exact Hm | apply Hm | lia | cbn [b_size]; lia | | |].
  - apply (frames_free_same k); try reflexivity; [exact B3 | intros x Hx; apply Hs; lia | apply Hm].
  - intros x Hx _. apply Hs. lia.
  - intros x Hx. apply Hs. lia.
Qed.

(** ** The start *)

(** The [n] bytes at [p] are the data of a block in use. *)
Definition in_use (bs : list block) (p n : Z) : Prop :=
  exists b, b ∈ bs /\ b_hole b = false /\ p = b_addr b + 12 /\ n + 20 <= b_size b.

(** [initialise_paging] leaves the memory in this state. *)
Lemma paging_memory_up fuel n c k :
  let p := k_placement_address k in
  let D := next_page (p + 512) in
  k_kheap k = None -> 0x1000 <= p < 0x3F0000 -> (forall x, p <= x < p + 0x8200 -> load8 (k_mem k) x = 0) -> (1024 <= n)%nat ->
  exists c' k', initialise_paging fuel n c k = Ok (c', k') /\ Z.testbit (cr0 c') 31 = true /\
    cr3 c' = dir_physicalAddr (k_mem k') first_directory /\ tables (k_mem k') first_directory D /\
    memory_up D 2 [mk_block 0xC0080000 0xFF4 true; mk_block 0xC0080FF4 0x2018 false] 0xC008300C k'.
Proof.
  cbv zeta. intros Hk Hp Hz Hn.
  destruct (initialise_paging_ok fuel n c k Hk Hp Hz Hn) as (c' & k' & idx & E & Hlow & Hal & HD & Hpg & Hcr & _ & (G1 & G2 & _ & G4 & G5 & G6) & Harr & Ht & Ht' & Hi & Hu).
  set (p := k_placement_address k) in *. set (D := next_page (p + 512)) in *. exists c', k'. split_and!; try assumption. constructor.
  - exists idx. auto.
  - intros b Hb Hh. apply elem_of_cons in Hb as [->|Hb]; [reflexivity|]. apply list_elem_of_singleton in Hb as ->. discriminate.
  - split; [lia | vm_compute; discriminate].
  - right. left.
  - split_and!; [exact G1 | exact G2 | lia | lia].
  - split_and!; [lia | lia | exact G5].
  - exact Ht.
  - assert (low_pages D + heap_pages <= 0x500) as Hf by (unfold heap_pages, KHEAP_INITIAL_SIZE; zlia).
    exists [0x500; 0x501]. split_and!; [by apply (bool_decide_unpack _) | simpl; lia |].
    repeat constructor; unfold frame_range; rewrite ?G5; try (change (32 * (0x1000 / 32)) with 0x1000; lia);
      (rewrite Hu; [apply Z.ltb_ge; lia | unfold frame_range; rewrite G5; change (32 * (0x1000 / 32)) with 0x1000; lia]).
Qed.

(** [initialise_paging] and then [initialise_tasking], as [main] calls them,
    with the end of the kernel below four megabytes less 64 KB, the 0x8200
    bytes behind it zero, and the stack in use in the page behind [end_]: both
    return.  Paging is on; the stack is moved up to 0xE0000000, on pages whose
    tables come from the heap; the heap is well formed, and the directory of
    the first task, its structure and its kernel stack are blocks of it in
    use; and the scheduler starts in a good state, with that one task ready
    and running. *)
Theorem kernel_starts (fuel n : nat) (c : cpu_t) (end_ sp bp : Z) (s : sched) :
  let k := s_kernel s in
  let p := k_placement_address k in
  let offset := 0xE0000000 - (end_ + KERNEL_STACK_SIZE) in
  k_kheap k = None -> 0x1000 <= p < 0x3F0000 -> (forall x, p <= x < p + 0x8200 -> load8 (k_mem k) x = 0) -> (1024 <= n)%nat ->
  0 <= end_ -> end_ + KERNEL_STACK_SIZE <= 0xDFFFF000 -> end_ < sp <= bp -> bp <= end_ + KERNEL_STACK_SIZE ->
  (end_ + KERNEL_STACK_SIZE - sp) mod 4 = 0 -> s_sleep s = 0 ->
  exists c' k' s' h bs task stack t, initialise_paging fuel n c k = Ok (c', k') /\
    initialise_tasking fuel end_ sp bp (with_kernel k' s) = Ok s' /\
    Z.testbit (cr0 c') 31 = true /\ cr3 c' = dir_physicalAddr (k_mem k') first_directory /\
    c_esp (s_cpu s') = sp + offset /\ c_ebp (s_cpu s') = bp + offset /\
    k_kheap (s_kernel s') = Some h /\ heap_inv (k_mem (s_kernel s')) h bs /\
    in_use bs first_directory SIZEOF_page_directory /\ in_use bs task SIZEOF_task /\ in_use bs stack KERNEL_STACK_SIZE /\
    sched_rel s' (mk_asched [task] [] task (s_tick s)) /\ s_tasks s' !! task = Some t /\
    t_id t = s_next_pid s /\ t_page_directory t = first_directory /\ t_kernel_stack t = stack /\ s_next_pid s' = u32 (s_next_pid s + 1).
Proof.
  cbv zeta. intros Hk Hp Hz Hn He Htop Hsp Hbp Hal Hsl. unfold KERNEL_STACK_SIZE in *.
  destruct (paging_memory_up fuel n c (s_kernel s) Hk Hp Hz Hn) as (c' & k' & E & Hpg & Hcr & Ht & Hm).
  destruct (map_stack_spec fuel _ 0 _ _ k' Hm) as (k1 & front1 & a1 & E1 & Hm1 & Ha1 & Hr1);
    [lia | apply (tb_table _ _ _ Ht 896 ltac:(lia)) | apply (tb_table _ _ _ Ht 895 ltac:(lia)) |].
  destruct (move_stack_ok fuel end_ 0xE0000000 0x1000 sp bp k' k1 E1) as (m & Em & _ & _ & Hfr);
    try (unfold KERNEL_STACK_SIZE in *; first [reflexivity | lia | assumption]).
  apply (memory_up_high _ _ _ _ _ m) in Hm1; [|exact Hfr].
  destruct (kmalloc_small fuel _ _ _ _ _ Hm1 ltac:(lia) ltac:(lia)) as (task & k2 & front2 & a2 & b & Ek & Hm2 & Ha2 & Hb & Hbh & Hbt & Hbs & _).
  destruct (kmalloc_page fuel _ _ _ _ _ Hm2 ltac:(lia)) as (phys & k3 & _ & Ea & Hm3 & _).
  destruct (mu_heap _ _ _ _ _ Hm3) as (idx & Hk3 & _ & Hi3). pose proof (mu_globals _ _ _ _ _ Hm3) as (_ & Hcur & _).
  pose proof (tiled_in _ _ _ b (hi_tiled _ _ _ Hi3) ltac:(rewrite !elem_of_app; auto)) as [Hb0 _]. change (h_start_address _) with 0xC0080000 in Hb0.
  destruct (first_task_ready fuel end_ sp bp _ _ (with_kernel k' s) _ k2 k3 task (page_behind a2) Em Ek Ea ltac:(lia) Hsl)
    as (s' & E' & Hr & <- & Hl & Hnp & Hesp & Hebp).
  do 5 eexists. exists task, (page_behind a2). eexists. split_and!; [exact E | exact E' | exact Hpg | exact Hcr | exact Hesp | exact Hebp | exact Hk3 | exact Hi3 | | | |
    exact Hr | exact Hl | reflexivity | exact Hcur | reflexivity | exact Hnp].
  - exists (mk_block 0xC0080FF4 0x2018 false). split_and!; [rewrite elem_of_app; left; apply Hm3 | reflexivity | reflexivity | reflexivity || (vm_compute; discriminate)].
  - exists b. split_and!; [rewrite !elem_of_app; auto | exact Hbh | lia | exact Hbs].
  - exists (mk_block (page_behind a2 - 12) 0x1014 false). split_and!; [rewrite !elem_of_app, !elem_of_cons; auto | reflexivity | cbn [b_addr]; lia | reflexivity || (vm_compute; discriminate)].
Qed.

Lemma kernel_starts_witness :
  exists c' k' s' task, initialise_paging 0 1024 (mk_cpu 0x11 0 0) (mk_kernel ∅ ∅ 0x100000 None 0 0 0 0) = Ok (c', k') /\
    initialise_tasking 0 0x80000 0x80F00 0x80F10
      (mk_sched k' ∅ 0 0 0 1 0 (mk_tss 0 0x10 0x13 0x0B 0x13 0x13 0x13 0x13) (mk_context 0 0 0 0 0)) = Ok s' /\
    sched_rel s' (mk_asched [task] [] task 0) /\ c_esp (s_cpu s') = 0xDFFFFF00 /\ s_next_pid s' = 2.
Proof.
  destruct (kernel_starts 0 1024 (mk_cpu 0x11 0 0) 0x80000 0x80F00 0x80F10
    (mk_sched (mk_kernel ∅ ∅ 0x100000 None 0 0 0 0) ∅ 0 0 0 1 0 (mk_tss 0 0x10 0x13 0x0B 0x13 0x13 0x13 0x13) (mk_context 0 0 0 0 0)))
    as (c' & k' & s' & h & bs & task & stack & t & E & E' & _ & _ & Hesp & _ & _ & _ & _ & _ & _ & Hr & _ & _ & _ & _ & Hn);
    try (unfold KERNEL_STACK_SIZE; first [reflexivity | lia | (simpl; lia)]).
  exists c', k', s', task. split_and!; [exact E | exact E' | exact Hr | exact Hesp | exact Hn].
Defined.
