(* ===== verification/Screen.v ===== *)
(** * drivers/screen.c: the text console

    The screen is 25 rows of 80 cells of two bytes at 0xB8000; the cursor is a
    16-bit register of the display controller, reached through an index and a
    data port.  [HasCrtc] says what the driver relies on of that device;
    [crtc_device] is the device that has only this. *)

From S2P Require Import Prelude Memory Util Ports.

Definition VIDEO_ADDRESS : Z := 0xb8000.

Definition MAX_ROWS : Z := 25.

Definition MAX_COLS : Z := 80.

Definition WHITE_ON_BLACK : Z := 0x0f.

Definition RED_ON_WHITE : Z := 0xf4.

Definition REG_SCREEN_CTRL : Z := 0x3d4.

Definition REG_SCREEN_DATA : Z := 0x3d5.

(** ** The display controller *)

Record crtc := mk_crtc { crtc_index : Z; crtc_high : Z; crtc_low : Z }.

Definition crtc_write (v : Z) (c : crtc) : crtc :=
  if crtc_index c =? 14 then mk_crtc (crtc_index c) v (crtc_low c)
  else if crtc_index c =? 15 then mk_crtc (crtc_index c) (crtc_high c) v else c.

Definition crtc_read (c : crtc) : Z :=
  if crtc_index c =? 14 then crtc_high c else if crtc_index c =? 15 then crtc_low c else 0.

Class HasCrtc (D : Type) `{PortDevice D} := {
  crtc_of : D -> crtc;
  crtc_out : forall port v d, crtc_of (dev_out port v d) =
    (if port =? 0x3d4 then mk_crtc v (crtc_high (crtc_of d)) (crtc_low (crtc_of d))
     else if port =? 0x3d5 then crtc_write v (crtc_of d) else crtc_of d);
  crtc_in : forall d, dev_in 0x3d5 d = (crtc_read (crtc_of d), d);
}.

Definition crtc_device : Type := crtc.

#[export] Instance crtc_ports : PortDevice crtc_device := {
  dev_in port d := (if port =? 0x3d5 then crtc_read d else 0, d);
  dev_out port v d :=
    if port =? 0x3d4 then mk_crtc v (crtc_high d) (crtc_low d)
    else if port =? 0x3d5 then crtc_write v d else d;
  dev_in_word port d := (0, d);
  dev_out_word port v d := d;
}.

#[export] Instance crtc_device_crtc : HasCrtc crtc_device.
Proof. refine {| crtc_of := fun d => d |}; reflexivity. Defined.

(** ** Cells

    C's [/] on [int] truncates. *)

Definition get_offset (col row : Z) : Z := 2 * (row * MAX_COLS + col).

Definition get_offset_row (offset : Z) : Z := Z.quot offset (2 * MAX_COLS).

Definition get_offset_col (offset : Z) : Z := Z.quot (offset - get_offset_row offset * 2 * MAX_COLS) 2.

Section Screen.
Context {D : Type} `{PortDevice D}.

Definition get_cursor_offset (d : D) : Z * D :=
  let d := port_byte_out REG_SCREEN_CTRL 14 d in
  let '(high, d) := port_byte_in REG_SCREEN_DATA d in
  let offset := Z.shiftl high 8 in
  let d := port_byte_out REG_SCREEN_CTRL 15 d in
  let '(low, d) := port_byte_in REG_SCREEN_DATA d in
  ((offset + low) * 2, d).

Definition set_cursor_offset (offset : Z) (d : D) : D :=
  let offset := Z.quot offset 2 in
  let d := port_byte_out REG_SCREEN_CTRL 14 d in
  let d := port_byte_out REG_SCREEN_DATA (u8 (Z.shiftr offset 8)) d in
  let d := port_byte_out REG_SCREEN_CTRL 15 d in
  port_byte_out REG_SCREEN_DATA (u8 (Z.land offset 0xff)) d.

(** The scroll of [print_char]: rows 1.. move up, the last row is cleared. *)
Definition scroll (m : mem) : mem :=
  let m := for_up (Z.to_nat (MAX_ROWS - 1))
    (fun i m => memcpy m (get_offset 0 i + VIDEO_ADDRESS) (get_offset 0 (i - 1) + VIDEO_ADDRESS) (MAX_COLS * 2)) 1 m in
  let last_line := get_offset 0 (MAX_ROWS - 1) + VIDEO_ADDRESS in
  for_up (Z.to_nat (MAX_COLS * 2)) (fun i m => store8 m (last_line + i) 0) 0 m.

(** The character [c] is a [char]. *)
Definition print_char (c col row attr : Z) (m : mem) (d : D) : Z * mem * D :=
  let attr := if attr =? 0 then WHITE_ON_BLACK else attr in
  if (MAX_COLS <=? col) || (MAX_ROWS <=? row) then
    let m := store8 m (VIDEO_ADDRESS + (2 * MAX_COLS * MAX_ROWS - 2)) 69 in
    let m := store8 m (VIDEO_ADDRESS + (2 * MAX_COLS * MAX_ROWS - 1)) RED_ON_WHITE in
    (get_offset col row, m, d)
  else
    let '(offset, d) := if (0 <=? col) && (0 <=? row) then (get_offset col row, d) else get_cursor_offset d in
    let '(offset, m) :=
      if c =? 10 then (get_offset 0 (get_offset_row offset + 1), m)
      else (offset + 2, store8 (store8 m (VIDEO_ADDRESS + offset) c) (VIDEO_ADDRESS + offset + 1) attr) in
    let '(offset, m) :=
      if MAX_ROWS * MAX_COLS * 2 <=? offset then (offset - 2 * MAX_COLS, scroll m) else (offset, m) in
    (offset, m, set_cursor_offset offset d).

(** The loop of [kprint_at] from character [i]: [fuel] bounds the message. *)
Fixpoint print_from (fuel : nat) (message i col row : Z) (m : mem) (d : D) : outcome (mem * D) :=
  let c := load_char m (message + i) in
  if c =? 0 then Ok (m, d)
  else
    match fuel with
    | O => NoFuel
    | S f =>
        let '(offset, m, d) := print_char c col row WHITE_ON_BLACK m d in
        print_from f message (i + 1) (get_offset_col offset) (get_offset_row offset) m d
    end.

Definition kprint_at (fuel : nat) (message col row : Z) (m : mem) (d : D) : outcome (mem * D) :=
  let '(col, row, d) :=
    if (0 <=? col) && (0 <=? row) then (col, row, d)
    else
      let '(offset, d) := get_cursor_offset d in
      (get_offset_col offset, get_offset_row offset, d) in
  print_from fuel message 0 col row m d.

Definition kprint (fuel : nat) (message : Z) (m : mem) (d : D) : outcome (mem * D) := kprint_at fuel message (-1) (-1) m d.

Definition kprint_backspace (m : mem) (d : D) : mem * D :=
  let '(offset, d) := get_cursor_offset d in
  let offset := offset - 2 in
  let row := get_offset_row offset in
  let col := get_offset_col offset in
  let '(_, m, d) := print_char 32 col row WHITE_ON_BLACK m d in
  if (1 <? col) || negb (load8 m (VIDEO_ADDRESS + get_offset 0 row) =? 62)
  then (m, set_cursor_offset offset d) else (m, d).

Definition clear_screen (m : mem) (d : D) : mem * D :=
  let screen_size := MAX_COLS * MAX_ROWS in
  let m := for_up (Z.to_nat screen_size)
    (fun i m => store8 (store8 m (VIDEO_ADDRESS + i * 2) 32) (VIDEO_ADDRESS + i * 2 + 1) WHITE_ON_BLACK) 0 m in
  (m, set_cursor_offset (get_offset 0 0) d).

End Screen.

(** ** The ports of the screen *)

Definition screen_ins : list Z := [0x3d5].

Definition screen_outs : list Z := [0x3d4; 0x3d5].

Section ScreenPorts.
Context {D : Type} `{HP : PortDevice D}.

(** From [d] to [d'] only the display controller's ports are touched. *)
Definition only_screen : D -> D -> Prop := touches screen_ins screen_outs.

Lemma get_cursor_only (d d' : D) off : get_cursor_offset d = (off, d') -> only_screen d d'.
Proof.
  unfold get_cursor_offset. set (d1 := port_byte_out _ _ d). destruct (port_byte_in REG_SCREEN_DATA d1) as [high d2] eqn:E2.
  set (d3 := port_byte_out _ _ d2). destruct (port_byte_in REG_SCREEN_DATA d3) as [low d4] eqn:E4. intros [= _ <-].
  apply touches_byte_out with REG_SCREEN_CTRL 14; [by left|]. eapply touches_byte_in; [|exact E2|]; [by left|].
  apply touches_byte_out with REG_SCREEN_CTRL 15; [by left|]. eapply touches_byte_in; [|exact E4|]; [by left | constructor].
Qed.

Lemma set_cursor_only off (d : D) : only_screen d (set_cursor_offset off d).
Proof.
  unfold set_cursor_offset. cbv zeta. set (h := u8 (Z.shiftr _ _)). set (l := u8 (Z.land _ _)).
  apply touches_byte_out with REG_SCREEN_CTRL 14; [by left|]. apply touches_byte_out with REG_SCREEN_DATA h; [by right; left|].
  apply touches_byte_out with REG_SCREEN_CTRL 15; [by left|]. apply touches_byte_out with REG_SCREEN_DATA l; [by right; left | constructor].
Qed.

Lemma print_char_only c col row attr (m m' : mem) (d d' : D) off : print_char c col row attr m d = (off, m', d') -> only_screen d d'.
Proof.
  unfold print_char. destruct (_ || _); [intros [= _ _ <-]; constructor|].
  assert (forall o1 d1, (if (0 <=? col) && (0 <=? row) then (get_offset col row, d) else get_cursor_offset d) = (o1, d1) -> only_screen d d1) as H1.
  { intros o1 d1. destruct (_ && _); [intros [= _ <-]; constructor | apply get_cursor_only]. }
  destruct (if (0 <=? col) && (0 <=? row) then _ else _) as [o1 d1]. specialize (H1 _ _ eq_refl).
  destruct (if c =? 10 then _ else _) as [o2 m2]. destruct (if _ <=? o2 then _ else _) as [o3 m3]. intros [= _ _ <-].
  exact (touches_trans _ _ _ H1 (set_cursor_only _ _)).
Qed.

Lemma print_from_only fuel : forall message i col row (m m' : mem) (d d' : D),
  print_from fuel message i col row m d = Ok (m', d') -> only_screen d d'.
Proof.
  induction fuel as [|fuel IH]; intros message i col row m m' d d'; cbn [print_from];
    destruct (_ =? 0); try discriminate; try (intros [= _ <-]; constructor).
  destruct (print_char _ _ _ _ _ _) as [[off m1] d1] eqn:E1. intros E.
  exact (touches_trans _ _ _ (print_char_only _ _ _ _ _ _ _ _ _ E1) (IH _ _ _ _ _ _ _ _ E)).
Qed.

Lemma kprint_only fuel message (m m' : mem) (d d' : D) : kprint fuel message m d = Ok (m', d') -> only_screen d d'.
Proof.
  unfold kprint, kprint_at. destruct (get_cursor_offset d) as [off d1] eqn:E1. intros E.
  exact (touches_trans _ _ _ (get_cursor_only _ _ _ E1) (print_from_only _ _ _ _ _ _ _ _ _ E)).
Qed.

Lemma kprint_backspace_only (m m' : mem) (d d' : D) : kprint_backspace m d = (m', d') -> only_screen d d'.
Proof.
  unfold kprint_backspace. destruct (get_cursor_offset d) as [off d1] eqn:E1. destruct (print_char _ _ _ _ _ _) as [[o m2] d2] eqn:E2.
  pose proof (touches_trans _ _ _ (get_cursor_only _ _ _ E1) (print_char_only _ _ _ _ _ _ _ _ _ E2)) as H.
  destruct (_ || _); intros [= _ <-]; [exact (touches_trans _ _ _ H (set_cursor_only _ _)) | exact H].
Qed.

End ScreenPorts.

(** ** The cursor *)

Section Cursor.
Context {D : Type} `{HP : PortDevice D} `{!HasCrtc D}.

(** The cursor's offset in bytes. *)
Definition cursor (d : D) : Z := (crtc_high (crtc_of d) * 256 + crtc_low (crtc_of d)) * 2.

Definition cursor_bytes (d : D) : Prop :=
  0 <= crtc_high (crtc_of d) < 256 /\ 0 <= crtc_low (crtc_of d) < 256.

Lemma get_cursor_offset_spec d :
  cursor_bytes d -> exists d', get_cursor_offset d = (cursor d, d') /\ cursor d' = cursor d /\ cursor_bytes d'.
Proof.
  intros [Hh Hl]. unfold get_cursor_offset, port_byte_in, port_byte_out, REG_SCREEN_CTRL, REG_SCREEN_DATA.
  change (u16 0x3d4) with 0x3d4. change (u16 0x3d5) with 0x3d5. change (u8 14) with 14. change (u8 15) with 15.
  rewrite crtc_in, crtc_out. cbn [Z.eqb Pos.eqb crtc_read crtc_index crtc_high].
  rewrite crtc_in, !crtc_out. unfold crtc_read. cbn [Z.eqb Pos.eqb crtc_index crtc_low crtc_high].
  rewrite !u8_small by assumption. rewrite Z.shiftl_mul_pow2 by lia. change (2 ^ 8) with 256.
  eexists. split; [reflexivity|]. unfold cursor, cursor_bytes. rewrite !crtc_out.
  cbn [Z.eqb Pos.eqb crtc_high crtc_low]. auto.
Qed.

Lemma set_cursor_offset_spec off d :
  0 <= off < 0x20000 -> Z.even off = true ->
  cursor (set_cursor_offset off d) = off /\ cursor_bytes (set_cursor_offset off d).
Proof.
  intros Hr He. unfold cursor, cursor_bytes, set_cursor_offset, port_byte_out, REG_SCREEN_CTRL, REG_SCREEN_DATA.
  change (u16 0x3d4) with 0x3d4. change (u16 0x3d5) with 0x3d5. change (u8 14) with 14. change (u8 15) with 15.
  rewrite !crtc_out. unfold crtc_write. cbn [Z.eqb Pos.eqb crtc_index crtc_high crtc_low]. rewrite !u8_idem.
  apply Z.even_spec in He as [n ->].
  replace (Z.quot (2 * n) 2) with n by (symmetry; rewrite (Z.mul_comm 2 n); apply Z.quot_mul; lia).
  rewrite Z.shiftr_div_pow2, (land_low_mod _ 8 0xff eq_refl) by lia. change (2 ^ 8) with 256.
  rewrite !u8_small by zlia. split; [|split]; zlia.
Qed.

End Cursor.

(** ** Scrolling *)

Definition SCREEN_BYTES : Z := 4000.

Definition on_screen (off : Z) : Prop := 0 <= off < SCREEN_BYTES /\ Z.even off = true.

Lemma scroll_rows n m :
  0 <= Z.of_nat n <= 24 ->
  let m' := for_up n (fun i m => memcpy m (get_offset 0 i + VIDEO_ADDRESS) (get_offset 0 (i - 1) + VIDEO_ADDRESS) (MAX_COLS * 2)) 1 m in
  (forall x, 0 <= x < 160 * Z.of_nat n -> load8 m' (VIDEO_ADDRESS + x) = load8 m (VIDEO_ADDRESS + x + 160)) /\
  same_but VIDEO_ADDRESS (160 * Z.of_nat n) m m'.
Proof.
  intros Hn. cbv zeta.
  pose proof (for_up_rule (fun i m' => (forall x, 0 <= x < 160 * (i - 1) -> load8 m' (VIDEO_ADDRESS + x) = load8 m (VIDEO_ADDRESS + x + 160)) /\
      same_but VIDEO_ADDRESS (160 * (i - 1)) m m')
    (fun i m => memcpy m (get_offset 0 i + VIDEO_ADDRESS) (get_offset 0 (i - 1) + VIDEO_ADDRESS) (MAX_COLS * 2)) n 1 m) as H.
  cbv beta in H. replace (1 + Z.of_nat n - 1) with (Z.of_nat n) in H by lia. apply H; clear H.
  - intros j m1 Hj [Hx Hfr]. unfold get_offset, MAX_COLS.
    destruct (memcpy_spec m1 (2 * (j * 80 + 0) + VIDEO_ADDRESS) (2 * ((j - 1) * 80 + 0) + VIDEO_ADDRESS) (80 * 2)) as [Hc Hf]; [lia | lia |].
    split.
    + intros x Hr. destruct (Z.lt_ge_cases x (160 * (j - 1))).
      * rewrite Hf by lia. apply Hx. lia.
      * replace (VIDEO_ADDRESS + x) with (2 * ((j - 1) * 80 + 0) + VIDEO_ADDRESS + (x - 160 * (j - 1))) by lia.
        rewrite Hc by lia. rewrite Hfr by lia. f_equal. lia.
    + eapply same_but_trans; [eapply same_but_widen; [| |exact Hfr]; lia|].
      eapply same_but_widen; [| |exact Hf]; lia.
  - split; [intros x Hx; lia | apply same_but_refl].
Qed.

Lemma scroll_spec m :
  (forall x, 0 <= x < SCREEN_BYTES ->
     load8 (scroll m) (VIDEO_ADDRESS + x) = if x <? SCREEN_BYTES - 160 then load8 m (VIDEO_ADDRESS + x + 160) else 0) /\
  same_but VIDEO_ADDRESS SCREEN_BYTES m (scroll m).
Proof.
  unfold scroll. change (Z.to_nat (MAX_ROWS - 1)) with 24%nat.
  destruct (scroll_rows 24 m ltac:(lia)) as [Hx Hfr]. cbv zeta in Hx, Hfr.
  set (m1 := for_up 24 _ _ _) in *. clearbody m1. unfold get_offset, MAX_COLS, MAX_ROWS, SCREEN_BYTES in *.
  pose proof (for_up_rule (fun i m' => (forall x, 0 <= x < i -> load8 m' (VIDEO_ADDRESS + 3840 + x) = 0) /\
      same_but (VIDEO_ADDRESS + 3840) i m1 m')
    (fun i m => store8 m (2 * ((25 - 1) * 80 + 0) + VIDEO_ADDRESS + i) 0) (Z.to_nat (80 * 2)) 0 m1) as H.
  change (0 + Z.of_nat (Z.to_nat (80 * 2))) with 160 in H.
  assert (forall j m', 0 <= j < 160 -> (forall x, 0 <= x < j -> load8 m' (VIDEO_ADDRESS + 3840 + x) = 0) /\ same_but (VIDEO_ADDRESS + 3840) j m1 m' ->
    (forall x, 0 <= x < j + 1 -> load8 (store8 m' (2 * ((25 - 1) * 80 + 0) + VIDEO_ADDRESS + j) 0) (VIDEO_ADDRESS + 3840 + x) = 0) /\
    same_but (VIDEO_ADDRESS + 3840) (j + 1) m1 (store8 m' (2 * ((25 - 1) * 80 + 0) + VIDEO_ADDRESS + j) 0)) as Hstep.
  { intros j m' Hj [Hz Hf]. split.
    - intros x Hr. rewrite load8_store8. case_decide; [reflexivity|]. apply Hz. lia.
    - eapply same_but_trans; [eapply same_but_widen; [| |exact Hf]; lia|]. apply same_but_store8. lia. }
  destruct (H Hstep) as [Hz Hf]; [split; [intros x Hr; lia | apply same_but_refl]|]. split.
  - intros x Hr. destruct (Z.ltb_spec x (4000 - 160)).
    + rewrite Hf by lia. apply Hx. lia.
    + replace (VIDEO_ADDRESS + x) with (VIDEO_ADDRESS + 3840 + (x - 3840)) by lia. apply Hz. lia.
  - eapply same_but_trans; [eapply same_but_widen; [| |exact Hfr]; lia|]. eapply same_but_widen; [| |exact Hf]; lia.
Qed.

(** ** print_char *)

(** The offset behind the character, before and after the scroll. *)
Definition advance (off c : Z) : Z := if c =? 10 then 160 * (off / 160 + 1) else off + 2.

Definition settle (off : Z) : Z := if SCREEN_BYTES <=? off then off - 160 else off.

(** The byte at [x] of the screen after [c] is written at [off]. *)
Definition put_char (m : mem) (off c : Z) : mem :=
  if c =? 10 then m else store8 (store8 m (VIDEO_ADDRESS + off) c) (VIDEO_ADDRESS + off + 1) WHITE_ON_BLACK.

Definition screen_after (m : mem) (off c x : Z) : Z :=
  let m1 := put_char m off c in
  if SCREEN_BYTES <=? advance off c
  then if x <? SCREEN_BYTES - 160 then load8 m1 (VIDEO_ADDRESS + x + 160) else 0
  else load8 m1 (VIDEO_ADDRESS + x).

Lemma get_offset_row_div off : 0 <= off -> get_offset_row off = off / 160.
Proof. intros. unfold get_offset_row, MAX_COLS. apply Z.quot_div_nonneg; lia. Qed.

Lemma get_offset_split off :
  0 <= off -> Z.even off = true -> get_offset (get_offset_col off) (get_offset_row off) = off /\
    0 <= get_offset_col off < 80.
Proof.
  intros Ho He. apply Z.even_spec in He as [n ->]. unfold get_offset_col. rewrite get_offset_row_div by lia.
  unfold get_offset, MAX_COLS. rewrite Z.quot_div_nonneg by zlia. split; zlia.
Qed.

Lemma even_add2 off : Z.even off = true -> Z.even (off + 2) = true.
Proof. intros H. rewrite Z.even_add, H. reflexivity. Qed.

Lemma settle_on_screen off c : on_screen off -> on_screen (settle (advance off c)).
Proof.
  unfold on_screen, settle, advance, SCREEN_BYTES. intros [Hr He]. destruct (c =? 10).
  - destruct (Z.leb_spec 4000 (160 * (off / 160 + 1))).
    + split; [zlia|]. rewrite Z.even_sub, Z.even_mul. reflexivity.
    + split; [zlia|]. rewrite Z.even_mul. reflexivity.
  - destruct (Z.leb_spec 4000 (off + 2)).
    + split; [lia|]. rewrite Z.even_sub, even_add2 by exact He. reflexivity.
    + split; [lia | apply even_add2, He].
Qed.

Section PrintChar.
Context {D : Type} `{HP : PortDevice D} `{!HasCrtc D}.

(** At a cell, or at the cursor when the column or the row is negative. *)
Lemma print_char_spec c col row off m d :
  col < 80 -> row < 25 -> on_screen off -> cursor_bytes d ->
  (0 <= col /\ 0 <= row /\ off = get_offset col row) \/ ((col < 0 \/ row < 0) /\ off = cursor d) ->
  exists m' d', print_char c col row WHITE_ON_BLACK m d = (settle (advance off c), m', d') /\
    cursor d' = settle (advance off c) /\ cursor_bytes d' /\ same_but VIDEO_ADDRESS SCREEN_BYTES m m' /\
    forall x, 0 <= x < SCREEN_BYTES -> load8 m' (VIDEO_ADDRESS + x) = screen_after m off c x.
Proof.
  intros Hc Hr Ho Hd Hpos. pose proof (settle_on_screen off c Ho) as Hs. pose proof Ho as [Hor Hoe].
  unfold print_char, MAX_COLS, MAX_ROWS. cbn [WHITE_ON_BLACK Z.eqb].
  replace ((80 <=? col) || (25 <=? row)) with false by lia.
  assert (exists d1, (if (0 <=? col) && (0 <=? row) then (get_offset col row, d) else get_cursor_offset d) = (off, d1)) as (d1 & ->).
  { destruct Hpos as [(H1 & H2 & ->) | (H1 & ->)].
    - exists d. replace ((0 <=? col) && (0 <=? row)) with true by lia. reflexivity.
    - destruct (get_cursor_offset_spec d Hd) as (d1 & E & _). exists d1.
      replace ((0 <=? col) && (0 <=? row)) with false by lia. exact E. }
  assert ((if c =? 10 then (get_offset 0 (get_offset_row off + 1), m)
    else (off + 2, store8 (store8 m (VIDEO_ADDRESS + off) c) (VIDEO_ADDRESS + off + 1) WHITE_ON_BLACK)) =
    (advance off c, put_char m off c)) as ->.
  { unfold advance, put_char. destruct (c =? 10); [|reflexivity]. rewrite get_offset_row_div by lia.
    unfold get_offset, MAX_COLS. f_equal. lia. }
  assert (same_but VIDEO_ADDRESS SCREEN_BYTES m (put_char m off c)) as Hput.
  { unfold put_char. destruct (c =? 10); [apply same_but_refl|]. unfold SCREEN_BYTES in *.
    assert (off <> 3999) by (intros ->; discriminate).
    eapply same_but_trans; [|apply same_but_store8; lia]. apply same_but_store8. lia. }
  change (25 * 80 * 2) with SCREEN_BYTES. unfold settle in *. unfold screen_after.
  destruct (SCREEN_BYTES <=? advance off c).
  - destruct (scroll_spec (put_char m off c)) as [Hx Hfr]. change (2 * 80) with 160.
    destruct Hs as [Hsr Hse]. destruct (set_cursor_offset_spec (advance off c - 160) d1) as [Hcur Hb];
      [unfold SCREEN_BYTES in *; lia | exact Hse |].
    do 2 eexists. split; [reflexivity|]. split_and!; [exact Hcur | exact Hb | eapply same_but_trans; [exact Hput | exact Hfr] | exact Hx].
  - destruct Hs as [Hsr Hse]. destruct (set_cursor_offset_spec (advance off c) d1) as [Hcur Hb];
      [unfold SCREEN_BYTES in *; lia | exact Hse |].
    do 2 eexists. split; [reflexivity|]. split_and!; [exact Hcur | exact Hb | exact Hput | reflexivity].
Qed.

End PrintChar.

(** ** The console

    What the driver implements: the cursor and the bytes of the screen, and
    what a character does to them. *)

Definition console : Type := Z * (Z -> Z).

Definition console_char (t : console) (c : Z) : console :=
  let '(off, s) := t in
  let put x := if c =? 10 then s x else if x =? off then u8 c else if x =? off + 1 then WHITE_ON_BLACK else s x in
  if SCREEN_BYTES <=? advance off c
  then (advance off c - 160, fun x => if x <? SCREEN_BYTES - 160 then put (x + 160) else 0)
  else (advance off c, put).

Definition console_text (t : console) (l : list Z) : console := fold_left console_char l t.

(** The bytes of the screen in memory. *)
Definition screen_of (m : mem) (x : Z) : Z := load8 m (VIDEO_ADDRESS + x).

Definition same_screen (s s' : Z -> Z) : Prop := forall x, 0 <= x < SCREEN_BYTES -> s' x = s x.

Lemma console_char_cursor off s c : (console_char (off, s) c).1 = settle (advance off c).
Proof. unfold console_char, settle. destruct (_ <=? _); reflexivity. Qed.

Lemma console_char_same off s s' c : on_screen off -> same_screen s s' ->
  same_screen (console_char (off, s) c).2 (console_char (off, s') c).2.
Proof.
  unfold on_screen, same_screen, console_char, SCREEN_BYTES. intros Ho H x Hx.
  destruct (4000 <=? advance off c); cbn [snd].
  - destruct (Z.ltb_spec x (4000 - 160)); [|reflexivity]. rewrite H by lia. reflexivity.
  - rewrite H by lia. reflexivity.
Qed.

Lemma screen_after_console m off c : on_screen off ->
  same_screen (console_char (off, screen_of m) c).2 (screen_after m off c).
Proof.
  unfold on_screen, same_screen, screen_after, console_char, SCREEN_BYTES. intros [Ho He] x Hx.
  assert (forall y, load8 (put_char m off c) (VIDEO_ADDRESS + y) =
    if c =? 10 then screen_of m y else if y =? off then u8 c else if y =? off + 1 then WHITE_ON_BLACK else screen_of m y) as Hput.
  { intros y. unfold put_char, screen_of. destruct (c =? 10); [reflexivity|]. rewrite !load8_store8.
    repeat case_decide; repeat case_match; try lia; reflexivity. }
  destruct (4000 <=? advance off c); cbn [snd].
  - destruct (Z.ltb_spec x (4000 - 160)); [|reflexivity]. rewrite <- Z.add_assoc. apply Hput.
  - apply Hput.
Qed.

(** Characters of the high half reach the screen through [char]. *)
Lemma console_char_signed t c : 0 < c < 0x100 -> console_char t (i8 c) = console_char t c.
Proof.
  intros Hc. destruct t as [off s]. unfold console_char, advance.
  replace (i8 c =? 10) with (c =? 10) by (symmetry; apply (i8_eqb c 10); lia).
  replace (u8 (i8 c)) with (u8 c) by zlia. reflexivity.
Qed.

(** ** kprint *)

(** The cursor after the characters [l] from [off]. *)
Definition cursor_after (off : Z) (l : list Z) : Z := fold_left (fun off c => settle (advance off c)) l off.

Lemma console_text_cursor l : forall off s, (console_text (off, s) l).1 = cursor_after off l.
Proof.
  induction l as [|c l IH]; intros off s; [reflexivity|]. unfold console_text, cursor_after in *. cbn [fold_left].
  rewrite <- (console_char_cursor off s c). destruct (console_char (off, s) c) as [off' s']. apply IH.
Qed.

(** Two screens that agree agree after a text. *)
Lemma console_text_same l : forall off s s', on_screen off -> same_screen s s' ->
  same_screen (console_text (off, s) l).2 (console_text (off, s') l).2.
Proof.
  induction l as [|c l IH]; intros off s s' Ho H; [exact H|]. unfold console_text in *. cbn [fold_left].
  pose proof (console_char_cursor off s c) as E. pose proof (console_char_cursor off s' c) as E'.
  pose proof (console_char_same off s s' c Ho H) as Hc.
  destruct (console_char (off, s) c) as [o t], (console_char (off, s') c) as [o' t']. cbn [fst snd] in *. subst o o'.
  apply IH; [apply settle_on_screen, Ho | exact Hc].
Qed.

Definition off_video (a n : Z) : Prop := a + n <= VIDEO_ADDRESS \/ VIDEO_ADDRESS + SCREEN_BYTES <= a.

Section Print.
Context {D : Type} `{HP : PortDevice D} `{!HasCrtc D}.

Lemma print_from_spec l : forall fuel message i off m d,
  bytes_at m (message + i) (l ++ [0]) -> Forall (fun x => 0 < x < 0x100) l ->
  off_video (message + i) (Z.of_nat (length l) + 1) -> on_screen off -> cursor_bytes d -> cursor d = off ->
  (length l <= fuel)%nat ->
  exists m' d', print_from fuel message i (get_offset_col off) (get_offset_row off) m d = Ok (m', d') /\
    cursor d' = cursor_after off l /\ on_screen (cursor_after off l) /\ cursor_bytes d' /\
    same_but VIDEO_ADDRESS SCREEN_BYTES m m' /\
    forall s, same_screen s (screen_of m) -> same_screen (console_text (off, s) l).2 (screen_of m').
Proof.
  induction l as [|c l IH]; intros fuel message i off m d Hm Hl Hv Ho Hd Hcur Hf.
  - simpl in Hm. apply bytes_at_cons in Hm as [Hm _].
    exists m, d. assert (load_char m (message + i) = 0) as E by (unfold load_char; rewrite Hm; reflexivity).
    split; [destruct fuel; cbn [print_from]; rewrite E; reflexivity|].
    split_and!; [exact Hcur | exact Ho | exact Hd | apply same_but_refl | auto].
  - destruct fuel as [|fuel]; [simpl in Hf; lia|]. simpl in Hm. apply bytes_at_cons in Hm as [Hc Hm].
    apply Forall_cons in Hl as [Hc0 Hl]. pose proof Ho as [Hor Hoe].
    assert (load_char m (message + i) = i8 c) as E by (unfold load_char; rewrite Hc; reflexivity).
    assert ((i8 c =? 0) = false) as Ez by (apply Z.eqb_neq; zlia).
    cbn [print_from]. rewrite E, Ez. destruct (get_offset_split off ltac:(lia) Hoe) as [Hsplit Hcol].
    assert (get_offset_row off < 25 /\ 0 <= get_offset_row off) as [Hrow Hrow0]
      by (rewrite get_offset_row_div by lia; unfold SCREEN_BYTES in *; zlia).
    destruct (print_char_spec (i8 c) (get_offset_col off) (get_offset_row off) off m d) as (m1 & d1 & Ep & Hcur1 & Hd1 & Hfr1 & Hs1);
      [lia | lia | exact Ho | exact Hd | left; auto with lia |].
    rewrite Ep. cbn [length] in Hv.
    assert (settle (advance off (i8 c)) = settle (advance off c)) as Ea.
    { unfold advance. replace (i8 c =? 10) with (c =? 10) by (symmetry; apply (i8_eqb c 10); lia). reflexivity. }
    rewrite Ea in *.
    destruct (IH fuel message (i + 1) (settle (advance off c)) m1 d1) as (m' & d' & E' & Hc' & Ho' & Hd' & Hfr' & Hs');
      [| exact Hl | | apply settle_on_screen, Ho | exact Hd1 | exact Hcur1 | simpl in Hf; lia |].
    + rewrite Z.add_assoc. revert Hm. apply (same_but_bytes_at VIDEO_ADDRESS SCREEN_BYTES); [exact Hfr1|].
      rewrite length_app. cbn [length]. unfold off_video in Hv. lia.
    + unfold off_video in *. lia.
    + exists m', d'. split_and!; [exact E' | exact Hc' | exact Ho' | exact Hd' | eapply same_but_trans; eassumption |].
      intros s Hs. unfold console_text. cbn [fold_left]. rewrite <- (console_char_signed (off, s) c Hc0).
      pose proof (console_char_cursor off s (i8 c)) as Hcs. rewrite Ea in Hcs.
      pose proof (screen_after_console m off (i8 c) Ho) as Hsa. pose proof (console_char_same off s (screen_of m) (i8 c) Ho Hs) as Hsc.
      destruct (console_char (off, s) (i8 c)) as [off' s']. cbn [fst snd] in Hcs, Hsc. subst off'. apply Hs'.
      intros x Hx. rewrite <- (Hsc x Hx), <- (Hsa x Hx). apply Hs1, Hx.
Qed.

End Print.

(** ** Properties *)

(** [print_char] at a cell of the screen, or at the cursor when the column
    or row is negative, writes the character and the attribute there, or goes
    to the next line; at the end of the screen the rows move up by one and the
    last is cleared.  The cursor register and the result are the position
    behind the character, which is on the screen; no byte outside the video
    memory changes. *)
Theorem print_char_writes_cell {D : Type} `{PortDevice D} `{!HasCrtc D} (c col row off : Z) (m : mem) (d : D) :
  col < 80 -> row < 25 -> on_screen off -> cursor_bytes d ->
  (0 <= col /\ 0 <= row /\ off = get_offset col row) \/ ((col < 0 \/ row < 0) /\ off = cursor d) ->
  exists m' d', print_char c col row 0 m d = (settle (advance off c), m', d') /\
    cursor d' = settle (advance off c) /\ on_screen (settle (advance off c)) /\
    same_but VIDEO_ADDRESS SCREEN_BYTES m m' /\
    forall x, 0 <= x < SCREEN_BYTES -> load8 m' (VIDEO_ADDRESS + x) = screen_after m off c x.
Proof.
  intros Hc Hr Ho Hd Hpos. change (print_char c col row 0 m d) with (print_char c col row WHITE_ON_BLACK m d).
  destruct (print_char_spec c col row off m d Hc Hr Ho Hd Hpos) as (m' & d' & E & Hcur & _ & Hfr & Hx).
  exists m', d'. split_and!; try assumption. apply settle_on_screen, Ho.
Qed.

Lemma print_char_writes_cell_witness :
  exists m' d', print_char 65 (-1) (-1) 0 (store8 ∅ (VIDEO_ADDRESS + 160) 66) (mk_crtc 0 7 207) = (3840, m', d') /\
    load8 m' VIDEO_ADDRESS = 66 /\ load8 m' (VIDEO_ADDRESS + 3838) = 65.
Proof.
  destruct (print_char_writes_cell (D := crtc_device) 65 (-1) (-1) 3998 (store8 ∅ (VIDEO_ADDRESS + 160) 66) (mk_crtc 0 7 207))
    as (m' & d' & E & _ & _ & _ & Hx);
    [lia | lia | split; [unfold SCREEN_BYTES; lia | reflexivity] | unfold cursor_bytes; simpl; lia | right; split; [lia | reflexivity] |].
  exists m', d'. split; [exact E|]. split.
  - rewrite <- (Z.add_0_r VIDEO_ADDRESS), Hx by (unfold SCREEN_BYTES; lia). vm_compute. reflexivity.
  - rewrite Hx by (unfold SCREEN_BYTES; lia). vm_compute. reflexivity.
Defined.

(** [kprint] prints from the cursor. *)
Lemma kprint_spec {D : Type} `{PortDevice D} `{!HasCrtc D} (fuel : nat) (message : Z) (l : list Z) (m : mem) (d : D) :
  cstring m message l -> off_video message (Z.of_nat (length l) + 1) -> on_screen (cursor d) -> cursor_bytes d ->
  (length l <= fuel)%nat ->
  exists m' d', kprint fuel message m d = Ok (m', d') /\ cursor d' = cursor_after (cursor d) l /\
    on_screen (cursor d') /\ cursor_bytes d' /\ same_but VIDEO_ADDRESS SCREEN_BYTES m m' /\
    same_screen (console_text (cursor d, screen_of m) l).2 (screen_of m').
Proof.
  intros [Hm Hl] Hv Ho Hd Hf. unfold kprint, kprint_at. cbn [Z.leb Z.compare andb].
  destruct (get_cursor_offset_spec d Hd) as (d1 & E & Hcur & Hd1). rewrite E.
  destruct (print_from_spec l fuel message 0 (cursor d) m d1) as (m' & d' & E' & Hc' & Ho' & Hb' & Hfr & Hs);
    [now rewrite Z.add_0_r | exact Hl | now rewrite Z.add_0_r | exact Ho | exact Hd1 | exact Hcur | exact Hf |].
  exists m', d'. split_and!; [exact E' | exact Hc' | rewrite Hc'; exact Ho' | exact Hb' | exact Hfr |].
  apply Hs. intros x _. reflexivity.
Qed.

(** [kprint_backspace] anywhere but at the top left corner: the cursor goes
    back by a cell, or stays behind the prompt. *)
Lemma kprint_backspace_spec {D : Type} `{PortDevice D} `{!HasCrtc D} (m : mem) (d : D) :
  on_screen (cursor d) -> 2 <= cursor d -> cursor_bytes d ->
  exists m' d', kprint_backspace m d = (m', d') /\ (cursor d' = cursor d - 2 \/ cursor d' = cursor d) /\
    cursor_bytes d' /\ same_but VIDEO_ADDRESS SCREEN_BYTES m m'.
Proof.
  intros [Hr He] H2 Hd. unfold kprint_backspace. destruct (get_cursor_offset_spec d Hd) as (d1 & -> & Hc1 & Hd1).
  assert (Z.even (cursor d - 2) = true) as He2 by (now rewrite Z.even_sub, He).
  destruct (get_offset_split (cursor d - 2)) as [Hoff Hcol]; [lia | exact He2 |].
  assert (0 <= get_offset_row (cursor d - 2) < 25) as Hrow by (rewrite get_offset_row_div by lia; unfold SCREEN_BYTES in Hr; zlia).
  destruct (print_char_spec 32 (get_offset_col (cursor d - 2)) (get_offset_row (cursor d - 2)) (cursor d - 2) m d1)
    as (m' & d' & E & Hc & Hb & Hfr & _); [lia | lia | split; [lia | exact He2] | exact Hd1 | left; split_and!; [lia | lia | now rewrite Hoff] |].
  rewrite E. assert (settle (advance (cursor d - 2) 32) = cursor d) as Hs.
  { unfold settle, advance. cbn [Z.eqb Pos.eqb]. replace (SCREEN_BYTES <=? cursor d - 2 + 2) with false by lia. lia. }
  rewrite Hs in Hc. destruct (_ || _).
  - destruct (set_cursor_offset_spec (cursor d - 2) d') as [Hc' Hb']; [unfold SCREEN_BYTES in Hr; lia | exact He2 |].
    exists m', (set_cursor_offset (cursor d - 2) d'). auto.
  - exists m', d'. auto.
Qed.

(** C36: [kprint] of a string implements the abstract console: it returns, the
    cursor register and the screen become what the console makes of the
    characters, the cursor stays on the screen, and only video memory changes. *)
Theorem kprint_stays_on_screen {D : Type} `{PortDevice D} `{!HasCrtc D} (fuel : nat) (message : Z) (l : list Z) (m : mem) (d : D) :
  cstring m message l -> off_video message (Z.of_nat (length l) + 1) -> on_screen (cursor d) -> cursor_bytes d ->
  (length l <= fuel)%nat ->
  exists m' d', kprint fuel message m d = Ok (m', d') /\
    cursor d' = (console_text (cursor d, screen_of m) l).1 /\
    same_screen (console_text (cursor d, screen_of m) l).2 (screen_of m') /\
    on_screen (cursor d') /\ same_but VIDEO_ADDRESS SCREEN_BYTES m m'.
Proof.
  intros Hm Hv Ho Hd Hf. destruct (kprint_spec fuel message l m d Hm Hv Ho Hd Hf) as (m' & d' & E & Hc & Hs & _ & Hfr & Hsc).
  rewrite console_text_cursor. eauto 7.
Qed.

(** "Hi!" and a newline at 0x1000. *)
Definition greeting : mem := store_bytes ∅ 0x1000 [72; 105; 33; 10; 0].

Lemma kprint_stays_on_screen_witness :
  exists m' d', kprint 10 0x1000 greeting (mk_crtc 0 0 5) = Ok (m', d') /\ cursor d' = 160 /\ load8 m' (VIDEO_ADDRESS + 12) = 105.
Proof.
  destruct (kprint_stays_on_screen (D := crtc_device) 10 0x1000 [72; 105; 33; 10] greeting (mk_crtc 0 0 5)) as (m' & d' & E & Hc & Hs & _);
    [split; [vm_compute; reflexivity | repeat constructor; lia] | left; vm_compute; discriminate |
     split; [vm_compute; split; [discriminate | reflexivity] | reflexivity] | unfold cursor_bytes; simpl; lia | simpl; lia |].
  exists m', d'. split_and!; [exact E | etransitivity; [exact Hc | vm_compute; reflexivity] |].
  etransitivity; [exact (Hs 12 ltac:(unfold SCREEN_BYTES; lia)) | vm_compute; reflexivity].
Defined.

(** [kprint_backspace] with the cursor at the top left corner moves it to
    the position -1, which the controller keeps as 65535; from then on the
    cursor is off the screen and [kprint] only writes the error mark into the
    last cell. *)
Theorem backspace_at_home_breaks_output :
  let '(m, d) := kprint_backspace greeting (mk_crtc 0 0 0) in
  cursor d = 131070 /\
  match kprint 10 0x1000 m d with
  | Ok (m', d') => cursor d' = 131070 /\ load8 m' VIDEO_ADDRESS = 32 /\ load8 m' (VIDEO_ADDRESS + 2) = 0 /\
      load8 m' (VIDEO_ADDRESS + 3998) = 69 /\ load8 m' (VIDEO_ADDRESS + 3999) = RED_ON_WHITE
  | _ => False
  end.
Proof. vm_compute. split_and!; reflexivity. Qed.
