(* ===== verification/Printf.v ===== *)
(** * kernel/printf.c: formatted output

    [vsprintf] reads a format in memory and writes through [str]; the variadic
    arguments are the list of 32-bit words that [va_arg] takes from the stack.
    [sprintf] and [printf] are [vsprintf] on their arguments. *)

From S2P Require Import Prelude Memory Util Ports Screen.

Definition isdigit (c : Z) : Z := if (48 <=? c) && (c <=? 57) then 1 else 0.

(** [skip_atoi(&s)]: the number and the pointer behind it. *)
Definition skip_atoi (fuel : nat) (m : mem) (s : Z) : outcome (Z * Z) :=
  while fuel (fun '(_, s) => negb (isdigit (load_char m s) =? 0))
    (fun '(i, s) => Ok (i32 (i * 10 + load_char m s - 48), s + 1)) (0, s).

Definition ZEROPAD : Z := 1.

Definition SIGN : Z := 2.

Definition PLUS : Z := 4.

Definition SPACE : Z := 8.

Definition LEFT : Z := 16.

Definition SMALL : Z := 32.

Definition SPECIAL : Z := 64.

(** [type & flag] as a condition. *)
Definition has (type flag : Z) : bool := negb (Z.land type flag =? 0).

(** [__do_div(n, base)]: the remainder, and the new value of [n]. *)
Definition do_div (n base : Z) : Z * Z := (i32 (u32 n mod u32 base), i32 (u32 n / u32 base)).

Definition digits : list Z := [48; 49; 50; 51; 52; 53; 54; 55; 56; 57; 65; 66; 67; 68; 69; 70].

(** ** number

    [fill c lo m str w] is [while (lo < w--) *str++ = c]; with [lo] 0 it is
    [while (w-- > 0)]. *)
Definition fill (c lo : Z) (m : mem) (str w : Z) : outcome (mem * Z * Z) :=
  st ← while (Z.to_nat (w - lo)) (fun '(_, _, w) => lo <? w)
         (fun '(m, str, w) => Ok (store8 m str c, str + 1, w - 1)) (m, str, w);
  Ok (st.1.1, st.1.2, i32 (st.2 - 1)).

(** [char tmp[66]], as the bytes written so far; [tmp[i++] = c], which is
    undefined past the end of the array. *)
Definition SIZEOF_tmp : Z := 66.

Definition tmp_put (tmp : list Z) (c : Z) : outcome (list Z) :=
  if Z.of_nat (length tmp) <? SIZEOF_tmp then Ok (tmp ++ [c]) else Undef "write past the end of tmp".

(** The digits of [num] into [tmp], least significant first: 32 turns are
    enough for a 32-bit number. *)
Definition number_digits (num base locase : Z) : outcome (list Z) :=
  if num =? 0 then tmp_put [] 48
  else
    st ← while 32 (fun '(num, _) => negb (num =? 0))
      (fun '(num, tmp) =>
        let '(res, num) := do_div num base in
        tmp ← tmp_put tmp (Z.lor (nth (Z.to_nat res) digits 0) locase);
        Ok (num, tmp)) (num, []);
    Ok st.2.

(** The digits of [tmp] from the last one down. *)
Definition put_digits (tmp : list Z) (m : mem) (str : Z) : outcome (mem * Z) :=
  st ← while (length tmp) (fun '(_, _, i) => 0 <? i)
         (fun '(m, str, i) => Ok (store8 m str (nth (Z.to_nat (i - 1)) tmp 0), str + 1, i - 1))
         (m, str, Z.of_nat (length tmp));
  Ok st.1.

(** A null pointer is returned for a base that is not 2 to 16. *)
Definition number (m : mem) (str num base size precision type : Z) : outcome (mem * Z) :=
  let locase := Z.land type SMALL in
  let type := if has type LEFT then Z.land type (Z.lnot ZEROPAD) else type in
  if (base <? 2) || (16 <? base) then Ok (m, 0)
  else
    let c := if has type ZEROPAD then 48 else 32 in
    let '(sign, num, size) :=
      if has type SIGN then
        if num <? 0 then (45, i32 (- num), i32 (size - 1))
        else if has type PLUS then (43, num, i32 (size - 1))
        else if has type SPACE then (32, num, i32 (size - 1))
        else (0, num, size)
      else (0, num, size) in
    let size :=
      if has type SPECIAL then
        if base =? 16 then i32 (size - 2) else if base =? 8 then i32 (size - 1) else size
      else size in
    tmp ← number_digits num base locase;
    let i := Z.of_nat (length tmp) in
    let precision := if precision <? i then i else precision in
    let size := i32 (size - precision) in
    r ← (if negb (has type (ZEROPAD + LEFT)) then fill 32 0 m str size else Ok (m, str, size));
    let '(m, str, size) := r in
    let '(m, str) := if negb (sign =? 0) then (store8 m str sign, str + 1) else (m, str) in
    let '(m, str) :=
      if has type SPECIAL then
        if base =? 8 then (store8 m str 48, str + 1)
        else if base =? 16 then (store8 (store8 m str 48) (str + 1) (Z.lor 88 locase), str + 1 + 1)
        else (m, str)
      else (m, str) in
    r ← (if negb (has type LEFT) then fill c 0 m str size else Ok (m, str, size));
    let '(m, str, size) := r in
    r ← fill 48 i m str precision;
    let '(m, str, _) := r in
    r ← put_digits tmp m str;
    let '(m, str) := r in
    r ← fill 32 0 m str size;
    Ok r.1.

(** ** vsprintf *)

(** [va_arg]: the next word; there is none left when the format asks for more
    arguments than were passed. *)
Definition va_arg (args : list Z) : outcome (Z * list Z) :=
  match args with
  | [] => Undef "va_arg past the last argument"
  | w :: args => Ok (u32 w, args)
  end.

Definition flag_of (c : Z) : option Z :=
  if c =? 45 then Some LEFT
  else if c =? 43 then Some PLUS
  else if c =? 32 then Some SPACE
  else if c =? 35 then Some SPECIAL
  else if c =? 48 then Some ZEROPAD
  else None.

(** The [repeat] loop: the first character that is not a flag, and the flags. *)
Fixpoint parse_flags (fuel : nat) (m : mem) (fmt flags : Z) : outcome (Z * Z) :=
  let fmt := fmt + 1 in
  match flag_of (load_char m fmt) with
  | Some f => match fuel with O => NoFuel | S fuel' => parse_flags fuel' m fmt (Z.lor flags f) end
  | None => Ok (fmt, flags)
  end.

Definition parse_width (fuel : nat) (m : mem) (fmt flags : Z) (args : list Z) : outcome (Z * Z * Z * list Z) :=
  if negb (isdigit (load_char m fmt) =? 0) then
    r ← skip_atoi fuel m fmt;
    Ok (r.1, r.2, flags, args)
  else if load_char m fmt =? 42 then
    let fmt := fmt + 1 in
    r ← va_arg args;
    let field_width := i32 r.1 in
    if field_width <? 0 then Ok (i32 (- field_width), fmt, Z.lor flags LEFT, r.2)
    else Ok (field_width, fmt, flags, r.2)
  else Ok (-1, fmt, flags, args).

Definition parse_precision (fuel : nat) (m : mem) (fmt : Z) (args : list Z) : outcome (Z * Z * list Z) :=
  if load_char m fmt =? 46 then
    let fmt := fmt + 1 in
    r ← (if negb (isdigit (load_char m fmt) =? 0) then
           r ← skip_atoi fuel m fmt;
           Ok (r.1, r.2, args)
         else if load_char m fmt =? 42 then
           r ← va_arg args;
           Ok (i32 r.1, fmt + 1, r.2)
         else Ok (-1, fmt, args));
    let '(precision, fmt, args) := r in
    Ok (if precision <? 0 then 0 else precision, fmt, args)
  else Ok (-1, fmt, args).

Definition parse_qualifier (m : mem) (fmt : Z) : Z * Z :=
  let c := load_char m fmt in
  if (c =? 104) || (c =? 108) || (c =? 76) then (c, fmt + 1) else (-1, fmt).

(** The integer argument, as the [unsigned long] it is kept in. *)
Definition int_arg (qualifier flags : Z) (args : list Z) : outcome (Z * list Z) :=
  r ← va_arg args;
  let '(w, args) := r in
  if qualifier =? 108 then Ok (w, args)
  else if qualifier =? 104 then
    let num := u16 w in
    Ok (if has flags SIGN then u32 (i16 num) else num, args)
  else if has flags SIGN then Ok (u32 (i32 w), args)
  else Ok (w, args).

(** [while (--w > 0) *str++ = ' ']. *)
Definition fill_pre (m : mem) (str w : Z) : outcome (mem * Z * Z) :=
  let w := i32 (w - 1) in
  while (Z.to_nat w) (fun '(_, _, w) => 0 <? w)
    (fun '(m, str, w) => Ok (store8 m str 32, str + 1, w - 1)) (m, str, w).

Definition conv_char (m : mem) (str flags field_width : Z) (args : list Z) : outcome (mem * Z * list Z) :=
  r ← (if negb (has flags LEFT) then fill_pre m str field_width else Ok (m, str, field_width));
  let '(m, str, field_width) := r in
  a ← va_arg args;
  let m := store8 m str (u8 a.1) in
  r ← fill_pre m (str + 1) field_width;
  Ok (r.1, a.2).

(** [strnlen] is given the precision and does not use it. *)
Definition conv_string (fuel : nat) (m : mem) (str flags field_width precision : Z) (args : list Z)
    : outcome (mem * Z * list Z) :=
  a ← va_arg args;
  let s := a.1 in
  len ← strnlen fuel m s precision;
  r ← (if negb (has flags LEFT) then fill 32 len m str field_width else Ok (m, str, field_width));
  let '(m, str, field_width) := r in
  let m := for_up (Z.to_nat len) (fun i m => store8 m (str + i) (load_char m (s + i))) 0 m in
  r ← fill 32 len m (str + len) field_width;
  Ok (r.1, a.2).

Definition conv_pointer (m : mem) (str flags field_width precision : Z) (args : list Z)
    : outcome (mem * Z * list Z) :=
  let '(field_width, flags) := if field_width =? -1 then (2 * 4, Z.lor flags ZEROPAD) else (field_width, flags) in
  a ← va_arg args;
  r ← number m str (i32 a.1) 16 field_width precision flags;
  Ok (r, a.2).

Definition conv_int (m : mem) (str base flags field_width precision qualifier : Z) (args : list Z)
    : outcome (mem * Z * list Z) :=
  a ← int_arg qualifier flags args;
  r ← number m str (i32 a.1) base field_width precision flags;
  Ok (r, a.2).

(** The switch on the conversion character at [fmt]; the result has the
    pointer to the last character that was used. *)
Definition convert (fuel : nat) (m : mem) (buf str fmt flags field_width precision qualifier : Z) (args : list Z)
    : outcome (mem * Z * list Z * Z) :=
  let c := load_char m fmt in
  if c =? 99 then r ← conv_char m str flags field_width args; Ok (r, fmt)
  else if c =? 115 then r ← conv_string fuel m str flags field_width precision args; Ok (r, fmt)
  else if c =? 112 then r ← conv_pointer m str flags field_width precision args; Ok (r, fmt)
  else if c =? 110 then
    a ← va_arg args;
    Ok (store32 m a.1 (u32 (str - buf)), str, a.2, fmt)
  else if c =? 37 then Ok (store8 m str 37, str + 1, args, fmt)
  else if c =? 111 then r ← conv_int m str 8 flags field_width precision qualifier args; Ok (r, fmt)
  else if c =? 120 then r ← conv_int m str 16 (Z.lor flags SMALL) field_width precision qualifier args; Ok (r, fmt)
  else if c =? 88 then r ← conv_int m str 16 flags field_width precision qualifier args; Ok (r, fmt)
  else if (c =? 100) || (c =? 105) then
    r ← conv_int m str 10 (Z.lor flags SIGN) field_width precision qualifier args; Ok (r, fmt)
  else if c =? 117 then r ← conv_int m str 10 flags field_width precision qualifier args; Ok (r, fmt)
  else if negb (c =? 0) then Ok (store8 (store8 m str 37) (str + 1) c, str + 1 + 1, args, fmt)
  else Ok (store8 m str 37, str + 1, args, fmt - 1).

(** One turn of the loop of [vsprintf], with [fmt] on a [%]. *)
Definition directive (fuel : nat) (m : mem) (buf str fmt : Z) (args : list Z)
    : outcome (mem * Z * list Z * Z) :=
  r ← parse_flags fuel m fmt 0;
  let '(fmt, flags) := r in
  r ← parse_width fuel m fmt flags args;
  let '(field_width, fmt, flags, args) := r in
  r ← parse_precision fuel m fmt args;
  let '(precision, fmt, args) := r in
  let '(qualifier, fmt) := parse_qualifier m fmt in
  convert fuel m buf str fmt flags field_width precision qualifier args.

(** The loop of [vsprintf]: [n] bounds its turns, [fuel] the loops inside. *)
Fixpoint vsprintf_from (n fuel : nat) (m : mem) (buf str fmt : Z) (args : list Z) : outcome (mem * Z) :=
  let c := load_char m fmt in
  if c =? 0 then Ok (m, str)
  else
    match n with
    | O => NoFuel
    | S n' =>
        r ← (if negb (c =? 37) then Ok (store8 m str c, str + 1, args, fmt)
             else directive fuel m buf str fmt args);
        let '(m, str, args, fmt) := r in
        vsprintf_from n' fuel m buf str (fmt + 1) args
    end.

Definition vsprintf (fuel : nat) (m : mem) (buf fmt : Z) (args : list Z) : outcome (mem * Z) :=
  r ← vsprintf_from fuel fuel m buf buf fmt args;
  let '(m, str) := r in
  Ok (store8 m str 0, i32 (str - buf)).

Definition sprintf (fuel : nat) (m : mem) (buf fmt : Z) (args : list Z) : outcome (mem * Z) :=
  i ← vsprintf fuel m buf fmt args; Ok i.

(** ** printf

    [char printf_buf[1024]]; nothing in [vsprintf] keeps the text within it. *)
Definition PRINTF_BUF_SIZE : Z := 1024.

Section Output.
Context {D : Type} `{PortDevice D}.

(** [printf_buf] is the address of the buffer on the stack. *)
Definition printf (fuel : nat) (printf_buf fmt : Z) (args : list Z) (m : mem) (d : D) : outcome (Z * mem * D) :=
  r ← vsprintf fuel m printf_buf fmt args;
  let '(m, printed) := r in
  o ← kprint fuel printf_buf m d;
  Ok (printed, o.1, o.2).

(** One turn of the inner loop of [print_nice_hex]; true when it returns. *)
Definition nice_hex_word (fuel : nat) (printf_buf fmt i j num start : Z) (m : mem) (d : D)
    : outcome (bool * Z * mem * D) :=
  if num <=? i * 4 + j then Ok (true, start, m, d)
  else
    r ← printf fuel printf_buf fmt [load32 m start] m d;
    Ok (false, start + 4, r.1.2, r.2).

Fixpoint nice_hex_line (fuel n : nat) (printf_buf fmt i j num start : Z) (m : mem) (d : D)
    : outcome (bool * Z * mem * D) :=
  match n with
  | O => Ok (false, start, m, d)
  | S n' =>
      r ← nice_hex_word fuel printf_buf fmt i j num start m d;
      let '(returned, start, m, d) := r in
      if (returned : bool) then Ok (true, start, m, d)
      else nice_hex_line fuel n' printf_buf fmt i (j + 1) num start m d
  end.

Fixpoint nice_hex_lines (fuel n : nat) (printf_buf fmt_line fmt_word newline i num start : Z) (m : mem) (d : D)
    : outcome (mem * D) :=
  match n with
  | O => Ok (m, d)
  | S n' =>
      r ← printf fuel printf_buf fmt_line [start] m d;
      l ← nice_hex_line fuel 4 printf_buf fmt_word i 0 num start r.1.2 r.2;
      let '(returned, start, m, d) := l in
      if (returned : bool) then Ok (m, d)
      else
        r ← printf fuel printf_buf newline [] m d;
        nice_hex_lines fuel n' printf_buf fmt_line fmt_word newline (i + 1) num start r.1.2 r.2
  end.

(** The arguments [fmt_head] to [newline] are the addresses of its four string
    literals. *)
Definition print_nice_hex (fuel : nat) (printf_buf fmt_head fmt_line fmt_word newline addr num : Z) (m : mem) (d : D)
    : outcome (mem * D) :=
  r ← printf fuel printf_buf fmt_head [addr] m d;
  nice_hex_lines fuel (Z.to_nat (Z.quot num 4)) printf_buf fmt_line fmt_word newline 0 num addr r.1.2 r.2.

End Output.
