(* ===== verification/PrintfNumber.v ===== *)
(** * What [number] of kernel/printf.c prints

    [number_text] is the reference: sign, prefix and digits, filled up on the
    left or the right.  [number_spec] says that [number] writes these bytes. *)

From S2P Require Import Prelude Memory Util Printf.

(** The digits of [n] in base [b], least significant first, at most [k]. *)
Fixpoint base_le (k : nat) (b n : Z) : list Z :=
  match k with
  | O => []
  | S k' => n mod b :: (if n / b =? 0 then [] else base_le k' b (n / b))
  end.

(** The value of a little-endian list of digits. *)
Fixpoint base_val (b : Z) (l : list Z) : Z :=
  match l with
  | [] => 0
  | d :: l' => d + b * base_val b l'
  end.

Definition digit_char (locase d : Z) : Z := Z.lor (nth (Z.to_nat d) digits 0) locase.

Definition digit_text (base type n : Z) : list Z :=
  rev (map (digit_char (Z.land type SMALL)) (base_le 32 base n)).

Definition sign_text (num type : Z) : list Z :=
  if has type SIGN then
    if num <? 0 then [45] else if has type PLUS then [43] else if has type SPACE then [32] else []
  else [].

Definition prefix_text (base type : Z) : list Z :=
  if has type SPECIAL then
    if base =? 8 then [48] else if base =? 16 then [48; Z.lor 88 (Z.land type SMALL)] else []
  else [].

(** What is printed without the sign. *)
Definition magnitude (num type : Z) : Z := if has type SIGN then Z.abs num else u32 num.

Definition number_text (num base size precision type : Z) : list Z :=
  let pre := sign_text num type ++ prefix_text base type in
  let ds := digit_text base type (magnitude num type) in
  let body := replicate (Z.to_nat (precision - Z.of_nat (length ds))) 48 ++ ds in
  let room := Z.to_nat (size - Z.of_nat (length pre) - Z.of_nat (length body)) in
  if has type LEFT then pre ++ body ++ replicate room 32
  else if has type ZEROPAD then pre ++ replicate room 48 ++ body
  else replicate room 32 ++ pre ++ body.

(** Widths and precisions for which the arithmetic of [number] cannot
    overflow. *)
Definition moderate (w : Z) : Prop := - 0x1000000 < w < 0x1000000.

(** ** Filling *)

Lemma fill_loop n : forall f c lo (m : mem) str w, Z.to_nat (w - lo) = n -> (n <= f)%nat ->
  while f (fun '(_, _, w) => lo <? w) (fun '(m, str, w) => Ok (store8 m str c, str + 1, w - 1)) (m, str, w) =
  Ok (store_bytes m str (replicate n c), str + Z.of_nat n, w - Z.of_nat n).
Proof.
  induction n as [|n IH]; intros f c lo m str w Hn Hf.
  - rewrite while_done by (apply Z.ltb_ge; lia). simpl. do 2 f_equal; [f_equal|]; lia.
  - destruct f as [|f]; [lia|].
    erewrite while_step; [|apply Z.ltb_lt; lia | reflexivity]. rewrite IH by lia. cbn [replicate store_bytes].
    do 2 f_equal; [f_equal|]; lia.
Qed.

Lemma fill_spec c lo m str w :
  fill c lo m str w = Ok (store_bytes m str (replicate (Z.to_nat (w - lo)) c), str + Z.of_nat (Z.to_nat (w - lo)), i32 (Z.min w lo - 1)).
Proof.
  unfold fill. rewrite (fill_loop (Z.to_nat (w - lo))) by lia. rewrite bind_ok. cbn [fst snd].
  do 3 f_equal. lia.
Qed.

(** ** Digits *)

Lemma base_le_length k b n : (length (base_le k b n) <= k)%nat.
Proof.
  revert n. induction k as [|k IH]; intros n; simpl; [lia|].
  destruct (n / b =? 0); simpl; [lia|]. specialize (IH (n / b)). lia.
Qed.

Lemma base_le_val k b n : 2 <= b -> 0 <= n < b ^ Z.of_nat k -> base_val b (base_le k b n) = n.
Proof.
  intros Hb. revert n. induction k as [|k IH]; intros n Hn; [simpl in *; lia|].
  rewrite Nat2Z.inj_succ, Z.pow_succ_r in Hn by lia. cbn [base_le base_val].
  pose proof (Z.div_mod n b ltac:(lia)). destruct (n / b =? 0) eqn:E; cbn [base_val]; [lia|].
  rewrite IH; [lia|]. split; [apply Z.div_pos; lia | apply Z.div_lt_upper_bound; lia].
Qed.

Lemma base_le_range k b n : 2 <= b -> Forall (fun d => 0 <= d < b) (base_le k b n).
Proof.
  intros Hb. revert n. induction k as [|k IH]; intros n; cbn [base_le]; constructor.
  - apply Z.mod_pos_bound. lia.
  - destruct (n / b =? 0); [constructor | apply IH].
Qed.

Lemma base_le_dec k n : map (digit_char 0) (base_le k 10 n) = dec_le k n.
Proof.
  revert n. induction k as [|k IH]; intros n; [reflexivity|]. cbn [base_le dec_le map]. f_equal.
  - assert (0 <= n mod 10 < 10) as Hr by (apply Z.mod_pos_bound; lia). unfold digit_char. rewrite Z.lor_0_r.
    assert (n mod 10 ∈ seqZ 0 10) as Hi by (apply elem_of_seqZ; lia). generalize dependent (n mod 10).
    intros d _ Hd. repeat (apply elem_of_cons in Hd as [-> | Hd]; [reflexivity|]). now apply not_elem_of_nil in Hd.
  - destruct (n / 10 =? 0); [reflexivity | apply IH].
Qed.

(** More room than the digits need changes nothing. *)
Lemma dec_le_more k n : 0 <= n < 10 ^ Z.of_nat k -> (0 < k)%nat -> forall j, dec_le (k + j) n = dec_le k n.
Proof.
  revert n. induction k as [|k IH]; intros n Hn Hk j; [lia|].
  rewrite Nat2Z.inj_succ, Z.pow_succ_r in Hn by lia. cbn [Nat.add dec_le].
  f_equal. destruct (n / 10 =? 0) eqn:E; [reflexivity|].
  destruct k as [|k]; [change (10 ^ Z.of_nat 0) with 1 in Hn; zlia|]. apply IH; [zlia | lia].
Qed.

Lemma do_div_spec n b : 2 <= b <= 16 -> do_div n b = (u32 n mod b, u32 n / b) /\ 0 <= u32 n / b < 0x80000000.
Proof.
  intros Hb. pose proof (u32_range n) as Hn.
  assert (0 <= u32 n / b < 0x80000000) as Hq.
  { split; [apply Z.div_pos; lia | apply Z.div_lt_upper_bound; lia]. }
  split; [|exact Hq]. unfold do_div. rewrite (u32_small b) by lia.
  pose proof (Z.mod_pos_bound (u32 n) b ltac:(lia)). now rewrite !i32_small by lia.
Qed.

(** The array is large enough for the digits in any base. *)
Lemma digits_loop b locase k : forall f num acc, 2 <= b <= 16 -> - 0x80000000 <= num < 0x80000000 -> num <> 0 ->
  u32 num < b ^ Z.of_nat k -> (k <= f)%nat -> Z.of_nat (length acc + k) <= SIZEOF_tmp ->
  while f (fun '(num, _) => negb (num =? 0))
    (fun '(num, tmp) => let '(res, num) := do_div num b in
      tmp ← tmp_put tmp (Z.lor (nth (Z.to_nat res) digits 0) locase); Ok (num, tmp))
    (num, acc) = Ok (0, acc ++ map (digit_char locase) (base_le k b (u32 num))).
Proof.
  induction k as [|k IH]; intros f num acc Hb Hn Hz Hk Hf Ht.
  - exfalso. change (b ^ Z.of_nat 0) with 1 in Hk. zlia.
  - destruct f as [|f]; [lia|]. rewrite Nat2Z.inj_succ, Z.pow_succ_r in Hk by lia.
    destruct (do_div_spec num b Hb) as [E Hq].
    erewrite while_step; [| simpl; lia |
      rewrite E; cbv iota beta; unfold tmp_put; replace (Z.of_nat (length acc) <? SIZEOF_tmp) with true by lia; reflexivity].
    change (Z.lor (nth (Z.to_nat (u32 num mod b)) digits 0) locase) with (digit_char locase (u32 num mod b)).
    cbn [base_le map]. destruct (u32 num / b =? 0) eqn:E0.
    + apply Z.eqb_eq in E0. rewrite E0, while_done by reflexivity. reflexivity.
    + rewrite IH; [| exact Hb | lia | lia | rewrite u32_small by lia; apply Z.div_lt_upper_bound; lia | lia | rewrite length_app; cbn [length]; lia].
      rewrite (u32_small (u32 num / b)) by lia. now rewrite <- app_assoc.
Qed.

Lemma locase_cases type : Z.land type SMALL = 0 \/ Z.land type SMALL = 32.
Proof.
  destruct (Z.testbit type 5) eqn:E; [right | left]; apply Z.bits_inj'; intros i Hi; rewrite Z.land_spec;
    change SMALL with (2 ^ 5); rewrite ?Z.bits_0; change 32 with (2 ^ 5); rewrite Z.pow2_bits_eqb by lia;
    destruct (5 =? i) eqn:Ei; try (apply Z.eqb_eq in Ei; subst i; rewrite E); now rewrite ?andb_false_r.
Qed.

Lemma number_digits_spec num b type : 2 <= b <= 16 -> - 0x80000000 <= num < 0x80000000 ->
  number_digits num b (Z.land type SMALL) = Ok (map (digit_char (Z.land type SMALL)) (base_le 32 b (u32 num))).
Proof.
  intros Hb Hn. unfold number_digits. destruct (num =? 0) eqn:E.
  - apply Z.eqb_eq in E as ->. change (u32 0) with 0. cbn [base_le].
    rewrite Z.mod_0_l, Z.div_0_l by lia. cbn [Z.eqb map].
    destruct (locase_cases type) as [-> | ->]; reflexivity.
  - rewrite (digits_loop b _ 32); [reflexivity | exact Hb | exact Hn | lia | | lia | vm_compute; discriminate].
    pose proof (u32_range num). change (Z.of_nat 32) with 32.
    pose proof (Z.pow_le_mono_l 2 b 32 ltac:(lia)). change (2 ^ 32) with 0x100000000 in *. lia.
Qed.

Lemma put_digits_spec tmp m str :
  put_digits tmp m str = Ok (store_bytes m str (rev tmp), str + Z.of_nat (length tmp)).
Proof.
  unfold put_digits.
  assert (forall l rest (m : mem) str f, tmp = l ++ rest -> (length l <= f)%nat ->
    while f (fun '(_, _, i) => 0 <? i)
      (fun '(m, str, i) => Ok (store8 m str (nth (Z.to_nat (i - 1)) tmp 0), str + 1, i - 1))
      (m, str, Z.of_nat (length l)) = Ok (store_bytes m str (rev l), str + Z.of_nat (length l), 0)) as H.
  { induction l as [|x l IH] using rev_ind; intros rest m0 str0 f E Hf.
    - rewrite while_done by reflexivity. simpl. now rewrite Z.add_0_r.
    - rewrite length_app in *. cbn [length] in *. destruct f as [|f]; [lia|].
      erewrite while_step; [|apply Z.ltb_lt; lia | reflexivity].
      replace (Z.of_nat (length l + 1) - 1) with (Z.of_nat (length l)) by lia.
      rewrite <- app_assoc in E. rewrite (IH ([x] ++ rest) _ _ f E) by lia.
      rewrite E, Nat2Z.id, app_nth2, Nat.sub_diag by lia. rewrite rev_app_distr. cbn [app rev nth store_bytes].
      do 2 f_equal. f_equal. lia. }
  rewrite (H tmp [] m str (length tmp)); [reflexivity | now rewrite app_nil_r | lia].
Qed.

(** ** Flags *)

Lemma has_bit type i : 0 <= i -> has type (2 ^ i) = Z.testbit type i.
Proof.
  intros Hi. unfold has. destruct (Z.testbit type i) eqn:E.
  - apply negb_true_iff, Z.eqb_neq. intros H0. assert (Z.testbit (Z.land type (2 ^ i)) i = false) as Ht
      by (rewrite H0; apply Z.bits_0).
    rewrite Z.land_spec, E, Z.pow2_bits_true in Ht by lia. discriminate.
  - apply negb_false_iff, Z.eqb_eq. apply Z.bits_inj'. intros j Hj. rewrite Z.land_spec, Z.bits_0, Z.pow2_bits_eqb by lia.
    destruct (i =? j) eqn:Ej; [apply Z.eqb_eq in Ej; subst j; now rewrite E | apply andb_false_r].
Qed.

Lemma has_without_zeropad type i : 0 < i ->
  has (if has type LEFT then Z.land type (Z.lnot ZEROPAD) else type) (2 ^ i) = has type (2 ^ i).
Proof.
  intros Hi. destruct (has type LEFT); [|reflexivity]. rewrite !has_bit by lia.
  rewrite Z.land_spec, Z.lnot_spec by lia. change ZEROPAD with (2 ^ 0). rewrite Z.pow2_bits_eqb by lia.
  replace (0 =? i) with false by lia. apply andb_true_r.
Qed.

Lemma has_zeropad type :
  has (if has type LEFT then Z.land type (Z.lnot ZEROPAD) else type) ZEROPAD = has type ZEROPAD && negb (has type LEFT).
Proof.
  destruct (has type LEFT) eqn:E; [|now rewrite andb_true_r]. change ZEROPAD with (2 ^ 0).
  rewrite !has_bit, Z.land_spec, Z.lnot_spec, Z.pow2_bits_true by lia. cbn [negb]. now rewrite !andb_false_r.
Qed.

Lemma has_either type : has type (ZEROPAD + LEFT) = has type ZEROPAD || has type LEFT.
Proof.
  unfold has. change (ZEROPAD + LEFT) with (Z.lor ZEROPAD LEFT). rewrite Z.land_lor_distr_r.
  rewrite <- negb_andb. f_equal. apply Bool.eq_iff_eq_true.
  rewrite andb_true_iff, !Z.eqb_eq. apply Z.lor_eq_0_iff.
Qed.

(** ** The stages of number *)

(** What the sign switch of [number] decides. *)
Definition sign_stage (num size type : Z) : Z * Z * Z :=
  if has type SIGN then
    if num <? 0 then (45, i32 (- num), i32 (size - 1))
    else if has type PLUS then (43, num, i32 (size - 1))
    else if has type SPACE then (32, num, i32 (size - 1))
    else (0, num, size)
  else (0, num, size).

Lemma sign_stage_spec num size type :
  - 0x80000000 <= num < 0x80000000 -> moderate size ->
  exists sign num', sign_stage num size type = (sign, num', size - Z.of_nat (length (sign_text num type))) /\
    sign_text num type = (if negb (sign =? 0) then [sign] else []) /\
    u32 num' = magnitude num type /\ - 0x80000000 <= num' < 0x80000000.
Proof.
  intros Hn Hs. unfold moderate in Hs. unfold sign_stage, sign_text, magnitude.
  destruct (has type SIGN); [|exists 0, num; split_and!; [simpl; do 2 f_equal; lia | reflexivity | reflexivity | lia | lia]].
  destruct (num <? 0) eqn:En; [|destruct (has type PLUS), (has type SPACE)]; do 2 eexists;
    (split; [rewrite ?(i32_small (size - 1)) by lia; cbn [length]; reflexivity || (rewrite Z.sub_0_r; reflexivity)|]);
    (split; [reflexivity|]); split; try apply i32_range; rewrite ?u32_i32; zlia.
Qed.

(** The prefix that is written after the sign. *)
Lemma prefix_stage (m : mem) str base type :
  (if has type SPECIAL then
     if base =? 8 then (store8 m str 48, str + 1)
     else if base =? 16 then (store8 (store8 m str 48) (str + 1) (Z.lor 88 (Z.land type SMALL)), str + 1 + 1)
     else (m, str)
   else (m, str)) = (store_bytes m str (prefix_text base type), str + Z.of_nat (length (prefix_text base type))).
Proof.
  unfold prefix_text. destruct (has type SPECIAL); [|simpl; f_equal; lia].
  destruct (base =? 8); [simpl; reflexivity|]. destruct (base =? 16); cbn [store_bytes length]; f_equal; lia.
Qed.

Lemma prefix_size size base type : moderate (size + 2) \/ moderate (size + 1) \/ moderate size ->
  (if has type SPECIAL then
     if base =? 16 then i32 (size - 2) else if base =? 8 then i32 (size - 1) else size else size) =
  size - Z.of_nat (length (prefix_text base type)).
Proof.
  intros Hs. unfold moderate in Hs. unfold prefix_text. destruct (has type SPECIAL); [|cbn [length]; lia].
  destruct (base =? 16) eqn:E16, (base =? 8) eqn:E8; cbn [length]; rewrite ?i32_small by lia; lia.
Qed.

Lemma sign_store (m : mem) str sign l : l = (if negb (sign =? 0) then [sign] else []) ->
  (if negb (sign =? 0) then (store8 m str sign, str + 1) else (m, str)) =
  (store_bytes m str l, str + Z.of_nat (length l)).
Proof. intros ->. destruct (negb (sign =? 0)); simpl; f_equal; lia. Qed.

(** The three fillings around sign, prefix and digits. *)
Lemma body_stage (m : mem) str sign l base type prec tmp size :
  l = (if negb (sign =? 0) then [sign] else []) -> - 0x4000000 <= size < 0x4000000 -> 0 <= prec <= 0x1000000 ->
  (let c := if has type ZEROPAD && negb (has type LEFT) then 48 else 32 in
   let i := Z.of_nat (length tmp) in
   r ← (if negb (has type ZEROPAD && negb (has type LEFT) || has type LEFT) then fill 32 0 m str size else Ok (m, str, size));
   let '(m, str, size) := r in
   let '(m, str) := if negb (sign =? 0) then (store8 m str sign, str + 1) else (m, str) in
   let '(m, str) :=
     if has type SPECIAL then
       if base =? 8 then (store8 m str 48, str + 1)
       else if base =? 16 then (store8 (store8 m str 48) (str + 1) (Z.lor 88 (Z.land type SMALL)), str + 1 + 1)
       else (m, str)
     else (m, str) in
   r ← (if negb (has type LEFT) then fill c 0 m str size else Ok (m, str, size));
   let '(m, str, size) := r in
   r ← fill 48 i m str prec;
   let '(m, str, _) := r in
   r ← put_digits tmp m str;
   let '(m, str) := r in
   r ← fill 32 0 m str size;
   Ok r.1) =
  (let pre := l ++ prefix_text base type in
   let body := replicate (Z.to_nat (prec - Z.of_nat (length tmp))) 48 ++ rev tmp in
   let text :=
     if has type LEFT then pre ++ body ++ replicate (Z.to_nat size) 32
     else if has type ZEROPAD then pre ++ replicate (Z.to_nat size) 48 ++ body
     else replicate (Z.to_nat size) 32 ++ pre ++ body in
   Ok (store_bytes m str text, str + Z.of_nat (length text))).
Proof.
  intros Hl Hs Hp. cbv zeta.
  destruct (has type LEFT) eqn:EL; [rewrite andb_false_r | rewrite andb_true_r; destruct (has type ZEROPAD) eqn:EZ];
    cbn [orb negb]; rewrite ?bind_ok; cbv iota beta; rewrite ?fill_spec, ?bind_ok; cbv iota beta;
    rewrite (sign_store _ _ _ _ Hl), prefix_stage; cbv iota beta;
    rewrite ?fill_spec, ?bind_ok; cbv iota beta; rewrite ?fill_spec, ?bind_ok; cbv iota beta;
    rewrite put_digits_spec, bind_ok; cbv iota beta; rewrite fill_spec, bind_ok; cbn [fst snd];
    rewrite ?(i32_small (Z.min size 0 - 1)), ?(i32_small (Z.min (Z.min size 0 - 1) 0 - 1)) by lia;
    rewrite ?Z.sub_0_r;
    repeat match goal with
    | |- context [Z.to_nat (Z.min ?a 0 - 1)] => replace (Z.to_nat (Z.min a 0 - 1)) with 0%nat by lia
    end; cbn [replicate store_bytes app];
    rewrite ?store_bytes_app, ?length_app, ?length_replicate, ?length_rev;
    rewrite ?Nat2Z.inj_add, ?Z.add_assoc, ?Z.add_0_r; reflexivity.
Qed.

(** ** number *)

Lemma number_spec (m : mem) str num base size precision type :
  2 <= base <= 16 -> - 0x80000000 <= num < 0x80000000 -> moderate size -> moderate precision ->
  let text := number_text num base size precision type in
  number m str num base size precision type = Ok (store_bytes m str text, str + Z.of_nat (length text)).
Proof.
  intros Hb Hn Hs Hp. cbv zeta. unfold number. cbv zeta. rewrite has_either, has_zeropad.
  pose proof (has_without_zeropad type) as Ht. set (type' := if has type LEFT then _ else type) in *.
  rewrite (Ht 1 ltac:(lia) : has type' SIGN = has type SIGN), (Ht 2 ltac:(lia) : has type' PLUS = has type PLUS),
    (Ht 3 ltac:(lia) : has type' SPACE = has type SPACE), (Ht 4 ltac:(lia) : has type' LEFT = has type LEFT),
    (Ht 6 ltac:(lia) : has type' SPECIAL = has type SPECIAL).
  replace ((base <? 2) || (16 <? base)) with false by lia.
  fold (sign_stage num size type).
  destruct (sign_stage_spec num size type Hn Hs) as (sign & num' & -> & Hl & Hu & Hn').
  assert (0 <= Z.of_nat (length (sign_text num type)) <= 1) as Hsl by (rewrite Hl; destruct (negb _); simpl; lia).
  unfold moderate in *. cbv iota beta. rewrite prefix_size by (unfold moderate; lia).
  rewrite (number_digits_spec num' base type Hb Hn'), bind_ok, Hu.
  set (tmp := map _ (base_le 32 base (magnitude num type))).
  assert (0 <= Z.of_nat (length tmp) <= 32) as Ht'.
  { subst tmp. rewrite length_map. pose proof (base_le_length 32 base (magnitude num type)). lia. }
  set (prec := if precision <? Z.of_nat (length tmp) then Z.of_nat (length tmp) else precision).
  assert (0 <= Z.of_nat (length (prefix_text base type)) <= 2) as Hpl
    by (unfold prefix_text; repeat case_match; simpl; lia).
  assert (prec = Z.max precision (Z.of_nat (length tmp))) as Hprec by (subst prec; destruct (_ <? _) eqn:E; lia).
  rewrite (i32_small (_ - prec)) by lia.
  rewrite (body_stage m str sign _ base type prec tmp _ Hl) by lia.
  cbv zeta. unfold number_text. cbv zeta. change (digit_text base type (magnitude num type)) with (rev tmp).
  rewrite length_rev, !length_app, length_replicate, length_rev, !Nat2Z.inj_add.
  replace (Z.to_nat (prec - Z.of_nat (length tmp))) with (Z.to_nat (precision - Z.of_nat (length tmp))) by lia.
  replace (size - (_ + _) - _) with (size - Z.of_nat (length (sign_text num type)) - Z.of_nat (length (prefix_text base type)) - prec)
    by lia.
  reflexivity.
Qed.

(** Whatever is printed around them, the digits are those of the number. *)
Lemma digit_text_value base type n : 2 <= base <= 16 -> 0 <= n < 0x100000000 ->
  exists ds, digit_text base type n = rev (map (digit_char (Z.land type SMALL)) ds) /\
    Forall (fun d => 0 <= d < base) ds /\ base_val base ds = n.
Proof.
  intros Hb Hn. exists (base_le 32 base n). split_and!; [reflexivity | apply base_le_range; lia | apply base_le_val; [lia|]].
  pose proof (Z.pow_le_mono_l 2 base 32 ltac:(lia)). change (Z.of_nat 32) with 32.
  change (2 ^ 32) with 0x100000000 in *. lia.
Qed.

(** Plain decimal output is that of [int_to_ascii], for every [int]. *)
Lemma number_text_decimal num : - 0x80000000 <= num < 0x80000000 ->
  number_text num 10 (-1) (-1) SIGN = render_int num.
Proof.
  intros Hn. unfold number_text, digit_text, magnitude, sign_text, prefix_text, render_int.
  change (has SIGN SIGN) with true. change (has SIGN LEFT) with false. change (has SIGN ZEROPAD) with false.
  change (has SIGN PLUS) with false. change (has SIGN SPACE) with false. change (has SIGN SPECIAL) with false.
  change (Z.land SIGN SMALL) with 0. cbv iota. rewrite base_le_dec, app_nil_r.
  rewrite (dec_le_more 10 (Z.abs num) ltac:(change (10 ^ Z.of_nat 10) with 10000000000; lia) ltac:(lia) 22%nat : dec_le 32 (Z.abs num) = _).
  set (ds := rev _). replace (Z.to_nat (-1 - Z.of_nat (length ds))) with 0%nat by lia.
  assert (forall a b : nat, Z.to_nat (-1 - Z.of_nat a - Z.of_nat b) = 0%nat) as Hz by lia. rewrite Hz.
  destruct (num <? 0); reflexivity.
Qed.

(** ** Lengths and characters *)

(** As many digits as the number has. *)
Lemma base_le_count k : forall b n, 2 <= b -> 0 <= n < b ^ Z.of_nat k -> (0 < k)%nat ->
  let c := Z.of_nat (length (base_le k b n)) in 1 <= c /\ n < b ^ c /\ (1 < c -> b ^ (c - 1) <= n).
Proof.
  induction k as [|k IH]; intros b n Hb Hn Hk; [lia|]. cbv zeta. cbn [base_le].
  destruct (Z.eqb_spec (n / b) 0) as [E|E].
  - cbn [length]. change (Z.of_nat 1) with 1. rewrite Z.pow_1_r. split_and!; [lia | zlia | lia].
  - rewrite Nat2Z.inj_succ, Z.pow_succ_r in Hn by lia. assert (0 < n / b) as Hpos by (pose proof (Z.div_pos n b); lia).
    assert (n / b < b ^ Z.of_nat k) as Hlt by (apply Z.div_lt_upper_bound; lia).
    destruct k as [|k]; [rewrite Z.pow_0_r in Hlt; lia|].
    destruct (IH b (n / b) Hb ltac:(lia) ltac:(lia)) as (H1 & H2 & H3). cbn [length]. rewrite Nat2Z.inj_succ.
    set (c := Z.of_nat (length (base_le (S k) b (n / b)))) in *. split_and!; [lia | |].
    + rewrite Z.pow_succ_r by lia. pose proof (Z.mod_pos_bound n b ltac:(lia)). pose proof (Z.div_mod n b ltac:(lia)). nia.
    + intros _. replace (Z.succ c - 1) with c by lia. destruct (Z.eq_dec c 1) as [Ec|Ec].
      * rewrite Ec, Z.pow_1_r. pose proof (Z.div_mod n b ltac:(lia)). pose proof (Z.mod_pos_bound n b ltac:(lia)). nia.
      * replace c with (Z.succ (c - 1)) by lia. rewrite Z.pow_succ_r by lia. specialize (H3 ltac:(lia)).
        pose proof (Z.div_mod n b ltac:(lia)). pose proof (Z.mod_pos_bound n b ltac:(lia)). nia.
Qed.

Lemma number_text_length num base size precision type :
  let digits := Z.of_nat (length (digit_text base type (magnitude num type))) in
  Z.of_nat (length (number_text num base size precision type)) =
  Z.max size (Z.of_nat (length (sign_text num type ++ prefix_text base type)) + Z.max precision digits).
Proof.
  cbv zeta. unfold number_text. cbv zeta. set (pre := sign_text num type ++ prefix_text base type). set (ds := digit_text _ _ _).
  destruct (has type LEFT); [|destruct (has type ZEROPAD)]; rewrite !length_app, !length_replicate; lia.
Qed.

Lemma digit_char_range type d : 0 <= d < 16 -> 0 < digit_char (Z.land type SMALL) d < 0x100.
Proof.
  intros Hd. assert (d ∈ seqZ 0 16) as Hin by (apply elem_of_seqZ; lia).
  assert (Forall (fun d => 0 < digit_char 0 d < 0x100 /\ 0 < digit_char 32 d < 0x100) (seqZ 0 16)) as H
    by (apply (bool_decide_unpack _); vm_compute; exact I).
  rewrite Forall_forall in H. destruct (H d Hin). destruct (locase_cases type) as [-> | ->]; assumption.
Qed.

(** A number prints as characters that are not NUL. *)
Lemma number_text_range num base size precision type : 2 <= base <= 16 ->
  Forall (fun x => 0 < x < 0x100) (number_text num base size precision type).
Proof.
  intros Hb. assert (forall n c, 0 < c < 0x100 -> Forall (fun x => 0 < x < 0x100) (replicate n c)) as Hr
    by (intros n c Hc; now apply Forall_replicate).
  assert (Forall (fun x => 0 < x < 0x100) (sign_text num type ++ prefix_text base type)) as Hpre.
  { apply Forall_app. split.
    - unfold sign_text. repeat case_match; apply (bool_decide_unpack _); exact I.
    - unfold prefix_text. destruct (locase_cases type) as [-> | ->]; repeat case_match; apply (bool_decide_unpack _); exact I. }
  assert (Forall (fun x => 0 < x < 0x100) (digit_text base type (magnitude num type))) as Hd.
  { unfold digit_text. apply Forall_rev, Forall_map. eapply Forall_impl; [apply base_le_range; lia|].
    intros d Hd. cbv beta in Hd. apply digit_char_range. lia. }
  unfold number_text. cbv zeta. set (pre := sign_text num type ++ prefix_text base type) in *. clearbody pre.
  set (ds := digit_text _ _ _) in *. clearbody ds.
  destruct (has type LEFT); [|destruct (has type ZEROPAD)]; rewrite !Forall_app; split_and!; try assumption; apply Hr; lia.
Qed.
