(* ===== verification/PrintfProps.v ===== *)
(** * What vsprintf prints

    A format is a list of pieces: characters that are copied and conversions
    with their flags, width, precision and qualifier.  [render] is what the
    pieces print, given the argument words and the strings that are in memory;
    the theorems say that [vsprintf] writes this on the text of the pieces. *)

From S2P Require Import Prelude Memory Util Ports Screen Printf PrintfNumber.

Inductive flag := FMinus | FPlus | FSpace | FSharp | FZero.

Inductive amount := Absent | Number (n : Z) | Star.

Inductive qualifier := NoQual | Qh | Ql | QL.

Inductive conv := Cd | Ci | Cu | Cx | CX | Co | Cp | Cc | Cs | Cpercent.

Inductive piece :=
| Lit (c : Z)
| Dir (fl : list flag) (w p : amount) (q : qualifier) (c : conv).

(** ** The text of a format *)

Definition flag_text (f : flag) : Z :=
  match f with FMinus => 45 | FPlus => 43 | FSpace => 32 | FSharp => 35 | FZero => 48 end.

Definition dec_text (n : Z) : list Z := rev (dec_le 8 n).

Definition width_text (w : amount) : list Z :=
  match w with Absent => [] | Number n => dec_text n | Star => [42] end.

Definition prec_text (p : amount) : list Z :=
  match p with Absent => [] | Number n => 46 :: dec_text n | Star => [46; 42] end.

Definition qual_text (q : qualifier) : list Z :=
  match q with NoQual => [] | Qh => [104] | Ql => [108] | QL => [76] end.

Definition conv_letter (c : conv) : Z :=
  match c with
  | Cd => 100 | Ci => 105 | Cu => 117 | Cx => 120 | CX => 88 | Co => 111
  | Cp => 112 | Cc => 99 | Cs => 115 | Cpercent => 37
  end.

Definition piece_format (p : piece) : list Z :=
  match p with
  | Lit c => [c]
  | Dir fl w p q c => 37 :: map flag_text fl ++ width_text w ++ prec_text p ++ qual_text q ++ [conv_letter c]
  end.

Definition format_text (ps : list piece) : list Z := concat (map piece_format ps).

(** ** What a format prints *)

#[export] Instance moderate_dec w : Decision (moderate w).
Proof. unfold moderate. apply _. Defined.

Definition flag_value (f : flag) : Z :=
  match f with FMinus => LEFT | FPlus => PLUS | FSpace => SPACE | FSharp => SPECIAL | FZero => ZEROPAD end.

Definition flags_value (fl : list flag) : Z := fold_left (fun a f => Z.lor a (flag_value f)) fl 0.

(** A negative width argument is a width with the flag [-]. *)
Definition width_value (w : amount) (flags : Z) (args : list Z) : option (Z * Z * list Z) :=
  match w, args with
  | Absent, _ => Some (-1, flags, args)
  | Number n, _ => Some (n, flags, args)
  | Star, [] => None
  | Star, a :: args =>
      if decide (moderate (i32 a)) then
        if i32 a <? 0 then Some (- i32 a, Z.lor flags LEFT, args) else Some (i32 a, flags, args)
      else None
  end.

Definition prec_value (p : amount) (args : list Z) : option (Z * list Z) :=
  match p, args with
  | Absent, _ => Some (-1, args)
  | Number n, _ => Some (n, args)
  | Star, [] => None
  | Star, a :: args => if decide (moderate (i32 a)) then Some (Z.max 0 (i32 a), args) else None
  end.

(** The integer a conversion prints, of the argument word [a]. *)
Definition int_value (q : qualifier) (signed : bool) (a : Z) : Z :=
  match q with Qh => if signed then i16 a else u16 a | _ => i32 a end.

(** A text in a field of at least [w] characters. *)
Definition field (left : bool) (w : Z) (l : list Z) : list Z :=
  let room := replicate (Z.to_nat (w - Z.of_nat (length l))) 32 in
  if left then l ++ room else room ++ l.

(** The precision of [%s] is the maximal number of characters.  A string that it
    would cut has no denotation here: the code prints it in full
    ([precision_does_not_cut] below). *)
Definition conv_text (strs : Z -> option (list Z)) (c : conv) (flags w p : Z) (q : qualifier) (args : list Z)
    : option (list Z * list Z) :=
  match c, args with
  | Cpercent, _ => Some ([37], args)
  | _, [] => None
  | Cc, a :: args => Some (field (has flags LEFT) w [u8 a], args)
  | Cs, a :: args =>
      l ← strs (u32 a);
      if (p <? 0) || (Z.of_nat (length l) <=? p) then Some (field (has flags LEFT) w l, args) else None
  | Cp, a :: args =>
      Some (if w =? -1 then number_text (i32 a) 16 8 p (Z.lor flags ZEROPAD) else number_text (i32 a) 16 w p flags, args)
  | Co, a :: args => Some (number_text (int_value q false a) 8 w p flags, args)
  | Cx, a :: args => Some (number_text (int_value q false a) 16 w p (Z.lor flags SMALL), args)
  | CX, a :: args => Some (number_text (int_value q false a) 16 w p flags, args)
  | Cu, a :: args => Some (number_text (int_value q false a) 10 w p flags, args)
  | (Cd | Ci), a :: args => Some (number_text (int_value q true a) 10 w p (Z.lor flags SIGN), args)
  end.

Definition piece_text (strs : Z -> option (list Z)) (p : piece) (args : list Z) : option (list Z * list Z) :=
  match p with
  | Lit c => Some ([c], args)
  | Dir fl w p q c =>
      r ← width_value w (flags_value fl) args;
      let '(w, flags, args) := r in
      r ← prec_value p args;
      let '(p, args) := r in
      conv_text strs c flags w p q args
  end.

Fixpoint render (strs : Z -> option (list Z)) (ps : list piece) (args : list Z) : option (list Z) :=
  match ps with
  | [] => Some []
  | p :: ps =>
      r ← piece_text strs p args;
      out ← render strs ps r.2;
      Some (r.1 ++ out)
  end.

Definition amount_ok (lo : Z) (a : amount) : Prop :=
  match a with Number n => lo <= n < 0x1000000 | _ => True end.

Definition piece_ok (p : piece) : Prop :=
  match p with
  | Lit c => 0 < c < 0x100 /\ c <> 37
  | Dir fl w p q c => amount_ok 1 w /\ amount_ok 0 p
  end.

(** ** Reading a format *)

Lemma load_char_at m a x l : bytes_at m a (x :: l) -> 0 <= x < 0x80 -> load_char m a = x.
Proof. intros H Hx. apply bytes_at_cons in H as [H _]. unfold load_char. rewrite H. apply i8_small. lia. Qed.

Lemma flag_text_of f : flag_of (flag_text f) = Some (flag_value f) /\ 0 <= flag_text f < 0x80.
Proof. destruct f; split; (reflexivity || (simpl; lia)). Qed.

Lemma parse_flags_spec fl : forall fuel m fmt flags c tl,
  bytes_at m (fmt + 1) (map flag_text fl ++ c :: tl) -> 0 <= c < 0x80 -> flag_of c = None -> (length fl <= fuel)%nat ->
  parse_flags fuel m fmt flags = Ok (fmt + 1 + Z.of_nat (length fl), fold_left (fun a f => Z.lor a (flag_value f)) fl flags).
Proof.
  induction fl as [|f fl IH]; intros fuel m fmt flags c tl Hb Hc Hn Hf; cbn [map app length] in *.
  - destruct fuel; cbn [parse_flags]; rewrite (load_char_at _ _ _ _ Hb Hc), Hn, Z.add_0_r; reflexivity.
  - destruct (flag_text_of f) as [Ef Hr]. destruct fuel as [|fuel]; [lia|].
    cbn [parse_flags]. rewrite (load_char_at _ _ _ _ Hb Hr), Ef. apply bytes_at_cons in Hb as [_ Hb].
    rewrite (IH fuel m (fmt + 1) _ c tl Hb Hc Hn) by lia. cbn [fold_left]. do 2 f_equal. lia.
Qed.

Lemma isdigit_of d : is_digit d -> (isdigit d =? 0) = false.
Proof. unfold is_digit, isdigit. intros Hd. replace ((48 <=? d) && (d <=? 57)) with true by lia. reflexivity. Qed.

(** The loop of [skip_atoi] over the digits [rev l]. *)
Lemma skip_atoi_loop l : forall fuel m s rest,
  bytes_at m s (rev l ++ rest) -> Forall is_digit l -> dec_val l < 0x1000000 -> (length l <= fuel)%nat ->
  skip_atoi fuel m s =
  while (fuel - length l) (fun '(_, s) => negb (isdigit (load_char m s) =? 0))
    (fun '(i, s) => Ok (i32 (i * 10 + load_char m s - 48), s + 1)) (dec_val l, s + Z.of_nat (length l)) /\ 0 <= dec_val l.
Proof.
  induction l as [|d l IH]; intros fuel m s rest Hb Hd Hv Hf; cbn [length dec_val rev app] in *.
  - rewrite Nat.sub_0_r, Z.add_0_r. split; [reflexivity | lia].
  - apply Forall_cons in Hd as [Hd Hl]. rewrite <- app_assoc in Hb. pose proof Hd as Hr. unfold is_digit in Hr.
    destruct (IH fuel m s ([d] ++ rest) Hb Hl ltac:(lia) ltac:(lia)) as [E Hp]. rewrite E. split; [|lia].
    apply bytes_at_app in Hb as [_ Hb]. rewrite length_rev in Hb. cbn [app] in Hb.
    replace (fuel - length l)%nat with (S (fuel - S (length l))) by lia.
    erewrite while_step; [| cbv iota beta; rewrite (load_char_at _ _ _ _ Hb), isdigit_of by (assumption || lia); reflexivity |
      cbv iota beta; rewrite (load_char_at _ _ _ _ Hb) by lia; reflexivity].
    rewrite i32_small by lia. do 2 f_equal; lia.
Qed.

Lemma dec_text_spec n : 0 <= n < 0x1000000 ->
  dec_val (dec_le 8 n) = n /\ Forall is_digit (dec_le 8 n) /\ length (dec_text n) = length (dec_le 8 n).
Proof.
  intros Hn. split_and!; [apply dec_le_val; change (10 ^ Z.of_nat 8) with 100000000; lia | apply dec_le_digits; lia |].
  apply length_rev.
Qed.

Lemma skip_atoi_spec n fuel m s c tl : 0 <= n < 0x1000000 ->
  bytes_at m s (dec_text n ++ c :: tl) -> 0 <= c < 0x80 -> isdigit c = 0 -> (length (dec_text n) <= fuel)%nat ->
  skip_atoi fuel m s = Ok (n, s + Z.of_nat (length (dec_text n))).
Proof.
  intros Hn Hb Hc Hnd Hf. destruct (dec_text_spec n Hn) as (Hv & Hd & Hlen). rewrite Hlen in *.
  destruct (skip_atoi_loop (dec_le 8 n) fuel m s (c :: tl) Hb Hd ltac:(lia) Hf) as [-> _]. rewrite Hv.
  apply while_done. apply bytes_at_app in Hb as [_ Hb]. unfold dec_text in Hb. rewrite length_rev in Hb.
  now rewrite (load_char_at _ _ _ _ Hb Hc), Hnd.
Qed.

Lemma dec_text_head n : 0 < n < 0x1000000 -> exists d l, dec_text n = d :: l /\ 49 <= d <= 57.
Proof.
  intros Hn. destruct (dec_le_last 8 n) as (l & d & E & Hd); [change (10 ^ Z.of_nat 8) with 100000000; lia|].
  exists d, (rev l). split; [|exact Hd]. unfold dec_text. now rewrite E, rev_app_distr.
Qed.

(** The text behind the width starts with a character that is none of a
    flag, a digit and a star. *)
Lemma behind_width p q c : exists x tl, prec_text p ++ qual_text q ++ [conv_letter c] = x :: tl /\
  0 <= x < 0x80 /\ isdigit x = 0 /\ x <> 42 /\ flag_of x = None.
Proof. destruct p, q, c; (eexists _, _; split; [reflexivity | split; [simpl; lia | split; [reflexivity | split; [simpl; lia | reflexivity]]]]). Qed.

Lemma behind_prec q c : exists x tl, qual_text q ++ [conv_letter c] = x :: tl /\
  0 <= x < 0x80 /\ isdigit x = 0 /\ x <> 42 /\ x <> 46.
Proof. destruct q, c; (eexists _, _; split; [reflexivity | split; [simpl; lia | split; [reflexivity | split; simpl; lia]]]). Qed.

Lemma behind_flags w p q c : amount_ok 1 w -> exists x tl,
  width_text w ++ prec_text p ++ qual_text q ++ [conv_letter c] = x :: tl /\ 0 <= x < 0x80 /\ flag_of x = None.
Proof.
  intros Hw. destruct (behind_width p q c) as (x & tl & E & Hx & _ & _ & Hf). rewrite E. destruct w as [|n|].
  - exists x, tl. auto.
  - destruct (dec_text_head n) as (d & l & Ed & Hd); [simpl in Hw; lia|]. cbn [width_text]. rewrite Ed.
    eexists _, _. split; [reflexivity|]. split; [lia|]. unfold flag_of. cases_lia.
  - eexists _, _. split; [reflexivity|]. split; [lia | reflexivity].
Qed.

Lemma digit_head n m s c tl : 0 <= n < 0x1000000 -> bytes_at m s (dec_text n ++ c :: tl) ->
  (isdigit (load_char m s) =? 0) = false.
Proof.
  intros Hn Hb. destruct (dec_text_spec n Hn) as (_ & Hd & _).
  assert (Forall is_digit (dec_text n)) as Hd' by (now apply Forall_rev).
  assert (dec_text n <> []) as Hne by (unfold dec_text; cbn [dec_le rev]; intros E; now apply app_eq_nil in E as [_ E]).
  destruct (dec_text n) as [|d l]; [congruence|]. apply Forall_cons in Hd' as [Hd' _].
  pose proof Hd' as Hr. unfold is_digit in Hr. cbn [app] in Hb.
  rewrite (load_char_at _ _ _ _ Hb) by lia. now apply isdigit_of.
Qed.

Lemma parse_width_spec fuel m fmt w flags args w' flags' args' c tl :
  amount_ok 1 w -> width_value w flags args = Some (w', flags', args') ->
  bytes_at m fmt (width_text w ++ c :: tl) -> 0 <= c < 0x80 -> isdigit c = 0 -> c <> 42 -> (length (width_text w) <= fuel)%nat ->
  parse_width fuel m fmt flags args = Ok (w', fmt + Z.of_nat (length (width_text w)), flags', args').
Proof.
  intros Hw Hv Hb Hc Hd Hs Hf. unfold parse_width. destruct w as [|n|]; cbn [width_text app length] in *.
  - injection Hv as <- <- <-. rewrite (load_char_at _ _ _ _ Hb Hc), Hd. cbn [Z.eqb negb].
    replace (c =? 42) with false by lia. now rewrite Z.add_0_r.
  - injection Hv as <- <- <-. simpl in Hw. rewrite (digit_head n m fmt c tl) by (assumption || lia). cbn [negb].
    rewrite (skip_atoi_spec n fuel m fmt c tl) by (assumption || lia). reflexivity.
  - rewrite (load_char_at _ _ _ _ Hb) by lia. change (isdigit 42) with 0. cbn [Z.eqb negb Pos.eqb].
    destruct args as [|a args]; [discriminate|]. simpl in Hv. case_decide as Hm; [|discriminate].
    cbn [va_arg mbind outcome_bind fst snd]. replace (i32 (u32 a)) with (i32 a) by zlia.
    unfold moderate in Hm. destruct (i32 a <? 0) eqn:E; injection Hv as <- <- <-; [|reflexivity].
    rewrite (i32_small (- i32 a)) by lia. reflexivity.
Qed.

Lemma parse_precision_spec fuel m fmt p args p' args' c tl :
  amount_ok 0 p -> prec_value p args = Some (p', args') ->
  bytes_at m fmt (prec_text p ++ c :: tl) -> 0 <= c < 0x80 -> isdigit c = 0 -> c <> 46 -> (length (prec_text p) <= fuel)%nat ->
  parse_precision fuel m fmt args = Ok (p', fmt + Z.of_nat (length (prec_text p)), args').
Proof.
  intros Hp Hv Hb Hc Hd Hs Hf. unfold parse_precision. destruct p as [|n|]; cbn [prec_text app length] in *.
  - injection Hv as <- <-. rewrite (load_char_at _ _ _ _ Hb Hc). replace (c =? 46) with false by lia. now rewrite Z.add_0_r.
  - injection Hv as <- <-. simpl in Hp. rewrite (load_char_at _ _ _ _ Hb) by lia. cbn [Z.eqb Pos.eqb].
    apply bytes_at_cons in Hb as [_ Hb]. rewrite (digit_head n m (fmt + 1) c tl) by (assumption || lia). cbn [negb].
    rewrite (skip_atoi_spec n fuel m (fmt + 1) c tl) by (assumption || lia). rewrite !bind_ok. cbn [fst snd].
    replace (n <? 0) with false by lia. do 3 f_equal. lia.
  - rewrite (load_char_at _ _ _ _ Hb) by lia. cbn [Z.eqb Pos.eqb]. apply bytes_at_cons in Hb as [_ Hb].
    rewrite (load_char_at _ _ _ _ Hb) by lia. change (isdigit 42) with 0. cbn [Z.eqb negb Pos.eqb].
    destruct args as [|a args]; [discriminate|]. simpl in Hv. case_decide; [|discriminate]. injection Hv as <- <-.
    cbn [va_arg mbind outcome_bind fst snd]. replace (i32 (u32 a)) with (i32 a) by zlia.
    do 3 f_equal; [destruct (i32 a <? 0) eqn:E; lia | lia].
Qed.

(** The value of a qualifier in [vsprintf]. *)
Definition qual_value (q : qualifier) : Z := match q with NoQual => -1 | Qh => 104 | Ql => 108 | QL => 76 end.

Lemma parse_qualifier_spec m fmt q c : bytes_at m fmt (qual_text q ++ [conv_letter c]) ->
  parse_qualifier m fmt = (qual_value q, fmt + Z.of_nat (length (qual_text q))).
Proof.
  intros Hb. unfold parse_qualifier. destruct q; cbn [qual_text app length] in *;
    try (rewrite (load_char_at _ _ _ _ Hb) by lia; reflexivity).
  rewrite (load_char_at _ _ _ _ Hb) by (destruct c; simpl; lia). rewrite Z.add_0_r. destruct c; reflexivity.
Qed.

(** ** The conversions *)

Definition apart (a n b k : Z) : Prop := a + n <= b \/ b + k <= a.

(** The strings [strs] are in memory, clear of the [n] bytes at [lo], and
    [fuel] is enough for each of them. *)
Definition strings_ok (strs : Z -> option (list Z)) (fuel : nat) (m : mem) (lo n : Z) : Prop :=
  forall a l, strs a = Some l ->
    cstring m a l /\ (length l <= fuel)%nat /\ apart a (Z.of_nat (length l) + 1) lo n.

Lemma fill_pre_spec (m : mem) str w : - 0x2000000 <= w < 0x2000000 ->
  fill_pre m str w = Ok (store_bytes m str (replicate (Z.to_nat (w - 1)) 32), str + Z.of_nat (Z.to_nat (w - 1)), Z.min 0 (w - 1)).
Proof.
  intros Hw. unfold fill_pre. rewrite (i32_small (w - 1)) by lia.
  rewrite (fill_loop (Z.to_nat (w - 1))) by lia. do 2 f_equal. lia.
Qed.

Lemma conv_char_spec m str flags w a args : moderate w ->
  let out := field (has flags LEFT) w [u8 a] in
  conv_char m str flags w (a :: args) = Ok (store_bytes m str out, str + Z.of_nat (length out), args).
Proof.
  intros Hw. cbv zeta. unfold conv_char, field. unfold moderate in Hw.
  change (Z.of_nat (length [u8 a])) with 1. cbn [va_arg].
  assert (u8 (u32 a) = u8 a) as Hu by zlia.
  destruct (has flags LEFT); cbn [negb]; rewrite ?fill_pre_spec, ?bind_ok by lia; cbn [fst snd]; rewrite ?Hu.
  - rewrite fill_pre_spec, bind_ok by lia. cbn [fst snd app store_bytes length]. rewrite length_replicate.
    do 2 f_equal. f_equal. lia.
  - rewrite fill_pre_spec by lia. rewrite ?bind_ok. cbn [fst snd].
    replace (Z.to_nat (Z.min 0 (w - 1) - 1)) with 0%nat by lia. cbn [replicate store_bytes].
    rewrite store_bytes_app, length_replicate, length_app, length_replicate. cbn [store_bytes length].
    do 2 f_equal. f_equal. lia.
Qed.

(** Copying a string into a place clear of it. *)
Lemma copy_loop l : forall m s str i, 0 <= i ->
  bytes_at m (s + i) l -> apart (s + i) (Z.of_nat (length l)) (str + i) (Z.of_nat (length l)) ->
  for_up (length l) (fun i m => store8 m (str + i) (load_char m (s + i))) i m = store_bytes m (str + i) l.
Proof.
  unfold apart. induction l as [|x l IH]; intros m s str i Hi Hb Ha; [reflexivity|].
  apply bytes_at_cons in Hb as [Hx Hb]. cbn [length for_up store_bytes] in *. rewrite store8_load_char, Hx.
  rewrite <- !Z.add_assoc in *. rewrite IH; [reflexivity | lia | | lia].
  eapply same_but_bytes_at; [apply (same_but_store8 (str + i) 1); lia | lia | exact Hb].
Qed.

Lemma conv_string_spec strs fuel m str flags w p a args l n : moderate w ->
  strs (u32 a) = Some l -> strings_ok strs fuel m str n ->
  let out := field (has flags LEFT) w l in
  Z.of_nat (length out) <= n ->
  conv_string fuel m str flags w p (a :: args) = Ok (store_bytes m str out, str + Z.of_nat (length out), args).
Proof.
  intros Hw Hl Hok. cbv zeta. intros Hn. destruct (Hok _ _ Hl) as (Hs & Hf & Ha). unfold moderate, apart in *.
  unfold conv_string, field in *. cbn [va_arg]. rewrite bind_ok. cbv zeta. cbn [fst].
  change (strnlen fuel m (u32 a) p) with (strlen fuel m (u32 a)). rewrite (strlen_spec _ _ _ l Hs Hf), bind_ok.
  set (room := Z.to_nat (w - Z.of_nat (length l))) in *.
  destruct (has flags LEFT); cbn [negb]; rewrite ?fill_spec, ?bind_ok; cbv iota beta; fold room; rewrite length_app, length_replicate in Hn.
  - rewrite Nat2Z.id. rewrite <- (Z.add_0_r str) at 1.
    assert (for_up (length l) (fun i m => store8 m (str + i) (load_char m (u32 a + i))) 0 m = store_bytes m str l) as ->.
    { rewrite (copy_loop l m (u32 a) str 0), Z.add_0_r; [reflexivity | lia | | unfold apart; lia].
      rewrite Z.add_0_r. now destruct Hs as [[Hb _]%bytes_at_app _]. }
    rewrite fill_spec, bind_ok. fold room. cbn [fst snd]. rewrite store_bytes_app, length_app, length_replicate, Z.add_0_r.
    do 2 f_equal. f_equal. lia.
  - rewrite Nat2Z.id.
    assert (for_up (length l) (fun i m => store8 m (str + Z.of_nat room + i) (load_char m (u32 a + i))) 0
      (store_bytes m str (replicate room 32)) = store_bytes (store_bytes m str (replicate room 32)) (str + Z.of_nat room) l) as ->.
    { rewrite (copy_loop l _ (u32 a) (str + Z.of_nat room) 0), Z.add_0_r; [reflexivity | lia | | unfold apart; lia].
      rewrite Z.add_0_r. destruct Hs as [[Hb _]%bytes_at_app _].
      eapply same_but_bytes_at; [apply (same_but_store_bytes str (Z.of_nat room)); rewrite ?length_replicate; lia | lia | exact Hb]. }
    rewrite fill_spec, bind_ok. cbn [fst snd]. rewrite (i32_small (_ - 1)) by lia.
    replace (Z.to_nat (_ - 1 - Z.of_nat (length l))) with 0%nat by lia. cbn [replicate store_bytes].
    rewrite store_bytes_app, length_app, length_replicate. do 2 f_equal. f_equal. lia.
Qed.

Lemma int_arg_spec q flags a args :
  exists num, int_arg (qual_value q) flags (a :: args) = Ok (num, args) /\ i32 num = int_value q (has flags SIGN) a.
Proof.
  unfold int_arg. cbn [va_arg]. rewrite bind_ok. destruct q, (has flags SIGN); cbn [qual_value Z.eqb Pos.eqb];
    (eexists; split; [reflexivity|]; unfold int_value; zlia).
Qed.

Lemma int_value_range q s a : - 0x80000000 <= int_value q s a < 0x80000000.
Proof. unfold int_value. destruct q, s; zlia. Qed.

Lemma conv_int_spec m str base flags w p q a args : 2 <= base <= 16 -> moderate w -> moderate p ->
  let out := number_text (int_value q (has flags SIGN) a) base w p flags in
  conv_int m str base flags w p (qual_value q) (a :: args) = Ok (store_bytes m str out, str + Z.of_nat (length out), args).
Proof.
  intros Hb Hw Hp. cbv zeta. unfold conv_int. destruct (int_arg_spec q flags a args) as (num & -> & E).
  rewrite bind_ok. cbn [fst snd]. rewrite E, number_spec by (assumption || apply int_value_range). reflexivity.
Qed.

Lemma conv_pointer_spec m str flags w p a args : moderate w -> moderate p ->
  let out := if w =? -1 then number_text (i32 a) 16 8 p (Z.lor flags ZEROPAD) else number_text (i32 a) 16 w p flags in
  conv_pointer m str flags w p (a :: args) = Ok (store_bytes m str out, str + Z.of_nat (length out), args).
Proof.
  intros Hw Hp. cbv zeta. unfold conv_pointer. cbn [va_arg].
  destruct (w =? -1); cbv iota beta; rewrite bind_ok; cbn [fst snd];
    replace (i32 (u32 a)) with (i32 a) by zlia; rewrite number_spec; try reflexivity; try assumption;
    try (unfold moderate; lia); apply i32_range.
Qed.

Lemma has_lor a b flag : 0 <= flag -> has (Z.lor a b) (2 ^ flag) = has a (2 ^ flag) || has b (2 ^ flag).
Proof. intros Hf. rewrite !has_bit, Z.lor_spec by lia. reflexivity. Qed.

Lemma convert_spec strs fuel m buf str fmt flags w p q c args out args' n :
  load_char m fmt = conv_letter c -> has flags SIGN = false -> moderate w -> moderate p ->
  strings_ok strs fuel m str n -> conv_text strs c flags w p q args = Some (out, args') -> Z.of_nat (length out) <= n ->
  convert fuel m buf str fmt flags w p (qual_value q) args = Ok (store_bytes m str out, str + Z.of_nat (length out), args', fmt).
Proof.
  intros Hc Hs Hw Hp Hok Ht Hn. unfold convert. rewrite Hc.
  assert (forall b, has (Z.lor flags b) SIGN = has b SIGN) as Hl.
  { intros b. change SIGN with (2 ^ 1). rewrite has_lor by lia. change (2 ^ 1) with SIGN. now rewrite Hs. }
  destruct c, args as [|a args]; simpl conv_text in Ht; try discriminate; cbn [conv_letter Z.eqb Pos.eqb orb negb];
    try (injection Ht as <- <-; rewrite conv_int_spec, bind_ok by (assumption || lia); rewrite ?Hl, ?Hs; reflexivity).
  - injection Ht as <- <-. now rewrite conv_pointer_spec, bind_ok.
  - injection Ht as <- <-. now rewrite conv_char_spec, bind_ok.
  - destruct (strs (u32 a)) as [l|] eqn:El; [|discriminate]. cbn [mbind option_bind] in Ht.
    destruct (_ || _); [|discriminate Ht]. injection Ht as <- <-.
    now rewrite (conv_string_spec strs fuel m str flags w p a args l n), bind_ok.
  - now injection Ht as <- <-.
  - now injection Ht as <- <-.
Qed.

(** ** vsprintf *)

Lemma flags_value_sign fl : has (flags_value fl) SIGN = false.
Proof.
  unfold flags_value. assert (forall a, has a SIGN = false -> has (fold_left (fun a f => Z.lor a (flag_value f)) fl a) SIGN = false) as H;
    [|now apply H].
  induction fl as [|f fl IH]; intros a Ha; [exact Ha|]. apply IH. change SIGN with (2 ^ 1) in *. rewrite has_lor, Ha by lia.
  destruct f; reflexivity.
Qed.

Lemma width_value_ok w fl args w' flags' args' : amount_ok 1 w ->
  width_value w (flags_value fl) args = Some (w', flags', args') -> moderate w' /\ has flags' SIGN = false.
Proof.
  intros Hw Hv. pose proof (flags_value_sign fl) as Hs. unfold moderate.
  destruct w as [|n|]; [| |destruct args as [|a args]; [discriminate|]]; simpl in Hv.
  - injection Hv as <- <- <-. split; [lia | exact Hs].
  - injection Hv as <- <- <-. simpl in Hw. split; [lia | exact Hs].
  - case_decide as Hm; [|discriminate]. unfold moderate in Hm.
    destruct (i32 a <? 0) eqn:E; injection Hv as <- <- <-; [|split; [lia | exact Hs]].
    split; [lia|]. change SIGN with (2 ^ 1). rewrite has_lor by lia. change (2 ^ 1) with SIGN. now rewrite Hs.
Qed.

Lemma prec_value_ok p args p' args' : amount_ok 0 p -> prec_value p args = Some (p', args') -> moderate p'.
Proof.
  intros Hp Hv. unfold moderate. destruct p as [|n|]; [| |destruct args as [|a args]; [discriminate|]]; simpl in Hv.
  - injection Hv as <- <-. lia.
  - injection Hv as <- <-. simpl in Hp. lia.
  - case_decide as Hm; [|discriminate]. unfold moderate in Hm. injection Hv as <- <-. lia.
Qed.

(** The last character of a conversion's text. *)
Definition piece_end (p : piece) : Z := Z.of_nat (length (piece_format p)) - 1.

Lemma directive_spec strs fuel m buf str at_ fl w p q c args out args' n :
  piece_ok (Dir fl w p q c) -> bytes_at m at_ (piece_format (Dir fl w p q c)) ->
  (length (piece_format (Dir fl w p q c)) <= fuel)%nat -> strings_ok strs fuel m str n ->
  piece_text strs (Dir fl w p q c) args = Some (out, args') -> Z.of_nat (length out) <= n ->
  directive fuel m buf str at_ args =
  Ok (store_bytes m str out, str + Z.of_nat (length out), args', at_ + piece_end (Dir fl w p q c)).
Proof.
  intros [Hw Hp] Hb Hf Hok Ht Hn. unfold piece_end. cbn [piece_format piece_text length] in *.
  destruct (width_value w (flags_value fl) args) as [[[w' flags'] args1]|] eqn:Ew; [|discriminate]. simpl in Ht.
  destruct (prec_value p args1) as [[p' args2]|] eqn:Ep; [|discriminate]. simpl in Ht.
  destruct (width_value_ok w fl args w' flags' args1 Hw Ew) as [Hmw Hsg].
  pose proof (prec_value_ok p args1 p' args2 Hp Ep) as Hmp.
  rewrite !length_app, length_map in *. cbn [length] in *.
  unfold directive. apply bytes_at_cons in Hb as [_ Hb].
  destruct (behind_flags w p q c Hw) as (x & tl & E1 & Hx & Hxf). pose proof Hb as Hb1. rewrite E1 in Hb1.
  rewrite (parse_flags_spec fl fuel m at_ 0 x tl Hb1 Hx Hxf) by lia. rewrite bind_ok. fold (flags_value fl).
  apply bytes_at_app in Hb as [_ Hb]. rewrite length_map in Hb. set (fmt1 := at_ + 1 + Z.of_nat (length fl)) in *.
  destruct (behind_width p q c) as (y & tl2 & E2 & Hy & Hyd & Hys & _). pose proof Hb as Hb2. rewrite E2 in Hb2.
  rewrite (parse_width_spec fuel m fmt1 w _ args w' flags' args1 y tl2 Hw Ew Hb2 Hy Hyd Hys) by lia. rewrite bind_ok. cbv iota beta.
  apply bytes_at_app in Hb as [_ Hb]. set (fmt2 := fmt1 + Z.of_nat (length (width_text w))) in *.
  destruct (behind_prec q c) as (z & tl3 & E3 & Hz & Hzd & _ & Hzs). pose proof Hb as Hb3. rewrite E3 in Hb3.
  rewrite (parse_precision_spec fuel m fmt2 p args1 p' args2 z tl3 Hp Ep Hb3 Hz Hzd Hzs) by lia. rewrite bind_ok. cbv iota beta.
  apply bytes_at_app in Hb as [_ Hb]. set (fmt3 := fmt2 + Z.of_nat (length (prec_text p))) in *.
  rewrite (parse_qualifier_spec m fmt3 q c Hb).
  apply bytes_at_app in Hb as [_ Hb].
  rewrite (convert_spec strs fuel m buf str _ flags' w' p' q c args2 out args' n); try assumption.
  - do 2 f_equal. subst fmt3 fmt2 fmt1. lia.
  - apply (load_char_at _ _ _ _ Hb). destruct c; simpl; lia.
Qed.

Lemma strings_ok_frame strs fuel m str l n :
  strings_ok strs fuel m str n -> Z.of_nat (length l) <= n ->
  strings_ok strs fuel (store_bytes m str l) (str + Z.of_nat (length l)) (n - Z.of_nat (length l)).
Proof.
  intros H Hn a s Hs. destruct (H a s Hs) as (Hc & Hf & Ha). unfold apart in *. split_and!; [|exact Hf | lia].
  eapply cstring_frame; [apply (same_but_store_bytes str (Z.of_nat (length l))); lia | lia | exact Hc].
Qed.

Lemma piece_format_length p : (1 <= length (piece_format p))%nat.
Proof. destruct p; cbn [piece_format length]; lia. Qed.

Lemma vsprintf_from_spec strs fuel buf ps : forall k m str fmt args out n,
  Forall piece_ok ps -> bytes_at m fmt (format_text ps ++ [0]) -> (length (format_text ps) <= fuel)%nat ->
  (length ps <= k)%nat -> apart fmt (Z.of_nat (length (format_text ps)) + 1) str n -> strings_ok strs fuel m str n ->
  render strs ps args = Some out -> Z.of_nat (length out) <= n ->
  vsprintf_from k fuel m buf str fmt args = Ok (store_bytes m str out, str + Z.of_nat (length out)).
Proof.
  unfold apart. induction ps as [|p ps IH]; intros k m str fmt args out n Hp Hb Hf Hk Ha Hok Hr Hn.
  - injection Hr as <-. destruct k; cbn [vsprintf_from]; rewrite (load_char_at _ _ _ _ Hb) by lia;
      cbn [length store_bytes Z.eqb]; now rewrite Z.add_0_r.
  - apply Forall_cons in Hp as [Hp Hps]. destruct k as [|k]; [cbn [length] in Hk; lia|].
    change (format_text (p :: ps)) with (piece_format p ++ format_text ps) in *. rewrite length_app in *.
    rewrite <- app_assoc in Hb. pose proof (piece_format_length p) as Hl1.
    cbn [render] in Hr. destruct (piece_text strs p args) as [[o args']|] eqn:Ep; [|discriminate]. simpl in Hr.
    destruct (render strs ps args') as [out'|] eqn:Er; [|discriminate]. injection Hr as <-. rewrite length_app in *.
    apply bytes_at_app in Hb as [Hb1 Hb].
    assert (vsprintf_from (S k) fuel m buf str fmt args =
      vsprintf_from k fuel (store_bytes m str o) buf (str + Z.of_nat (length o)) (fmt + piece_end p + 1) args') as ->.
    { cbn [vsprintf_from]. destruct p as [c|fl w p q c].
      - injection Ep as <- <-. cbn [piece_ok piece_format] in *. apply bytes_at_cons in Hb1 as [Hc _].
        rewrite load_char_zero, Hc, store8_load_char, Hc. replace (c =? 0) with false by lia.
        unfold load_char. rewrite Hc. change 37 with (i8 37) at 1. rewrite i8_eqb by lia. replace (c =? 37) with false by lia.
        cbn [negb]. rewrite bind_ok. cbv iota beta. unfold piece_end. cbn [piece_format length store_bytes].
        do 2 f_equal. lia.
      - rewrite (load_char_at _ _ _ _ Hb1) by lia. cbn [Z.eqb Pos.eqb negb].
        rewrite (directive_spec strs fuel m buf str fmt fl w p q c args o args' n); [reflexivity | exact Hp | exact Hb1 | lia | exact Hok | exact Ep | lia]. }
    replace (fmt + piece_end p + 1) with (fmt + Z.of_nat (length (piece_format p))) by (unfold piece_end; lia).
    rewrite (IH k _ _ _ args' out' (n - Z.of_nat (length o))); try assumption; try lia.
    + rewrite store_bytes_app. do 2 f_equal. lia.
    + eapply same_but_bytes_at; [apply (same_but_store_bytes str (Z.of_nat (length o))); lia | rewrite length_app; cbn [length]; lia | exact Hb].
    + cbn [length] in Hk. lia.
    + apply strings_ok_frame; [exact Hok | lia].
Qed.

(** [vsprintf] on the text of a list of pieces. *)
Lemma vsprintf_spec (strs : Z -> option (list Z)) (fuel : nat) (m : mem) (buf fmt : Z) (ps : list piece)
    (args out : list Z) :
  Forall piece_ok ps -> cstring m fmt (format_text ps) -> (length (format_text ps) <= fuel)%nat ->
  render strs ps args = Some out -> Z.of_nat (length out) < 0x80000000 ->
  strings_ok strs fuel m buf (Z.of_nat (length out) + 1) ->
  apart fmt (Z.of_nat (length (format_text ps)) + 1) buf (Z.of_nat (length out) + 1) ->
  vsprintf fuel m buf fmt args = Ok (store_bytes m buf (out ++ [0]), Z.of_nat (length out)).
Proof.
  intros Hp [Hb _] Hf Hr Hn Hok Ha. unfold vsprintf.
  rewrite (vsprintf_from_spec strs fuel buf ps fuel m buf fmt args out (Z.of_nat (length out) + 1)); try assumption; try lia.
  - rewrite bind_ok. cbv iota beta. rewrite store_bytes_app. cbn [store_bytes]. do 2 f_equal.
    rewrite i32_small; lia.
  - assert (length ps <= length (format_text ps))%nat; [|lia]. clear. induction ps as [|p ps IH]; [reflexivity|].
    change (format_text (p :: ps)) with (piece_format p ++ format_text ps). rewrite length_app.
    pose proof (piece_format_length p). cbn [length]. lia.
Qed.

(** ** Theorems *)

(** C27: [number] in every base from 2 to 16: it writes sign, prefix, zeros, digits
    and padding as [number_text] has them and returns the pointer behind them,
    and the digits that are printed have the magnitude of the number as their
    value. *)
Theorem number_prints (m : mem) (str num base size precision type : Z) :
  2 <= base <= 16 -> - 0x80000000 <= num < 0x80000000 -> moderate size -> moderate precision ->
  number m str num base size precision type =
    Ok (store_bytes m str (number_text num base size precision type),
        str + Z.of_nat (length (number_text num base size precision type))) /\
  exists before ds after,
    number_text num base size precision type = before ++ rev (map (digit_char (Z.land type SMALL)) ds) ++ after /\
    Forall (fun d => 0 <= d < base) ds /\ base_val base ds = magnitude num type.
Proof.
  intros Hb Hn Hs Hp. split; [now apply number_spec|].
  destruct (digit_text_value base type (magnitude num type) Hb) as (ds & E & Hd & Hv); [unfold magnitude; case_match; zlia|].
  unfold number_text. cbv zeta. rewrite E. set (zs := replicate (Z.to_nat (precision - _)) 48). set (room := Z.to_nat _).
  set (pre := sign_text num type ++ prefix_text base type).
  destruct (has type LEFT); [|destruct (has type ZEROPAD)];
    [exists (pre ++ zs), ds, (replicate room 32) | exists (pre ++ replicate room 48 ++ zs), ds, [] |
     exists (replicate room 32 ++ pre ++ zs), ds, []];
    (split; [rewrite ?app_nil_r, <- ?app_assoc; reflexivity | split; assumption]).
Qed.

Lemma number_prints_witness :
  number ∅ 0x100 (-1) 16 8 (-1) (Z.lor ZEROPAD SMALL) = Ok (store_bytes ∅ 0x100 [102; 102; 102; 102; 102; 102; 102; 102], 0x108).
Proof.
  destruct (number_prints ∅ 0x100 (-1) 16 8 (-1) (Z.lor ZEROPAD SMALL)) as [E _];
    [lia | lia | unfold moderate; lia | unfold moderate; lia |].
  rewrite E. reflexivity.
Defined.

(** C28: [number] stays within its array: the digits are as many as the magnitude
    has in its base, one at least and 32 at most, and each is put into the 66
    bytes of [tmp], past whose end a write is undefined.  The bytes written, and
    the pointer returned, are the wider of the field width and sign, prefix and
    the wider of precision and digits. *)
Theorem number_length (m : mem) (str num base size precision type : Z) :
  2 <= base <= 16 -> - 0x80000000 <= num < 0x80000000 -> moderate size -> moderate precision ->
  exists m' tmp digits n, number m str num base size precision type = Ok (m', str + n) /\ same_but str n m m' /\
    number_digits (i32 (magnitude num type)) base (Z.land type SMALL) = Ok tmp /\
    Z.of_nat (length tmp) = digits /\ digits <= SIZEOF_tmp /\
    1 <= digits <= 32 /\ magnitude num type < base ^ digits /\ (1 < digits -> base ^ (digits - 1) <= magnitude num type) /\
    n = Z.max size (Z.of_nat (length (sign_text num type ++ prefix_text base type)) + Z.max precision digits).
Proof.
  intros Hb Hn Hs Hp. set (u := magnitude num type).
  assert (0 <= u < 0x100000000) as Hu by (subst u; unfold magnitude; case_match; zlia).
  exists (store_bytes m str (number_text num base size precision type)), (map (digit_char (Z.land type SMALL)) (base_le 32 base u)).
  exists (Z.of_nat (length (base_le 32 base u))), (Z.of_nat (length (number_text num base size precision type))).
  pose proof (base_le_length 32 base u) as Hmax.
  destruct (base_le_count 32 base u) as (H1 & H2 & H3); [lia | | lia |].
  { pose proof (Z.pow_le_mono_l 2 base 32 ltac:(lia)). change (Z.of_nat 32) with 32. change (2 ^ 32) with 0x100000000 in *. lia. }
  split_and!; [now apply number_spec | apply same_but_store_bytes; lia | | now rewrite length_map | unfold SIZEOF_tmp; lia |
    exact H1 | lia | exact H2 | exact H3 |].
  - rewrite number_digits_spec by (lia || apply i32_range). replace (u32 (i32 u)) with u by zlia. reflexivity.
  - rewrite number_text_length. unfold digit_text. rewrite length_rev, length_map. reflexivity.
Qed.

Lemma number_length_witness :
  exists m', number ∅ 0x100 (-0x80000000) 2 (-1) (-1) 0 = Ok (m', 0x120) /\ same_but 0x100 32 ∅ m'.
Proof.
  destruct (number_length ∅ 0x100 (-0x80000000) 2 (-1) (-1) 0) as (m' & tmp & c & n & E & Hf & _ & _ & _ & H1 & H2 & H3 & ->);
    [lia | lia | unfold moderate; lia | unfold moderate; lia |].
  change (magnitude (-0x80000000) 0) with (2 ^ 31) in *.
  assert (c = 32) as ->.
  { destruct (Z.lt_ge_cases c 32); [|lia]. assert (2 ^ c <= 2 ^ 31) by (apply Z.pow_le_mono_r; lia). lia. }
  exists m'. split; [exact E | exact Hf].
Defined.

(** C15: [sprintf] on the text of a list of pieces, with arguments for all its
    conversions: it returns, the buffer holds what the pieces print, with a
    NUL behind it, no other byte is changed, and the result is the length.  A
    %s whose precision should cut its string denotes nothing, so nothing is said
    of it: see [precision_does_not_cut]. *)
Theorem sprintf_prints (strs : Z -> option (list Z)) (fuel : nat) (m : mem) (buf fmt : Z) (ps : list piece)
    (args out : list Z) :
  Forall piece_ok ps -> cstring m fmt (format_text ps) -> (length (format_text ps) <= fuel)%nat ->
  render strs ps args = Some out -> Z.of_nat (length out) < 0x80000000 ->
  strings_ok strs fuel m buf (Z.of_nat (length out) + 1) ->
  apart fmt (Z.of_nat (length (format_text ps)) + 1) buf (Z.of_nat (length out) + 1) ->
  sprintf fuel m buf fmt args = Ok (store_bytes m buf (out ++ [0]), Z.of_nat (length out)).
Proof.
  intros Hp Hs Hf Hr Hn Hok Ha. unfold sprintf.
  rewrite (vsprintf_spec strs fuel m buf fmt ps args out Hp Hs Hf Hr Hn Hok Ha). reflexivity.
Qed.

(** A format with text, a zero-padded number and a left-justified string. *)
Definition sample_pieces : list piece :=
  [Lit 120; Lit 61; Dir [FZero] (Number 4) Absent NoQual Cx; Lit 124; Dir [FMinus] (Number 3) Absent NoQual Cs; Lit 124].

Definition sample_memory : mem :=
  store_bytes (store_bytes ∅ 0x100 (format_text sample_pieces ++ [0])) 0x200 [104; 105; 0].

Definition sample_strings (a : Z) : option (list Z) := if a =? 0x200 then Some [104; 105] else None.

Lemma sprintf_prints_witness :
  sprintf 20 sample_memory 0x300 0x100 [0xbe; 0x200] =
  Ok (store_bytes sample_memory 0x300 ([120; 61; 48; 48; 98; 101; 124; 104; 105; 32; 124] ++ [0]), 11).
Proof.
  apply (sprintf_prints sample_strings 20 sample_memory 0x300 0x100 sample_pieces [0xbe; 0x200]
    [120; 61; 48; 48; 98; 101; 124; 104; 105; 32; 124]).
  - repeat constructor; simpl; lia.
  - split; [vm_compute; reflexivity | repeat constructor; simpl; lia].
  - simpl. lia.
  - vm_compute. reflexivity.
  - simpl. lia.
  - intros a l. unfold sample_strings. destruct (a =? 0x200) eqn:E; [|discriminate]. apply Z.eqb_eq in E as ->.
    intros [= <-]. split; [split; [vm_compute; reflexivity | repeat constructor; lia]|]. split; [simpl; lia | left; simpl; lia].
  - left. simpl. lia.
Defined.

(** [%.1s] prints all of a string of two characters. *)
Example precision_does_not_cut :
  let m := store_bytes (store_bytes ∅ 0x100 [37; 46; 49; 115; 0]) 0x200 [104; 105; 0] in
  format_text [Dir [] Absent (Number 1) NoQual Cs] = [37; 46; 49; 115] /\
  sprintf 20 m 0x300 0x100 [0x200] = Ok (store_bytes m 0x300 [104; 105; 0], 2).
Proof. vm_compute. split; reflexivity. Qed.

(** [sprintf(buf, "%d", n)] writes what [int_to_ascii] writes for [n], and the
    right text for INT_MIN too. *)
Theorem sprintf_decimal (fuel : nat) (m : mem) (buf fmt n : Z) :
  - 0x80000000 <= n < 0x80000000 -> cstring m fmt [37; 100] -> (2 <= fuel)%nat ->
  apart fmt 3 buf 12 ->
  sprintf fuel m buf fmt [u32 n] = Ok (store_bytes m buf (render_int n ++ [0]), Z.of_nat (length (render_int n))) /\
  (n <> - 0x80000000 -> forall m', int_to_ascii (12 + fuel) m n buf = Ok m' ->
    bytes_at m' buf (render_int n ++ [0])).
Proof.
  intros Hn Hs Hf Ha. unfold apart in Ha.
  assert (length (render_int n) <= 11)%nat as Hlen.
  { unfold render_int. rewrite length_app, length_rev. pose proof (dec_le_length 10 (Z.abs n)).
    destruct (n <? 0); cbn [length]; lia. }
  split.
  - unfold sprintf. rewrite (vsprintf_spec (fun _ => None) fuel m buf fmt [Dir [] Absent Absent NoQual Cd] [u32 n] (render_int n)).
    + reflexivity.
    + repeat constructor.
    + exact Hs.
    + simpl. lia.
    + simpl. rewrite app_nil_r. replace (i32 (u32 n)) with n by zlia. now rewrite number_text_decimal.
    + lia.
    + intros a l. discriminate.
    + unfold apart. change (Z.of_nat (length (format_text _)) + 1) with 3. lia.
  - intros Hne m' E. destruct (int_to_ascii_spec (12 + fuel) m n buf) as (m1 & E1 & [Hb _] & _); [lia | lia |].
    rewrite E1 in E. now injection E as <-.
Qed.

Lemma sprintf_decimal_witness :
  sprintf 2 (store_bytes ∅ 0x100 [37; 100; 0]) 0x200 0x100 [u32 (-0x80000000)] =
  Ok (store_bytes (store_bytes ∅ 0x100 [37; 100; 0]) 0x200 ([45; 50; 49; 52; 55; 52; 56; 51; 54; 52; 56] ++ [0]), 11).
Proof.
  apply (sprintf_decimal 2 (store_bytes ∅ 0x100 [37; 100; 0]) 0x200 0x100 (-0x80000000));
    [lia | split; [vm_compute; reflexivity | repeat constructor; lia] | lia | left; lia].
Defined.

(** [printf]: the text goes to the buffer and from there to the console. *)
Lemma printf_spec {D : Type} `{PortDevice D} `{!HasCrtc D} (strs : Z -> option (list Z)) (fuel : nat)
    (m : mem) (d : D) (printf_buf fmt : Z) (ps : list piece) (args out : list Z) :
  Forall piece_ok ps -> cstring m fmt (format_text ps) -> (length (format_text ps) <= fuel)%nat ->
  render strs ps args = Some out -> Z.of_nat (length out) < 0x80000000 -> Forall (fun x => 0 < x < 0x100) out ->
  strings_ok strs fuel m printf_buf (Z.of_nat (length out) + 1) ->
  apart fmt (Z.of_nat (length (format_text ps)) + 1) printf_buf (Z.of_nat (length out) + 1) ->
  off_video printf_buf (Z.of_nat (length out) + 1) -> on_screen (cursor d) -> cursor_bytes d -> (length out <= fuel)%nat ->
  exists m' d', printf fuel printf_buf fmt args m d = Ok (Z.of_nat (length out), m', d') /\
    cursor d' = (console_text (cursor d, screen_of m) out).1 /\
    same_screen (console_text (cursor d, screen_of m) out).2 (screen_of m') /\ on_screen (cursor d') /\ cursor_bytes d' /\
    same_but VIDEO_ADDRESS SCREEN_BYTES (store_bytes m printf_buf (out ++ [0])) m'.
Proof.
  intros Hp Hs Hf Hr Hn Ho Hok Ha Hv Hc Hd Hf'. unfold printf.
  rewrite (vsprintf_spec strs fuel m printf_buf fmt ps args out Hp Hs Hf Hr Hn Hok Ha), bind_ok. cbv iota beta.
  set (m1 := store_bytes m printf_buf (out ++ [0])).
  destruct (kprint_spec fuel printf_buf out m1 d) as (m' & d' & E & Hcur & Hsc & Hcb & Hfr & Hshow); try assumption.
  { now apply cstring_store_bytes. }
  rewrite E, bind_ok. exists m', d'. rewrite console_text_cursor. split_and!; [reflexivity | exact Hcur | | exact Hsc | exact Hcb | exact Hfr].
  intros x Hx. rewrite (Hshow x Hx). apply console_text_same; [exact Hc | | exact Hx].
  intros y Hy. unfold screen_of, m1. apply load8_store_bytes_out. rewrite length_app. cbn [length].
  unfold off_video, SCREEN_BYTES in *. lia.
Qed.

(** C35: [printf] of a text that fits its buffer of 1024 bytes with the NUL: it
    returns the number of characters; the cursor and the screen become what the
    console makes of them, and nothing changes but the video memory and the
    bytes of the buffer that the text needs. *)
Theorem printf_prints {D : Type} `{PortDevice D} `{!HasCrtc D} (strs : Z -> option (list Z)) (fuel : nat)
    (m : mem) (d : D) (printf_buf fmt : Z) (ps : list piece) (args out : list Z) :
  Forall piece_ok ps -> cstring m fmt (format_text ps) -> (length (format_text ps) <= fuel)%nat ->
  render strs ps args = Some out -> Z.of_nat (length out) < PRINTF_BUF_SIZE -> Forall (fun x => 0 < x < 0x100) out ->
  strings_ok strs fuel m printf_buf (Z.of_nat (length out) + 1) ->
  apart fmt (Z.of_nat (length (format_text ps)) + 1) printf_buf (Z.of_nat (length out) + 1) ->
  off_video printf_buf (Z.of_nat (length out) + 1) -> on_screen (cursor d) -> cursor_bytes d -> (length out <= fuel)%nat ->
  exists m' d', printf fuel printf_buf fmt args m d = Ok (Z.of_nat (length out), m', d') /\
    cursor d' = (console_text (cursor d, screen_of m) out).1 /\
    same_screen (console_text (cursor d, screen_of m) out).2 (screen_of m') /\ on_screen (cursor d') /\
    same_but VIDEO_ADDRESS SCREEN_BYTES (store_bytes m printf_buf (out ++ [0])) m' /\
    (forall x, x < printf_buf \/ printf_buf + PRINTF_BUF_SIZE <= x -> x < VIDEO_ADDRESS \/ VIDEO_ADDRESS + SCREEN_BYTES <= x ->
       load8 m' x = load8 m x).
Proof.
  intros Hp Hs Hf Hr Hn Ho Hok Ha Hv Hc Hd Hf'.
  destruct (printf_spec strs fuel m d printf_buf fmt ps args out) as (m' & d' & E & Hcur & Hsh & Hsc & _ & Hfr); try assumption; [unfold PRINTF_BUF_SIZE in Hn; lia|].
  exists m', d'. split_and!; try assumption. intros x H1 H2. rewrite Hfr by exact H2. apply load8_store_bytes_out.
  rewrite length_app. cbn [length]. unfold PRINTF_BUF_SIZE in *. lia.
Qed.

Lemma printf_prints_witness :
  exists m' d', printf 10 0x200 0x100 [u32 (-7)] (store_bytes ∅ 0x100 [110; 61; 37; 100; 0]) (mk_crtc 0 0 5) = Ok (4, m', d') /\
    cursor d' = 18.
Proof.
  destruct (printf_prints (D := crtc_device) (fun _ => None) 10 (store_bytes ∅ 0x100 [110; 61; 37; 100; 0]) (mk_crtc 0 0 5) 0x200 0x100
    [Lit 110; Lit 61; Dir [] Absent Absent NoQual Cd] [u32 (-7)] [110; 61; 45; 55]) as (m' & d' & E & Hc & _);
    [repeat constructor; simpl; lia | split; [vm_compute; reflexivity | repeat constructor; simpl; lia] | simpl; lia |
     vm_compute; reflexivity | reflexivity | repeat constructor; lia | intros a l; discriminate | left; simpl; lia |
     left; vm_compute; discriminate | split; [vm_compute; split; [discriminate | reflexivity] | reflexivity] |
     unfold cursor_bytes; simpl; lia | simpl; lia |].
  exists m', d'. split; [exact E | etransitivity; [exact Hc | vm_compute; reflexivity]].
Defined.
