(* ===== verification/Literals.v ===== *)
(** * String literals

    The linker decides where the string literals of the sources are.  The
    definitions that print take this as the function [lit] from the text of a
    literal to its address; [placed] says that the literals are in memory. *)

From S2P Require Import Prelude Memory.

Definition str_bytes (s : string) : list Z :=
  map (fun c => Z.of_N (Ascii.N_of_ascii c)) (String.list_ascii_of_string s).

(** The newline. *)
Definition nl : string := String (Ascii.ascii_of_N 10) EmptyString.

Definition placed (lit : string -> Z) (m : mem) (texts : list string) : Prop :=
  Forall (fun s => cstring m (lit s) (str_bytes s)) texts.

Lemma placed_in lit m texts s : placed lit m texts -> s ∈ texts -> cstring m (lit s) (str_bytes s).
Proof. intros H Hs. unfold placed in H. rewrite Forall_forall in H. now apply H. Qed.

(** Literals stay where a call does not write. *)
Lemma placed_frame lit m m' texts a n :
  placed lit m texts -> same_but a n m m' ->
  Forall (fun s => lit s + Z.of_nat (length (str_bytes s)) + 1 <= a \/ a + n <= lit s) texts ->
  placed lit m' texts.
Proof.
  unfold placed. rewrite !Forall_forall. intros H Hfr Ha s Hs.
  eapply cstring_frame; [exact Hfr | now apply Ha | now apply H].
Qed.

Lemma str_bytes_app s s' : str_bytes (s +:+ s') = str_bytes s ++ str_bytes s'.
Proof.
  unfold str_bytes. rewrite <- map_app. f_equal. induction s as [|c s IH]; [reflexivity|]. exact (f_equal (cons c) IH).
Qed.
