(* ===== verification/Ps2.v ===== *)
(** * drivers/keyboard.c: the PS/2 controller

    The part of the driver that talks to the controller through ports 0x60 and
    0x64: A20, reset, the start-up sequence of the two channels.  Messages go
    through [printf]; [lit] is where the linker puts the string literals,
    [printf_buf] the buffer on [printf]'s stack. *)

From S2P Require Import Prelude Memory Util Paging Ports Descriptors Interrupts Screen Printf Literals.

Definition REG_DATA : Z := 0x60.

Definition REG_CMD : Z := 0x64.

Definition REG_STATUS : Z := 0x64.

Definition CMD_CONFIG_READ : Z := 0x20.

Definition CMD_CONFIG_WRITE : Z := 0x60.

Definition CMD_PORT2_DISABLE : Z := 0xa7.

Definition CMD_PORT2_ENABLE : Z := 0xa8.

Definition CMD_PORT2_TEST : Z := 0xa9.

Definition CMD_SELF_TEST : Z := 0xaa.

Definition CMD_PORT1_TEST : Z := 0xab.

Definition CMD_PORT1_ENABLE : Z := 0xae.

Definition CMD_PORT1_DISABLE : Z := 0xad.

Definition CMD_WRITE_TO_PORT2 : Z := 0xd4.

Definition DEVICE_CMD_RESET : Z := 0xff.

Definition PORT_SEND_NUM_RETRIES : Z := 1000.

Inductive ps2_port := PORT1 | PORT2.

#[export] Instance ps2_port_eq_dec : EqDecision ps2_port.
Proof. solve_decision. Defined.

Definition SELF_TEST_SUCCESS : Z := 0x55.

Definition SELF_TEST_FAILED : Z := 0xfc.

(** The fields of [struct ps2_status] and [struct ps2_config] that are used. *)
Definition tx_buf_status : Z -> Z := bf_get 0 1.

Definition rx_buf_status : Z -> Z := bf_get 1 1.

Definition set_port1_irq_status (v : Z) : Z -> Z := bf_set 0 1 v.

Definition set_port2_irq_status (v : Z) : Z -> Z := bf_set 1 1 v.

Definition port2_clock_status : Z -> Z := bf_get 5 1.

Definition set_port1_translation_status (v : Z) : Z -> Z := bf_set 6 1 v.

Definition PS2_BUF_STATUS_CLEAR : Z := 0.

Definition IRQ_STATUS_DISABLED : Z := 0.

Definition IRQ_STATUS_ENABLED : Z := 1.

Definition CLOCK_STATUS_ENABLED : Z := 0.

Definition TRANSLATION_DISABLED : Z := 0.

(** The two static variables of the start-up sequence. *)
Record channels := mk_channels { is_dual_channel : bool; should_probe_second_channel : bool }.

Definition initial_channels : channels := mk_channels false true.

Section Ports.
Context {D : Type} `{PortDevice D}.

Definition read_status (d : D) : Z * D := port_byte_in REG_STATUS d.

Definition read_config (d : D) : Z * D :=
  let d := port_byte_out REG_CMD CMD_CONFIG_READ d in
  port_byte_in REG_DATA d.

Definition write_config (config : Z) (d : D) : D :=
  let d := port_byte_out REG_CMD CMD_CONFIG_WRITE d in
  port_byte_out REG_DATA config d.

(** The response is read until it is one of the two. *)
Definition i8042_self_test (fuel : nat) (d : D) : outcome (bool * D) :=
  let d := port_byte_out REG_CMD CMD_SELF_TEST d in
  st ← while fuel (fun '(response, _) => negb (response =? SELF_TEST_SUCCESS) && negb (response =? SELF_TEST_FAILED))
         (fun '(_, d) => Ok (port_byte_in REG_DATA d)) (port_byte_in REG_DATA d);
  let '(response, d) := st in
  Ok (response =? SELF_TEST_SUCCESS, d).

(** The flush of the output buffer in [disable_devices]. *)
Definition flush_output (fuel : nat) (d : D) : outcome D :=
  st ← while fuel (fun '(status_reg, _) => negb (tx_buf_status status_reg =? PS2_BUF_STATUS_CLEAR))
         (fun '(_, d) =>
            let d := io_wait d in
            let '(_, d) := port_byte_in REG_DATA d in
            Ok (read_status d)) (read_status d);
  Ok st.2.

Definition is_channel2_present (d : D) : bool * D :=
  let d := port_byte_out REG_CMD CMD_PORT2_ENABLE d in
  let '(config, d) := read_config d in
  let ret := port2_clock_status config =? CLOCK_STATUS_ENABLED in
  let d := port_byte_out REG_CMD CMD_PORT2_DISABLE d in
  (ret, d).

Definition test_ports (ch : channels) (d : D) : bool * D :=
  let d := port_byte_out REG_CMD CMD_PORT1_TEST d in
  let '(response, d) := port_byte_in REG_DATA d in
  if negb (response =? 0) then (false, d)
  else if is_dual_channel ch then
    let d := port_byte_out REG_CMD CMD_PORT2_TEST d in
    let '(response, d) := port_byte_in REG_DATA d in
    if negb (response =? 0) then (false, d) else (true, d)
  else (true, d).

Definition enable_ports (d : D) : D :=
  let d := port_byte_out REG_CMD CMD_PORT1_ENABLE d in
  let d := port_byte_out REG_CMD CMD_PORT2_ENABLE d in
  let '(config, d) := read_config d in
  let config := set_port1_irq_status IRQ_STATUS_ENABLED config in
  let config := set_port2_irq_status IRQ_STATUS_ENABLED config in
  write_config config d.

(** The wait loop of [send_port]: the status, the retries that are left. *)
Definition send_wait (status : Z) (d : D) : outcome (Z * Z * D) :=
  while (Z.to_nat PORT_SEND_NUM_RETRIES)
    (fun '(status, retries, _) => negb (rx_buf_status status =? PS2_BUF_STATUS_CLEAR) && (0 <? retries))
    (fun '(_, retries, d) =>
       let d := io_wait d in
       let '(status, d) := read_status d in
       Ok (status, retries - 1, d)) (status, PORT_SEND_NUM_RETRIES, d).

Definition send_port (port : ps2_port) (data : Z) (ch : channels) (d : D) : outcome (bool * D) :=
  let '(status, d) := read_status d in
  if bool_decide (port = PORT2) && negb (is_dual_channel ch) then Ok (false, d)
  else
    let d := if bool_decide (port = PORT2) then port_byte_out REG_CMD CMD_WRITE_TO_PORT2 d else d in
    st ← send_wait status d;
    let '(_, retries, d) := st in
    if retries =? 0 then Ok (false, d) else Ok (true, port_byte_out REG_DATA data d).

Definition reset_devices (ch : channels) (d : D) : outcome (bool * D) :=
  r ← send_port PORT1 DEVICE_CMD_RESET ch d;
  let '(ret, d) := r in
  if negb ret then Ok (ret, d)
  else if is_dual_channel ch then send_port PORT2 DEVICE_CMD_RESET ch d
  else Ok (ret, d).

(** ** The parts that print *)

Context (lit : string -> Z) (printf_buf : Z) (fuel : nat).

Definition say (text : string) (args : list Z) (m : mem) (d : D) : outcome (mem * D) :=
  r ← printf fuel printf_buf (lit text) args m d; Ok (r.1.2, r.2).

(** The status is read once, before the loop.  [ac] is the buffer on the
    stack. *)
Definition wait_keyboard (ac : Z) (m : mem) (d : D) : outcome (mem * D) :=
  let '(c, d) := port_byte_in REG_CMD d in
  while fuel (fun _ => negb (Z.land c 0x2 =? 0))
    (fun '(m, d) =>
       r ← kprint fuel (lit ("Keyboard not ready" +:+ nl)) m d;
       m ← int_to_ascii fuel r.1 c ac;
       r ← kprint fuel (lit "control status: ") m r.2;
       kprint fuel ac r.1 r.2) (m, d).

Definition reboot (ac : Z) (m : mem) (d : D) : outcome (mem * D) :=
  r ← wait_keyboard ac m d;
  Ok (r.1, port_byte_out REG_CMD 0xFE r.2).

(** [ad] is the buffer of [init_A20], which nothing initializes before
    [hex_to_ascii] appends to the string in it. *)
Definition init_A20 (ac ad : Z) (m : mem) (d : D) : outcome (mem * D) :=
  r ← wait_keyboard ac m d;
  let d := port_byte_out REG_CMD 0xAD r.2 in
  r ← wait_keyboard ac r.1 d;
  let d := io_wait (port_byte_out REG_CMD 0xD0 r.2) in
  let '(v, d) := port_byte_in REG_DATA d in
  m ← hex_to_ascii fuel r.1 v ad;
  r ← kprint fuel (lit "output port status before: ") m d;
  r ← kprint fuel ad r.1 r.2;
  r ← kprint fuel (lit nl) r.1 r.2;
  r ← wait_keyboard ac r.1 r.2;
  let d := port_byte_out REG_CMD 0xD1 r.2 in
  r ← wait_keyboard ac r.1 d;
  let d := port_byte_out REG_DATA (Z.lor v 2) r.2 in
  r ← wait_keyboard ac r.1 d;
  Ok (r.1, port_byte_out REG_CMD 0xAE r.2).

Definition disable_devices (ch : channels) (m : mem) (d : D) : outcome (channels * mem * D) :=
  let d := port_byte_out REG_CMD CMD_PORT1_DISABLE d in
  let d := port_byte_out REG_CMD CMD_PORT2_DISABLE d in
  d ← flush_output fuel d;
  let '(config, d) := read_config d in
  let config := set_port1_irq_status IRQ_STATUS_DISABLED config in
  let config := set_port2_irq_status IRQ_STATUS_DISABLED config in
  let config := set_port1_translation_status TRANSLATION_DISABLED config in
  r ← (if port2_clock_status config =? CLOCK_STATUS_ENABLED then
         r ← say ("PS/2 2nd channel disabled." +:+ nl) [] m d;
         Ok (mk_channels false false, r.1, r.2)
       else Ok (ch, m, d));
  let '(ch, m, d) := r in
  Ok (ch, m, write_config config d).

Definition set_keyboard_scancode (ch : channels) (m : mem) (d : D) : outcome (bool * mem * D) :=
  r ← send_port PORT1 0xF0 ch d;
  let '(sent, d) := r in
  if negb sent then Ok (false, m, d)
  else
    r ← send_port PORT1 0x01 ch d;
    let '(sent, d) := r in
    if negb sent then Ok (false, m, d)
    else
      let d := io_wait d in
      let '(status, d) := port_byte_in REG_DATA d in
      r ← say ("STATUS is %d" +:+ nl) [status] m d;
      if negb (status =? 0xFA) then Ok (false, r.1, r.2) else Ok (true, r.1, r.2).

(** The start-up sequence; the handler is registered for vector 33, IRQ 1. *)
Definition init_keyboard (ch : channels) (hs : list (option isr_t)) (m : mem) (d : D)
    : outcome (bool * channels * list (option isr_t) * mem * D) :=
  r ← disable_devices ch m d;
  let '(ch, m, d) := r in
  r ← i8042_self_test fuel d;
  let '(ok, d) := r in
  if negb ok then
    r ← say ("PS/2 controller self test failed!!!" +:+ nl) [] m d; Ok (false, ch, hs, r.1, r.2)
  else
    let '(ch, d) :=
      if should_probe_second_channel ch then
        let '(present, d) := is_channel2_present d in (mk_channels present (should_probe_second_channel ch), d)
      else (ch, d) in
    let '(ok, d) := test_ports ch d in
    if negb ok then
      r ← say ("PS2 ports test failed." +:+ nl) [] m d; Ok (false, ch, hs, r.1, r.2)
    else
      let d := enable_ports d in
      hs ← register_interrupt_handler 33 keyboard_callback_isr hs;
      r ← reset_devices ch d;
      let '(ok, d) := r in
      if negb ok then
        r ← say ("Failed to send reset command to PS2 devices" +:+ nl) [] m d; Ok (false, ch, hs, r.1, r.2)
      else
        r ← set_keyboard_scancode ch m d;
        let '(ok, m, d) := r in
        r ← (if negb ok then say ("Failed to set the scancode" +:+ nl) [] m d else Ok (m, d));
        r ← say (nl +:+ "> ") [] r.1 r.2;
        Ok (true, ch, hs, r.1, r.2).

End Ports.
