(* ===== verification/Kbc.v ===== *)
(** * The 8042 keyboard controller

    The driver of drivers/keyboard.c relies on the data sheet of this device:
    the configuration byte, whose bits 4 and 5 say that a channel is disabled;
    the output buffer, which hands out at port 0x60 what the controller and the
    devices behind it answer, in order; a command that is followed by a data
    byte; the second channel, whose commands are ignored when it is absent.
    [HasKbc] says that a machine has it at ports 0x60 and 0x64; [kbc_device] is
    the machine that has only this.  The lemmas say what each driver function
    that prints nothing does to the controller, and that it touches only the
    ports of the controller and of [io_wait]. *)

From S2P Require Import Prelude Memory Util Paging Ports Descriptors Screen Printf Literals Ps2.

(** What differs from machine to machine: whether there is a second channel,
    the results of the tests, and what a device answers to the bytes it was
    sent, the newest last. *)
Record ps2_parts := mk_parts {
  has_channel2 : bool;
  self_test_result : Z;
  port_test_result : ps2_port -> Z;
  answer : ps2_port -> list Z -> list Z;
}.

Record kbc := mk_kbc {
  kbc_config : Z;
  kbc_output_port : Z;
  kbc_queue : list Z;
  kbc_last : Z;
  kbc_pending : Z;
  kbc_sent1 : list Z;
  kbc_sent2 : list Z;
  kbc_parts : ps2_parts;
}.

Definition kbc_dual (k : kbc) : bool := has_channel2 (kbc_parts k).

Definition with_config (c : Z) (k : kbc) : kbc :=
  mk_kbc c (kbc_output_port k) (kbc_queue k) (kbc_last k) 0 (kbc_sent1 k) (kbc_sent2 k) (kbc_parts k).

Definition with_output_port (v : Z) (k : kbc) : kbc :=
  mk_kbc (kbc_config k) v (kbc_queue k) (kbc_last k) 0 (kbc_sent1 k) (kbc_sent2 k) (kbc_parts k).

Definition with_pending (c : Z) (k : kbc) : kbc :=
  mk_kbc (kbc_config k) (kbc_output_port k) (kbc_queue k) (kbc_last k) c (kbc_sent1 k) (kbc_sent2 k) (kbc_parts k).

Definition queued (l : list Z) (k : kbc) : kbc :=
  mk_kbc (kbc_config k) (kbc_output_port k) (kbc_queue k ++ l) (kbc_last k) 0 (kbc_sent1 k) (kbc_sent2 k) (kbc_parts k).

(** A byte for a device, which answers. *)
Definition sent_to (port : ps2_port) (v : Z) (k : kbc) : kbc :=
  match port with
  | PORT1 =>
      let l := kbc_sent1 k ++ [v] in
      queued (answer (kbc_parts k) PORT1 l)
        (mk_kbc (kbc_config k) (kbc_output_port k) (kbc_queue k) (kbc_last k) 0 l (kbc_sent2 k) (kbc_parts k))
  | PORT2 =>
      let l := kbc_sent2 k ++ [v] in
      queued (answer (kbc_parts k) PORT2 l)
        (mk_kbc (kbc_config k) (kbc_output_port k) (kbc_queue k) (kbc_last k) 0 (kbc_sent1 k) l (kbc_parts k))
  end.

(** A write to port 0x64. *)
Definition kbc_command (v : Z) (k : kbc) : kbc :=
  if v =? 0x20 then queued [kbc_config k] k
  else if v =? 0xAA then queued [self_test_result (kbc_parts k)] k
  else if v =? 0xAB then queued [port_test_result (kbc_parts k) PORT1] k
  else if v =? 0xA9 then if kbc_dual k then queued [port_test_result (kbc_parts k) PORT2] k else with_pending 0 k
  else if v =? 0xAD then with_config (Z.setbit (kbc_config k) 4) k
  else if v =? 0xAE then with_config (Z.clearbit (kbc_config k) 4) k
  else if v =? 0xA7 then if kbc_dual k then with_config (Z.setbit (kbc_config k) 5) k else with_pending 0 k
  else if v =? 0xA8 then if kbc_dual k then with_config (Z.clearbit (kbc_config k) 5) k else with_pending 0 k
  else if v =? 0xD0 then queued [kbc_output_port k] k
  else if (v =? 0x60) || (v =? 0xD1) || ((v =? 0xD4) && kbc_dual k) then with_pending v k
  else with_pending 0 k.

(** A write to port 0x60. *)
Definition kbc_data (v : Z) (k : kbc) : kbc :=
  if kbc_pending k =? 0x60 then with_config v k
  else if kbc_pending k =? 0xD1 then with_output_port v k
  else if kbc_pending k =? 0xD4 then sent_to PORT2 v k
  else sent_to PORT1 v k.

(** A read of port 0x60: with nothing new the last byte again. *)
Definition kbc_read (k : kbc) : Z * kbc :=
  match kbc_queue k with
  | [] => (kbc_last k, k)
  | x :: q => (x, mk_kbc (kbc_config k) (kbc_output_port k) q x (kbc_pending k) (kbc_sent1 k) (kbc_sent2 k) (kbc_parts k))
  end.

(** Bit 0 of the status says that there is a byte to read, bit 1 that the
    controller is not ready for one. *)
Class HasKbc (D : Type) `{PortDevice D} := {
  kbc_of : D -> kbc;
  kbc_out : forall port v d, kbc_of (dev_out port v d) =
    (if port =? 0x64 then kbc_command v (kbc_of d) else if port =? 0x60 then kbc_data v (kbc_of d) else kbc_of d);
  kbc_in : forall d, (dev_in 0x60 d).1 = (kbc_read (kbc_of d)).1 /\ kbc_of (dev_in 0x60 d).2 = (kbc_read (kbc_of d)).2;
  kbc_status : forall d, Z.testbit (dev_in 0x64 d).1 0 = negb (bool_decide (kbc_queue (kbc_of d) = [])) /\
    Z.testbit (dev_in 0x64 d).1 1 = false /\ kbc_of (dev_in 0x64 d).2 = kbc_of d;
}.

Definition kbc_device : Type := kbc.

#[export] Instance kbc_ports : PortDevice kbc_device := {
  dev_in port d :=
    if port =? 0x60 then kbc_read d
    else (if port =? 0x64 then if bool_decide (kbc_queue d = []) then 0x1C else 0x1D else 0, d);
  dev_out port v d := if port =? 0x64 then kbc_command v d else if port =? 0x60 then kbc_data v d else d;
  dev_in_word port d := (0, d);
  dev_out_word port v d := d;
}.

#[export] Instance kbc_device_kbc : HasKbc kbc_device.
Proof.
  refine {| kbc_of := fun d => d |}; [reflexivity | split; reflexivity |].
  intros d. cbn. destruct (bool_decide _); split_and!; reflexivity.
Defined.

(** The ports of the controller, and that of [io_wait]. *)
Definition kbd_ins : list Z := [0x60; 0x64].

Definition kbd_outs : list Z := [0x60; 0x64; 0x80].

(** The bits of the configuration that the driver looks at and sets. *)
Definition is_byte (x : Z) : Prop := 0 <= x < 0x100.

#[export] Instance is_byte_dec x : Decision (is_byte x).
Proof. unfold is_byte. apply _. Defined.

Lemma bit_field pos w : 0 <= pos -> bf_get pos 1 w = Z.b2z (Z.testbit w pos).
Proof. intros Hp. unfold bf_get. rewrite Z.land_ones, Z.shiftr_div_pow2, Z.testbit_spec' by lia. reflexivity. Qed.

Lemma land_2_clear w : Z.testbit w 1 = false -> Z.land w 2 = 0.
Proof.
  intros Hw. apply Z.bits_inj_0. intros i. rewrite Z.land_spec. change 2 with (2 ^ 1).
  destruct (Z.eq_dec i 1) as [->|]; [now rewrite Hw | rewrite Z.pow2_bits_false by congruence; apply andb_false_r].
Qed.

Lemma u8_bit w i : 0 <= i < 8 -> Z.testbit (u8 w) i = Z.testbit w i.
Proof. intros Hi. unfold u8. change 0x100 with (2 ^ 8). apply Z.mod_pow2_bits_low. lia. Qed.

(** A fact of every number of a range, by evaluation. *)
Lemma all_upto (n : Z) (P : Z -> bool) : forallb P (seqZ 0 n) = true -> forall c, 0 <= c < n -> P c = true.
Proof. intros H c Hc. rewrite forallb_forall in H. apply H, list_elem_of_In, elem_of_seqZ. lia. Qed.

(** ** The configurations of the start-up

    After the two disable commands, as [disable_devices] writes it back, and
    as [enable_ports] does. *)
Definition quiet_config (dual : bool) (c : Z) : Z := let c := Z.setbit c 4 in if dual then Z.setbit c 5 else c.

Definition off_config (c : Z) : Z :=
  set_port1_translation_status TRANSLATION_DISABLED
    (set_port2_irq_status IRQ_STATUS_DISABLED (set_port1_irq_status IRQ_STATUS_DISABLED c)).

Definition awake_config (dual : bool) (c : Z) : Z := let c := Z.clearbit c 4 in if dual then Z.clearbit c 5 else c.

Definition on_config (c : Z) : Z := set_port2_irq_status IRQ_STATUS_ENABLED (set_port1_irq_status IRQ_STATUS_ENABLED c).

Definition stopped_config (dual : bool) (c : Z) : Z := off_config (quiet_config dual c).

Definition started_config (dual : bool) (c : Z) : Z := on_config (awake_config dual (stopped_config dual c)).

Definition config_facts (dual : bool) (c : Z) : bool :=
  let e := stopped_config dual c in
  bool_decide (is_byte (quiet_config dual c)) && bool_decide (is_byte e) && bool_decide (is_byte (Z.clearbit e 5)) &&
  bool_decide (is_byte (awake_config dual e)) && bool_decide (is_byte (started_config dual c)) &&
  bool_decide (port2_clock_status (if dual then Z.clearbit e 5 else e) = if dual then 0 else Z.b2z (Z.testbit c 5)) &&
  bool_decide (port2_clock_status e = Z.b2z (dual || Z.testbit c 5)) && (negb dual || bool_decide (Z.setbit (Z.clearbit e 5) 5 = e)) &&
  forallb (fun i => bool_decide (Z.testbit e i =
    if (i <? 2) || (i =? 6) then false else if (i =? 4) || ((i =? 5) && dual) then true else Z.testbit c i)) (seqZ 0 8) &&
  forallb (fun i => bool_decide (Z.testbit (started_config dual c) i =
    if i <? 2 then true else if (i =? 4) || (i =? 6) || ((i =? 5) && dual) then false else Z.testbit c i)) (seqZ 0 8).

Lemma config_facts_hold dual c : is_byte c -> config_facts dual c = true.
Proof.
  intros Hc. revert c Hc. destruct dual; apply all_upto; vm_compute; reflexivity. Qed.

Lemma configs_are_bytes dual c : is_byte c -> let e := stopped_config dual c in
  is_byte (quiet_config dual c) /\ is_byte e /\ is_byte (Z.clearbit e 5) /\ is_byte (awake_config dual e) /\ is_byte (started_config dual c) /\
  port2_clock_status (if dual then Z.clearbit e 5 else e) = (if dual then 0 else Z.b2z (Z.testbit c 5)) /\
  port2_clock_status e = Z.b2z (dual || Z.testbit c 5) /\ (dual = true -> Z.setbit (Z.clearbit e 5) 5 = e).
Proof.
  intros Hc. pose proof (config_facts_hold dual c Hc) as H. unfold config_facts in H. cbv zeta in H.
  rewrite !andb_true_iff, !bool_decide_eq_true in H. destruct H as [[[[[[[[[H1 H2] H3] H4] H5] H6] H7] H8] _] _].
  split_and!; try assumption. intros ->. now apply bool_decide_eq_true in H8.
Qed.

(** Bit [i] of the configuration that the start-up leaves, from [c]: when it
    fails and when it goes through. *)
Lemma stopped_config_bits dual c i : is_byte c -> 0 <= i < 8 -> Z.testbit (stopped_config dual c) i =
  if (i <? 2) || (i =? 6) then false else if (i =? 4) || ((i =? 5) && dual) then true else Z.testbit c i.
Proof.
  intros Hc Hi. pose proof (config_facts_hold dual c Hc) as H. unfold config_facts in H. cbv zeta in H.
  rewrite !andb_true_iff in H. destruct H as [[_ H] _]. apply (all_upto 8 _ H i), bool_decide_eq_true in Hi. exact Hi.
Qed.

Lemma started_config_bits dual c i : is_byte c -> 0 <= i < 8 -> Z.testbit (started_config dual c) i =
  if i <? 2 then true else if (i =? 4) || (i =? 6) || ((i =? 5) && dual) then false else Z.testbit c i.
Proof.
  intros Hc Hi. pose proof (config_facts_hold dual c Hc) as H. unfold config_facts in H. cbv zeta in H.
  rewrite !andb_true_iff in H. destruct H as [_ H]. apply (all_upto 8 _ H i), bool_decide_eq_true in Hi. exact Hi.
Qed.

Section Steps.
Context {D : Type} `{HP : PortDevice D} `{!HasKbc D}.

(** From [d] to [d'] the controller gets to [k]; only its ports are touched. *)
Definition kbc_step (d d' : D) (k : kbc) : Prop := kbc_of d' = k /\ touches kbd_ins kbd_outs d d'.

Lemma kbc_step_none d : kbc_step d d (kbc_of d).
Proof. split; [reflexivity | constructor]. Qed.

Lemma kbc_step_then d1 d2 d3 k2 k3 : kbc_step d1 d2 k2 -> kbc_step d2 d3 k3 -> kbc_step d1 d3 k3.
Proof. intros [_ H1] [H2 H3]. split; [exact H2 | exact (touches_trans _ _ _ H1 H3)]. Qed.

(** The single operations. *)
Lemma command_step c d : is_byte c -> kbc_step d (port_byte_out REG_CMD c d) (kbc_command c (kbc_of d)).
Proof.
  intros Hc. unfold port_byte_out. change (u16 REG_CMD) with 0x64. rewrite u8_small by exact Hc. split; [now rewrite kbc_out|].
  apply (touches_out _ _ 0x64 c); [by apply (bool_decide_unpack _) | constructor].
Qed.

Lemma data_step v d : is_byte v -> kbc_step d (port_byte_out REG_DATA v d) (kbc_data v (kbc_of d)).
Proof.
  intros Hv. unfold port_byte_out. change (u16 REG_DATA) with 0x60. rewrite u8_small by exact Hv. split; [now rewrite kbc_out|].
  apply (touches_out _ _ 0x60 v); [by apply (bool_decide_unpack _) | constructor].
Qed.

Lemma wait_step d : kbc_step d (io_wait d) (kbc_of d).
Proof.
  unfold io_wait. split; [now rewrite kbc_out|]. apply (touches_out _ _ 0x80 0); [by apply (bool_decide_unpack _) | constructor].
Qed.

Lemma read_step d : exists d', port_byte_in REG_DATA d = (u8 (kbc_read (kbc_of d)).1, d') /\ kbc_step d d' (kbc_read (kbc_of d)).2.
Proof.
  destruct (kbc_in d) as [Hv Hk]. unfold port_byte_in. change (u16 REG_DATA) with 0x60. rewrite <- Hv.
  pose proof (touches_in kbd_ins kbd_outs 0x60 d (dev_in 0x60 d).2 ltac:(by apply (bool_decide_unpack _)) (touches_none _ _ _)) as Ht.
  destruct (dev_in 0x60 d) as [v d']. exists d'. now split.
Qed.

Lemma read_status_step d : exists s d', read_status d = (s, d') /\ kbc_step d d' (kbc_of d) /\
  tx_buf_status s = (if bool_decide (kbc_queue (kbc_of d) = []) then 0 else 1) /\ rx_buf_status s = 0 /\ Z.land s 2 = 0.
Proof.
  destruct (kbc_status d) as (H0 & H1 & Hk). unfold read_status, port_byte_in. change (u16 REG_STATUS) with 0x64.
  pose proof (touches_in kbd_ins kbd_outs 0x64 d (dev_in 0x64 d).2 ltac:(by apply (bool_decide_unpack _)) (touches_none _ _ _)) as Ht.
  destruct (dev_in 0x64 d) as [v d']. cbn [fst snd] in *. exists (u8 v), d'. split_and!; [reflexivity | now split | ..].
  - unfold tx_buf_status. rewrite bit_field, u8_bit, H0 by lia. now destruct (bool_decide _).
  - unfold rx_buf_status. rewrite bit_field, u8_bit, H1 by lia. reflexivity.
  - apply land_2_clear. rewrite u8_bit by lia. exact H1.
Qed.

(** With nothing in the output buffer a command's answer is the next byte. *)
Definition answered (x : Z) (k : kbc) : kbc :=
  mk_kbc (kbc_config k) (kbc_output_port k) [] x 0 (kbc_sent1 k) (kbc_sent2 k) (kbc_parts k).

Lemma ask_step c x d : is_byte c -> is_byte x -> kbc_queue (kbc_of d) = [] -> kbc_command c (kbc_of d) = queued [x] (kbc_of d) ->
  exists d', port_byte_in REG_DATA (port_byte_out REG_CMD c d) = (x, d') /\ kbc_step d d' (answered x (kbc_of d)).
Proof.
  intros Hc Hx Hq E. pose proof (command_step c d Hc) as H1. rewrite E in H1.
  destruct (read_step (port_byte_out REG_CMD c d)) as (d' & -> & H2). rewrite (proj1 H1) in H2 |- *.
  unfold queued, kbc_read in *. cbn [kbc_queue] in *. rewrite Hq in *. cbn [app fst snd] in *. rewrite u8_small by exact Hx.
  exists d'. split; [reflexivity | exact (kbc_step_then _ _ _ _ _ H1 H2)].
Qed.

Lemma read_config_step d : kbc_queue (kbc_of d) = [] -> is_byte (kbc_config (kbc_of d)) ->
  exists d', read_config d = (kbc_config (kbc_of d), d') /\ kbc_step d d' (answered (kbc_config (kbc_of d)) (kbc_of d)).
Proof. intros Hq Hc. apply ask_step; [done | exact Hc | exact Hq | reflexivity]. Qed.

Lemma write_config_step c d : is_byte c -> kbc_step d (write_config c d) (with_config c (kbc_of d)).
Proof.
  intros Hc. unfold write_config. pose proof (command_step CMD_CONFIG_WRITE d ltac:(done)) as H1.
  pose proof (data_step c (port_byte_out REG_CMD CMD_CONFIG_WRITE d) Hc) as H2. rewrite (proj1 H1) in H2.
  exact (kbc_step_then _ _ _ _ _ H1 H2).
Qed.

(** The output buffer is read until it is empty. *)
Definition flushed (k : kbc) : kbc :=
  mk_kbc (kbc_config k) (kbc_output_port k) [] (List.last (kbc_queue k) (kbc_last k)) (kbc_pending k) (kbc_sent1 k) (kbc_sent2 k) (kbc_parts k).

Lemma flush_loop q : forall fuel s d, kbc_queue (kbc_of d) = q -> tx_buf_status s = (if bool_decide (q = []) then 0 else 1) ->
  (length q <= fuel)%nat ->
  exists s' d', while fuel (fun '(status_reg, _) => negb (tx_buf_status status_reg =? PS2_BUF_STATUS_CLEAR))
    (fun '(_, d) => let d := io_wait d in let '(_, d) := port_byte_in REG_DATA d in Ok (read_status d)) (s, d) = Ok (s', d') /\
    kbc_step d d' (flushed (kbc_of d)).
Proof.
  induction q as [|x q IH]; intros fuel s d Hq Hs Hf.
  - exists s, d. split; [apply while_done; rewrite Hs; reflexivity|]. split; [|constructor].
    unfold flushed. rewrite Hq. cbn [List.last]. destruct (kbc_of d). cbn in Hq |- *. now rewrite Hq.
  - destruct fuel as [|fuel]; [simpl in Hf; lia|]. pose proof (wait_step d) as H1.
    destruct (read_step (io_wait d)) as (d1 & E1 & H2). rewrite (proj1 H1) in H2. unfold kbc_read in H2. rewrite Hq in H2. cbn [snd] in H2.
    destruct (read_status_step d1) as (s2 & d2 & E2 & H3 & Ht & _). rewrite (proj1 H2) in H3, Ht. cbn [kbc_queue] in Ht.
    destruct (IH fuel s2 d2) as (s' & d' & E & H4); [rewrite (proj1 H3); reflexivity | exact Ht | simpl in Hf; lia |].
    exists s', d'. split.
    + erewrite while_step; [exact E | rewrite Hs; reflexivity | cbv zeta; rewrite E1, E2; reflexivity].
    + rewrite (proj1 H3) in H4.
      pose proof (kbc_step_then _ _ _ _ _ H1 (kbc_step_then _ _ _ _ _ H2 (kbc_step_then _ _ _ _ _ H3 H4))) as H.
      unfold flushed in *. cbn in H. rewrite Hq. replace (List.last (x :: q) (kbc_last (kbc_of d))) with (List.last q x); [exact H|].
      clear. revert x. generalize (kbc_last (kbc_of d)) as z. induction q as [|y q IH]; intros z x; [reflexivity|].
      change (List.last (x :: y :: q) z) with (List.last (y :: q) z). rewrite <- (IH z y), <- (IH x y). reflexivity.
Qed.

Lemma flush_output_step fuel d : (length (kbc_queue (kbc_of d)) <= fuel)%nat ->
  exists d', flush_output fuel d = Ok d' /\ kbc_step d d' (flushed (kbc_of d)).
Proof.
  intros Hf. destruct (read_status_step d) as (s & d1 & E & H1 & Ht & _).
  destruct (flush_loop (kbc_queue (kbc_of d)) fuel s d1) as (s' & d' & E' & H2); [now rewrite (proj1 H1) | exact Ht | exact Hf |].
  exists d'. rewrite (proj1 H1) in H2. split; [|exact (kbc_step_then _ _ _ _ _ H1 H2)].
  unfold flush_output. rewrite E. exact (f_equal (fun o => st ← o; Ok st.2) E').
Qed.

(** A self test with one of its two results. *)
Lemma self_test_step fuel d : let r := self_test_result (kbc_parts (kbc_of d)) in
  kbc_queue (kbc_of d) = [] -> r = SELF_TEST_SUCCESS \/ r = SELF_TEST_FAILED ->
  exists d', i8042_self_test fuel d = Ok (r =? SELF_TEST_SUCCESS, d') /\ kbc_step d d' (answered r (kbc_of d)).
Proof.
  cbv zeta. intros Hq Hr. destruct (ask_step CMD_SELF_TEST (self_test_result (kbc_parts (kbc_of d))) d) as (d' & E & H);
    [done | destruct Hr as [-> | ->]; done | exact Hq | reflexivity |].
  exists d'. split; [|exact H]. unfold i8042_self_test. rewrite E.
  rewrite while_done by (destruct Hr as [-> | ->]; reflexivity). reflexivity.
Qed.

(** A byte for a device: the controller is ready at the first poll. *)
Lemma send_step port v ch d : is_byte v -> kbc_pending (kbc_of d) = 0 ->
  is_dual_channel ch = kbc_dual (kbc_of d) -> port = PORT1 \/ kbc_dual (kbc_of d) = true ->
  exists d', send_port port v ch d = Ok (true, d') /\ kbc_step d d' (sent_to port v (kbc_of d)).
Proof.
  intros Hv Hp Hc Hd. destruct (read_status_step d) as (s & d1 & E & H1 & _ & Hr & _).
  unfold send_port. rewrite E, Hc. replace (bool_decide (port = PORT2) && negb (kbc_dual (kbc_of d))) with false
    by (destruct Hd as [-> | ->]; [reflexivity | now rewrite andb_false_r]).
  set (d2 := if bool_decide (port = PORT2) then _ else d1).
  assert (kbc_step d d2 (if bool_decide (port = PORT2) then with_pending 0xD4 (kbc_of d) else kbc_of d)) as H2.
  { subst d2. destruct Hd as [-> | Hd]; [exact H1|]. destruct (bool_decide _); [|exact H1].
    pose proof (command_step CMD_WRITE_TO_PORT2 d1 ltac:(done)) as H2. rewrite (proj1 H1) in H2.
    unfold kbc_command in H2. rewrite Hd in H2. exact (kbc_step_then _ _ _ _ _ H1 H2). }
  unfold send_wait. rewrite while_done by (now rewrite Hr). rewrite bind_ok. cbv iota beta. change (PORT_SEND_NUM_RETRIES =? 0) with false.
  cbv iota. eexists. split; [reflexivity|]. pose proof (data_step v d2 Hv) as H3. rewrite (proj1 H2) in H3.
  pose proof (kbc_step_then _ _ _ _ _ H2 H3) as H4. destruct port; cbn [bool_decide] in H4.
  - unfold kbc_data in H4. change (bool_decide (PORT1 = PORT2)) with false in H4. cbv iota in H4. rewrite Hp in H4. exact H4.
  - unfold kbc_data in H4. change (bool_decide (PORT2 = PORT2)) with true in H4. cbv iota in H4. cbn in H4. exact H4.
Qed.

(** The second channel is found if it is there. *)
Lemma channel2_step d c : let k := kbc_of d in let e := stopped_config (kbc_dual k) c in
  is_byte c -> kbc_queue k = [] -> kbc_config k = e -> (kbc_dual k || Z.testbit c 5) = true ->
  exists d' x, is_channel2_present d = (kbc_dual k, d') /\ kbc_step d d' (with_config e (answered x k)).
Proof.
  cbv zeta. intros Hc Hq He H5. destruct (configs_are_bytes (kbc_dual (kbc_of d)) c Hc) as (_ & Be & Be5 & _ & _ & P & _ & HS).
  set (e := stopped_config _ c) in *. pose proof (command_step CMD_PORT2_ENABLE d ltac:(done)) as H1.
  set (d1 := port_byte_out REG_CMD CMD_PORT2_ENABLE d) in *. change (kbc_command CMD_PORT2_ENABLE (kbc_of d)) with
    (if kbc_dual (kbc_of d) then with_config (Z.clearbit (kbc_config (kbc_of d)) 5) (kbc_of d) else with_pending 0 (kbc_of d)) in H1.
  rewrite He in H1. set (x := if kbc_dual (kbc_of d) then Z.clearbit e 5 else e) in *.
  destruct (read_config_step d1) as (d2 & E & H2); [rewrite (proj1 H1); destruct (kbc_dual _); exact Hq | |].
  { rewrite (proj1 H1). destruct (kbc_dual _); [exact Be5 | cbn [kbc_config with_pending]; rewrite He; exact Be]. }
  assert (kbc_config (kbc_of d1) = x) as Ex by (rewrite (proj1 H1); destruct (kbc_dual _); [reflexivity | exact He]).
  pose proof (command_step CMD_PORT2_DISABLE d2 ltac:(done)) as H3. rewrite (proj1 H2), Ex, (proj1 H1) in H3. rewrite Ex in E.
  eexists _, x. unfold is_channel2_present. fold d1. rewrite E. split.
  - rewrite P. f_equal. destruct (kbc_dual (kbc_of d)); [reflexivity|]. cbn [orb] in H5. now rewrite H5.
  - eapply kbc_step_then; [exact H1|]. eapply kbc_step_then; [exact H2|]. split; [|apply H3]. rewrite (proj1 H3).
    unfold x. clear -He HS. change (kbc_command CMD_PORT2_DISABLE ?k) with
      (if kbc_dual k then with_config (Z.setbit (kbc_config k) 5) k else with_pending 0 k).
    unfold kbc_dual in *. destruct (has_channel2 (kbc_parts (kbc_of d))) eqn:Ed; cbn; rewrite Ed;
      unfold with_config, with_pending, answered; cbn; f_equal; auto.
Qed.

(** The tests of the ports there are. *)
Definition ports_pass (k : kbc) : bool :=
  (port_test_result (kbc_parts k) PORT1 =? 0) && (negb (kbc_dual k) || (port_test_result (kbc_parts k) PORT2 =? 0)).

Lemma test_ports_step ch d : let k := kbc_of d in
  kbc_queue k = [] -> is_byte (port_test_result (kbc_parts k) PORT1) -> is_byte (port_test_result (kbc_parts k) PORT2) ->
  is_dual_channel ch = kbc_dual k ->
  exists d' x, test_ports ch d = (ports_pass k, d') /\ kbc_step d d' (answered x k).
Proof.
  cbv zeta. intros Hq B1 B2 Hc. destruct (ask_step CMD_PORT1_TEST _ d ltac:(done) B1 Hq eq_refl) as (d1 & E1 & H1).
  unfold test_ports, ports_pass. rewrite E1, Hc. destruct (Z.eqb_spec (port_test_result (kbc_parts (kbc_of d)) PORT1) 0); [|eauto].
  cbn [negb andb]. destruct (kbc_dual (kbc_of d)) eqn:Ed; [|eauto]. cbn [negb orb].
  destruct (ask_step CMD_PORT2_TEST (port_test_result (kbc_parts (kbc_of d)) PORT2) d1) as (d2 & E2 & H2);
    [done | exact B2 | rewrite (proj1 H1); reflexivity | |].
  { rewrite (proj1 H1). change (kbc_command CMD_PORT2_TEST ?k) with
      (if kbc_dual k then queued [port_test_result (kbc_parts k) PORT2] k else with_pending 0 k).
    change (kbc_dual (answered ?x ?k)) with (kbc_dual k). rewrite Ed. reflexivity. }
  rewrite E2. rewrite (proj1 H1) in H2.
  exists d2, (port_test_result (kbc_parts (kbc_of d)) PORT2). split; [destruct (_ =? 0); reflexivity|].
  exact (kbc_step_then _ _ _ _ _ H1 H2).
Qed.

Lemma enable_ports_step d c : let k := kbc_of d in
  is_byte c -> kbc_queue k = [] -> kbc_config k = stopped_config (kbc_dual k) c ->
  kbc_step d (enable_ports d) (with_config (started_config (kbc_dual k) c) (answered (awake_config (kbc_dual k) (kbc_config k)) k)).
Proof.
  cbv zeta. intros Hc Hq He. destruct (configs_are_bytes (kbc_dual (kbc_of d)) c Hc) as (_ & _ & _ & Ba & Bs & _).
  unfold started_config in *. rewrite <- He in *. unfold enable_ports.
  pose proof (command_step CMD_PORT1_ENABLE d ltac:(done)) as H1. set (d1 := port_byte_out REG_CMD CMD_PORT1_ENABLE d) in *.
  pose proof (command_step CMD_PORT2_ENABLE d1 ltac:(done)) as H2. set (d2 := port_byte_out REG_CMD CMD_PORT2_ENABLE d1) in *.
  rewrite (proj1 H1) in H2. change (kbc_command CMD_PORT1_ENABLE ?k) with (with_config (Z.clearbit (kbc_config k) 4) k) in H1, H2.
  change (kbc_command CMD_PORT2_ENABLE ?k) with
    (if kbc_dual k then with_config (Z.clearbit (kbc_config k) 5) k else with_pending 0 k) in H2.
  change (kbc_dual (with_config ?x ?k)) with (kbc_dual k) in H2.
  assert (kbc_of d2 = with_config (awake_config (kbc_dual (kbc_of d)) (kbc_config (kbc_of d))) (kbc_of d)) as E2
    by (rewrite (proj1 H2); unfold awake_config; destruct (kbc_dual _); reflexivity).
  destruct (read_config_step d2) as (d3 & E3 & H3); [rewrite E2; exact Hq | rewrite E2; exact Ba |].
  rewrite E3. cbv zeta. rewrite E2 in H3 |- *. cbn [kbc_config with_config] in *.
  pose proof (write_config_step (on_config (awake_config (kbc_dual (kbc_of d)) (kbc_config (kbc_of d)))) d3 Bs) as H4.
  rewrite (proj1 H3) in H4.
  exact (kbc_step_then _ _ _ _ _ H1 (kbc_step_then _ _ _ _ _ H2 (kbc_step_then _ _ _ _ _ H3 H4))).
Qed.

(** A reset for each device there is. *)
Definition reset_sent (k : kbc) : kbc :=
  let k := sent_to PORT1 DEVICE_CMD_RESET k in if kbc_dual k then sent_to PORT2 DEVICE_CMD_RESET k else k.

Lemma reset_devices_step ch d : kbc_pending (kbc_of d) = 0 -> is_dual_channel ch = kbc_dual (kbc_of d) ->
  exists d', reset_devices ch d = Ok (true, d') /\ kbc_step d d' (reset_sent (kbc_of d)).
Proof.
  intros Hp Hc. destruct (send_step PORT1 DEVICE_CMD_RESET ch d ltac:(done) Hp Hc (or_introl eq_refl)) as (d1 & E1 & H1).
  unfold reset_devices, reset_sent. rewrite E1, bind_ok, Hc. cbn [negb]. cbv zeta.
  change (kbc_dual (sent_to PORT1 DEVICE_CMD_RESET (kbc_of d))) with (kbc_dual (kbc_of d)).
  destruct (kbc_dual (kbc_of d)) eqn:Ed; [|eauto].
  destruct (send_step PORT2 DEVICE_CMD_RESET ch d1) as (d2 & E2 & H2); [done | rewrite (proj1 H1); reflexivity | | |].
  { rewrite (proj1 H1), Hc. change (true = kbc_dual (kbc_of d)). now rewrite Ed. }
  { right. rewrite (proj1 H1). exact Ed. }
  rewrite (proj1 H1) in H2. exists d2. split; [exact E2 | exact (kbc_step_then _ _ _ _ _ H1 H2)].
Qed.

End Steps.
