(* ===== verification/Console.v ===== *)
(** * What the kernel's messages put on the screen

    [say] prints a string literal of the sources through [printf].
    [console_env] is what the kernel relies on there: the literals are in
    memory, apart from the buffer of [printf] and from the screen, and the
    cursor is on the screen.  [say_shows] composes: a message takes the console
    from one state to the next and keeps the environment. *)

From S2P Require Import Prelude Memory Util Ports Screen Printf PrintfNumber PrintfProps Literals Interrupts Ps2.

(** Eight hexadecimal digits, as "%08x" prints them. *)
Definition hex8 (x : Z) : list Z := number_text (i32 x) 16 8 (-1) (Z.lor ZEROPAD SMALL).

Lemma hex8_digits x : 0 <= x < 0x100000000 ->
  exists ds, hex8 x = rev (map (digit_char SMALL) ds) /\ length ds = 8%nat /\ Forall (fun d => 0 <= d < 16) ds /\ base_val 16 ds = x.
Proof.
  intros Hx. assert (magnitude (i32 x) (Z.lor ZEROPAD SMALL) = x) as Em.
  { unfold magnitude. change (has (Z.lor ZEROPAD SMALL) SIGN) with false. cbv iota. zlia. }
  destruct (base_le_count 32 16 x) as (H1 & H2 & H3); [lia | | lia |].
  { pose proof (Z.pow_le_mono_l 2 16 32 ltac:(lia)). change (Z.of_nat 32) with 32. change (2 ^ 32) with 0x100000000 in *. lia. }
  set (n := Z.of_nat (length (base_le 32 16 x))) in *.
  assert (n <= 8) as Hn8.
  { destruct (Z.le_gt_cases n 8); [assumption|]. specialize (H3 ltac:(lia)).
    assert (16 ^ 8 <= 16 ^ (n - 1)) by (apply Z.pow_le_mono_r; lia). change (16 ^ 8) with 0x100000000 in *. lia. }
  exists (base_le 32 16 x ++ replicate (Z.to_nat (8 - n)) 0). split_and!.
  - unfold hex8, number_text. rewrite Em. change (Z.land (Z.lor ZEROPAD SMALL) SMALL) with SMALL in *.
    unfold sign_text, prefix_text. change (has (Z.lor ZEROPAD SMALL) SIGN) with false. change (has (Z.lor ZEROPAD SMALL) SPECIAL) with false.
    change (has (Z.lor ZEROPAD SMALL) LEFT) with false. change (has (Z.lor ZEROPAD SMALL) ZEROPAD) with true. cbv iota zeta. cbn [app length].
    unfold digit_text. change (Z.land (Z.lor ZEROPAD SMALL) SMALL) with SMALL. rewrite length_app, length_replicate, length_rev, length_map, map_app, rev_app_distr.
    assert (forall k, rev (map (digit_char SMALL) (replicate k 0)) = replicate k 48) as Hr.
    { intros k. induction k as [|k IH]; [reflexivity|]. cbn [replicate map rev]. rewrite IH.
      change (digit_char SMALL 0) with 48. clear. induction k as [|k IH]; [reflexivity|]. cbn [replicate app]. now rewrite IH. }
    rewrite Hr. unfold n in *. set (c := length (base_le 32 16 x)) in *.
    replace (Z.to_nat (-1 - Z.of_nat c)) with 0%nat by lia. cbn [replicate app]. do 2 f_equal; lia.
  - rewrite length_app, length_replicate. lia.
  - apply Forall_app. split; [apply base_le_range; lia | apply Forall_replicate; lia].
  - assert (forall l k, base_val 16 (l ++ replicate k 0) = base_val 16 l) as Hz.
    { intros l k. induction l as [|d l IH]; cbn [app base_val]; [|now rewrite IH].
      induction k as [|k IH]; [reflexivity|]. cbn [replicate base_val]. rewrite IH. reflexivity. }
    rewrite Hz. apply base_le_val; [lia|].
    pose proof (Z.pow_le_mono_l 2 16 32 ltac:(lia)). change (Z.of_nat 32) with 32. change (2 ^ 32) with 0x100000000 in *. lia.
Qed.

Lemma hex8_text x : 0 <= x < 0x100000000 -> Z.of_nat (length (hex8 x)) = 8 /\ Forall (fun c => 0 < c < 0x100) (hex8 x).
Proof.
  intros Hx. destruct (hex8_digits x Hx) as (ds & E & Hl & _). split; [|apply number_text_range; lia].
  rewrite E, length_rev, length_map, Hl. reflexivity.
Qed.

(** The console is at [t]. *)
Definition shows {D : Type} `{HasCrtc D} (m : mem) (d : D) (t : console) : Prop :=
  cursor d = t.1 /\ same_screen t.2 (screen_of m).

Section Say.
Context {D : Type} `{HP : PortDevice D} `{!HasCrtc D}.
Context (lit : string -> Z) (printf_buf : Z) (fuel : nat) (texts : list string).

(** The strings that [%s] may be given. *)
Definition literals (a : Z) : option (list Z) := str_bytes <$> List.find (fun s => lit s =? a) texts.

(** A literal is clear of the buffer and of the screen, and has an address. *)
Definition literal_ok (s : string) : Prop :=
  let n := Z.of_nat (length (str_bytes s)) + 1 in
  (lit s + n <= printf_buf \/ printf_buf + PRINTF_BUF_SIZE <= lit s) /\ off_video (lit s) n /\ n <= Z.of_nat fuel /\
  0 <= lit s < 0x100000000.

Record console_env (m : mem) (d : D) : Prop := {
  ce_placed : placed lit m texts;
  ce_literals : Forall literal_ok texts;
  ce_buffer : off_video printf_buf PRINTF_BUF_SIZE;
  ce_fuel : (Z.to_nat PRINTF_BUF_SIZE <= fuel)%nat;
  ce_cursor : on_screen (cursor d);
  ce_bytes : cursor_bytes d;
}.

(** The buffer and the screen are all that changes. *)
Definition console_frame (m m' : mem) : Prop :=
  forall x, (x < printf_buf \/ printf_buf + PRINTF_BUF_SIZE <= x) -> (x < VIDEO_ADDRESS \/ VIDEO_ADDRESS + SCREEN_BYTES <= x) ->
    load8 m' x = load8 m x.

Lemma console_frame_trans m1 m2 m3 : console_frame m1 m2 -> console_frame m2 m3 -> console_frame m1 m3.
Proof. intros H1 H2 x Ha Hb. rewrite H2, H1; auto. Qed.

Lemma cstring_kept m m' a l :
  console_frame m m' -> (a + Z.of_nat (length l) + 1 <= printf_buf \/ printf_buf + PRINTF_BUF_SIZE <= a) ->
  off_video a (Z.of_nat (length l) + 1) -> cstring m a l -> cstring m' a l.
Proof.
  intros Hfr Hb Hv [Hl Hn]. split; [|exact Hn]. rewrite bytes_at_lookup in *. intros i x Hx. rewrite <- (Hl i x Hx).
  pose proof (lookup_lt_Some _ _ _ Hx) as Hlt. rewrite length_app in Hlt. cbn [length] in Hlt. unfold off_video in Hv. apply Hfr; lia.
Qed.

Lemma say_only_screen (text : string) (args : list Z) (m m' : mem) (d d' : D) :
  say lit printf_buf fuel text args m d = Ok (m', d') -> only_screen d d'.
Proof.
  unfold say, printf. intros E. apply bind_inv in E as ([[n m1] d1] & E & [= _ <-]). apply bind_inv in E as ([m2 k] & _ & E).
  apply bind_inv in E as ([m3 d2] & E & [= _ _ <-]). exact (kprint_only _ _ _ _ _ _ E).
Qed.

(** One message. *)
Lemma say_shows (m : mem) (d : D) (t : console) (text : string) (ps : list piece) (args out : list Z) :
  console_env m d -> shows m d t -> text ∈ texts -> format_text ps = str_bytes text -> Forall piece_ok ps ->
  render literals ps args = Some out -> Z.of_nat (length out) < PRINTF_BUF_SIZE -> Forall (fun x => 0 < x < 0x100) out ->
  exists m' d', say lit printf_buf fuel text args m d = Ok (m', d') /\ console_env m' d' /\
    shows m' d' (console_text t out) /\ console_frame m m' /\ only_screen d d'.
Proof.
  intros [Hpl Hlit Hbuf Hfuel Hcur Hby] [Ht1 Ht2] Hin Hps Hok Hr Hlen Hout. pose proof Hlit as Hlit'. rewrite Forall_forall in Hlit.
  pose proof (placed_in _ _ _ _ Hpl Hin) as Hs. destruct (Hlit _ Hin) as (Ha & Hv & Hf & _). rewrite <- Hps in Hs, Ha, Hv, Hf.
  unfold PRINTF_BUF_SIZE in *. cbv zeta in Ha, Hv, Hf.
  destruct (printf_spec literals fuel m d printf_buf (lit text) ps args out) as (m' & d' & E & Hc & Hsh & Hcs & Hcb & Hfr);
    try assumption; try lia.
  { intros a l Hl. unfold literals in Hl. destruct (List.find _ texts) as [s|] eqn:Ef; [|discriminate]. injection Hl as <-.
    apply List.find_some in Ef as [Hs1 Hs2]. apply Z.eqb_eq in Hs2 as <-. apply list_elem_of_In in Hs1.
    destruct (Hlit _ Hs1) as (Ha1 & _ & Hf1 & _). cbv zeta in Ha1, Hf1. unfold PRINTF_BUF_SIZE in Ha1.
    split_and!; [exact (placed_in _ _ _ _ Hpl Hs1) | lia | unfold apart; lia]. }
  { unfold apart. lia. }
  { unfold off_video in *. lia. }
  assert (console_frame m m') as Hframe.
  { intros x H1 H2. unfold PRINTF_BUF_SIZE in H1. rewrite Hfr by lia. apply load8_store_bytes_out. rewrite length_app. cbn [length]. lia. }
  assert (say lit printf_buf fuel text args m d = Ok (m', d')) as Esay by (unfold say; rewrite E; reflexivity).
  exists m', d'. split_and!; [exact Esay | | | exact Hframe | exact (say_only_screen _ _ _ _ _ _ Esay)].
  - split; try assumption. unfold placed in *. rewrite Forall_forall in *. intros s Hs'.
    destruct (Hlit _ Hs') as (Ha1 & Hv1 & _). cbv zeta in Ha1, Hv1.
    apply (cstring_kept m); [exact Hframe | lia | exact Hv1 | apply Hpl, Hs'].
  - destruct t as [off s]. cbn [fst snd] in Ht1, Ht2. subst off. split.
    + rewrite Hc, !console_text_cursor. reflexivity.
    + intros x Hx. rewrite (Hsh x Hx). now apply console_text_same.
Qed.

(** A literal is the string at its address. *)
Lemma literals_at (m : mem) (d : D) s : console_env m d -> s ∈ texts -> literals (u32 (lit s)) = Some (str_bytes s).
Proof.
  intros He Hs. pose proof (ce_literals _ _ He) as Hl. rewrite Forall_forall in Hl.
  destruct (Hl _ Hs) as (_ & _ & _ & Hr). rewrite u32_small by exact Hr. unfold literals.
  destruct (List.find _ texts) as [s'|] eqn:Ef.
  - apply List.find_some in Ef as [Hs' Ha]. apply Z.eqb_eq in Ha. apply list_elem_of_In in Hs'. cbn [fmap option_fmap option_map]. f_equal.
    apply (cstring_inj m (lit s)); [rewrite <- Ha|]; apply (placed_in _ _ _ _ (ce_placed _ _ He)); assumption.
  - exfalso. apply list_elem_of_In in Hs. apply (List.find_none _ _ Ef) in Hs. rewrite Z.eqb_refl in Hs. discriminate.
Qed.

End Say.

(** ** Other writes to memory *)

Section Stores.
Context {D : Type} `{HP : PortDevice D} `{!HasCrtc D}.
Context (lit : string -> Z) (printf_buf : Z) (fuel : nat) (texts : list string).

(** The [n] bytes at [a] are clear of the literals and of the screen. *)
Definition clear_of_console (a n : Z) : Prop :=
  Forall (fun s => lit s + Z.of_nat (length (str_bytes s)) + 1 <= a \/ a + n <= lit s) texts /\ off_video a n.

Lemma console_env_but (a n : Z) (m m' : mem) (d : D) (t : console) :
  same_but a n m m' -> clear_of_console a n -> console_env lit printf_buf fuel texts m d -> shows m d t ->
  console_env lit printf_buf fuel texts m' d /\ shows m' d t.
Proof.
  intros Hfr [Hl Hv] [Hpl Hlit Hbuf Hfuel Hcur Hby] [Ht1 Ht2]. split.
  - split; try assumption. eapply placed_frame; [exact Hpl | exact Hfr | exact Hl].
  - split; [exact Ht1|]. intros x Hx. unfold screen_of. rewrite Hfr by (unfold off_video in Hv; lia). apply Ht2, Hx.
Qed.

(** A device whose display controller is the same. *)
Lemma console_env_device (m : mem) (d d' : D) (t : console) : crtc_of d' = crtc_of d ->
  console_env lit printf_buf fuel texts m d -> shows m d t -> console_env lit printf_buf fuel texts m d' /\ shows m d' t.
Proof.
  intros Hc [E1 E2 E3 E4 E5 E6] [S1 S2]. assert (cursor d' = cursor d) as Hcur by (unfold cursor; now rewrite Hc). split.
  - split; try assumption; [now rewrite Hcur | unfold cursor_bytes; now rewrite Hc].
  - split; [now rewrite Hcur | exact S2].
Qed.

End Stores.

(** ** Texts *)

(** The pieces of a text without conversions. *)
Definition lits (s : string) : list piece := map Lit (str_bytes s).

Definition plain (s : string) : bool := forallb (fun c => (0 <? c) && (c <? 0x100) && negb (c =? 37)) (str_bytes s).

Lemma lits_format s ps : format_text (lits s ++ ps) = str_bytes s ++ format_text ps.
Proof.
  unfold lits, format_text. rewrite map_app, concat_app. f_equal. rewrite map_map. cbn [piece_format].
  induction (str_bytes s) as [|c l IH]; [reflexivity|]. cbn [map concat app]. now rewrite IH.
Qed.

Lemma lits_ok s : plain s = true -> Forall piece_ok (lits s) /\ Forall (fun x => 0 < x < 0x100) (str_bytes s).
Proof.
  unfold plain, lits. intros H. rewrite forallb_forall in H.
  split; [apply Forall_map|]; apply Forall_forall; intros c Hc; apply list_elem_of_In, H in Hc; simpl; lia.
Qed.

Lemma render_lits strs s ps args : render strs (lits s ++ ps) args = app (str_bytes s) <$> render strs ps args.
Proof.
  unfold lits. induction (str_bytes s) as [|c l IH]; cbn [map app].
  - destruct (render strs ps args); reflexivity.
  - cbn [render piece_text mbind option_bind]. cbn [fst snd]. rewrite IH. destruct (render strs ps args); reflexivity.
Qed.

(** "%08x", "%s" and "%d". *)
Definition hex8_piece : piece := Dir [FZero] (Number 8) Absent NoQual Cx.

Definition string_piece : piece := Dir [] Absent Absent NoQual Cs.

Definition int_piece : piece := Dir [] Absent Absent NoQual Cd.

Lemma render_hex8 strs ps x args : render strs (hex8_piece :: ps) (x :: args) = app (hex8 x) <$> render strs ps args.
Proof.
  change (render strs (hex8_piece :: ps) (x :: args)) with (out ← render strs ps args; Some (hex8 x ++ out)).
  destruct (render strs ps args); reflexivity.
Qed.

Lemma render_string strs ps a l args : strs (u32 a) = Some l ->
  render strs (string_piece :: ps) (a :: args) = app l <$> render strs ps args.
Proof.
  intros E. assert (piece_text strs string_piece (a :: args) = Some (l, args)) as Ep.
  { change (piece_text strs string_piece (a :: args)) with (l ← strs (u32 a); Some (field false (-1) l, args)). rewrite E.
    cbn [mbind option_bind]. unfold field. replace (Z.to_nat (-1 - Z.of_nat (length l))) with 0%nat by lia. reflexivity. }
  cbn [render]. rewrite Ep. cbn [mbind option_bind fst snd]. destruct (render strs ps args); reflexivity.
Qed.

Lemma render_decimal strs ps n args : - 0x80000000 <= n < 0x80000000 ->
  render strs (int_piece :: ps) (n :: args) = app (render_int n) <$> render strs ps args.
Proof.
  intros Hn. change (render strs (int_piece :: ps) (n :: args)) with (out ← render strs ps args; Some (number_text (i32 n) 10 (-1) (-1) SIGN ++ out)).
  rewrite i32_small, number_text_decimal by exact Hn. destruct (render strs ps args); reflexivity.
Qed.

Lemma console_text_app t l1 l2 : console_text (console_text t l1) l2 = console_text t (l1 ++ l2).
Proof. symmetry. apply fold_left_app. Qed.

Lemma render_int_text n : - 0x80000000 <= n < 0x80000000 ->
  Z.of_nat (length (render_int n)) <= 11 /\ Forall (fun c => 0 < c < 0x100) (render_int n).
Proof.
  intros Hn. split; [|rewrite <- number_text_decimal by exact Hn; apply number_text_range; lia].
  unfold render_int. rewrite length_app, length_rev. pose proof (dec_le_length 10 (Z.abs n)). destruct (n <? 0); cbn [length]; lia.
Qed.

Section Plain.
Context {D : Type} `{HP : PortDevice D} `{!HasCrtc D}.
Context (lit : string -> Z) (printf_buf : Z) (fuel : nat) (texts : list string).

(** [f] returns and puts [out] on the console. *)
Definition prints (f : mem -> D -> outcome (mem * D)) (out : list Z) : Prop :=
  forall m d t, console_env lit printf_buf fuel texts m d -> shows m d t ->
  exists m' d', f m d = Ok (m', d') /\ console_env lit printf_buf fuel texts m' d' /\
    shows m' d' (console_text t out) /\ console_frame printf_buf m m' /\ only_screen d d'.

Lemma prints_nothing : prints (fun m d => Ok (m, d)) [].
Proof. intros m d t He Ht. exists m, d. split_and!; try assumption; [reflexivity | intros x _ _; reflexivity | constructor]. Qed.

Lemma prints_then f k out1 out2 : prints f out1 -> prints (fun m d => k (m, d)) out2 ->
  prints (fun m d => f m d ≫= k) (out1 ++ out2).
Proof.
  intros Hf Hg m d t He Ht. destruct (Hf m d t He Ht) as (m1 & d1 & E1 & He1 & Ht1 & Hfr1 & Hp1).
  destruct (Hg m1 d1 _ He1 Ht1) as (m2 & d2 & E2 & He2 & Ht2 & Hfr2 & Hp2). rewrite console_text_app in Ht2.
  exists m2, d2. split_and!; [rewrite E1; exact E2 | exact He2 | exact Ht2 | eapply console_frame_trans; eassumption | exact (touches_trans _ _ _ Hp1 Hp2)].
Qed.

Lemma prints_when (b : bool) f out : prints f out -> prints (fun m d => if b then f m d else Ok (m, d)) (if b then out else []).
Proof. destruct b; [auto | intros _; apply prints_nothing]. Qed.

(** [kprint] of a string that is clear of the screen. *)
Lemma kprint_shows (m : mem) (d : D) (t : console) (a : Z) (l : list Z) :
  console_env lit printf_buf fuel texts m d -> shows m d t -> cstring m a l -> off_video a (Z.of_nat (length l) + 1) -> (length l <= fuel)%nat ->
  exists m' d', kprint fuel a m d = Ok (m', d') /\ console_env lit printf_buf fuel texts m' d' /\
    shows m' d' (console_text t l) /\ same_but VIDEO_ADDRESS SCREEN_BYTES m m' /\ only_screen d d'.
Proof.
  intros [Hpl Hlit Hbuf Hfuel Hcur Hby] [Ht1 Ht2] Hs Hv Hf.
  destruct (kprint_spec fuel a l m d Hs Hv Hcur Hby Hf) as (m' & d' & E & Hc & Ho & Hb & Hfr & Hsh).
  exists m', d'. split_and!; [exact E | | | exact Hfr | exact (kprint_only _ _ _ _ _ _ E)].
  - split; try assumption. unfold placed in *. rewrite Forall_forall in *. intros s Hin.
    destruct (Hlit _ Hin) as (_ & Hv1 & _). cbv zeta in Hv1. destruct (Hpl s Hin) as [Hl Hn]. split; [|exact Hn].
    revert Hl. apply (same_but_bytes_at VIDEO_ADDRESS SCREEN_BYTES); [exact Hfr|]. rewrite length_app. cbn [length]. unfold off_video in Hv1. lia.
  - destruct t as [off s]. cbn [fst snd] in Ht1, Ht2. subst off. split.
    + rewrite Hc, console_text_cursor. reflexivity.
    + intros x Hx. rewrite (Hsh x Hx). now apply console_text_same.
Qed.

(** A message without conversions. *)
Lemma say_plain text : text ∈ texts -> plain text = true -> Z.of_nat (length (str_bytes text)) < PRINTF_BUF_SIZE ->
  prints (say lit printf_buf fuel text []) (str_bytes text).
Proof.
  intros Hin Hp Hlen m d t He Ht. destruct (lits_ok _ Hp) as [Hok Hr].
  apply (say_shows lit printf_buf fuel texts m d t text (lits text) []); try assumption.
  - rewrite <- (app_nil_r (lits text)), lits_format. cbn. apply app_nil_r.
  - rewrite <- (app_nil_r (lits text)), render_lits. cbn. now rewrite app_nil_r.
Qed.

Lemma say_hex8 (text before after : string) (x : Z) :
  text ∈ texts -> text = (before +:+ "%08x" +:+ after)%string ->
  plain before = true -> plain after = true -> Z.of_nat (length (str_bytes text)) + 4 < PRINTF_BUF_SIZE -> 0 <= x < 0x100000000 ->
  prints (say lit printf_buf fuel text [x]) (str_bytes before ++ hex8 x ++ str_bytes after).
Proof.
  intros Hin -> Hb Ha Hlen Hx m d t He Ht. destruct (lits_ok _ Hb) as [Hok1 Hr1], (lits_ok _ Ha) as [Hok2 Hr2].
  destruct (hex8_text x Hx) as [Hl8 Hr8]. rewrite !str_bytes_app, !length_app in Hlen.
  change (length (str_bytes "%08x")) with 4%nat in Hlen.
  apply (say_shows lit printf_buf fuel texts m d t _ (lits before ++ hex8_piece :: lits after) [x]); try assumption.
  - rewrite lits_format, !str_bytes_app. f_equal. rewrite <- (app_nil_r (lits after)).
    change (format_text (hex8_piece :: lits after ++ [])) with (str_bytes "%08x" ++ format_text (lits after ++ [])).
    rewrite lits_format. cbn [format_text map concat]. now rewrite app_nil_r.
  - apply Forall_app. split; [exact Hok1|]. constructor; [|exact Hok2]. simpl. lia.
  - rewrite render_lits. rewrite <- (app_nil_r (lits after)).
    rewrite render_hex8, render_lits. cbn. now rewrite app_nil_r.
  - rewrite !length_app. lia.
  - rewrite !Forall_app. auto.
Qed.

Lemma say_decimal (text before after : string) (n : Z) :
  text ∈ texts -> text = (before +:+ "%d" +:+ after)%string ->
  plain before = true -> plain after = true -> Z.of_nat (length (str_bytes text)) + 9 < PRINTF_BUF_SIZE -> - 0x80000000 <= n < 0x80000000 ->
  prints (say lit printf_buf fuel text [n]) (str_bytes before ++ render_int n ++ str_bytes after).
Proof.
  intros Hin -> Hb Ha Hlen Hn m d t He Ht. destruct (lits_ok _ Hb) as [Hok1 Hr1], (lits_ok _ Ha) as [Hok2 Hr2].
  destruct (render_int_text n Hn) as [Hln Hrn]. rewrite !str_bytes_app, !length_app in Hlen.
  change (length (str_bytes "%d")) with 2%nat in Hlen.
  apply (say_shows lit printf_buf fuel texts m d t _ (lits before ++ int_piece :: lits after) [n]); try assumption.
  - rewrite lits_format, !str_bytes_app. f_equal. rewrite <- (app_nil_r (lits after)).
    change (format_text (int_piece :: lits after ++ [])) with (str_bytes "%d" ++ format_text (lits after ++ [])).
    rewrite lits_format. cbn [format_text map concat]. now rewrite app_nil_r.
  - apply Forall_app. split; [exact Hok1|]. constructor; [|exact Hok2]. simpl. lia.
  - rewrite render_lits. rewrite <- (app_nil_r (lits after)).
    rewrite render_decimal, render_lits by exact Hn. cbn. now rewrite app_nil_r.
  - rewrite !length_app. lia.
  - rewrite !Forall_app. auto.
Qed.

(** ** Panics *)

Definition panic_format : string := "PANIC(%s) at %s : %d" +:+ nl.

Definition panic_says (message file : string) (line : Z) (m : mem) (d : D) : outcome (mem * D) :=
  say lit printf_buf fuel panic_format [lit message; lit file; line] m d.

(** [PANIC(message)] with what it prints: it does not return. *)
Definition panic_at {A : Type} (message file : string) (line : Z) (m : mem) (d : D) : outcome A :=
  _ ← panic_says message file line m d; panic message file line.

Definition assert_format : string := "Assertion Failed - %s at %s : %d" +:+ nl.

Definition assert_says (file : string) (line : Z) (desc : string) (m : mem) (d : D) : outcome (mem * D) :=
  say lit printf_buf fuel assert_format [lit desc; lit file; line] m d.

(** A function for the command line to call, with its two arguments; an [int]
    that overflows is undefined. *)
Definition sum_of_numbers (a b : Z) (m : mem) (d : D) : outcome (mem * D) :=
  if i32 (a + b) =? a + b then say lit printf_buf fuel ("c = %d" +:+ nl) [a + b] m d else Undef "signed overflow".

Definition panic_text (message file : string) (line : Z) : list Z :=
  str_bytes "PANIC(" ++ str_bytes message ++ str_bytes ") at " ++ str_bytes file ++ str_bytes " : " ++ render_int line ++ str_bytes nl.

Lemma panic_says_prints (message file : string) (line : Z) :
  panic_format ∈ texts -> message ∈ texts -> file ∈ texts -> plain message = true -> plain file = true ->
  - 0x80000000 <= line < 0x80000000 -> Z.of_nat (length (str_bytes message) + length (str_bytes file)) < 900 ->
  prints (panic_says message file line) (panic_text message file line).
Proof.
  intros Hin Hm Hf Hpm Hpf Hl Hlen m d t He Ht.
  pose proof (literals_at lit printf_buf fuel texts m d _ He Hm) as Em. pose proof (literals_at lit printf_buf fuel texts m d _ He Hf) as Ef.
  destruct (render_int_text line Hl) as [Hil Hir].
  apply (say_shows lit printf_buf fuel texts m d t panic_format
    (lits "PANIC(" ++ string_piece :: (lits ") at " ++ string_piece :: (lits " : " ++ int_piece :: lits nl))) _); try assumption.
  - reflexivity.
  - repeat constructor; vm_compute; (discriminate || auto).
  - rewrite render_lits, (render_string _ _ _ _ _ Em), render_lits, (render_string _ _ _ _ _ Ef), render_lits, render_decimal by exact Hl.
    reflexivity.
  - unfold panic_text, PRINTF_BUF_SIZE. rewrite !length_app. simpl. lia.
  - destruct (lits_ok _ Hpm) as [_ H1], (lits_ok _ Hpf) as [_ H2]. unfold panic_text. rewrite !Forall_app.
    split_and!; try assumption; repeat constructor.
Qed.

(** A panic prints its message and ends there. *)
Lemma panic_at_panics {A : Type} (message file : string) (line : Z) (m : mem) (d : D) (t : console) :
  prints (panic_says message file line) (panic_text message file line) ->
  console_env lit printf_buf fuel texts m d -> shows m d t ->
  @panic_at A message file line m d = Panic message file line.
Proof. intros Hp He Ht. destruct (Hp m d t He Ht) as (m' & d' & E & _). unfold panic_at. rewrite E. reflexivity. Qed.

End Plain.
