(* ===== verification/Faults.v ===== *)
(** * The fault handlers

    [page_fault] of cpu/paging.c, [general_fault] of kernel/kernel.c and the
    breakpoint handler of cpu/isr.c, with what they print.  The first two end
    in a panic. *)

From S2P Require Import Prelude Memory Util Ports Screen Kernel Paging Printf PrintfNumber.
From S2P Require Import PrintfProps Directories Literals Interrupts Ps2 Console.

Section Faults.
Context {D : Type} `{HP : PortDevice D}.
Context (lit : string -> Z) (printf_buf : Z) (fuel : nat).

Let say := say lit printf_buf fuel.

(** [cr2] is the address that faulted.  The handler calls [present] what is
    set when the page is not present. *)
Definition page_fault_says (cr2 : Z) (regs : registers_t) (m : mem) (d : D) : outcome (mem * D) :=
  let present := Z.land (r_err_code regs) 0x1 =? 0 in
  let rw := negb (Z.land (r_err_code regs) 0x2 =? 0) in
  let us := negb (Z.land (r_err_code regs) 0x4 =? 0) in
  let reserved := negb (Z.land (r_err_code regs) 0x8 =? 0) in
  r ← say "Page fault! ( " [] m d;
  r ← (if present then say "present " [] r.1 r.2 else Ok (r.1, r.2));
  r ← (if rw then say "read-only " [] r.1 r.2 else Ok (r.1, r.2));
  r ← (if us then say "user-mode " [] r.1 r.2 else Ok (r.1, r.2));
  r ← (if reserved then say "reserved " [] r.1 r.2 else Ok (r.1, r.2));
  r ← say ") at 0x%08x" [cr2] r.1 r.2;
  r ← say nl [] r.1 r.2;
  say ("Fault At address 0x%08x" +:+ nl) [r_eip regs] r.1 r.2.

Definition page_fault {A : Type} (cr2 : Z) (regs : registers_t) (m : mem) (d : D) : outcome A :=
  r ← page_fault_says cr2 regs m d;
  panic_at lit printf_buf fuel "Page fault" "cpu/paging.c" 233 r.1 r.2.

Definition general_fault {A : Type} (regs : registers_t) (m : mem) (d : D) : outcome A :=
  r ← say ("Error flag is 0x%08x " +:+ nl) [r_err_code regs] m d;
  panic_at lit printf_buf fuel "General fault" "kernel/kernel.c" 51 r.1 r.2.

Definition isr3_handler (m : mem) (d : D) : outcome (mem * D) :=
  kprint fuel (lit ("received interrupt 3" +:+ nl)) m d.

End Faults.

(** ** What they print *)

(** The literals of the two handlers. *)
Definition fault_texts : list string :=
  ["Page fault! ( "; "present "; "read-only "; "user-mode "; "reserved "; ") at 0x%08x"; nl; "Fault At address 0x%08x" +:+ nl;
   panic_format; "Page fault"; "cpu/paging.c"; "Error flag is 0x%08x " +:+ nl; "General fault"; "kernel/kernel.c"]%string.

(** The words for an error code. *)
Definition page_fault_words (err_code : Z) : list string :=
  (if Z.land err_code 0x1 =? 0 then ["present "%string] else []) ++
  (if negb (Z.land err_code 0x2 =? 0) then ["read-only "%string] else []) ++
  (if negb (Z.land err_code 0x4 =? 0) then ["user-mode "%string] else []) ++
  (if negb (Z.land err_code 0x8 =? 0) then ["reserved "%string] else []).

Definition page_fault_text (cr2 : Z) (regs : registers_t) : list Z :=
  str_bytes "Page fault! ( " ++ concat (map str_bytes (page_fault_words (r_err_code regs))) ++
  str_bytes ") at 0x" ++ hex8 cr2 ++ str_bytes nl ++ str_bytes "Fault At address 0x" ++ hex8 (r_eip regs) ++ str_bytes nl.

Definition general_fault_text (regs : registers_t) : list Z :=
  str_bytes "Error flag is 0x" ++ hex8 (r_err_code regs) ++ str_bytes (" " +:+ nl).

Section Reports.
Context {D : Type} `{HP : PortDevice D} `{!HasCrtc D}.
Context (lit : string -> Z) (printf_buf : Z) (fuel : nat) (texts : list string).
Context (Htexts : forall s, s ∈ fault_texts -> s ∈ texts).

Let prints := prints (D := D) lit printf_buf fuel texts.

(** [s] is one of the literals. *)
Ltac literal := apply Htexts; apply (bool_decide_unpack _); vm_compute; exact I.

(** The first of a sequence of messages. *)
Ltac next_text := apply prints_then; cbn [fst snd].

Lemma page_fault_prints (cr2 : Z) (regs : registers_t) : 0 <= cr2 < 0x100000000 -> 0 <= r_eip regs < 0x100000000 ->
  prints (page_fault_says lit printf_buf fuel cr2 regs) (page_fault_text cr2 regs).
Proof.
  intros Hc Hi. unfold page_fault_says, page_fault_text, page_fault_words. rewrite !map_app, !concat_app, <- !app_assoc.
  assert (forall (b : bool) s, concat (map str_bytes (if b then [s] else [])) = if b then str_bytes s else []) as Hw
    by (intros [] s; [apply app_nil_r | reflexivity]). rewrite !Hw.
  next_text; [apply say_plain; [literal | reflexivity | reflexivity]|].
  do 4 (next_text; [apply prints_when, say_plain; [literal | reflexivity | reflexivity]|]).
  replace (str_bytes ") at 0x" ++ hex8 cr2 ++ _) with ((str_bytes ") at 0x" ++ hex8 cr2 ++ str_bytes "") ++
    str_bytes nl ++ (str_bytes "Fault At address 0x" ++ hex8 (r_eip regs) ++ str_bytes nl))
    by (change (str_bytes "") with (@nil Z); rewrite app_nil_r, <- !app_assoc; reflexivity).
  next_text; [apply say_hex8; [literal | reflexivity | reflexivity | reflexivity | reflexivity | exact Hc]|].
  next_text; [apply say_plain; [literal | reflexivity | reflexivity]|].
  apply say_hex8; [literal | reflexivity | reflexivity | reflexivity | reflexivity | exact Hi].
Qed.

Lemma general_fault_prints (regs : registers_t) : 0 <= r_err_code regs < 0x100000000 ->
  prints (say lit printf_buf fuel ("Error flag is 0x%08x " +:+ nl) [r_err_code regs]) (general_fault_text regs).
Proof. intros He. apply say_hex8; [literal | reflexivity | reflexivity | reflexivity | reflexivity | exact He]. Qed.

(** The panics of the two handlers. *)
Lemma fault_panic_prints (message file : string) (line : Z) :
  (message, file, line) ∈ [("Page fault", "cpu/paging.c", 233); ("General fault", "kernel/kernel.c", 51)]%string ->
  prints (panic_says lit printf_buf fuel message file line) (panic_text message file line).
Proof.
  rewrite !elem_of_cons, elem_of_nil. intros [E|[E|[]]]; injection E as -> -> ->;
    (apply panic_says_prints; [literal | literal | literal | reflexivity | reflexivity | lia | reflexivity]).
Qed.

End Reports.

(** C25: A page fault: whatever the error code, the handler panics and never
    returns.  The screen shows the reason, the address that faulted and the
    instruction, and then the panic's message; nothing but the screen and the
    buffer of [printf] changes.  The word "present" stands for a page that is
    not. *)
Theorem page_fault_reports {A D : Type} `{PortDevice D} `{!HasCrtc D} (lit : string -> Z) (printf_buf : Z) (fuel : nat)
    (cr2 : Z) (regs : registers_t) (m : mem) (d : D) (t : console) :
  console_env lit printf_buf fuel fault_texts m d -> shows m d t -> 0 <= cr2 < 0x100000000 -> 0 <= r_eip regs < 0x100000000 ->
  @page_fault D _ lit printf_buf fuel A cr2 regs m d = Panic "Page fault" "cpu/paging.c" 233 /\
  exists m1 d1 m2 d2, page_fault_says lit printf_buf fuel cr2 regs m d = Ok (m1, d1) /\
    panic_says lit printf_buf fuel "Page fault" "cpu/paging.c" 233 m1 d1 = Ok (m2, d2) /\
    shows m2 d2 (console_text t (page_fault_text cr2 regs ++ panic_text "Page fault" "cpu/paging.c" 233)) /\
    console_frame printf_buf m m2.
Proof.
  intros He Ht Hc Hi.
  destruct (page_fault_prints lit printf_buf fuel fault_texts (fun s H => H) cr2 regs Hc Hi m d t He Ht) as (m1 & d1 & E1 & He1 & Ht1 & Hfr1 & _).
  pose proof (fault_panic_prints lit printf_buf fuel fault_texts (fun s H => H) "Page fault" "cpu/paging.c" 233 ltac:(left) (D := D)) as Hp.
  destruct (Hp m1 d1 _ He1 Ht1) as (m2 & d2 & E2 & _ & Ht2 & Hfr2 & _). rewrite console_text_app in Ht2. split.
  - unfold page_fault. rewrite E1, bind_ok. apply (panic_at_panics _ _ _ fault_texts _ _ _ _ _ _ Hp He1 Ht1).
  - exists m1, d1, m2, d2. split_and!; [exact E1 | exact E2 | exact Ht2 | eapply console_frame_trans; eassumption].
Qed.

(** Literals 64 bytes apart. *)
Fixpoint laid_out (texts : list string) (a : Z) (s : string) : Z :=
  match texts with
  | [] => a
  | t :: texts => if decide (t = s) then a else laid_out texts (a + 64) s
  end.

Definition literal_memory (texts : list string) (a : Z) : mem :=
  foldr (fun s m => store_bytes m (laid_out texts a s) (str_bytes s ++ [0])) ∅ texts.

#[export] Instance cstring_dec m a l : Decision (cstring m a l).
Proof. unfold cstring, bytes_at. apply _. Defined.

Definition fault_lit : string -> Z := laid_out fault_texts 0x1000.

Lemma fault_env : console_env fault_lit 0x8000 1024 fault_texts (literal_memory fault_texts 0x1000) (mk_crtc 0 0 0).
Proof.
  split.
  - apply (bool_decide_unpack _). vm_compute. exact I.
  - apply (bool_decide_unpack _). vm_compute. exact I.
  - left. vm_compute. discriminate.
  - reflexivity.
  - split; [vm_compute; split; [discriminate | reflexivity] | reflexivity].
  - unfold cursor_bytes. simpl. lia.
Qed.

Lemma page_fault_reports_witness :
  exists m1 d1 m2 d2,
    page_fault_says fault_lit 0x8000 1024 0xBEEF (mk_registers 0 0 0 0 0 0 0 0 0 14 2 0x1234 8 0 0 0)
      (literal_memory fault_texts 0x1000) (mk_crtc 0 0 0) = Ok (m1, d1) /\
    panic_says fault_lit 0x8000 1024 "Page fault" "cpu/paging.c" 233 m1 d1 = Ok (m2, d2) /\
    load8 m2 VIDEO_ADDRESS = 80 /\ cursor d2 = 480.
Proof.
  destruct (page_fault_reports (A := unit) (D := crtc_device) fault_lit 0x8000 1024 0xBEEF (mk_registers 0 0 0 0 0 0 0 0 0 14 2 0x1234 8 0 0 0)
    (literal_memory fault_texts 0x1000) (mk_crtc 0 0 0) (0, screen_of (literal_memory fault_texts 0x1000))) as (_ & m1 & d1 & m2 & d2 & E1 & E2 & [Hc Hs] & _);
    [apply fault_env | split; [reflexivity | intros x _; reflexivity] | lia | simpl; lia |].
  exists m1, d1, m2, d2. split_and!; [exact E1 | exact E2 | | etransitivity; [exact Hc | vm_compute; reflexivity]].
  etransitivity; [exact (Hs 0 ltac:(unfold SCREEN_BYTES; lia)) | vm_compute; reflexivity].
Defined.

(** A fault of vector 13 is reported with its error code, and ends there. *)
Theorem general_fault_reports {A D : Type} `{PortDevice D} `{!HasCrtc D} (lit : string -> Z) (printf_buf : Z) (fuel : nat)
    (regs : registers_t) (m : mem) (d : D) (t : console) :
  console_env lit printf_buf fuel fault_texts m d -> shows m d t -> 0 <= r_err_code regs < 0x100000000 ->
  @general_fault D _ lit printf_buf fuel A regs m d = Panic "General fault" "kernel/kernel.c" 51 /\
  exists m1 d1 m2 d2, say lit printf_buf fuel ("Error flag is 0x%08x " +:+ nl) [r_err_code regs] m d = Ok (m1, d1) /\
    panic_says lit printf_buf fuel "General fault" "kernel/kernel.c" 51 m1 d1 = Ok (m2, d2) /\
    shows m2 d2 (console_text t (general_fault_text regs ++ panic_text "General fault" "kernel/kernel.c" 51)) /\
    console_frame printf_buf m m2.
Proof.
  intros He Ht Hc.
  destruct (general_fault_prints lit printf_buf fuel fault_texts (fun s H => H) regs Hc m d t He Ht) as (m1 & d1 & E1 & He1 & Ht1 & Hfr1 & _).
  pose proof (fault_panic_prints lit printf_buf fuel fault_texts (fun s H => H) "General fault" "kernel/kernel.c" 51 ltac:(right; left) (D := D)) as Hp.
  destruct (Hp m1 d1 _ He1 Ht1) as (m2 & d2 & E2 & _ & Ht2 & Hfr2 & _). rewrite console_text_app in Ht2. split.
  - unfold general_fault. rewrite E1, bind_ok. apply (panic_at_panics _ _ _ fault_texts _ _ _ _ _ _ Hp He1 Ht1).
  - exists m1, d1, m2, d2. split_and!; [exact E1 | exact E2 | exact Ht2 | eapply console_frame_trans; eassumption].
Qed.
