(* ===== verification/Clock.v ===== *)
(** * The clock: the programming of the timer and its interrupt

    [init_timer] of cpu/timer.c programs channel 0 of the interval timer and
    registers the scheduler's callback; [clock_interrupt_ticks] puts the
    interrupt dispatch of cpu/isr.c, the interrupt controllers and the
    scheduler together.  [HasPit] says what is relied on of the timer. *)

From S2P Require Import Prelude Memory Util Ports Screen Descriptors Interrupts Kernel Paging KHeap Directories Task TaskInv TaskProps.

Definition IRQ0 : Z := 32.

Definition TIMER_COMMAND_PORT : Z := 0x43.

Definition TIMER_DATA_PORT : Z := 0x40.

Definition SET_REPEAT_MODE : Z := 0x36.

(** A frequency of 0 is a division by zero. *)
Definition init_timer {D : Type} `{PortDevice D} (freq : Z) (hs : list (option isr_t)) (d : D) : outcome (list (option isr_t) * D) :=
  hs ← register_interrupt_handler IRQ0 timer_callback_isr hs;
  if freq =? 0 then Undef "division by zero"
  else
    let '(low, high) := timer_divisor freq in
    let d := port_byte_out TIMER_COMMAND_PORT SET_REPEAT_MODE d in
    let d := port_byte_out TIMER_DATA_PORT low d in
    let d := port_byte_out TIMER_DATA_PORT high d in
    Ok (hs, d).

(** ** The interval timer

    Channel 0: the control word selects the mode and, with the access bits 3,
    that the divisor is written low byte first.  [pit_low] is the low byte
    while the high one is awaited. *)

Record pit := mk_pit { pit_mode : Z; pit_low : option Z; pit_divisor : Z }.

Definition pit_command (v : Z) (p : pit) : pit :=
  if Z.land v 0xF0 =? 0x30 then mk_pit (Z.land (Z.shiftr v 1) 7) None (pit_divisor p) else p.

Definition pit_data (v : Z) (p : pit) : pit :=
  match pit_low p with
  | None => mk_pit (pit_mode p) (Some v) (pit_divisor p)
  | Some low => mk_pit (pit_mode p) None (low + 0x100 * v)
  end.

Class HasPit (D : Type) `{PortDevice D} := {
  pit_of : D -> pit;
  pit_out : forall port v d, pit_of (dev_out port v d) =
    (if port =? 0x43 then pit_command v (pit_of d) else if port =? 0x40 then pit_data v (pit_of d) else pit_of d);
}.

Definition pit_device : Type := pit.

#[export] Instance pit_ports : PortDevice pit_device := {
  dev_in port d := (0, d);
  dev_out port v d := if port =? 0x43 then pit_command v d else if port =? 0x40 then pit_data v d else d;
  dev_in_word port d := (0, d);
  dev_out_word port v d := d;
}.

#[export] Instance pit_device_pit : HasPit pit_device.
Proof. refine {| pit_of := fun d => d |}; reflexivity. Defined.

Lemma init_timer_ok {D : Type} `{PortDevice D} `{!HasPit D} (freq : Z) (hs : list (option isr_t)) (d : D) :
  0 < freq -> length hs = 256%nat ->
  exists d', init_timer freq hs d = Ok (<[32%nat := Some timer_callback_isr]> hs, d') /\ touches [] [0x43; 0x40] d d' /\
    pit_mode (pit_of d') = 3 /\ pit_low (pit_of d') = None /\ pit_divisor (pit_of d') = 1193180 / freq mod 0x10000 /\
    (19 <= freq <= 1193180 ->
       pit_divisor (pit_of d') * freq <= 1193180 < (pit_divisor (pit_of d') + 1) * freq).
Proof.
  intros Hf Hl. unfold init_timer, IRQ0. rewrite register_sets, bind_ok by (lia || exact Hl).
  replace (freq =? 0) with false by lia. unfold timer_divisor. cbv zeta iota beta. eexists. split; [reflexivity|].
  split; [repeat (apply touches_then_out; [apply (bool_decide_unpack _); vm_compute; exact I|]); constructor|].
  set (q := 1193180 / freq).
  unfold port_byte_out, TIMER_COMMAND_PORT, TIMER_DATA_PORT, SET_REPEAT_MODE. rewrite !pit_out.
  change (u16 0x43) with 0x43. change (u16 0x40) with 0x40. cbn [Z.eqb Pos.eqb].
  change (pit_command (u8 54) (pit_of d)) with (mk_pit 3 None (pit_divisor (pit_of d))).
  unfold pit_data. cbn [pit_low pit_mode pit_divisor].
  assert (u8 (u8 (Z.land q 255)) + 256 * u8 (u8 (Z.land (Z.shiftr q 8) 255)) = q mod 0x10000) as ->.
  { rewrite !(land_low_mod _ 8 255 eq_refl) by lia. rewrite Z.shiftr_div_pow2 by lia. change (2 ^ 8) with 256. zlia. }
  split_and!; try reflexivity. intros Hr. rewrite Z.mod_small.
  - split; unfold q; zlia.
  - unfold q. split; [apply Z.div_pos; lia | apply Z.div_lt_upper_bound; lia].
Qed.

(** C38: [init_timer] at any frequency above zero registers the callback for the
    clock's vector, leaves the other vectors alone, and sets channel 0 to
    square waves with the divisor [1193180 / freq].  From 19 Hz on it fits
    the 16 bits of the counter, and the clock is at least as fast as asked for
    and slower than the next divisor would make it; below, its upper bits are
    lost. *)
Theorem init_timer_programs_pit {D : Type} `{PortDevice D} `{!HasPit D} (freq : Z) (hs : list (option isr_t)) (d : D) :
  0 < freq -> length hs = 256%nat ->
  exists d', init_timer freq hs d = Ok (<[32%nat := Some timer_callback_isr]> hs, d') /\
    pit_mode (pit_of d') = 3 /\ pit_low (pit_of d') = None /\ pit_divisor (pit_of d') = 1193180 / freq mod 0x10000 /\
    (19 <= freq <= 1193180 ->
       pit_divisor (pit_of d') * freq <= 1193180 < (pit_divisor (pit_of d') + 1) * freq).
Proof. intros Hf Hl. destruct (init_timer_ok freq hs d Hf Hl) as (d' & E & _ & H'). eauto. Qed.

Lemma init_timer_programs_pit_witness :
  exists d', init_timer 50 interrupt_handlers (mk_pit 0 None 0) = Ok (<[32%nat := Some timer_callback_isr]> interrupt_handlers, d') /\
    pit_divisor d' = 23863.
Proof.
  destruct (init_timer_programs_pit (D := pit_device) 50 interrupt_handlers (mk_pit 0 None 0)) as (d' & E & _ & _ & Hd & _);
    [lia | reflexivity |]. exists d'. split; [exact E | exact Hd].
Defined.

(** ** The clock interrupt *)

(** The scheduler, which holds the memory, and the devices. *)
Record machine (D : Type) := mk_machine { x_sched : sched; x_dev : D }.
Arguments mk_machine {D}.
Arguments x_sched {D}.
Arguments x_dev {D}.

(** Ports reach the devices of the machine. *)
#[export] Instance machine_ports {D} `{PortDevice D} : PortDevice (machine D) := {
  dev_in port x := let '(v, d) := dev_in port (x_dev x) in (v, mk_machine (x_sched x) d);
  dev_out port v x := mk_machine (x_sched x) (dev_out port v (x_dev x));
  dev_in_word port x := let '(v, d) := dev_in_word port (x_dev x) in (v, mk_machine (x_sched x) d);
  dev_out_word port v x := mk_machine (x_sched x) (dev_out_word port v (x_dev x));
}.

#[export] Instance machine_pics {D} `{PortDevice D} `{!TwoPics D} : TwoPics (machine D).
Proof.
  refine {| master := fun x => master (x_dev x); slave := fun x => slave (x_dev x) |}; intros.
  - apply master_out.
  - apply slave_out.
  - cbn. rewrite master_in. destruct d; reflexivity.
  - cbn. rewrite slave_in. destruct d; reflexivity.
Defined.

(** The handlers: the clock's is the scheduler's callback, which finds the
    registers [eip], [esp] and [ebp] when it switches. *)
Definition run_handler {D : Type} (eip esp ebp : Z) (other : isr_t -> registers_t -> machine D -> outcome (registers_t * machine D))
    (h : isr_t) (regs : registers_t) (x : machine D) : outcome (registers_t * machine D) :=
  match h with
  | timer_callback_isr => s ← timer_callback eip esp ebp (x_sched x); Ok (regs, mk_machine s (x_dev x))
  | _ => other h regs x
  end.

Lemma PIC_sendEOI_sched {D : Type} `{PortDevice D} v (x : machine D) : x_sched (PIC_sendEOI v x) = x_sched x.
Proof. unfold PIC_sendEOI, port_byte_out. destruct (40 <=? v); reflexivity. Qed.

(** C21: A clock interrupt, once tasking is on and the timer is set up: the
    interrupt ends at the master controller and not at the slave, the
    scheduler makes the abstract tick, and the interrupted code gets back the
    registers it had.  With another task ready the processor runs that one. *)
Theorem clock_interrupt_ticks {D : Type} `{PortDevice D} `{!TwoPics D} (eip esp ebp : Z)
    (other : isr_t -> registers_t -> machine D -> outcome (registers_t * machine D)) (freq : Z)
    (hs hs' : list (option isr_t)) (d0 d0' : D) (regs : registers_t) (x : machine D) (a : asched) :
  init_timer freq hs d0 = Ok (hs', d0') -> r_int_no regs = IRQ0 ->
  sched_rel (x_sched x) a -> s_next_pid (x_sched x) <> 1 -> eip <> 0x12345 ->
  exists x', irq_handler (run_handler eip esp ebp other) hs' regs x = Ok (regs, x') /\
    sched_rel (x_sched x') (a_timer a) /\
    pic_isr (master (x_dev x')) = clear_lowest 8 0 (pic_isr (master (x_dev x))) /\
    pic_isr (slave (x_dev x')) = pic_isr (slave (x_dev x)) /\
    (a_ready (a_timer a) <> [a_current a] -> running (a_current (a_timer a)) (x_sched x')).
Proof.
  intros Hinit Hint Hrel Hpid He.
  assert (hs' !! 32%nat = Some (Some timer_callback_isr)) as Hh.
  { unfold init_timer, IRQ0, register_interrupt_handler in Hinit. change (u8 32) with 32 in Hinit.
    destruct (put hs 32 (Some timer_callback_isr)) as [l| | |] eqn:Ep; try discriminate. cbn [mbind outcome_bind] in Hinit.
    destruct (freq =? 0); [discriminate|]. unfold timer_divisor in Hinit. injection Hinit as <- _.
    unfold put in Ep. destruct ((0 <=? 32) && (32 <? Z.of_nat (length hs))) eqn:El; [|discriminate].
    injection Ep as <-. apply list_lookup_insert_eq. lia. }
  destruct (timer_callback_rel eip esp ebp (x_sched x) a Hrel Hpid He) as (s' & Et & Hrel' & _ & Hrun).
  unfold irq_handler. rewrite Hint. change (u8 IRQ0) with 32. change (Z.to_nat IRQ0) with 32%nat. rewrite Hh.
  unfold run_handler. rewrite PIC_sendEOI_sched, Et, !bind_ok. eexists. split; [reflexivity|].
  destruct (PIC_sendEOI_pics (D := machine D) 32 x) as [Em Es]. cbn [x_sched x_dev snd].
  split_and!; [exact Hrel' | exact Em | exact Es | exact Hrun].
Qed.

Lemma clock_interrupt_ticks_witness :
  exists hs' d', init_timer (D := two_pics) 50 interrupt_handlers fresh_pics = Ok (hs', d') /\
  exists x', irq_handler (run_handler 0x444 1 2 (fun _ r x => Ok (r, x))) hs' (mk_registers 0 0 0 0 0 0 0 0 0 32 0 0 0 0 0 0)
      (mk_machine example_sched (mk_pic 0 0x20 4 1 1 0, mk_pic 0 0x28 2 1 0 0)) =
      Ok (mk_registers 0 0 0 0 0 0 0 0 0 32 0 0 0 0 0 0, x') /\
    s_current (x_sched x') = 0x20 /\ pic_isr (master (x_dev x')) = 0.
Proof.
  do 2 eexists. split; [reflexivity|].
  destruct (clock_interrupt_ticks (D := two_pics) 0x444 1 2 (fun _ r x => Ok (r, x)) 50 interrupt_handlers _ fresh_pics _
    (mk_registers 0 0 0 0 0 0 0 0 0 32 0 0 0 0 0 0)
    (mk_machine example_sched (mk_pic 0 0x20 4 1 1 0, mk_pic 0 0x28 2 1 0 0)) example_asched eq_refl) as (x' & E & Hr & Hm & _);
    [reflexivity | apply example_rel | discriminate | discriminate |].
  exists x'. split_and!; [exact E | exact (sr_current _ _ Hr) | exact Hm].
Defined.
