(* ===== verification/Board.v ===== *)
(** * The devices of the machine together

    [KeyboardApart] is what the kernel relies on of the devices beyond their
    data sheets: to read the keyboard controller's ports changes no other
    device.  [board] is the machine that consists of the display controller,
    the two interrupt controllers, the timer and the keyboard controller. *)

From S2P Require Import Prelude Memory Ports Interrupts Screen Ps2 Kbc Clock.

Class KeyboardApart (D : Type) `{PortDevice D} `{!HasCrtc D} `{!TwoPics D} `{!HasPit D} : Prop := {
  #[global] apart_crtc :: Unread kbd_ins (crtc_of (D := D));
  #[global] apart_master :: Unread kbd_ins (master (D := D));
  #[global] apart_slave :: Unread kbd_ins (slave (D := D));
  #[global] apart_pit :: Unread kbd_ins (pit_of (D := D));
}.

Record board := mk_board { bd_crtc : crtc; bd_pics : two_pics; bd_pit : pit; bd_kbc : kbc }.

(** A read is answered by the device at the port, a write reaches all, and those
    not at the port ignore it. *)
#[export] Instance board_ports : PortDevice board := {
  dev_in port d :=
    if bool_decide (port ∈ kbd_ins) then
      let '(v, k) := dev_in (D := kbc_device) port (bd_kbc d) in (v, mk_board (bd_crtc d) (bd_pics d) (bd_pit d) k)
    else (if port =? 0x3d5 then crtc_read (bd_crtc d) else (dev_in (D := two_pics) port (bd_pics d)).1, d);
  dev_out port v d :=
    mk_board (dev_out (D := crtc_device) port v (bd_crtc d)) (dev_out (D := two_pics) port v (bd_pics d))
      (dev_out (D := pit_device) port v (bd_pit d)) (dev_out (D := kbc_device) port v (bd_kbc d));
  dev_in_word port d := (0, d);
  dev_out_word port v d := d;
}.

#[export] Instance board_crtc : HasCrtc board.
Proof. refine {| crtc_of := bd_crtc |}; reflexivity. Defined.

#[export] Instance board_pics : TwoPics board.
Proof. refine {| master := fun d => (bd_pics d).1; slave := fun d => (bd_pics d).2 |}; reflexivity. Defined.

#[export] Instance board_pit : HasPit board.
Proof. refine {| pit_of := bd_pit |}; reflexivity. Defined.

Lemma board_keyboard port (d : board) : port ∈ kbd_ins ->
  dev_in port d = ((dev_in (D := kbc_device) port (bd_kbc d)).1,
    mk_board (bd_crtc d) (bd_pics d) (bd_pit d) (dev_in (D := kbc_device) port (bd_kbc d)).2).
Proof. intros Hp. cbn [dev_in board_ports]. rewrite bool_decide_true by exact Hp. now destruct (dev_in _ _). Qed.

#[export] Instance board_kbc : HasKbc board.
Proof.
  refine {| kbc_of := bd_kbc |}.
  - reflexivity.
  - intros d. split; now rewrite board_keyboard by (by left).
  - intros d. rewrite board_keyboard by (by right; left). exact (kbc_status (D := kbc_device) (bd_kbc d)).
Defined.

#[export] Instance board_apart : KeyboardApart board.
Proof. split; intros port d Hp; now rewrite board_keyboard. Qed.
