(* ===== verification/Ps2Props.v ===== *)
(** * Properties of the PS/2 driver

    The polls and the waits of drivers/keyboard.c against any device, and its
    start-up sequence, with what it prints, on a machine that has the keyboard
    controller and the display controller. *)

From S2P Require Import Prelude Memory Util Paging Ports Descriptors Interrupts Screen Printf PrintfNumber PrintfProps Literals Ps2 Kbc Console Faults Clock Board.

(** A loop whose condition stays true does not return. *)
Lemma while_never {S : Type} fuel (c : S -> bool) body (s : S) : (forall s, c s = true) -> forall r, while fuel c body s <> Ok r.
Proof.
  intros Hc. revert s. induction fuel as [|f IH]; intros s r; simpl; rewrite Hc; [discriminate|].
  destruct (body s) as [s'| | |]; simpl; try discriminate. apply IH.
Qed.

(** The status and the machine after [n] polls of the status that [send_port] makes. *)
Fixpoint poll {D : Type} `{PortDevice D} (n : nat) (status : Z) (d : D) : Z * D :=
  match n with
  | O => (status, d)
  | S n' => let '(status, d) := read_status (io_wait d) in poll n' status d
  end.

(** The input buffer of the controller is full in all the first [n] polls. *)
Definition full_for {D : Type} `{PortDevice D} (n : nat) (status : Z) (d : D) : Prop :=
  forall j, (j < n)%nat -> rx_buf_status (poll j status d).1 <> 0.

Section SendWait.
Context {D : Type} `{PortDevice D}.

Lemma send_wait_steps k : forall f r status (d : D), full_for k status d -> (k <= r)%nat -> (r <= f)%nat ->
  let loop f st := while f (fun '(status, retries, _) => negb (rx_buf_status status =? PS2_BUF_STATUS_CLEAR) && (0 <? retries))
    (fun '(_, retries, d) => let d := io_wait d in let '(status, d) := read_status d in Ok (status, retries - 1, d)) st in
  loop f (status, Z.of_nat r, d) = loop (f - k)%nat ((poll k status d).1, Z.of_nat (r - k), (poll k status d).2).
Proof.
  cbv zeta. induction k as [|k IH]; intros f r status d Hf Hr Hfr; [now rewrite !Nat.sub_0_r|].
  destruct f as [|f]; [lia|]. destruct r as [|r]; [lia|]. cbn [poll].
  pose proof (Hf 0%nat ltac:(lia)) as H0. simpl in H0. destruct (read_status (io_wait d)) as [s1 d1] eqn:E1.
  erewrite while_step; [| unfold PS2_BUF_STATUS_CLEAR; apply andb_true_intro; split; [now apply negb_true_iff, Z.eqb_neq | apply Z.ltb_lt; lia] |
    cbv zeta; rewrite E1; reflexivity].
  replace (Z.of_nat (S r) - 1) with (Z.of_nat r) by lia. rewrite IH; [reflexivity | | lia | lia].
  intros j Hj. specialize (Hf (S j) ltac:(lia)). simpl in Hf. now rewrite E1 in Hf.
Qed.

Lemma send_wait_clear k status (d : D) :
  (k < 1000)%nat -> full_for k status d -> rx_buf_status (poll k status d).1 = 0 ->
  exists r, send_wait status d = Ok ((poll k status d).1, r, (poll k status d).2) /\ 0 < r.
Proof.
  intros Hk Hf Hc. exists (Z.of_nat (1000 - k)). split; [|lia]. unfold send_wait.
  change PORT_SEND_NUM_RETRIES with (Z.of_nat 1000). rewrite Nat2Z.id.
  etransitivity; [exact (send_wait_steps k 1000 1000 status d Hf ltac:(lia) ltac:(lia))|]. apply while_done. now rewrite Hc.
Qed.

Lemma send_wait_full status (d : D) : full_for 1000 status d ->
  exists s, send_wait status d = Ok (s, 0, (poll 1000 status d).2).
Proof.
  intros Hf. exists (poll 1000 status d).1. unfold send_wait.
  change PORT_SEND_NUM_RETRIES with (Z.of_nat 1000). rewrite Nat2Z.id.
  etransitivity; [exact (send_wait_steps 1000 1000 1000 status d Hf ltac:(lia) ltac:(lia))|].
  rewrite Nat.sub_diag. apply while_done. apply andb_false_r.
Qed.

End SendWait.

(** A controller with two devices that acknowledge every byte, and complete a
    reset with 0xAA. *)
Definition sample_parts : ps2_parts :=
  mk_parts true 0x55 (fun _ => 0) (fun _ l => if bool_decide (List.last l 0 = 0xFF) then [0xFA; 0xAA] else [0xFA]).

Definition sample_kbc : kbc := mk_kbc 0x61 0xDD [0x1C; 0x9C] 0 0 [] [] sample_parts.

(** [wait_keyboard]: with the input buffer of the controller clear it returns
    at once; otherwise it never returns, as the loop does not read the status
    again. *)
Theorem wait_keyboard_blocks {D : Type} `{PortDevice D} (lit : string -> Z) (fuel : nat) (ac : Z) (m : mem) (d : D) :
  let '(c, d') := port_byte_in REG_CMD d in
  (Z.land c 2 = 0 -> wait_keyboard lit fuel ac m d = Ok (m, d')) /\
  (Z.land c 2 <> 0 -> forall r, wait_keyboard lit fuel ac m d <> Ok r).
Proof.
  unfold wait_keyboard. destruct (port_byte_in REG_CMD d) as [c d']. split.
  - intros Hc. apply while_done. now rewrite Hc.
  - intros Hc. apply while_never. intros s. apply Z.eqb_neq in Hc. now rewrite Hc.
Qed.

Lemma wait_keyboard_blocks_witness :
  wait_keyboard (D := kbc_device) (fun _ => 0) 5 0x100 ∅ sample_kbc = Ok (∅, sample_kbc).
Proof. exact (proj1 (wait_keyboard_blocks (D := kbc_device) (fun _ => 0) 5 0x100 ∅ sample_kbc) eq_refl). Defined.

(** C33: [send_port] waits until the input buffer of the controller is clear, but
    sends nothing when that takes 1000 polls or more; it always returns, and
    the second channel needs [is_dual_channel]. *)
Theorem send_port_polls {D : Type} `{PortDevice D} (port : ps2_port) (data : Z) (ch : channels) (d : D) :
  let '(status, d0) := read_status d in
  let d1 := if bool_decide (port = PORT2) then port_byte_out REG_CMD CMD_WRITE_TO_PORT2 d0 else d0 in
  (port = PORT2 -> is_dual_channel ch = false -> send_port port data ch d = Ok (false, d0)) /\
  (port = PORT1 \/ is_dual_channel ch = true ->
    (forall k, (k < 1000)%nat -> full_for k status d1 -> rx_buf_status (poll k status d1).1 = 0 ->
       send_port port data ch d = Ok (true, port_byte_out REG_DATA data (poll k status d1).2)) /\
    (full_for 1000 status d1 -> send_port port data ch d = Ok (false, (poll 1000 status d1).2))).
Proof.
  unfold send_port. destruct (read_status d) as [status d0]. cbv zeta. split.
  - intros -> ->. reflexivity.
  - intros Hch. replace (bool_decide (port = PORT2) && negb (is_dual_channel ch)) with false
      by (destruct Hch as [-> | ->]; [reflexivity | now rewrite andb_false_r]).
    set (d1 := if bool_decide (port = PORT2) then _ else d0). split.
    + intros k Hk Hfull Hclear. destruct (send_wait_clear k status d1 Hk Hfull Hclear) as (r & E & Hr). rewrite E, bind_ok.
      cbv iota beta. replace (r =? 0) with false by lia. reflexivity.
    + intros Hfull. destruct (send_wait_full status d1 Hfull) as (s & E). rewrite E, bind_ok. reflexivity.
Qed.

Lemma send_port_polls_witness :
  send_port (D := kbc_device) PORT1 0xFF initial_channels sample_kbc = Ok (true, sent_to PORT1 0xFF sample_kbc).
Proof.
  pose proof (send_port_polls (D := kbc_device) PORT1 0xFF initial_channels sample_kbc) as H.
  apply (proj1 (proj2 H (or_introl eq_refl)) 0%nat); [lia | intros j Hj; lia | reflexivity].
Defined.

(** ** The start-up sequence *)

Definition keyboard_texts : list string :=
  ["PS/2 2nd channel disabled." +:+ nl; "PS/2 controller self test failed!!!" +:+ nl; "PS2 ports test failed." +:+ nl;
   "STATUS is %d" +:+ nl; "Failed to set the scancode" +:+ nl; nl +:+ "> "]%string.

(** The controller's answers are bytes, and the self test has one of its two
    results. *)
Record controller_ok (k : kbc) : Prop := {
  co_config : is_byte (kbc_config k);
  co_self_test : self_test_result (kbc_parts k) = SELF_TEST_SUCCESS \/ self_test_result (kbc_parts k) = SELF_TEST_FAILED;
  co_port1 : is_byte (port_test_result (kbc_parts k) PORT1);
  co_port2 : is_byte (port_test_result (kbc_parts k) PORT2);
  co_answer : forall port l, Forall is_byte (answer (kbc_parts k) port l);
}.

(** Bit 5 of the configuration after both channels are disabled. *)
Definition channel2_off (k : kbc) : bool := kbc_dual k || Z.testbit (kbc_config k) 5.

Definition self_test_passes (k : kbc) : bool := self_test_result (kbc_parts k) =? SELF_TEST_SUCCESS.

Definition controller_passes (k : kbc) : bool := self_test_passes k && ports_pass k.

(** What the devices answer to the resets and to the two bytes of the scancode
    command. *)
Definition device_answers (k : kbc) : list Z :=
  let a := answer (kbc_parts k) in
  a PORT1 (kbc_sent1 k ++ [0xFF]) ++ (if kbc_dual k then a PORT2 (kbc_sent2 k ++ [0xFF]) else []) ++
  a PORT1 (kbc_sent1 k ++ [0xFF; 0xF0]) ++ a PORT1 (kbc_sent1 k ++ [0xFF; 0xF0; 0x01]).

(** The byte that the driver takes for the status of that command: the first
    answer, or what was read last when there is none. *)
Definition scancode_status (k : kbc) : Z :=
  hd (awake_config (kbc_dual k) (stopped_config (kbc_dual k) (kbc_config k))) (device_answers k).

Definition keyboard_report (k : kbc) : list Z :=
  (if channel2_off k then [] else str_bytes ("PS/2 2nd channel disabled." +:+ nl)) ++
  if negb (self_test_passes k) then str_bytes ("PS/2 controller self test failed!!!" +:+ nl)
  else if negb (ports_pass k) then str_bytes ("PS2 ports test failed." +:+ nl)
  else str_bytes "STATUS is " ++ render_int (scancode_status k) ++ str_bytes nl ++
    (if scancode_status k =? 0xFA then [] else str_bytes ("Failed to set the scancode" +:+ nl)) ++ str_bytes (nl +:+ "> ").

Section StartUp.
Context {D : Type} `{HP : PortDevice D} `{!HasCrtc D} `{!HasKbc D} `{!Unread kbd_ins (crtc_of (D := D))}.
Context (lit : string -> Z) (printf_buf : Z) (fuel : nat) (texts : list string).
Context (Htexts : forall s, s ∈ keyboard_texts -> s ∈ texts).

(** The addresses to watch: clear of the buffer and of the screen. *)
Context (keep : Z -> Prop).
Context (Hkeep : forall x, keep x -> (x < printf_buf \/ printf_buf + PRINTF_BUF_SIZE <= x) /\ (x < VIDEO_ADDRESS \/ VIDEO_ADDRESS + SCREEN_BYTES <= x)).

(** The ports of the keyboard and of the screen. *)
Definition keyboard_and_screen : D -> D -> Prop := touches (kbd_ins ++ screen_ins) (kbd_outs ++ screen_outs).

(** From [m0], [d0] and the console [t0]: [out] has been printed, the
    controller is at [k], only the two devices have been touched, and the bytes
    of [keep] are as they were. *)
Record reached (m0 : mem) (d0 : D) (t0 : console) (out : list Z) (k : kbc) (m : mem) (d : D) : Prop := {
  re_env : console_env lit printf_buf fuel texts m d;
  re_shows : shows m d (console_text t0 out);
  re_kbc : kbc_of d = k;
  re_frame : forall x, keep x -> load8 m x = load8 m0 x;
  re_ports : keyboard_and_screen d0 d;
}.

Lemma reached_start m d t : console_env lit printf_buf fuel texts m d -> shows m d t -> reached m d t [] (kbc_of d) m d.
Proof. intros He Ht. split; [exact He | exact Ht | reflexivity | reflexivity | constructor]. Qed.

(** The keyboard's ports leave the console alone. *)
Lemma kbc_step_crtc d d' k : kbc_step d d' k -> crtc_of d' = crtc_of d.
Proof.
  intros [_ Ht]. apply (touches_keep crtc_of _ _ Ht); [exact unread|]. intros port v d1 Hp. rewrite crtc_out.
  repeat (apply elem_of_cons in Hp as [->|Hp]; [reflexivity|]). now apply elem_of_nil in Hp.
Qed.

Lemma reached_step m0 d0 t0 out k m d d' k' : reached m0 d0 t0 out k m d -> kbc_step d d' k' -> reached m0 d0 t0 out k' m d'.
Proof.
  intros [He Hsh Hk Hf Ht] Hs. destruct (console_env_device lit printf_buf fuel texts m d d' _ (kbc_step_crtc _ _ _ Hs) He Hsh) as [He' Hsh'].
  split; [exact He' | exact Hsh' | apply Hs | exact Hf |].
  apply (touches_trans _ _ _ Ht). apply (touches_more _ _ _ _ (proj2 Hs)); [|]; apply (bool_decide_unpack _); vm_compute; exact I.
Qed.

Lemma only_screen_kbc (d d' : D) : only_screen d d' -> (forall x : D, kbc_of (dev_in 0x3d5 x).2 = kbc_of x) -> kbc_of d' = kbc_of d.
Proof.
  intros Ht Hin. apply (touches_keep kbc_of _ _ Ht).
  - intros port d1 Hp. apply list_elem_of_singleton in Hp as ->. apply Hin.
  - intros port v d1 Hp. rewrite kbc_out. repeat (apply elem_of_cons in Hp as [->|Hp]; [reflexivity|]). now apply elem_of_nil in Hp.
Qed.

Lemma reached_shown m0 d0 t0 out k m d m' d' o : reached m0 d0 t0 out k m d ->
  console_env lit printf_buf fuel texts m' d' -> shows m' d' (console_text (console_text t0 out) o) ->
  (forall x, keep x -> load8 m' x = load8 m x) -> only_screen d d' -> reached m0 d0 t0 (out ++ o) k m' d'.
Proof.
  intros [He Hs Hk Hf Ht] He' Hs' Hf' Ht'. rewrite console_text_app in Hs'. split; [exact He' | exact Hs' | | |].
  - rewrite <- Hk. apply (only_screen_kbc _ _ Ht'). intros x. now rewrite crtc_in.
  - intros x Hx. rewrite Hf', Hf; auto.
  - apply (touches_trans _ _ _ Ht). apply (touches_more _ _ _ _ Ht'); [|]; apply (bool_decide_unpack _); vm_compute; exact I.
Qed.

Lemma reached_print m0 d0 t0 out k m d f o : reached m0 d0 t0 out k m d -> prints lit printf_buf fuel texts f o ->
  exists m' d', f m d = Ok (m', d') /\ reached m0 d0 t0 (out ++ o) k m' d'.
Proof.
  intros Hr Hp. destruct (Hp m d _ (re_env _ _ _ _ _ _ _ Hr) (re_shows _ _ _ _ _ _ _ Hr)) as (m' & d' & E & He' & Hs' & Hf' & Ht').
  exists m', d'. split; [exact E|]. apply (reached_shown _ _ _ _ _ _ _ _ _ _ Hr He' Hs'); [|exact Ht'].
  intros x Hx. destruct (Hkeep x Hx). now apply Hf'.
Qed.

(** A write to memory. *)
Lemma reached_store m0 d0 t0 out k m m' d a n : reached m0 d0 t0 out k m d -> same_but a n m m' -> clear_of_console lit texts a n ->
  (forall x, keep x -> x < a \/ a + n <= x) -> reached m0 d0 t0 out k m' d.
Proof.
  intros [He Hs Hk Hf Ht] Hm Hc Hx. destruct (console_env_but _ _ _ _ _ _ _ _ _ _ Hm Hc He Hs) as [He' Hs']. split; try assumption.
  intros x Hkx. rewrite (Hm x (Hx x Hkx)). now apply Hf.
Qed.

(** The controller of [k] with nothing to read, the configuration [c] and the
    last byte [x]. *)
Definition idle (c x : Z) (k : kbc) : kbc := with_config c (answered x k).

Lemma disable_devices_reached m0 d0 t0 out k m d : reached m0 d0 t0 out k m d ->
  is_byte (kbc_config k) -> (length (kbc_queue k) <= fuel)%nat ->
  exists m' d', disable_devices lit printf_buf fuel initial_channels m d = Ok (mk_channels false (channel2_off k), m', d') /\
    reached m0 d0 t0 (out ++ (if channel2_off k then [] else str_bytes ("PS/2 2nd channel disabled." +:+ nl)))
      (idle (stopped_config (kbc_dual k) (kbc_config k)) (quiet_config (kbc_dual k) (kbc_config k)) k) m' d'.
Proof.
  intros Hr Hc Hq. destruct (configs_are_bytes (kbc_dual k) (kbc_config k) Hc) as (Bq & Be & _ & _ & _ & _ & P & _).
  unfold disable_devices. set (c := kbc_config k) in *.
  pose proof (command_step CMD_PORT1_DISABLE d ltac:(done)) as H1. apply (reached_step _ _ _ _ _ _ _ _ _ Hr) in H1 as Hr1.
  set (d1 := port_byte_out REG_CMD CMD_PORT1_DISABLE d) in *.
  pose proof (command_step CMD_PORT2_DISABLE d1 ltac:(done)) as H2. apply (reached_step _ _ _ _ _ _ _ _ _ Hr1) in H2 as Hr2.
  set (d2 := port_byte_out REG_CMD CMD_PORT2_DISABLE d1) in *.
  assert (kbc_of d2 = with_config (quiet_config (kbc_dual k) c) k) as E2.
  { rewrite (proj1 H2), (proj1 H1), (re_kbc _ _ _ _ _ _ _ Hr). unfold c, quiet_config.
    change (kbc_command CMD_PORT2_DISABLE ?k) with (if kbc_dual k then with_config (Z.setbit (kbc_config k) 5) k else with_pending 0 k).
    change (kbc_dual (kbc_command CMD_PORT1_DISABLE k)) with (kbc_dual k). destruct (kbc_dual k); reflexivity. }
  rewrite <- (proj1 H2), E2 in Hr2.
  destruct (flush_output_step fuel d2) as (d3 & E3 & H3); [rewrite E2; exact Hq|]. rewrite E3, bind_ok.
  apply (reached_step _ _ _ _ _ _ _ _ _ Hr2) in H3 as Hr3. pose proof (re_kbc _ _ _ _ _ _ _ Hr3) as E3k. rewrite E2 in E3k, Hr3.
  destruct (read_config_step d3) as (d4 & E4 & H4); [rewrite E3k; reflexivity | rewrite E3k; exact Bq |]. rewrite E3k in E4, H4. rewrite E4.
  apply (reached_step _ _ _ _ _ _ _ _ _ Hr3) in H4. cbv zeta.
  change (set_port1_translation_status _ _) with (stopped_config (kbc_dual k) c). rewrite P. unfold CLOCK_STATUS_ENABLED, channel2_off. fold c.
  destruct (kbc_dual k || Z.testbit c 5); cbn [Z.b2z Z.eqb].
  - rewrite bind_ok. eexists _, _. split; [reflexivity|]. rewrite app_nil_r.
    pose proof (write_config_step (stopped_config (kbc_dual k) c) d4 Be) as H5. rewrite (re_kbc _ _ _ _ _ _ _ H4) in H5.
    exact (reached_step _ _ _ _ _ _ _ _ _ H4 H5).
  - destruct (reached_print _ _ _ _ _ _ _ _ _ H4 (say_plain lit printf_buf fuel texts ("PS/2 2nd channel disabled." +:+ nl)
      ltac:(apply Htexts; left) eq_refl eq_refl)) as (m5 & d5 & E5 & H5). rewrite E5, !bind_ok. eexists _, _. split; [reflexivity|].
    pose proof (write_config_step (stopped_config (kbc_dual k) c) d5 Be) as H6. rewrite (re_kbc _ _ _ _ _ _ _ H5) in H6.
    exact (reached_step _ _ _ _ _ _ _ _ _ H5 H6).
Qed.

(** The second channel is looked for unless it is known to be absent. *)
Lemma probe_reached m0 d0 t0 out k x m d : let e := stopped_config (kbc_dual k) (kbc_config k) in
  reached m0 d0 t0 out (idle e x k) m d -> is_byte (kbc_config k) ->
  exists y d', (if channel2_off k then let '(present, d) := is_channel2_present d in (mk_channels present (channel2_off k), d)
    else (mk_channels false (channel2_off k), d)) = (mk_channels (kbc_dual k) (channel2_off k), d') /\ reached m0 d0 t0 out (idle e y k) m d'.
Proof.
  cbv zeta. intros Hr Hc. pose proof (re_kbc _ _ _ _ _ _ _ Hr) as Ek. pose proof (channel2_step d (kbc_config k)) as H. cbv zeta in H. rewrite Ek in H.
  change (kbc_dual (idle _ _ _)) with (kbc_dual k) in H. fold (channel2_off k) in H. destruct (channel2_off k) eqn:E5.
  - destruct (H Hc eq_refl eq_refl eq_refl) as (d' & y & E & Hs). rewrite E. exists y, d'. split; [reflexivity|].
    exact (reached_step _ _ _ _ _ _ _ _ _ Hr Hs).
  - exists x, d. unfold channel2_off in E5. apply orb_false_elim in E5 as [Ed _]. split; [now rewrite Ed | exact Hr].
Qed.

Lemma test_ports_reached m0 d0 t0 out k c x ch m d : reached m0 d0 t0 out (idle c x k) m d -> controller_ok k -> is_dual_channel ch = kbc_dual k ->
  exists y d', test_ports ch d = (ports_pass k, d') /\ reached m0 d0 t0 out (idle c y k) m d'.
Proof.
  intros Hr Hk Hch. pose proof (re_kbc _ _ _ _ _ _ _ Hr) as Ek. pose proof (test_ports_step ch d) as H. cbv zeta in H. rewrite Ek in H.
  destruct (H eq_refl (co_port1 _ Hk) (co_port2 _ Hk) Hch) as (d' & y & E & Hs). exists y, d'. split; [exact E|].
  exact (reached_step _ _ _ _ _ _ _ _ _ Hr Hs).
Qed.

(** The controller once the devices have been reset and sent the scancode
    command. *)
Definition started_kbc (k : kbc) : kbc :=
  let e := stopped_config (kbc_dual k) (kbc_config k) in
  sent_to PORT1 0x01 (sent_to PORT1 0xF0 (reset_sent (idle (started_config (kbc_dual k) (kbc_config k)) (awake_config (kbc_dual k) e) k))).

Lemma started_kbc_queue k : kbc_queue (started_kbc k) = device_answers k.
Proof.
  unfold started_kbc, reset_sent, device_answers. change (kbc_dual (sent_to PORT1 DEVICE_CMD_RESET (idle _ _ ?k))) with (kbc_dual k).
  destruct (kbc_dual k); cbn; rewrite <- !app_assoc; reflexivity.
Qed.

Lemma started_kbc_rest k : let k' := started_kbc k in
  kbc_config k' = started_config (kbc_dual k) (kbc_config k) /\ kbc_last k' = awake_config (kbc_dual k) (stopped_config (kbc_dual k) (kbc_config k)) /\
  kbc_sent1 k' = kbc_sent1 k ++ [0xFF; 0xF0; 0x01] /\ kbc_sent2 k' = kbc_sent2 k ++ (if kbc_dual k then [0xFF] else []) /\
  kbc_output_port k' = kbc_output_port k /\ kbc_parts k' = kbc_parts k.
Proof.
  cbv zeta. unfold started_kbc, reset_sent. change (kbc_dual (sent_to PORT1 DEVICE_CMD_RESET (idle _ _ ?k))) with (kbc_dual k).
  destruct (kbc_dual k); cbn; rewrite <- ?app_assoc, ?app_nil_r; auto 10.
Qed.

Lemma scancode_status_read k : controller_ok k -> (kbc_read (started_kbc k)).1 = scancode_status k /\ is_byte (scancode_status k).
Proof.
  intros Hk. destruct (configs_are_bytes (kbc_dual k) (kbc_config k) (co_config _ Hk)) as (_ & _ & _ & Ba & _).
  destruct (started_kbc_rest k) as (_ & Hl & _). unfold kbc_read, scancode_status. rewrite started_kbc_queue, Hl.
  assert (Forall is_byte (device_answers k)) as Hf.
  { unfold device_answers. rewrite !Forall_app. split_and!; try apply Hk. destruct (kbc_dual k); [apply Hk | constructor]. }
  destruct (device_answers k) as [|b l]; cbn [hd fst]; [auto | apply Forall_cons in Hf as [Hb _]; auto].
Qed.

(** The scancode command and the prompt. *)
Lemma scancode_reached m0 d0 t0 out k ch m d : let e := stopped_config (kbc_dual k) (kbc_config k) in
  reached m0 d0 t0 out (reset_sent (idle (started_config (kbc_dual k) (kbc_config k)) (awake_config (kbc_dual k) e) k)) m d -> controller_ok k ->
  is_dual_channel ch = kbc_dual k ->
  exists m' d', set_keyboard_scancode lit printf_buf fuel ch m d = Ok (scancode_status k =? 0xFA, m', d') /\
    reached m0 d0 t0 (out ++ str_bytes "STATUS is " ++ render_int (scancode_status k) ++ str_bytes nl) (kbc_read (started_kbc k)).2 m' d'.
Proof.
  cbv zeta. intros Hr Hk Hch. unfold set_keyboard_scancode. set (k0 := reset_sent _) in Hr. pose proof (re_kbc _ _ _ _ _ _ _ Hr) as Ek.
  assert (kbc_pending k0 = 0 /\ kbc_dual k0 = kbc_dual k) as [Ep Ed]
    by (unfold k0, reset_sent; cbv zeta; destruct (kbc_dual (sent_to _ _ _)); split; reflexivity).
  destruct (send_step PORT1 0xF0 ch d) as (d1 & E1 & H1); [done | now rewrite Ek | now rewrite Ek, Ed | now left |].
  apply (reached_step _ _ _ _ _ _ _ _ _ Hr) in H1. pose proof (re_kbc _ _ _ _ _ _ _ H1) as Ek1. rewrite Ek in Ek1, H1.
  rewrite E1, bind_ok. cbv iota beta. cbn [negb].
  destruct (send_step PORT1 0x01 ch d1) as (d2 & E2 & H2); [done | now rewrite Ek1 | rewrite Ek1; change (is_dual_channel ch = kbc_dual k0); congruence | now left |].
  apply (reached_step _ _ _ _ _ _ _ _ _ H1) in H2. rewrite Ek1 in H2. change (sent_to PORT1 1 (sent_to PORT1 0xF0 k0)) with (started_kbc k) in H2.
  rewrite E2, bind_ok. cbv iota beta. cbn [negb].
  pose proof (wait_step d2) as H3. rewrite (re_kbc _ _ _ _ _ _ _ H2) in H3. apply (reached_step _ _ _ _ _ _ _ _ _ H2) in H3.
  destruct (read_step (io_wait d2)) as (d3 & E3 & H4). rewrite (re_kbc _ _ _ _ _ _ _ H3) in E3, H4.
  destruct (scancode_status_read k Hk) as [Es Bs]. rewrite Es, u8_small in E3 by exact Bs. rewrite E3.
  apply (reached_step _ _ _ _ _ _ _ _ _ H3) in H4. unfold is_byte in Bs.
  destruct (reached_print _ _ _ _ _ _ _ _ _ H4 (say_decimal lit printf_buf fuel texts ("STATUS is %d" +:+ nl) "STATUS is " nl (scancode_status k)
    ltac:(apply Htexts, (bool_decide_unpack _); vm_compute; exact I) eq_refl eq_refl eq_refl eq_refl ltac:(lia))) as (m5 & d5 & E5 & H5).
  rewrite E5, bind_ok. exists m5, d5. split; [destruct (scancode_status k =? 0xFA); reflexivity | exact H5].
Qed.

(** What follows the scancode command. *)
Lemma prompt_reached m0 d0 t0 out k m d (ok : bool) : reached m0 d0 t0 out k m d ->
  exists m' d', (r ← (if negb ok then say lit printf_buf fuel ("Failed to set the scancode" +:+ nl) [] m d else Ok (m, d));
      say lit printf_buf fuel (nl +:+ "> ") [] r.1 r.2) = Ok (m', d') /\
    reached m0 d0 t0 (out ++ (if ok then [] else str_bytes ("Failed to set the scancode" +:+ nl)) ++ str_bytes (nl +:+ "> ")) k m' d'.
Proof.
  intros Hr. apply (reached_print _ _ _ _ _ _ _ (fun m d => _) _ Hr), prints_then.
  - destruct ok; cbn [negb]; [apply prints_nothing | apply say_plain; [apply Htexts, (bool_decide_unpack _); vm_compute; exact I | reflexivity | reflexivity]].
  - apply say_plain; [apply Htexts, (bool_decide_unpack _); vm_compute; exact I | reflexivity | reflexivity].
Qed.

(** The start-up, whatever the tests find. *)
Lemma init_keyboard_reached hs m d t : console_env lit printf_buf fuel texts m d -> shows m d t ->
  let k := kbc_of d in
  controller_ok k -> (length (kbc_queue k) <= fuel)%nat -> length hs = 256%nat ->
  exists ch k' m' d', init_keyboard lit printf_buf fuel initial_channels hs m d =
      Ok (controller_passes k, ch, if controller_passes k then <[33%nat := Some keyboard_callback_isr]> hs else hs, m', d') /\
    reached m d t (keyboard_report k) k' m' d' /\
    (controller_passes k = true -> k' = (kbc_read (started_kbc k)).2 /\ ch = mk_channels (kbc_dual k) (channel2_off k)) /\
    (controller_passes k = false -> exists x, k' = idle (stopped_config (kbc_dual k) (kbc_config k)) x k).
Proof.
  cbv zeta. intros He Ht Hk Hq Hl. set (k := kbc_of d) in *. pose proof (reached_start m d t He Ht) as H0. fold k in H0.
  destruct (disable_devices_reached _ _ _ _ _ _ _ H0 (co_config _ Hk) Hq) as (m1 & d1 & E1 & H1). rewrite app_nil_l in H1.
  unfold init_keyboard, keyboard_report, controller_passes, self_test_passes. set (out := if channel2_off k then _ else _) in *. rewrite E1, bind_ok. cbv iota beta.
  pose proof (re_kbc _ _ _ _ _ _ _ H1) as Ek1. pose proof (self_test_step fuel d1) as H. cbv zeta in H. rewrite Ek1 in H.
  destruct (H eq_refl (co_self_test _ Hk)) as (d2 & E2 & S2). apply (reached_step _ _ _ _ _ _ _ _ _ H1) in S2.
  change (kbc_parts (idle _ _ ?k)) with (kbc_parts k) in E2, S2. set (r := self_test_result (kbc_parts k)) in *. rewrite E2, bind_ok. cbv iota beta.
  change (answered r (idle ?c ?x ?k)) with (idle c r k) in S2.
  destruct (r =? SELF_TEST_SUCCESS) eqn:Er; cbn [negb andb].
  2: { destruct (reached_print _ _ _ _ _ _ _ _ _ S2 (say_plain lit printf_buf fuel texts ("PS/2 controller self test failed!!!" +:+ nl)
      ltac:(apply Htexts, (bool_decide_unpack _); vm_compute; exact I) eq_refl eq_refl)) as (m3 & d3 & E3 & H3). rewrite E3, bind_ok.
    do 4 eexists. split_and!; [reflexivity | exact H3 | discriminate | eauto]. }
  destruct (probe_reached _ _ _ _ _ _ _ _ S2 (co_config _ Hk)) as (y & d3 & E3 & H3). cbn [should_probe_second_channel].
  rewrite E3. destruct (test_ports_reached _ _ _ _ _ _ _ (mk_channels (kbc_dual k) (channel2_off k)) _ _ H3 Hk eq_refl) as (z & d4 & E4 & H4). rewrite E4.
  destruct (ports_pass k) eqn:Ep; cbn [negb].
  2: { destruct (reached_print _ _ _ _ _ _ _ _ _ H4 (say_plain lit printf_buf fuel texts ("PS2 ports test failed." +:+ nl)
      ltac:(apply Htexts, (bool_decide_unpack _); vm_compute; exact I) eq_refl eq_refl)) as (m5 & d5 & E5 & H5). rewrite E5, bind_ok.
    do 4 eexists. split_and!; [reflexivity | exact H5 | discriminate | eauto]. }
  pose proof (enable_ports_step d4 (kbc_config k)) as H5. cbv zeta in H5. rewrite (re_kbc _ _ _ _ _ _ _ H4) in H5.
  specialize (H5 (co_config _ Hk) eq_refl eq_refl). apply (reached_step _ _ _ _ _ _ _ _ _ H4) in H5.
  rewrite register_sets, bind_ok by (lia || exact Hl).
  set (d5 := enable_ports d4) in *. pose proof (re_kbc _ _ _ _ _ _ _ H5) as Ek5.
  destruct (reset_devices_step (mk_channels (kbc_dual k) (channel2_off k)) d5) as (d6 & E6 & H6); [rewrite Ek5; reflexivity.. |].
  apply (reached_step _ _ _ _ _ _ _ _ _ H5) in H6. rewrite Ek5 in H6. rewrite E6, bind_ok. cbv iota beta. cbn [negb].
  destruct (scancode_reached _ _ _ _ _ (mk_channels (kbc_dual k) (channel2_off k)) _ _ H6 Hk eq_refl) as (m7 & d7 & E7 & H7).
  rewrite E7, bind_ok. cbv iota beta.
  destruct (prompt_reached _ _ _ _ _ _ _ (scancode_status k =? 0xFA) H7) as (m8 & d8 & E8 & H8). rewrite <- !app_assoc in H8.
  apply bind_inv in E8 as (r8 & E8 & E9). rewrite E8, bind_ok, E9, bind_ok.
  do 4 eexists. split_and!; [reflexivity | exact H8 | auto | discriminate].
Qed.

End StartUp.

#[global] Arguments re_env {D HP HasCrtc0 HasKbc0 lit printf_buf fuel texts keep m0 d0 t0 out k m d}.
#[global] Arguments re_shows {D HP HasCrtc0 HasKbc0 lit printf_buf fuel texts keep m0 d0 t0 out k m d}.
#[global] Arguments re_kbc {D HP HasCrtc0 HasKbc0 lit printf_buf fuel texts keep m0 d0 t0 out k m d}.
#[global] Arguments re_frame {D HP HasCrtc0 HasKbc0 lit printf_buf fuel texts keep m0 d0 t0 out k m d}.
#[global] Arguments re_ports {D HP HasCrtc0 HasKbc0 lit printf_buf fuel texts keep m0 d0 t0 out k m d}.
#[global] Arguments reached_step {D HP HasCrtc0 HasKbc0 Unread0 lit printf_buf fuel texts keep m0 d0 t0 out k m d d' k'}.
#[global] Arguments reached_store {D HP HasCrtc0 HasKbc0 lit printf_buf fuel texts keep m0 d0 t0 out k m m' d a n}.
#[global] Arguments reached_shown {D HP HasCrtc0 HasKbc0 lit printf_buf fuel texts keep m0 d0 t0 out k m d m' d' o}.

(** C34: The start-up of the keyboard, with the controller ready: [init_keyboard]
    returns whether the tests pass, and the screen shows what they found.  The
    configuration ends with the channels that exist enabled, with interrupts
    and without translation, if the tests pass, and disabled if not.  In the first
    case the handler is registered, the second channel is known to exist just
    when it does, the keyboard was sent a reset and the scancode command and a second
    device a reset.  Nothing but the two devices, the screen and the buffer of
    [printf] changes.  The status that is shown and judged is the first byte
    the devices answer, so the reset's, not the scancode command's. *)
Theorem init_keyboard_outcome {D : Type} `{PortDevice D} `{!HasCrtc D} `{!HasKbc D} `{!Unread kbd_ins (crtc_of (D := D))}
    (lit : string -> Z) (printf_buf : Z) (fuel : nat) (hs : list (option isr_t)) (m : mem) (d : D) (t : console) :
  let k := kbc_of d in
  let dual := kbc_dual k in
  let passes := controller_passes k in
  console_env lit printf_buf fuel keyboard_texts m d -> shows m d t ->
  controller_ok k -> (length (kbc_queue k) <= fuel)%nat -> length hs = 256%nat ->
  exists ch m' d', init_keyboard lit printf_buf fuel initial_channels hs m d =
      Ok (passes, ch, if passes then <[33%nat := Some keyboard_callback_isr]> hs else hs, m', d') /\
    shows m' d' (console_text t (keyboard_report k)) /\ console_frame printf_buf m m' /\ keyboard_and_screen d d' /\
    (forall i, 0 <= i < 8 -> Z.testbit (kbc_config (kbc_of d')) i =
       if i <? 2 then passes else if i =? 6 then false
       else if (i =? 4) || ((i =? 5) && dual) then negb passes else Z.testbit (kbc_config k) i) /\
    (passes = true -> is_dual_channel ch = dual /\ kbc_sent1 (kbc_of d') = kbc_sent1 k ++ [0xFF; 0xF0; 0x01] /\
       kbc_sent2 (kbc_of d') = kbc_sent2 k ++ (if dual then [0xFF] else []) /\ kbc_queue (kbc_of d') = tl (device_answers k)).
Proof.
  cbv zeta. intros He Ht Hk Hq Hl. pose proof (co_config _ Hk) as Hc.
  destruct (init_keyboard_reached lit printf_buf fuel keyboard_texts (fun s H => H) _ (fun x H => H) hs m d t He Ht Hk Hq Hl) as (ch & k' & m' & d' & E & [_ Hs Ek Hf Ht'] & Hp & Hn).
  exists ch, m', d'. set (k := kbc_of d) in *. split_and!; [exact E | exact Hs | intros x H1 H2; now apply Hf | exact Ht' | |].
  - intros i Hi. rewrite Ek. destruct (controller_passes k).
    + destruct (Hp eq_refl) as [-> _]. destruct (started_kbc_rest k) as (Ec & _).
      replace (kbc_config (kbc_read (started_kbc k)).2) with (kbc_config (started_kbc k)) by (unfold kbc_read; destruct (kbc_queue (started_kbc k)); reflexivity).
      rewrite Ec, started_config_bits by assumption.
      destruct (i <? 2), (i =? 4) eqn:E4, (i =? 6) eqn:E6, (i =? 5) eqn:E5, (kbc_dual k); try reflexivity; lia.
    + destruct (Hn eq_refl) as [x ->]. cbn [kbc_config idle with_config]. rewrite stopped_config_bits by assumption.
      destruct (i <? 2), (i =? 4) eqn:E4, (i =? 6) eqn:E6, (i =? 5) eqn:E5, (kbc_dual k); try reflexivity; lia.
  - intros Hpass. destruct (Hp Hpass) as [-> ->]. rewrite Ek. destruct (started_kbc_rest k) as (_ & _ & E1 & E2 & _).
    rewrite <- E1, <- E2, <- (started_kbc_queue k). unfold kbc_read. destruct (kbc_queue (started_kbc k)) eqn:Eq; auto.
Qed.

Definition keyboard_lit : string -> Z := laid_out keyboard_texts 0x1000.

Definition keyboard_board : board := mk_board (mk_crtc 0 0 0) fresh_pics (mk_pit 0 None 0) sample_kbc.

(** Two devices that answer: "STATUS is 250" is on the screen, from the reset's
    0xFA, and the rest of the answers wait. *)
Lemma init_keyboard_outcome_witness :
  exists ch m' d', init_keyboard keyboard_lit 0x8000 1024 initial_channels interrupt_handlers (literal_memory keyboard_texts 0x1000) keyboard_board =
      Ok (true, ch, <[33%nat := Some keyboard_callback_isr]> interrupt_handlers, m', d') /\
    load8 m' (VIDEO_ADDRESS + 20) = 50 /\ kbc_sent1 (bd_kbc d') = [0xFF; 0xF0; 0x01] /\ kbc_sent2 (bd_kbc d') = [0xFF] /\
    kbc_queue (bd_kbc d') = [0xAA; 0xFA; 0xAA; 0xFA; 0xFA] /\ Z.testbit (kbc_config (bd_kbc d')) 0 = true.
Proof.
  destruct (init_keyboard_outcome (D := board) keyboard_lit 0x8000 1024 interrupt_handlers (literal_memory keyboard_texts 0x1000) keyboard_board
    (0, screen_of (literal_memory keyboard_texts 0x1000))) as (ch & m' & d' & E & [_ Hs] & _ & _ & Hb & Hp).
  - split; [apply (bool_decide_unpack _); vm_compute; exact I | apply (bool_decide_unpack _); vm_compute; exact I | left; vm_compute; discriminate |
      reflexivity | split; [vm_compute; split; [discriminate | reflexivity] | reflexivity] | unfold cursor_bytes; simpl; lia].
  - split; [reflexivity | intros x _; reflexivity].
  - split; [done | now left | done | done | intros port l; cbn; destruct (bool_decide _); repeat constructor; done].
  - simpl. lia.
  - reflexivity.
  - exists ch, m', d'. destruct (Hp eq_refl) as (_ & H1 & H2 & H3).
    split_and!; [exact E | | exact H1 | exact H2 | exact H3 | exact (Hb 0 ltac:(lia))].
    etransitivity; [exact (Hs 20 ltac:(unfold SCREEN_BYTES; lia)) | vm_compute; reflexivity].
Defined.
