(* ===== verification/Boot.v ===== *)
(** * kernel/kernel.c: the start of the kernel

    [main] composes the initialisations of the other files on one machine: the
    scheduler with its memory, the devices, the descriptor tables and the
    interrupt handlers.  After it [do_tasking_test] forks, and a child goes to
    user mode, where it prints through the system call. *)

From S2P Require Import Prelude Memory Util OrderedArray Kernel Paging KHeap Directories Ports Descriptors Interrupts Syscall Task TaskInv.
From S2P Require Import TaskProps Screen Printf PrintfNumber PrintfProps Literals Ps2 Console Faults Clock.

(** ** The A20 line

    With the line off the processor drops bit 20 of an address. *)

Definition bus (a20 : bool) (a : Z) : Z := if a20 then a else Z.land a (Z.lnot 0x100000).

(** cpu/interrupt.asm: the result is put in AX, the low half of EAX, which is
    otherwise as it was before the call. *)
Definition is_A20_on (a20 : bool) (eax : Z) (m : mem) : Z * mem :=
  let edi := 0x112345 in
  let esi := 0x012345 in
  let m := store32 m (bus a20 esi) esi in
  let m := store32 m (bus a20 edi) edi in
  let ax := if load32 m (bus a20 esi) =? load32 m (bus a20 edi) then 0 else 1 in
  (Z.lor (Z.land eax 0xFFFF0000) ax, m).

Section Boot.
Context {D : Type} `{HP : PortDevice D}.
Context (lit : string -> Z) (printf_buf : Z) (fuel : nat).

(** [A20_sanity_checks] after [init_A20]. *)
Definition A20_report (a20 : bool) (eax : Z) (m : mem) (d : D) : outcome (mem * D) :=
  let addr := 0x011111 in
  let addr2 := 0x111111 in
  let m := store8 m (bus a20 addr) 0x1 in
  let m := store8 m (bus a20 addr2) 0x2 in
  r ← (if load8 m (bus a20 addr) =? load8 m (bus a20 addr2)
       then say lit printf_buf fuel ("Equal addresses" +:+ nl) [] m d
       else say lit printf_buf fuel ("Not Equal addresses" +:+ nl) [] m d);
  let '(on, m) := is_A20_on a20 eax r.1 in
  if negb (on =? 0) then say lit printf_buf fuel ("A20_on" +:+ nl) [] m r.2
  else say lit printf_buf fuel ("A20_off" +:+ nl) [] m r.2.

Definition A20_sanity_checks (a20 : bool) (eax ac ad : Z) (m : mem) (d : D) : outcome (mem * D) :=
  r ← init_A20 lit fuel ac ad m d;
  A20_report a20 eax r.1 r.2.

(** ** Printing from a task *)

Definition x_mem (x : machine D) : mem := k_mem (s_kernel (x_sched x)).

Definition with_x_mem (m : mem) (d : D) (x : machine D) : machine D :=
  mk_machine (with_kernel (with_mem m (s_kernel (x_sched x))) (x_sched x)) d.

Definition say_x (text : string) (args : list Z) (x : machine D) : outcome (machine D) :=
  r ← say lit printf_buf fuel text args (x_mem x) (x_dev x);
  Ok (with_x_mem r.1 r.2 x).

(** ** System calls and user mode *)

(** The parameters of a system call go to EBX, ECX, EDX, ESI and EDI, its
    number to EAX; the stub returns EAX as it is after the interrupt. *)
Definition syscall_regs (num : Z) (ps : list Z) (r : registers_t) : registers_t :=
  let arg i old := nth i ps old in
  mk_registers (r_ds r) (arg 4%nat (r_edi r)) (arg 3%nat (r_esi r)) (r_ebp r) (r_esp r) (arg 0%nat (r_ebx r)) (arg 2%nat (r_edx r))
    (arg 1%nat (r_ecx r)) num 0x80 (r_err_code r) (r_eip r) (r_cs r) (r_eflags r) (r_useresp r) (r_ss r).

(** [print_string(str)] prints with the string as the format; the caller sees
    what the call leaves in EAX. *)
Definition print_string (eax : Z) (location : syscall_t) (args : list Z) (x : machine D) : outcome (Z * machine D) :=
  match args with
  | str :: _ =>
      r ← printf fuel printf_buf str [] (x_mem x) (x_dev x);
      Ok (eax, with_x_mem r.1.2 r.2 x)
  | [] => Undef "missing argument"
  end.

Context (other : isr_t -> registers_t -> machine D -> outcome (registers_t * machine D)).

Definition syscall (eax num : Z) (ps : list Z) (regs : registers_t) (hs : list (option isr_t)) (x : machine D) : outcome (Z * machine D) :=
  r ← isr_handler (with_syscalls (print_string eax) other) hs (syscall_regs num ps regs) x;
  Ok (r_eax r.1, r.2).

Definition syscall_print_string (eax str : Z) := syscall eax 0 [str].

(** What the assembly does to the segment registers is not modelled; the
    kernel stack of the task is the one for the next interrupt. *)
Definition switch_to_user_mode (x : machine D) : outcome (machine D) :=
  let s := x_sched x in
  t ← deref (s_tasks s) (s_current s);
  Ok (mk_machine (with_cpu (set_kernel_stack (u32 (t_kernel_stack t + KERNEL_STACK_SIZE)) (s_tss s)) (s_cpu s) s) (x_dev x)).

Definition do_user_mode (eax : Z) (regs : registers_t) (hs : list (option isr_t)) (x : machine D)
    : outcome (list (option isr_t) * machine D) :=
  hs ← initialise_syscalls hs;
  x ← switch_to_user_mode x;
  r ← syscall_print_string eax (lit ("Running in user mode!" +:+ nl)) regs hs x;
  Ok (hs, r.2).

(** ** The tasking test *)

Definition fork_format : string := "fork() returned %d, and getpid() returned %d" +:+ nl.

Definition fork_message (ret : Z) (x : machine D) : outcome (machine D) :=
  pid ← getpid (x_sched x);
  say_x fork_format [ret; pid] x.

(** [ret = fork()]. *)
Definition fork_x (eip esp ebp : Z) (x : machine D) : outcome (Z * machine D) :=
  r ← fork fuel eip esp ebp (x_sched x); Ok (r.1, mk_machine r.2 (x_dev x)).

(** A turn of the endless loops: the message of the turn before, once the task
    runs again, and the sleep, which switches to another task. *)
Definition test_sleep (ret eip esp ebp : Z) (x : machine D) : outcome (machine D) :=
  s ← sleep (if 0 <? ret then 50 else 10) eip esp ebp (x_sched x); Ok (mk_machine s (x_dev x)).

Definition test_turn (ret eip esp ebp : Z) (x : machine D) : outcome (machine D) :=
  x ← fork_message ret x; test_sleep ret eip esp ebp x.

(** The test from the return of the first [fork], in the task where it returns
    [ret], up to where the task gives the processor away or is done. *)
Definition do_tasking_test_from (ret eip esp ebp eax : Z) (regs : registers_t) (hs : list (option isr_t)) (x : machine D)
    : outcome (list (option isr_t) * machine D) :=
  x ← fork_message ret x;
  if 0 <? ret then
    r ← fork_x eip esp ebp x;
    x ← test_sleep r.1 eip esp ebp r.2;
    Ok (hs, x)
  else do_user_mode eax regs hs x.

Definition do_tasking_test (eip esp ebp eax : Z) (regs : registers_t) (hs : list (option isr_t)) (x : machine D)
    : outcome (list (option isr_t) * machine D) :=
  r ← fork_x eip esp ebp x;
  do_tasking_test_from r.1 eip esp ebp eax regs hs r.2.

(** ** main *)

(** What the start leaves: the machine, the keyboard's channels, the handlers
    and the descriptor tables, and the control registers. *)
Record booted := mk_booted {
  b_machine : machine D;
  b_channels : channels;
  b_handlers : list (option isr_t);
  b_gdt : list gdt_entry_t * tss_entry_t * gdt_ptr_t;
  b_idt : list idt_gate_t * idt_register_t;
  b_cpu : cpu_t;
}.

(** The addresses the linker decides: the assembly entry points, the tables,
    the end of the kernel. *)
Record image := mk_image {
  im_isr : Z -> Z; im_irq : Z -> Z; im_isr3_handler : Z; im_isr128 : Z;
  im_idt : Z; im_gdt : Z; im_tss : Z; im_end : Z;
}.

(** [main] up to [initialise_tasking], on the machine [x] whose tables are
    still zero; [eax], [ac] and [ad] are for [A20_sanity_checks], [esp] and
    [ebp] for [move_stack], [n] bounds the loop of the identity map. *)
Definition start (im : image) (n : nat) (a20 : bool) (eax ac ad esp ebp : Z) (c : cpu_t) (x : machine D) : outcome booted :=
  r ← A20_sanity_checks a20 eax ac ad (x_mem x) (x_dev x);
  gdt ← init_gdt (im_gdt im) (im_tss im) (replicate 6 zero_entry);
  i ← isr_install (im_isr im) (im_irq im) (im_isr3_handler im) (im_isr128 im) (im_idt im) r.2;
  let '(idt, idtr, d) := i in
  t ← init_timer 50 interrupt_handlers d;
  kb ← init_keyboard lit printf_buf fuel initial_channels t.1 r.1 t.2;
  let '(_, ch, hs, m, d) := kb in
  hs ← register_interrupt_handler 13 general_fault_isr hs;
  hs ← register_interrupt_handler 14 page_fault_isr hs;
  p ← initialise_paging fuel n c (with_mem m (s_kernel (x_sched x)));
  s ← initialise_tasking fuel (im_end im) esp ebp (with_cpu gdt.1.2 (s_cpu (x_sched x)) (with_kernel p.2 (x_sched x)));
  Ok (mk_booted (mk_machine s d) ch hs gdt (idt, idtr) p.1).

Definition main (im : image) (n : nat) (a20 : bool) (eax ac ad esp ebp : Z) (c : cpu_t) (eip' esp' ebp' eax' : Z) (regs : registers_t)
    (x : machine D) : outcome (list (option isr_t) * machine D) :=
  b ← start im n a20 eax ac ad esp ebp c x;
  do_tasking_test eip' esp' ebp' eax' regs (b_handlers b) (b_machine b).

End Boot.
