(* ===== verification/A20Props.v ===== *)
(** * The A20 line

    [init_A20] of drivers/keyboard.c sets bit 1 of the output port of the
    keyboard controller; [A20_sanity_checks] of kernel/kernel.c then reports
    whether the line is on.  Both print, on a machine with the two devices. *)

From S2P Require Import Prelude Memory Util Paging Ports Descriptors Interrupts Screen Printf PrintfNumber PrintfProps Literals Ps2 Kbc Console.
From S2P Require Import Faults Clock Board Ps2Props Boot.

(** ** What the checks write *)

(** The bytes that the checks write, with the line on or off. *)
Definition probes : list (Z * Z) := [(0x011111, 1); (0x111111, 1); (0x012345, 4); (0x112345, 4)].

Definition off_probes (a n : Z) : Prop := Forall (fun p => a + n <= p.1 \/ p.1 + p.2 <= a) probes.

Lemma off_probes_in a n p : off_probes a n -> p ∈ probes -> a + n <= p.1 \/ p.1 + p.2 <= a.
Proof. unfold off_probes. rewrite Forall_forall. auto. Qed.

Lemma bus_probe a20 a n : (a, n) ∈ probes -> (bus a20 a, n) ∈ probes.
Proof.
  destruct a20; cbn [bus]; [auto|]. unfold probes. rewrite !elem_of_cons, !elem_of_nil.
  intros H; decompose [or] H; simplify_eq; vm_compute; auto.
Qed.

Definition a20_texts : list string :=
  ["output port status before: "; nl; "Equal addresses" +:+ nl; "Not Equal addresses" +:+ nl; "A20_on" +:+ nl; "A20_off" +:+ nl]%string.

Section Checks.
Context {D : Type} `{HP : PortDevice D} `{!HasCrtc D}.
Context (lit : string -> Z) (printf_buf : Z) (fuel : nat) (texts : list string).
Context (Htexts : forall s, s ∈ a20_texts -> s ∈ texts).
Context (Hclear : Forall (fun s => off_probes (lit s) (Z.of_nat (length (str_bytes s)) + 1)) texts).

(** [m] and [m'] agree but for the checks' bytes, the screen and [printf]'s buffer. *)
Definition probe_frame (m m' : mem) : Prop :=
  forall x, off_probes x 1 -> (x < printf_buf \/ printf_buf + PRINTF_BUF_SIZE <= x) ->
    (x < VIDEO_ADDRESS \/ VIDEO_ADDRESS + SCREEN_BYTES <= x) -> load8 m' x = load8 m x.

Let env := console_env lit printf_buf fuel texts (D := D).

Lemma probe_env p (m m' : mem) (d : D) (t : console) : p ∈ probes -> same_but p.1 p.2 m m' -> env m d -> shows m d t ->
  env m' d /\ shows m' d t /\ probe_frame m m'.
Proof.
  intros Hp Hs He Ht. destruct (console_env_but lit printf_buf fuel texts p.1 p.2 m m' d t Hs) as [He' Ht']; [split | exact He | exact Ht |].
  - apply (Forall_impl _ _ _ Hclear). intros s Ho. pose proof (off_probes_in _ _ _ Ho Hp). cbv beta. lia.
  - unfold probes in Hp. rewrite !elem_of_cons, elem_of_nil in Hp. unfold off_video, VIDEO_ADDRESS, SCREEN_BYTES.
    destruct Hp as [->|[->|[->|[->|[]]]]]; cbn [fst snd]; lia.
  - split_and!; [exact He' | exact Ht' |]. intros x Hx _ _. apply Hs. pose proof (off_probes_in _ _ _ Hx Hp). lia.
Qed.

Lemma probe_frame_trans m1 m2 m3 : probe_frame m1 m2 -> probe_frame m2 m3 -> probe_frame m1 m3.
Proof. intros H1 H2 x Ha Hb Hc. rewrite H2, H1; auto. Qed.

(** Two stores at addresses that differ in bit 20 only. *)
Lemma probe_bytes a20 (m : mem) (d : D) t : env m d -> shows m d t ->
  let m' := store8 (store8 m (bus a20 0x011111) 0x1) (bus a20 0x111111) 0x2 in
  env m' d /\ shows m' d t /\ probe_frame m m' /\ (load8 m' (bus a20 0x011111) =? load8 m' (bus a20 0x111111)) = negb a20.
Proof.
  intros He Ht. cbv zeta.
  destruct (probe_env (bus a20 0x011111, 1) m (store8 m (bus a20 0x011111) 0x1) d t) as (He1 & Ht1 & Hf1);
    [apply bus_probe; by left | apply same_but_store8; cbn; lia | exact He | exact Ht |].
  destruct (probe_env (bus a20 0x111111, 1) (store8 m (bus a20 0x011111) 0x1) (store8 (store8 m (bus a20 0x011111) 0x1) (bus a20 0x111111) 0x2) d t) as (He2 & Ht2 & Hf2);
    [apply bus_probe; by right; left | apply same_but_store8; cbn; lia | exact He1 | exact Ht1 |].
  split_and!; [exact He2 | exact Ht2 | exact (probe_frame_trans _ _ _ Hf1 Hf2) |].
  destruct a20; cbn [bus]; [rewrite load8_store8_eq, load8_store8_ne, load8_store8_eq by lia; reflexivity|].
  change (Z.land 0x111111 (Z.lnot 0x100000)) with (Z.land 0x011111 (Z.lnot 0x100000)). apply Z.eqb_refl.
Qed.

Lemma probe_words a20 eax (m : mem) (d : D) t : env m d -> shows m d t ->
  let r := is_A20_on a20 eax m in
  env r.2 d /\ shows r.2 d t /\ probe_frame m r.2 /\ r.1 = Z.lor (Z.land eax 0xFFFF0000) (if a20 then 1 else 0).
Proof.
  intros He Ht. cbv zeta. unfold is_A20_on. cbn [fst snd].
  destruct (probe_env (bus a20 0x012345, 4) m (store32 m (bus a20 0x012345) 0x012345) d t) as (He1 & Ht1 & Hf1);
    [apply bus_probe; by right; right; left | apply same_but_store32; cbn; lia | exact He | exact Ht |].
  destruct (probe_env (bus a20 0x112345, 4) (store32 m (bus a20 0x012345) 0x012345) (store32 (store32 m (bus a20 0x012345) 0x012345) (bus a20 0x112345) 0x112345) d t) as (He2 & Ht2 & Hf2);
    [apply bus_probe; by right; right; right; left | apply same_but_store32; cbn; lia | exact He1 | exact Ht1 |].
  split_and!; [exact He2 | exact Ht2 | exact (probe_frame_trans _ _ _ Hf1 Hf2) |].
  destruct a20; cbn [bus]; [rewrite load32_store32_eq, load32_store32_ne, load32_store32_eq by lia; reflexivity|].
  change (Z.land 0x112345 (Z.lnot 0x100000)) with (Z.land 0x012345 (Z.lnot 0x100000)). rewrite Z.eqb_refl. reflexivity.
Qed.

(** What the checks print. *)
Definition a20_text (a20 : bool) (eax : Z) : list Z :=
  if a20 then str_bytes ("Not Equal addresses" +:+ nl) ++ str_bytes ("A20_on" +:+ nl)
  else str_bytes ("Equal addresses" +:+ nl) ++ str_bytes (if Z.land eax 0xFFFF0000 =? 0 then "A20_off" +:+ nl else "A20_on" +:+ nl).

Lemma say_probe (b : bool) s1 s2 m d t : s1 ∈ a20_texts -> s2 ∈ a20_texts -> plain s1 = true -> plain s2 = true ->
  Z.of_nat (length (str_bytes s1)) < PRINTF_BUF_SIZE -> Z.of_nat (length (str_bytes s2)) < PRINTF_BUF_SIZE -> env m d -> shows m d t ->
  exists m' d', (if b then say lit printf_buf fuel s1 [] m d else say lit printf_buf fuel s2 [] m d) = Ok (m', d') /\
    env m' d' /\ shows m' d' (console_text t (str_bytes (if b then s1 else s2))) /\ probe_frame m m' /\ only_screen d d'.
Proof.
  intros H1 H2 P1 P2 L1 L2 He Ht. assert (prints (D := D) lit printf_buf fuel texts (fun m d => if b then say lit printf_buf fuel s1 [] m d
    else say lit printf_buf fuel s2 [] m d) (str_bytes (if b then s1 else s2))) as Hp by (destruct b; apply say_plain; auto).
  destruct (Hp m d t He Ht) as (m' & d' & E & He' & Ht' & Hf & Ho). exists m', d'.
  split_and!; [exact E | exact He' | exact Ht' | intros x _ Hb Hv; now apply Hf | exact Ho].
Qed.

Lemma A20_report_ok (a20 : bool) (eax : Z) (m : mem) (d : D) (t : console) : env m d -> shows m d t ->
  exists m' d', A20_report lit printf_buf fuel a20 eax m d = Ok (m', d') /\ env m' d' /\
    shows m' d' (console_text t (a20_text a20 eax)) /\ probe_frame m m' /\ only_screen d d'.
Proof.
  intros He Ht. unfold A20_report. destruct (probe_bytes a20 m d t He Ht) as (He1 & Ht1 & Hf1 & ->).
  set (m1 := store8 _ _ _) in *.
  destruct (say_probe (negb a20) ("Equal addresses" +:+ nl) ("Not Equal addresses" +:+ nl) m1 d t) as (m2 & d2 & E2 & He2 & Ht2 & Hf2 & Ho2);
    try assumption; try reflexivity; try (apply (bool_decide_unpack _); vm_compute; exact I).
  set (t1 := console_text t _) in Ht2. rewrite E2, bind_ok. cbn [fst snd]. destruct (probe_words a20 eax m2 d2 _ He2 Ht2) as (He3 & Ht3 & Hf3 & Eon).
  destruct (is_A20_on a20 eax m2) as [on m3]. cbn [fst snd] in *.
  destruct (say_probe (negb (on =? 0)) ("A20_on" +:+ nl) ("A20_off" +:+ nl) m3 d2 t1) as (m4 & d4 & E4 & He4 & Ht4 & Hf4 & Ho4);
    try eassumption; try reflexivity; try (apply (bool_decide_unpack _); vm_compute; exact I).
  unfold t1 in Ht4. rewrite console_text_app in Ht4. exists m4, d4. split_and!; [exact E4 | exact He4 | | | exact (touches_trans _ _ _ Ho2 Ho4)].
  - subst on. unfold a20_text. destruct a20; cbn [negb] in Ht4; [|rewrite Z.lor_0_r in Ht4; destruct (Z.land eax 0xFFFF0000 =? 0); exact Ht4].
    destruct (Z.eqb_spec (Z.lor (Z.land eax 0xFFFF0000) 1) 0) as [E|E]; [|exact Ht4]. apply Z.lor_eq_0_iff in E. lia.
  - exact (probe_frame_trans _ _ _ Hf1 (probe_frame_trans _ _ _ Hf2 (probe_frame_trans _ _ _ Hf3 Hf4))).
Qed.

End Checks.

(** ** Turning the line on *)

(** The text of a byte in hexadecimal, as [hex_to_ascii] has it. *)
Definition hex_text (n : Z) : list Z := [48; 120] ++ upper_nibbles loop_digit 7 false n ++ [hex_digit (nib n 0)].

Lemma hex_text_short n : is_byte n -> (length (hex_text n) <= 4)%nat.
Proof.
  intros Hn. apply Nat.leb_le. revert n Hn. apply (all_upto 0x100 (fun n => (length (hex_text n) <=? 4)%nat)). vm_compute. reflexivity.
Qed.

(** The byte that [init_A20] takes for the output port, and the controller
    after it. *)
Definition port_seen (k : kbc) : Z := hd (kbc_output_port k) (kbc_queue k).

Definition a20_kbc (k : kbc) : kbc :=
  mk_kbc (Z.clearbit (Z.setbit (kbc_config k) 4) 4) (Z.lor (port_seen k) 2) (tl (kbc_queue k ++ [kbc_output_port k])) (port_seen k) 0
    (kbc_sent1 k) (kbc_sent2 k) (kbc_parts k).

Definition a20_report_text (k : kbc) : list Z := str_bytes "output port status before: " ++ hex_text (port_seen k) ++ str_bytes nl.

Lemma or_2_byte v : is_byte v -> is_byte (Z.lor v 2) /\ Z.testbit (Z.lor v 2) 1 = true.
Proof.
  intros Hv. pose proof (all_upto 0x100 (fun v => (0 <=? Z.lor v 2) && (Z.lor v 2 <? 0x100)) ltac:(vm_compute; reflexivity) v Hv) as H.
  cbv beta in H. split; [unfold is_byte; lia|]. rewrite Z.lor_spec. apply orb_true_r.
Qed.

Section Init.
Context {D : Type} `{HP : PortDevice D} `{!HasCrtc D} `{!HasKbc D} `{!Unread kbd_ins (crtc_of (D := D))}.
Context (lit : string -> Z) (printf_buf : Z) (fuel : nat) (texts : list string).
Context (Htexts : forall s, s ∈ a20_texts -> s ∈ texts).
Context (keep : Z -> Prop).
Context (Hkeep : forall x, keep x -> (x < printf_buf \/ printf_buf + PRINTF_BUF_SIZE <= x) /\ (x < VIDEO_ADDRESS \/ VIDEO_ADDRESS + SCREEN_BYTES <= x)).

Let reached := reached (D := D) lit printf_buf fuel texts keep.

Lemma wait_keyboard_step (ac : Z) (m : mem) (d : D) : exists d', wait_keyboard lit fuel ac m d = Ok (m, d') /\ kbc_step d d' (kbc_of d).
Proof.
  destruct (read_status_step d) as (s & d' & E & Hs & _ & _ & H2). exists d'. split; [|exact Hs].
  unfold wait_keyboard. change (port_byte_in REG_CMD d) with (read_status d). rewrite E. apply while_done. now rewrite H2.
Qed.

(** Ready for a command, and the command. *)
Lemma reached_command m0 d0 t0 out k m d ac c : reached m0 d0 t0 out k m d -> is_byte c ->
  exists d', wait_keyboard lit fuel ac m d = Ok (m, d') /\ reached m0 d0 t0 out (kbc_command c k) m (port_byte_out REG_CMD c d').
Proof.
  intros Hr Hc. destruct (wait_keyboard_step ac m d) as (d' & E & Hs). exists d'. split; [exact E|].
  rewrite (re_kbc Hr) in Hs. apply (reached_step Hr) in Hs.
  pose proof (command_step c d' Hc) as H1. rewrite (re_kbc Hs) in H1.
  exact (reached_step Hs H1).
Qed.

(** [kprint] of a string in memory. *)
Lemma reached_kprint m0 d0 t0 out k m d a l : reached m0 d0 t0 out k m d -> cstring m a l ->
  off_video a (Z.of_nat (length l) + 1) -> (length l <= fuel)%nat ->
  exists m' d', kprint fuel a m d = Ok (m', d') /\ reached m0 d0 t0 (out ++ l) k m' d' /\ same_but VIDEO_ADDRESS SCREEN_BYTES m m'.
Proof.
  intros Hr Hs Hv Hf. destruct (kprint_shows lit printf_buf fuel texts m d _ a l (re_env Hr) (re_shows Hr) Hs Hv Hf)
    as (m' & d' & E & He' & Hs' & Hfr & Ho). exists m', d'. split_and!; [exact E | | exact Hfr].
  apply (reached_shown Hr He' Hs'); [|exact Ho]. intros x Hx. destruct (Hkeep x Hx). now apply Hfr.
Qed.

Lemma reached_kprint_literal m0 d0 t0 out k m d s : reached m0 d0 t0 out k m d -> s ∈ texts ->
  exists m' d', kprint fuel (lit s) m d = Ok (m', d') /\ reached m0 d0 t0 (out ++ str_bytes s) k m' d' /\ same_but VIDEO_ADDRESS SCREEN_BYTES m m'.
Proof.
  intros Hr Hs. pose proof (re_env Hr) as He. pose proof (ce_literals _ _ _ _ _ _ He) as Hl. rewrite Forall_forall in Hl.
  destruct (Hl s Hs) as (_ & Hv & Hf & _). cbv zeta in Hv, Hf.
  apply (reached_kprint _ _ _ _ _ _ _ _ _ Hr (placed_in _ _ _ _ (ce_placed _ _ _ _ _ _ He) Hs) Hv). lia.
Qed.

(** The output port as the driver reads it: the next byte of the output buffer. *)
Lemma reached_port m0 d0 t0 out k m d : reached m0 d0 t0 out (queued [kbc_output_port k] (with_config (Z.setbit (kbc_config k) 4) k)) m d ->
  is_byte (kbc_output_port k) -> Forall is_byte (kbc_queue k) ->
  exists d', port_byte_in REG_DATA (io_wait d) = (port_seen k, d') /\
    reached m0 d0 t0 out (mk_kbc (Z.setbit (kbc_config k) 4) (kbc_output_port k) (tl (kbc_queue k ++ [kbc_output_port k])) (port_seen k) 0
      (kbc_sent1 k) (kbc_sent2 k) (kbc_parts k)) m d' /\ is_byte (port_seen k).
Proof.
  intros Hr Ho Hq. pose proof (wait_step d) as H1. rewrite (re_kbc Hr) in H1.
  apply (reached_step Hr) in H1. destruct (read_step (io_wait d)) as (d' & E & H2).
  rewrite (re_kbc H1) in E, H2. apply (reached_step H1) in H2.
  exists d'. unfold port_seen, kbc_read in *. cbn [kbc_queue queued with_config] in *.
  destruct (kbc_queue k) as [|b q]; cbn [app hd tl fst snd] in *; rewrite u8_small in E by (exact Ho || (apply Forall_cons in Hq as [Hb _]; exact Hb));
    (split_and!; [exact E | exact H2 | try exact Ho; apply Forall_cons in Hq as [Hb _]; exact Hb]).
Qed.

(** The report of the output port. *)
Lemma reached_report m0 d0 t0 out k m d v ad : reached m0 d0 t0 out k m d -> is_byte v ->
  load8 m ad = 0 -> clear_of_console lit texts ad 8 -> (forall x, keep x -> x < ad \/ ad + 8 <= x) ->
  exists m1 m2 d2 m3 d3 m4 d4, hex_to_ascii fuel m v ad = Ok m1 /\
    kprint fuel (lit "output port status before: ") m1 d = Ok (m2, d2) /\ kprint fuel ad m2 d2 = Ok (m3, d3) /\
    kprint fuel (lit nl) m3 d3 = Ok (m4, d4) /\
    reached m0 d0 t0 (out ++ str_bytes "output port status before: " ++ hex_text v ++ str_bytes nl) k m4 d4.
Proof.
  intros Hr Hv Hz Hc Hk. pose proof (ce_fuel _ _ _ _ _ _ (re_env Hr)) as Hf. change (Z.to_nat PRINTF_BUF_SIZE) with 1024%nat in Hf.
  destruct (hex_to_ascii_spec fuel m ad [] v) as (m1 & E1 & Hs1 & Hfr1); [split; [|constructor] | simpl; lia |].
  { cbn [app]. apply bytes_at_cons. split; [exact Hz | constructor]. }
  cbv zeta in Hs1, Hfr1. cbn [app length] in Hs1, Hfr1. change (48 :: 120 :: _) with (hex_text v) in Hs1, Hfr1.
  pose proof (hex_text_short v Hv) as Hl.
  assert (same_but ad 8 m m1) as Hm1 by (eapply same_but_widen; [| | exact Hfr1]; cbn [hex_text length app] in *; lia).
  apply (reached_store Hr) in Hm1 as Hr1; [|exact Hc | exact Hk].
  destruct (reached_kprint_literal _ _ _ _ _ _ _ "output port status before: " Hr1 ltac:(apply Htexts; left)) as (m2 & d2 & E2 & Hr2 & Hfr2).
  destruct Hc as [_ Hv8].
  assert (cstring m2 ad (hex_text v)) as Hs2.
  { destruct Hs1 as [Hs1 Hn]. split; [|exact Hn]. revert Hs1. apply (same_but_bytes_at VIDEO_ADDRESS SCREEN_BYTES); [exact Hfr2|].
    rewrite length_app. cbn [length]. unfold off_video in Hv8. lia. }
  destruct (reached_kprint _ _ _ _ _ _ _ ad (hex_text v) Hr2 Hs2) as (m3 & d3 & E3 & Hr3 & _); [unfold off_video in *; lia | lia |].
  destruct (reached_kprint_literal _ _ _ _ _ _ _ nl Hr3 ltac:(apply Htexts; right; left)) as (m4 & d4 & E4 & Hr4 & _).
  rewrite <- !app_assoc in Hr4. exists m1, m2, d2, m3, d3, m4, d4. auto.
Qed.

Lemma init_A20_reached m0 d0 t0 out k m d ac ad : reached m0 d0 t0 out k m d ->
  is_byte (kbc_output_port k) -> Forall is_byte (kbc_queue k) ->
  load8 m ad = 0 -> clear_of_console lit texts ad 8 -> (forall x, keep x -> x < ad \/ ad + 8 <= x) ->
  exists m' d', init_A20 lit fuel ac ad m d = Ok (m', d') /\ reached m0 d0 t0 (out ++ a20_report_text k) (a20_kbc k) m' d'.
Proof.
  intros Hr Ho Hq Hz Hc Hk. unfold init_A20.
  destruct (reached_command _ _ _ _ _ _ _ ac 0xAD Hr ltac:(done)) as (d1 & E1 & H1). rewrite E1, bind_ok. cbv zeta. cbn [fst snd].
  destruct (reached_command _ _ _ _ _ _ _ ac 0xD0 H1 ltac:(done)) as (d2 & E2 & H2). rewrite E2, bind_ok. cbn [fst snd].
  destruct (reached_port _ _ _ _ _ _ _ H2 Ho Hq) as (d3 & E3 & H3 & Bv). rewrite E3.
  destruct (reached_report _ _ _ _ _ _ _ (port_seen k) ad H3 Bv Hz Hc Hk) as (m3 & m4 & d4 & m5 & d5 & m6 & d6 & E4 & E5 & E6 & E7 & H7).
  rewrite E4, bind_ok, E5, bind_ok. cbn [fst snd]. rewrite E6, bind_ok. cbn [fst snd]. rewrite E7, bind_ok. cbn [fst snd].
  destruct (reached_command _ _ _ _ _ _ _ ac 0xD1 H7 ltac:(done)) as (d8 & E8 & H8). rewrite E8, bind_ok. cbn [fst snd].
  destruct (wait_keyboard_step ac m6 (port_byte_out REG_CMD 0xD1 d8)) as (d9 & E9 & H9). rewrite E9, bind_ok. cbn [fst snd].
  rewrite (re_kbc H8) in H9. apply (reached_step H8) in H9.
  destruct (or_2_byte _ Bv) as [Bv2 _]. pose proof (data_step (Z.lor (port_seen k) 2) d9 Bv2) as H10. rewrite (re_kbc H9) in H10.
  apply (reached_step H9) in H10.
  destruct (reached_command _ _ _ _ _ _ _ ac 0xAE H10 ltac:(done)) as (d11 & E11 & H11). rewrite E11, bind_ok.
  eexists _, _. split; [reflexivity | exact H11].
Qed.

End Init.

(** C37: [A20_sanity_checks], with the controller ready: it takes the next byte at
    port 0x60 for the output port and shows it, writes it back with bit 1 set
    and enables the keyboard.  Then it reports the line: on if the two addresses
    that differ in bit 20 differ; with the line off the first line says so,
    but the second only if the upper half of EAX happens to be zero, as the
    assembly sets AX alone.  With a key waiting at port 0x60 it is the key's
    code that goes to the output port. *)
Theorem A20_sanity_checks_show {D : Type} `{PortDevice D} `{!HasCrtc D} `{!HasKbc D} `{!Unread kbd_ins (crtc_of (D := D))}
    (lit : string -> Z) (printf_buf : Z) (fuel : nat) (a20 : bool) (eax ac ad : Z) (m : mem) (d : D) (t : console) :
  let k := kbc_of d in
  let seen := hd (kbc_output_port k) (kbc_queue k) in
  console_env lit printf_buf fuel a20_texts m d -> shows m d t ->
  Forall (fun s => off_probes (lit s) (Z.of_nat (length (str_bytes s)) + 1)) a20_texts ->
  is_byte (kbc_output_port k) -> Forall is_byte (kbc_queue k) -> load8 m ad = 0 -> clear_of_console lit a20_texts ad 8 ->
  exists m' d', A20_sanity_checks lit printf_buf fuel a20 eax ac ad m d = Ok (m', d') /\
    shows m' d' (console_text t (str_bytes "output port status before: " ++ hex_text seen ++ str_bytes nl ++
      if a20 then str_bytes ("Not Equal addresses" +:+ nl) ++ str_bytes ("A20_on" +:+ nl)
      else str_bytes ("Equal addresses" +:+ nl) ++ str_bytes (if Z.land eax 0xFFFF0000 =? 0 then "A20_off" +:+ nl else "A20_on" +:+ nl))) /\
    kbc_output_port (kbc_of d') = Z.lor seen 2 /\ kbc_queue (kbc_of d') = tl (kbc_queue k ++ [kbc_output_port k]) /\
    Z.testbit (kbc_config (kbc_of d')) 4 = false /\ (forall i, 0 <= i -> i <> 4 -> Z.testbit (kbc_config (kbc_of d')) i = Z.testbit (kbc_config k) i).
Proof.
  cbv zeta. intros He Ht Hl Ho Hq Hz Hc.
  destruct (init_A20_reached lit printf_buf fuel a20_texts (fun s H => H) (fun _ => False) (fun x H => False_ind _ H) m d t [] (kbc_of d) m d ac ad)
    as (m1 & d1 & E1 & [He1 Ht1 Ek1 _ _]); try assumption; [now apply reached_start | tauto |].
  destruct (A20_report_ok lit printf_buf fuel a20_texts (fun s H => H) Hl a20 eax m1 d1 _ He1 Ht1) as (m2 & d2 & E2 & _ & Ht2 & _ & Ho2).
  rewrite console_text_app in Ht2. exists m2, d2. unfold A20_sanity_checks. rewrite E1, bind_ok. cbn [fst snd].
  assert (kbc_of d2 = a20_kbc (kbc_of d)) as -> by (rewrite <- Ek1; apply (only_screen_kbc _ _ Ho2); intros x; now rewrite crtc_in).
  unfold a20_report_text in Ht2. cbn [app] in Ht2. rewrite <- !app_assoc in Ht2. fold (port_seen (kbc_of d)).
  split_and!; [exact E2 | exact Ht2 | reflexivity | reflexivity | |].
  - cbn [kbc_config a20_kbc]. apply Z.clearbit_eq.
  - intros i Hi Hne. cbn [kbc_config a20_kbc]. rewrite Z.clearbit_neq, Z.setbit_neq by lia. reflexivity.
Qed.

Definition a20_lit : string -> Z := laid_out a20_texts 0x1000.

Definition a20_board : board := mk_board (mk_crtc 0 0 0) fresh_pics (mk_pit 0 None 0) sample_kbc.

Lemma a20_env : console_env a20_lit 0x8000 1024 a20_texts (literal_memory a20_texts 0x1000) a20_board.
Proof.
  split.
  - apply (bool_decide_unpack _). vm_compute. exact I.
  - apply (bool_decide_unpack _). vm_compute. exact I.
  - left. vm_compute. discriminate.
  - reflexivity.
  - split; [vm_compute; split; [discriminate | reflexivity] | reflexivity].
  - unfold cursor_bytes. simpl. lia.
Qed.

(** The code 0x1C of a key waits: the output port gets 0x1E, whose bit 0, the
    processor's reset, is clear.  With the line off and a bit in the upper half
    of EAX, the last line says "A20_on". *)
Lemma A20_sanity_checks_show_witness :
  exists m' d', A20_sanity_checks a20_lit 0x8000 1024 false 0x10000 0x9010 0x9000 (literal_memory a20_texts 0x1000) a20_board = Ok (m', d') /\
    load8 m' (VIDEO_ADDRESS + 160) = 69 /\ load8 m' (VIDEO_ADDRESS + 328) = 111 /\ load8 m' (VIDEO_ADDRESS + 330) = 110 /\
    kbc_output_port (bd_kbc d') = 0x1E.
Proof.
  destruct (A20_sanity_checks_show (D := board) a20_lit 0x8000 1024 false 0x10000 0x9010 0x9000 (literal_memory a20_texts 0x1000) a20_board
    (0, screen_of (literal_memory a20_texts 0x1000))) as (m' & d' & E & [_ Hs] & Ho & _);
    [apply a20_env | split; [reflexivity | intros x _; reflexivity] | apply (bool_decide_unpack _); vm_compute; exact I | done |
     repeat constructor; done | reflexivity | split; [apply (bool_decide_unpack _); vm_compute; exact I | left; vm_compute; discriminate] |].
  exists m', d'. split_and!; [exact E | | | | exact Ho].
  - etransitivity; [exact (Hs 160 ltac:(unfold SCREEN_BYTES; lia)) | vm_compute; reflexivity].
  - etransitivity; [exact (Hs 328 ltac:(unfold SCREEN_BYTES; lia)) | vm_compute; reflexivity].
  - etransitivity; [exact (Hs 330 ltac:(unfold SCREEN_BYTES; lia)) | vm_compute; reflexivity].
Defined.
