(* ===== verification/Startup.v ===== *)
(** * The start of the kernel, devices and memory together

    [start] is [main] up to the first fork.  On a machine with the devices of
    [Board] it reports the A20 line, installs the descriptor tables, remaps the
    interrupt controllers, programs the timer, brings up the keyboard, turns on
    paging with the kernel heap, and starts the scheduler with its first task. *)

From S2P Require Import Prelude Memory Util OrderedArray Kernel Paging KHeap KHeapInv HeapSafety Directories IdentityMap PagingStart.
From S2P Require Import Ports Descriptors Interrupts Syscall Task TaskInv TaskProps TaskStart KernelStart Screen Printf PrintfNumber PrintfProps Literals.
From S2P Require Import Ps2 Kbc Console Faults Clock Board Ps2Props Boot A20Props.

(** The texts of the start. *)
Definition start_texts : list string := a20_texts ++ keyboard_texts.

(** ** Devices that leave each other alone *)

Section Apart.
Context {D : Type} `{HP : PortDevice D} `{!HasCrtc D} `{!TwoPics D} `{!HasPit D} `{!HasKbc D} `{!KeyboardApart D}.

(** A write to one of the ports [Hp] lists, by the law of the device. *)
Ltac by_port Hp := unfold pic_outs, kbd_outs, screen_outs in Hp; cbn [app] in Hp;
  repeat (apply elem_of_cons in Hp as [->|Hp]; [reflexivity|]); now apply elem_of_nil in Hp.

Lemma pic_read port (d : D) : port ∈ pic_ins -> (dev_in port d).2 = d.
Proof.
  unfold pic_ins. rewrite !elem_of_cons, elem_of_nil. intros [->|[->|[]]]; [now rewrite master_in | now rewrite slave_in].
Qed.

Lemma pics_apart (d d' : D) : touches pic_ins pic_outs d d' -> crtc_of d' = crtc_of d /\ pit_of d' = pit_of d /\ kbc_of d' = kbc_of d.
Proof.
  intros Ht. split_and!; (eapply touches_keep; [exact Ht | intros port x Hp; now rewrite pic_read |]).
  - intros port v x Hp. rewrite crtc_out. by_port Hp.
  - intros port v x Hp. rewrite pit_out. by_port Hp.
  - intros port v x Hp. rewrite kbc_out. by_port Hp.
Qed.

Lemma timer_apart (d d' : D) : touches [] [0x43; 0x40] d d' ->
  crtc_of d' = crtc_of d /\ kbc_of d' = kbc_of d /\ master d' = master d /\ slave d' = slave d.
Proof.
  intros Ht. split_and!; (eapply touches_keep; [exact Ht | intros port x Hp; now apply elem_of_nil in Hp |]).
  - intros port v x Hp. rewrite crtc_out. by_port Hp.
  - intros port v x Hp. rewrite kbc_out. by_port Hp.
  - intros port v x Hp. rewrite master_out. by_port Hp.
  - intros port v x Hp. rewrite slave_out. by_port Hp.
Qed.

Lemma keyboard_apart (d d' : D) : keyboard_and_screen d d' -> master d' = master d /\ slave d' = slave d /\ pit_of d' = pit_of d.
Proof.
  assert (forall {X : Type} (f : D -> X), Unread kbd_ins f -> forall port x, port ∈ kbd_ins ++ screen_ins -> f (dev_in port x).2 = f x) as Hin.
  { intros X f Hf port x Hp. apply elem_of_app in Hp as [Hp|Hp]; [now apply unread|]. apply list_elem_of_singleton in Hp as ->. now rewrite crtc_in. }
  intros Ht. split_and!; (eapply touches_keep; [exact Ht | apply Hin, _ |]).
  - intros port v x Hp. rewrite master_out. by_port Hp.
  - intros port v x Hp. rewrite slave_out. by_port Hp.
  - intros port v x Hp. rewrite pit_out. by_port Hp.
Qed.

End Apart.

(** ** What the start relies on

    [p] is the end of the kernel, where the paging structures go; [ad] the
    buffer of [init_A20]. *)

Section Ready.
Context {D : Type} `{HP : PortDevice D} `{!HasCrtc D} `{!TwoPics D} `{!HasKbc D}.
Context (lit : string -> Z) (printf_buf : Z) (fuel : nat).

(** The bytes that become the paging structures. *)
Definition boot_area (p x : Z) : Prop := p <= x < p + 0x8200.

Record boot_ready (p ad : Z) (m : mem) (d : D) : Prop := {
  br_console : console_env lit printf_buf fuel start_texts m d;
  br_literals : Forall (fun s => off_probes (lit s) (Z.of_nat (length (str_bytes s)) + 1)) start_texts;
  br_ad : load8 m ad = 0 /\ clear_of_console lit start_texts ad 8;
  br_kbc : controller_ok (kbc_of d);
  br_output_port : is_byte (kbc_output_port (kbc_of d));
  br_queue : Forall is_byte (kbc_queue (kbc_of d)) /\ (length (kbc_queue (kbc_of d)) <= fuel)%nat;
  br_pics : pics_ready d;
  br_zero : forall x, boot_area p x -> load8 m x = 0;
  br_area : forall x, boot_area p x -> (x < printf_buf \/ printf_buf + PRINTF_BUF_SIZE <= x) /\
    (x < VIDEO_ADDRESS \/ VIDEO_ADDRESS + SCREEN_BYTES <= x) /\ (x < ad \/ ad + 8 <= x) /\ off_probes x 1;
}.

End Ready.

(** ** The devices *)

Lemma a20_config_byte c : is_byte c -> is_byte (Z.clearbit (Z.setbit c 4) 4).
Proof.
  intros Hc. pose proof (all_upto 0x100 (fun c => let c := Z.clearbit (Z.setbit c 4) 4 in (0 <=? c) && (c <? 0x100))
    ltac:(vm_compute; reflexivity) c Hc) as H. cbv beta zeta in H. unfold is_byte. lia.
Qed.

Lemma a20_controller_ok k : controller_ok k -> controller_ok (a20_kbc k).
Proof. intros [H1 H2 H3 H4 H5]. split; [apply a20_config_byte, H1 | exact H2 | exact H3 | exact H4 | exact H5]. Qed.

Lemma tl_queue_length (k : kbc) : length (kbc_queue (a20_kbc k)) = length (kbc_queue k).
Proof. cbn [kbc_queue a20_kbc]. destruct (kbc_queue k) as [|b q]; [reflexivity|]. cbn [app tl length]. rewrite length_app. cbn [length]. lia. Qed.

Section Devices.
Context {D : Type} `{HP : PortDevice D} `{!HasCrtc D} `{!TwoPics D} `{!HasPit D} `{!HasKbc D} `{!KeyboardApart D}.
Context (lit : string -> Z) (printf_buf : Z) (fuel : nat) (im : image) (eax ac ad p : Z).

(** The handlers after the devices are up. *)
Definition device_handlers (passes : bool) : list (option isr_t) :=
  let hs := <[32%nat := Some timer_callback_isr]> interrupt_handlers in
  if passes then <[33%nat := Some keyboard_callback_isr]> hs else hs.

(** What the start prints, on the controller [k]. *)
Definition start_text (k : kbc) : list Z := (a20_report_text k ++ a20_text true eax) ++ keyboard_report (a20_kbc k).

(** The devices, from [d] to [d'], with the gates [idt]: every line of the
    interrupt controllers leads to its entry point and is masked as before, the
    timer ticks, the A20 line is on, and the channels of the keyboard
    controller are on if its tests pass. *)
Record devices_up (idt : list idt_gate_t) (d d' : D) : Prop := {
  du_lines : forall i : nat, (i < 16)%nat -> gate_to idt (Z.to_nat (line_vector d' (Z.of_nat i))) (im_irq im (Z.of_nat i)) 0;
  du_vectors : pic_vector (master d') = 32 /\ pic_vector (slave d') = 40;
  du_masks : forall j, line_masked d' j = line_masked d j;
  du_timer : pit_mode (pit_of d') = 3 /\ pit_divisor (pit_of d') = 23863;
  du_a20 : Z.testbit (kbc_output_port (kbc_of d')) 1 = true;
  du_config : kbc_config (kbc_of d') =
    (if controller_passes (kbc_of d) then started_config else stopped_config) (kbc_dual (kbc_of d)) (kbc_config (a20_kbc (kbc_of d)));
}.

(** The A20 line is reported; nothing of the boot area changes. *)
Lemma a20_start m d t : boot_ready lit printf_buf fuel p ad m d -> shows m d t ->
  exists m1 d1, A20_sanity_checks lit printf_buf fuel true eax ac ad m d = Ok (m1, d1) /\
    reached lit printf_buf fuel start_texts (boot_area p) m d t (a20_report_text (kbc_of d) ++ a20_text true eax) (a20_kbc (kbc_of d)) m1 d1.
Proof.
  intros [He Hl [Hz Hc] Hk Ho [Hq _] _ _ Ha] Ht.
  assert (forall s, s ∈ a20_texts -> s ∈ start_texts) as Hin by (intros s Hs; apply elem_of_app; auto).
  destruct (init_A20_reached lit printf_buf fuel start_texts Hin (boot_area p) (fun x Hx => conj (proj1 (Ha x Hx)) (proj1 (proj2 (Ha x Hx))))
    m d t [] (kbc_of d) m d ac ad (reached_start lit printf_buf fuel start_texts (boot_area p) m d t He Ht) Ho Hq Hz Hc) as (m1 & d1 & E1 & H1);
    [intros x Hx; apply (Ha x Hx)|]. cbn [app] in H1.
  destruct (A20_report_ok lit printf_buf fuel start_texts Hin Hl true eax m1 d1 _ (re_env H1) (re_shows H1)) as (m2 & d2 & E2 & He2 & Ht2 & Hf2 & Ho2).
  exists m2, d2. unfold A20_sanity_checks. rewrite E1, bind_ok. split; [exact E2|].
  apply (reached_shown H1 He2 Ht2); [|exact Ho2]. intros x Hx. destruct (Ha x Hx) as (A1 & A2 & _ & A4). now apply Hf2.
Qed.

(** The interrupt controllers and the timer. *)
Lemma interrupts_start d : pics_ready d -> entry_points (im_isr im) (im_irq im) (im_isr3_handler im) (im_isr128 im) ->
  exists idt d1 d2, isr_install (im_isr im) (im_irq im) (im_isr3_handler im) (im_isr128 im) (im_idt im) d =
      Ok (idt, mk_idt_register 2047 (im_idt im), d1) /\
    init_timer 50 interrupt_handlers d1 = Ok (device_handlers false, d2) /\
    (forall i : nat, (i < 16)%nat -> gate_to idt (Z.to_nat (line_vector d2 (Z.of_nat i))) (im_irq im (Z.of_nat i)) 0) /\
    pic_vector (master d2) = 32 /\ pic_vector (slave d2) = 40 /\ (forall j, line_masked d2 j = line_masked d j) /\
    pit_mode (pit_of d2) = 3 /\ pit_divisor (pit_of d2) = 23863 /\ crtc_of d2 = crtc_of d /\ kbc_of d2 = kbc_of d.
Proof.
  intros Hp He. destruct (isr_install_ok _ _ _ _ (im_idt im) d Hp He) as (idt & d1 & E1 & Ed1 & _ & Hl & _ & _ & _ & Hm).
  destruct (init_timer_ok 50 interrupt_handlers d1) as (d2 & E2 & T2 & Hmode & _ & Hdiv & _); [lia | reflexivity|].
  destruct (timer_apart d1 d2 T2) as (C2 & K2 & M2 & S2).
  pose proof (PIC_remap_only 0x20 0x28 d) as T1. rewrite <- Ed1 in T1. destruct (pics_apart d d1 T1) as (C1 & _ & K1).
  destruct Hp as (P1 & P2 & P3 & P4). destruct (PIC_remap_pics 0x20 0x28 d P1 P2 P3 P4) as [Em Es]. rewrite <- Ed1 in Em, Es.
  exists idt, d1, d2. unfold line_vector, line_masked in *. rewrite M2, S2, C2, K2. split_and!; try assumption.
  - rewrite Em. reflexivity.
  - rewrite Es. reflexivity.
Qed.

Lemma device_handlers_length passes : length (device_handlers passes) = 256%nat.
Proof. destruct passes; reflexivity. Qed.

Lemma started_output_port k : kbc_output_port (kbc_read (started_kbc k)).2 = kbc_output_port k /\
  kbc_config (kbc_read (started_kbc k)).2 = started_config (kbc_dual k) (kbc_config k).
Proof.
  destruct (started_kbc_rest k) as (E1 & _ & _ & _ & E2 & _). rewrite <- E1, <- E2. unfold kbc_read.
  destruct (kbc_queue (started_kbc k)); auto.
Qed.

(** The devices of [start], one after the other. *)
Lemma devices_start m d t : boot_ready lit printf_buf fuel p ad m d -> shows m d t ->
  entry_points (im_isr im) (im_irq im) (im_isr3_handler im) (im_isr128 im) ->
  let passes := controller_passes (kbc_of d) in
  exists m1 d1 idt d2 d3 ch m4 d4, A20_sanity_checks lit printf_buf fuel true eax ac ad m d = Ok (m1, d1) /\
    isr_install (im_isr im) (im_irq im) (im_isr3_handler im) (im_isr128 im) (im_idt im) d1 = Ok (idt, mk_idt_register 2047 (im_idt im), d2) /\
    init_timer 50 interrupt_handlers d2 = Ok (device_handlers false, d3) /\
    init_keyboard lit printf_buf fuel initial_channels (device_handlers false) m1 d3 = Ok (passes, ch, device_handlers passes, m4, d4) /\
    shows m4 d4 (console_text t (start_text (kbc_of d))) /\ (forall x, boot_area p x -> load8 m4 x = 0) /\ devices_up idt d d4.
Proof.
  cbv zeta. intros Hb Ht He. destruct (a20_start m d t Hb Ht) as (m1 & d1 & E1 & [He1 Ht1 Ek1 Hf1 Hp1]).
  destruct (keyboard_apart d d1 Hp1) as (M1 & S1 & _). pose proof (br_pics _ _ _ _ _ _ _ Hb) as Hpics.
  assert (pics_ready d1) as Hpics1 by (unfold pics_ready in *; now rewrite M1, S1).
  destruct (interrupts_start d1 Hpics1 He) as (idt & d2 & d3 & E2 & E3 & Hl & Hv1 & Hv2 & Hm & Hmode & Hdiv & C3 & K3).
  destruct (console_env_device lit printf_buf fuel start_texts m1 d1 d3 _ C3 He1 Ht1) as [He3 Ht3].
  assert (forall s, s ∈ keyboard_texts -> s ∈ start_texts) as Hin by (intros s Hs; apply elem_of_app; auto).
  pose proof (br_kbc _ _ _ _ _ _ _ Hb) as Hk. pose proof (br_queue _ _ _ _ _ _ _ Hb) as [_ Hq]. rewrite Ek1 in K3.
  destruct (init_keyboard_reached lit printf_buf fuel start_texts Hin (boot_area p)
    (fun x Hx => let H := br_area _ _ _ _ _ _ _ Hb x Hx in conj (proj1 H) (proj1 (proj2 H))) (device_handlers false) m1 d3 _ He3 Ht3)
    as (ch & k' & m4 & d4 & E4 & [He4 Ht4 Ek4 Hf4 Hp4] & Hpass & Hfail); rewrite ?K3;
    [now apply a20_controller_ok | now rewrite tl_queue_length | apply device_handlers_length |]. rewrite K3 in *.
  change (controller_passes (a20_kbc (kbc_of d))) with (controller_passes (kbc_of d)) in *. rewrite console_text_app in Ht4.
  destruct (keyboard_apart d3 d4 Hp4) as (M4 & S4 & P4).
  destruct (or_2_byte (port_seen (kbc_of d))) as [_ Ha20].
  { destruct (br_queue _ _ _ _ _ _ _ Hb) as [Hby _]. unfold port_seen. destruct (kbc_queue (kbc_of d)); [apply (br_output_port _ _ _ _ _ _ _ Hb) |].
    now apply Forall_cons in Hby as [Hby _]. }
  exists m1, d1, idt, d2, d3, ch, m4, d4. split_and!; [exact E1 | exact E2 | exact E3 | exact E4 | exact Ht4 | |].
  - intros x Hx. rewrite (Hf4 x Hx), (Hf1 x Hx). exact (br_zero _ _ _ _ _ _ _ Hb x Hx).
  - split; rewrite ?P4, ?Ek4.
    + intros i Hi. unfold line_vector in *. rewrite M4, S4. now apply Hl.
    + now rewrite M4, S4.
    + intros j. unfold line_masked in *. rewrite M4, S4, Hm, M1, S1. reflexivity.
    + auto.
    + destruct (controller_passes (kbc_of d)); [destruct (Hpass eq_refl) as [-> _] | destruct (Hfail eq_refl) as [x ->]; exact Ha20].
      rewrite (proj1 (started_output_port _)). exact Ha20.
    + destruct (controller_passes (kbc_of d)); [destruct (Hpass eq_refl) as [-> _] | destruct (Hfail eq_refl) as [x ->]; reflexivity].
      exact (proj2 (started_output_port _)).
Qed.

End Devices.

(** ** main, up to the first fork *)

Lemma init_gdt_ok gdt_addr tss_addr : exists gdt, init_gdt gdt_addr tss_addr (replicate 6 zero_entry) = Ok gdt.
Proof. eexists. reflexivity. Qed.

(** C13: The start of the kernel, from [boot_ready]: [start] returns.  The screen
    shows the reports of the A20 line and of the keyboard; the interrupt
    controllers, the timer and the keyboard controller are as [devices_up] says
    and the handlers of clock, keyboard and faults are registered, the keyboard's
    if its tests passed.  Paging is on, with CR3 the address of the first task's
    directory; the stack is at its new place; the kernel heap is well formed, and
    the directory, the structure and the kernel stack of the first task are
    blocks of it in use; and the scheduler is in a good state with that one task
    ready and running. *)
Theorem kernel_boots {D : Type} `{PortDevice D} `{!HasCrtc D} `{!TwoPics D} `{!HasPit D} `{!HasKbc D} `{!KeyboardApart D}
    (lit : string -> Z) (printf_buf : Z) (fuel n : nat) (im : image) (eax ac ad sp bp : Z) (c : cpu_t) (x : machine D) (t : console) :
  let s := x_sched x in
  let p := k_placement_address (s_kernel s) in
  let k := kbc_of (x_dev x) in
  let passes := controller_passes k in
  let offset := 0xE0000000 - (im_end im + KERNEL_STACK_SIZE) in
  boot_ready lit printf_buf fuel p ad (x_mem x) (x_dev x) -> shows (x_mem x) (x_dev x) t ->
  entry_points (im_isr im) (im_irq im) (im_isr3_handler im) (im_isr128 im) -> (1024 <= n)%nat ->
  k_kheap (s_kernel s) = None -> 0x1000 <= p < 0x3F0000 -> s_sleep s = 0 ->
  0 <= im_end im -> im_end im + KERNEL_STACK_SIZE <= 0xDFFFF000 -> im_end im < sp <= bp -> bp <= im_end im + KERNEL_STACK_SIZE ->
  (im_end im + KERNEL_STACK_SIZE - sp) mod 4 = 0 ->
  exists b m k', start lit printf_buf fuel im n true eax ac ad sp bp c x = Ok b /\
    let s' := x_sched (b_machine b) in
    shows m (x_dev (b_machine b)) (console_text t (start_text eax k)) /\
    initialise_paging fuel n c (with_mem m (s_kernel s)) = Ok (b_cpu b, k') /\
    devices_up im (b_idt b).1 (x_dev x) (x_dev (b_machine b)) /\
    (forall v : nat, b_handlers b !! v =
       if (v =? 32)%nat then Some (Some timer_callback_isr)
       else if (v =? 33)%nat then Some (if passes then Some keyboard_callback_isr else None)
       else if (v =? 13)%nat then Some (Some general_fault_isr)
       else if (v =? 14)%nat then Some (Some page_fault_isr) else interrupt_handlers !! v) /\
    Z.testbit (cr0 (b_cpu b)) 31 = true /\ cr3 (b_cpu b) = dir_physicalAddr (k_mem k') first_directory /\
    c_esp (s_cpu s') = sp + offset /\ c_ebp (s_cpu s') = bp + offset /\
    exists h bs task stack tk, k_kheap (s_kernel s') = Some h /\ heap_inv (k_mem (s_kernel s')) h bs /\
      in_use bs first_directory SIZEOF_page_directory /\ in_use bs task SIZEOF_task /\ in_use bs stack KERNEL_STACK_SIZE /\
      sched_rel s' (mk_asched [task] [] task (s_tick s)) /\ s_tasks s' !! task = Some tk /\
      t_id tk = s_next_pid s /\ t_page_directory tk = first_directory /\ t_kernel_stack tk = stack.
Proof.
  cbv zeta. intros Hb Ht He Hn Hheap Hp Hsl He0 He1 Hsp Hbp Hal.
  destruct (devices_start lit printf_buf fuel im eax ac ad _ _ _ t Hb Ht He) as (m1 & d1 & idt & d2 & d3 & ch & m4 & d4 & E1 & E2 & E3 & E4 & Ht4 & Hz & Hup).
  destruct (init_gdt_ok (im_gdt im) (im_tss im)) as (gdt & Eg).
  destruct (kernel_starts fuel n c (im_end im) sp bp
    (with_cpu gdt.1.2 (s_cpu (x_sched x)) (with_kernel (with_mem m4 (s_kernel (x_sched x))) (x_sched x))))
    as (c' & k' & s' & h & bs & task & stack & tk & Ep & Et & Hpg & Hcr & Hesp & Hebp & Hk & Hi & U1 & U2 & U3 & Hrel & Htk & Hid & Hdir & Hst & _); try assumption.
  exists (mk_booted (mk_machine s' d4) ch (<[14%nat := Some page_fault_isr]> (<[13%nat := Some general_fault_isr]> (device_handlers (controller_passes (kbc_of (x_dev x))))))
    gdt (idt, mk_idt_register 2047 (im_idt im)) c'), m4, k'.
  split; [|cbn [b_machine x_sched x_dev b_handlers b_cpu b_idt fst]; split_and!; try assumption].
  - unfold start. rewrite E1, bind_ok, Eg, bind_ok. cbn [fst snd]. rewrite E2, bind_ok. cbv iota beta. rewrite E3, bind_ok. cbn [fst snd].
    rewrite E4, bind_ok. cbv iota beta. rewrite !register_sets, !bind_ok, ?register_sets, ?bind_ok
      by (lia || (rewrite ?length_insert; apply device_handlers_length)).
    cbn [s_kernel with_cpu with_kernel] in Ep. rewrite Ep, bind_ok. cbn [fst snd].
    change (with_cpu gdt.1.2 (s_cpu (x_sched x)) (with_kernel k' (x_sched x))) with
      (with_kernel k' (with_cpu gdt.1.2 (s_cpu (x_sched x)) (with_kernel (with_mem m4 (s_kernel (x_sched x))) (x_sched x)))).
    rewrite Et, bind_ok. reflexivity.
  - intros v. do 34 (destruct v as [|v]; [destruct (controller_passes _); reflexivity|]).
    destruct (controller_passes _); reflexivity.
  - exists h, bs, task, stack, tk. split_and!; assumption.
Qed.

(** The literals in memory end below their last address. *)
Lemma literal_memory_above texts a x : Forall (fun s => laid_out texts a s + Z.of_nat (length (str_bytes s)) + 1 <= x) texts ->
  load8 (literal_memory texts a) x = 0.
Proof.
  unfold literal_memory. assert (forall l m, load8 m x = 0 -> Forall (fun s => laid_out texts a s + Z.of_nat (length (str_bytes s)) + 1 <= x) l ->
    load8 (foldr (fun s m => store_bytes m (laid_out texts a s) (str_bytes s ++ [0])) m l) x = 0) as H.
  { intros l m Hm. induction l as [|s l IH]; cbn [foldr]; [auto|]. intros Hl. apply Forall_cons in Hl as [Hs Hl].
    rewrite load8_store_bytes_out; [now apply IH|]. rewrite length_app. cbn [length]. lia. }
  apply H. reflexivity.
Qed.

Definition start_lit : string -> Z := laid_out start_texts 0x1000.

(** A controller with a second channel, and a key waiting. *)
Definition start_machine : machine board :=
  mk_machine (mk_sched (mk_kernel (literal_memory start_texts 0x1000) ∅ 0x100000 None 0 0 0 0) ∅ 0 0 0 1 0
    (mk_tss 0 0x10 0x13 0x0B 0x13 0x13 0x13 0x13) (mk_context 0 0 0 0 0)) a20_board.

Definition start_image : image :=
  mk_image (fun n => u8 n + 0x1000) (fun n => u8 n + 0x2000) 0x3000 0x4000 0x5000 0x6000 0x7000 0x80000.

Lemma start_machine_ready : boot_ready start_lit 0x8000 1024 0x100000 0x9000 (x_mem start_machine) (x_dev start_machine).
Proof.
  split.
  - split; [apply (bool_decide_unpack _); vm_compute; exact I | apply (bool_decide_unpack _); vm_compute; exact I | left; vm_compute; discriminate |
      reflexivity | split; [vm_compute; split; [discriminate | reflexivity] | reflexivity] | unfold cursor_bytes; simpl; lia].
  - apply (bool_decide_unpack _). vm_compute. exact I.
  - split; [reflexivity | split; [apply (bool_decide_unpack _); vm_compute; exact I | left; vm_compute; discriminate]].
  - split; [done | now left | done | done | intros port l; cbn; destruct (bool_decide _); repeat constructor; done].
  - done.
  - split; [repeat constructor; done | simpl; lia].
  - apply fresh_pics_ready.
  - intros y Hy. apply literal_memory_above. unfold boot_area in Hy.
    assert (Forall (fun s => laid_out start_texts 0x1000 s + Z.of_nat (length (str_bytes s)) + 1 <= 0x100000) start_texts) as H
      by (apply (bool_decide_unpack _); vm_compute; exact I).
    apply (Forall_impl _ _ _ H). intros s Hs. cbv beta in Hs. lia.
  - intros y Hy. unfold boot_area in Hy. unfold off_probes, probes, PRINTF_BUF_SIZE, VIDEO_ADDRESS, SCREEN_BYTES.
    split_and!; [lia | lia | lia |]. repeat (apply Forall_cons; split; [cbn [fst snd]; lia|]). constructor.
Qed.

(** The kernel starts, and the first task gets pid 1. *)
Lemma kernel_boots_witness :
  exists b task tk, start start_lit 0x8000 1024 start_image 1024 true 7 0x9010 0x9000 0x80F00 0x80F10 (mk_cpu 0x11 0 0) start_machine = Ok b /\
    sched_rel (x_sched (b_machine b)) (mk_asched [task] [] task 0) /\ s_tasks (x_sched (b_machine b)) !! task = Some tk /\ t_id tk = 1 /\
    b_handlers b !! 33%nat = Some (Some keyboard_callback_isr) /\ pit_divisor (bd_pit (x_dev (b_machine b))) = 23863.
Proof.
  destruct (kernel_boots (D := board) start_lit 0x8000 1024 1024 start_image 7 0x9010 0x9000 0x80F00 0x80F10 (mk_cpu 0x11 0 0) start_machine
    (0, screen_of (x_mem start_machine))) as (b & m & k' & E & _ & _ & Hup & Hh & _ & _ & _ & _ & h & bs & task & stack & tk & _ & _ & _ & _ & _ & Hr & Ht & Hid & _);
    try (unfold KERNEL_STACK_SIZE; first [exact start_machine_ready | reflexivity | lia | (simpl; lia)]).
  - split; [reflexivity | intros y _; reflexivity].
  - split_and!; try (simpl; lia); intros v; cbn; pose proof (u8_range v); lia.
  - exists b, task, tk. split_and!; [exact E | exact Hr | exact Ht | exact Hid | rewrite Hh; reflexivity | apply (du_timer _ _ _ _ Hup)].
Defined.
