(* ===== verification/BootProps.v ===== *)
(** * Properties of the start of the kernel

    The system call from user mode down to the screen, and the forks and turns
    of the tasking test. *)

From S2P Require Import Prelude Memory Util OrderedArray Kernel Paging KHeap Directories Ports Descriptors Interrupts Syscall Task TaskInv.
From S2P Require Import TaskProps Screen Printf PrintfNumber PrintfProps Literals Ps2 Console Faults Clock Boot.

(** ** The system call from user mode *)

Section SystemCall.
Context {D : Type} `{HP : PortDevice D} `{!HasCrtc D}.
Context (lit : string -> Z) (printf_buf : Z) (fuel : nat) (texts : list string).

(** The console of a machine. *)
Definition x_env (x : machine D) (t : console) : Prop :=
  console_env lit printf_buf fuel texts (x_mem x) (x_dev x) /\ shows (x_mem x) (x_dev x) t.

(** The same tasks; memory and devices may differ. *)
Definition same_tasks (x x' : machine D) : Prop :=
  x_sched x' = with_kernel (with_mem (x_mem x') (s_kernel (x_sched x))) (x_sched x).

Lemma say_x_shows (text : string) (args out : list Z) (x : machine D) (t : console) :
  prints (D := D) lit printf_buf fuel texts (say lit printf_buf fuel text args) out -> x_env x t ->
  exists x', say_x lit printf_buf fuel text args x = Ok x' /\ x_env x' (console_text t out) /\ same_tasks x x'.
Proof.
  intros Hp [He Ht]. destruct (Hp _ _ t He Ht) as (m' & d' & E & He' & Ht' & _).
  unfold say_x. rewrite E, bind_ok. eexists. split; [reflexivity|]. split; [split; assumption | reflexivity].
Qed.

(** [print_string] is [say] of the string. *)
Lemma print_string_said (eax : Z) (text : string) (rest : list Z) (location : syscall_t) (x : machine D) m d :
  say lit printf_buf fuel text [] (x_mem x) (x_dev x) = Ok (m, d) ->
  print_string printf_buf fuel eax location (lit text :: rest) x = Ok (eax, with_x_mem m d x).
Proof.
  unfold print_string, say. destruct (printf _ _ _ _ _ _) as [[[n m1] d1]| | |]; try discriminate.
  cbn [mbind outcome_bind fst snd]. now intros [= -> ->].
Qed.

End SystemCall.

(** The system call, from the stub down to the screen. *)
Lemma syscall_said {D : Type} `{PortDevice D} (lit : string -> Z) (printf_buf : Z) (fuel : nat)
    (other : isr_t -> registers_t -> machine D -> outcome (registers_t * machine D))
    (eax : Z) (text : string) (regs : registers_t) (hs hs' : list (option isr_t)) (x : machine D) m d :
  length hs = 256%nat -> initialise_syscalls hs = Ok hs' ->
  say lit printf_buf fuel text [] (x_mem x) (x_dev x) = Ok (m, d) ->
  syscall_print_string printf_buf fuel other eax (lit text) regs hs' x = Ok (0, with_x_mem m d x).
Proof.
  intros Hl Hs E. unfold initialise_syscalls in Hs. rewrite register_sets in Hs by (lia || exact Hl). injection Hs as <-.
  apply (print_string_said lit printf_buf fuel eax text (map (fun f => f (syscall_regs 0 [lit text] regs)) [r_ecx; r_edx; r_esi; r_edi])
    Syscall.print_string) in E.
  unfold syscall_print_string, syscall, isr_handler. change (Z.land (r_int_no (syscall_regs 0 [lit text] regs)) 0xFF) with 128.
  cbn [Z.eqb]. rewrite list_lookup_insert_eq by (rewrite Hl; lia). unfold with_syscalls. rewrite decide_True by reflexivity.
  unfold syscall_handler, num_syscalls. change (r_eax (syscall_regs 0 [lit text] regs)) with 0. cbn [Z.leb Z.compare].
  change (syscalls !! Z.to_nat 0) with (Some Syscall.print_string). cbv iota beta.
  change [r_ebx (syscall_regs 0 [lit text] regs); r_ecx (syscall_regs 0 [lit text] regs); r_edx (syscall_regs 0 [lit text] regs);
    r_esi (syscall_regs 0 [lit text] regs); r_edi (syscall_regs 0 [lit text] regs)] with
    (lit text :: map (fun f => f (syscall_regs 0 [lit text] regs)) [r_ecx; r_edx; r_esi; r_edi]).
  rewrite E, !bind_ok. reflexivity.
Qed.


Definition boot_texts : list string := ["Running in user mode!" +:+ nl; fork_format]%string.

Definition boot_lit : string -> Z := laid_out boot_texts 0x1000.

(** Machines whose memory has the literals of the test. *)
Definition boot_machine (s : sched) : machine crtc_device :=
  mk_machine (with_kernel (with_mem (literal_memory boot_texts 0x1000) (s_kernel s)) s) (mk_crtc 0 0 0).

Lemma boot_env_any (m : mem) (d : crtc_device) :
  placed boot_lit m boot_texts -> on_screen (cursor d) -> cursor_bytes d ->
  console_env boot_lit 0x8000 1024 boot_texts m d.
Proof.
  intros Hp Hc Hb. split; [exact Hp | apply (bool_decide_unpack _); vm_compute; exact I | left; vm_compute; discriminate | reflexivity | exact Hc | exact Hb].
Qed.

Lemma boot_env (s : sched) : x_env boot_lit 0x8000 1024 boot_texts (boot_machine s) (0, screen_of (literal_memory boot_texts 0x1000)).
Proof.
  split; [|split; [reflexivity | intros x _; reflexivity]].
  apply boot_env_any; [apply (bool_decide_unpack _); vm_compute; exact I | split; [vm_compute; split; [discriminate | reflexivity] | reflexivity] |
    unfold cursor_bytes; simpl; lia].
Qed.


(** [do_user_mode] up to what it prints: the system calls are registered, and the
    next interrupt from user mode will find the end of the task's kernel stack. *)
Definition in_user_mode {D} (tk : task_t) (x : machine D) : machine D :=
  mk_machine (with_cpu (set_kernel_stack (u32 (t_kernel_stack tk + KERNEL_STACK_SIZE)) (s_tss (x_sched x))) (s_cpu (x_sched x)) (x_sched x)) (x_dev x).

Lemma do_user_mode_said {D : Type} `{PortDevice D} (lit : string -> Z) (printf_buf : Z) (fuel : nat)
    (other : isr_t -> registers_t -> machine D -> outcome (registers_t * machine D))
    (eax : Z) (regs : registers_t) (hs : list (option isr_t)) (x : machine D) (tk : task_t) m d :
  length hs = 256%nat -> s_tasks (x_sched x) !! s_current (x_sched x) = Some tk ->
  say lit printf_buf fuel ("Running in user mode!" +:+ nl) [] (x_mem x) (x_dev x) = Ok (m, d) ->
  do_user_mode lit printf_buf fuel other eax regs hs x = Ok (<[128%nat := Some syscall_handler_isr]> hs, with_x_mem m d (in_user_mode tk x)).
Proof.
  intros Hl Htk E. unfold do_user_mode, switch_to_user_mode, deref.
  assert (initialise_syscalls hs = Ok (<[128%nat := Some syscall_handler_isr]> hs)) as Hs by (unfold initialise_syscalls; apply register_sets; [lia | exact Hl]).
  rewrite Hs, Htk, !bind_ok. fold (in_user_mode tk x).
  rewrite (syscall_said lit printf_buf fuel other eax _ regs hs _ (in_user_mode tk x) m d Hl Hs E), bind_ok. reflexivity.
Qed.

(** [do_user_mode], in a task: it returns, the system calls are registered, the
    next interrupt from user mode will find the end of the task's kernel
    stack, and the greeting is on the screen. *)
Theorem do_user_mode_prints {D : Type} `{PortDevice D} `{!HasCrtc D} (lit : string -> Z) (printf_buf : Z) (fuel : nat)
    (other : isr_t -> registers_t -> machine D -> outcome (registers_t * machine D))
    (eax : Z) (regs : registers_t) (hs : list (option isr_t)) (x : machine D) (t : console) (tk : task_t) :
  length hs = 256%nat -> s_tasks (x_sched x) !! s_current (x_sched x) = Some tk ->
  x_env lit printf_buf fuel boot_texts x t ->
  exists x', do_user_mode lit printf_buf fuel other eax regs hs x = Ok (<[128%nat := Some syscall_handler_isr]> hs, x') /\
    x_env lit printf_buf fuel boot_texts x' (console_text t (str_bytes ("Running in user mode!" +:+ nl))) /\
    tss_esp0 (s_tss (x_sched x')) = u32 (t_kernel_stack tk + KERNEL_STACK_SIZE) /\ s_tasks (x_sched x') = s_tasks (x_sched x).
Proof.
  intros Hl Htk [He Ht].
  destruct (say_plain lit printf_buf fuel boot_texts ("Running in user mode!" +:+ nl) ltac:(left) eq_refl eq_refl _ _ t He Ht) as (m & d & E & He' & Ht' & _).
  exists (with_x_mem m d (in_user_mode tk x)). split_and!; [now apply do_user_mode_said | now split | reflexivity | reflexivity].
Qed.

Lemma do_user_mode_prints_witness :
  exists x', do_user_mode boot_lit 0x8000 1024 (fun _ r x => Ok (r, x)) 7 (mk_registers 0 0 0 0 0 0 0 0 0 0 0 0 0 0 0 0)
      interrupt_handlers (boot_machine example_sched) = Ok (<[128%nat := Some syscall_handler_isr]> interrupt_handlers, x') /\
    load8 (x_mem x') (VIDEO_ADDRESS + 2) = 117.
Proof.
  destruct (do_user_mode_prints (D := crtc_device) boot_lit 0x8000 1024 (fun _ r x => Ok (r, x)) 7 (mk_registers 0 0 0 0 0 0 0 0 0 0 0 0 0 0 0 0)
    interrupt_handlers (boot_machine example_sched) _ _ eq_refl eq_refl (boot_env example_sched)) as (x' & E & [_ [_ Hs]] & _).
  exists x'. split; [exact E|]. etransitivity; [exact (Hs 2 ltac:(unfold SCREEN_BYTES; lia)) | vm_compute; reflexivity].
Defined.

(** ** The forks of the test *)

Definition fork_text (ret pid : Z) : list Z :=
  str_bytes "fork() returned " ++ render_int ret ++ str_bytes ", and getpid() returned " ++ render_int pid ++ str_bytes nl.

Section Forks.
Context {D : Type} `{HP : PortDevice D} `{!HasCrtc D}.
Context (lit : string -> Z) (printf_buf : Z) (fuel : nat).

Lemma fork_says (ret pid : Z) : - 0x80000000 <= ret < 0x80000000 -> - 0x80000000 <= pid < 0x80000000 ->
  prints (D := D) lit printf_buf fuel boot_texts (say lit printf_buf fuel fork_format [ret; pid]) (fork_text ret pid).
Proof.
  intros Hr Hp m d t He Ht. destruct (render_int_text ret Hr) as [Hl1 Hc1], (render_int_text pid Hp) as [Hl2 Hc2].
  apply (say_shows lit printf_buf fuel boot_texts m d t fork_format
    (lits "fork() returned " ++ int_piece :: (lits ", and getpid() returned " ++ int_piece :: lits nl))); try assumption.
  - right. left.
  - reflexivity.
  - repeat constructor; vm_compute; (discriminate || auto).
  - rewrite render_lits, render_decimal, render_lits, render_decimal by assumption. reflexivity.
  - unfold fork_text, PRINTF_BUF_SIZE. rewrite !length_app. simpl. lia.
  - unfold fork_text. rewrite !Forall_app. split_and!; try assumption; repeat constructor.
Qed.

(** The message of the current task. *)
Lemma fork_message_shows (ret : Z) (x : machine D) (t : console) (tk : task_t) :
  s_tasks (x_sched x) !! s_current (x_sched x) = Some tk -> - 0x80000000 <= ret < 0x80000000 ->
  - 0x80000000 <= t_id tk < 0x80000000 -> x_env lit printf_buf fuel boot_texts x t ->
  exists x', fork_message lit printf_buf fuel ret x = Ok x' /\
    x_env lit printf_buf fuel boot_texts x' (console_text t (fork_text ret (t_id tk))) /\ same_tasks x x'.
Proof.
  intros Htk Hr Hp He. unfold fork_message, getpid, deref. rewrite Htk, !bind_ok.
  apply say_x_shows; [now apply fork_says | exact He].
Qed.

Lemma sched_rel_kernel (k : kernel) (s : sched) (a : asched) : sched_rel s a -> sched_rel (with_kernel k s) a.
Proof. intros H. destruct H. constructor; assumption. Qed.

Lemma sched_rel_same_tasks (x x' : machine D) (a : asched) : same_tasks x x' -> sched_rel (x_sched x) a -> sched_rel (x_sched x') a.
Proof. intros E H. rewrite E. destruct H. constructor; assumption. Qed.

(** [ret = fork()] and the message, in the parent. *)
Lemma fork_parent_ok (eip esp ebp : Z) (x : machine D) (a : asched) (t : console) (tk : task_t) directory k1 new_task k2 stack k3 :
  let s := x_sched x in
  sched_rel s a -> clone_directory fuel (k_current_directory (s_kernel s)) (s_kernel s) = Ok (directory, k1) ->
  kmalloc fuel SIZEOF_task k1 = Ok (new_task, k2) -> kmalloc_a fuel KERNEL_STACK_SIZE k2 = Ok (stack, k3) ->
  new_task <> 0 -> s_tasks s !! new_task = None -> s_tasks s !! s_current s = Some tk ->
  0 <= s_next_pid s < 0x80000000 -> - 0x80000000 <= t_id tk < 0x80000000 ->
  console_env lit printf_buf fuel boot_texts (k_mem k3) (x_dev x) -> shows (k_mem k3) (x_dev x) t ->
  exists x1 x', fork_x fuel eip esp ebp x = Ok (s_next_pid s, x1) /\ fork_message lit printf_buf fuel (s_next_pid s) x1 = Ok x' /\
    x_env lit printf_buf fuel boot_texts x' (console_text t (fork_text (s_next_pid s) (t_id tk))) /\
    sched_rel (x_sched x') (a_fork new_task a) /\ s_next_pid (x_sched x') = u32 (s_next_pid s + 1) /\
    s_tasks (x_sched x') !! new_task = Some (mk_task (s_next_pid s) esp ebp eip directory stack 0 0).
Proof.
  cbv zeta. intros H Ed Ek Ea Hn0 Hfresh Htk Hpid Hid He Ht.
  destruct (fork_rel fuel eip esp ebp _ a directory k1 new_task k2 stack k3 H Ed Ek Ea Hn0 Hfresh) as (s' & E & H' & Hp & Hk & Hnew & Hids).
  assert (s_current s' = s_current (x_sched x)) as Hcur by (rewrite (sr_current _ _ H'), (sr_current _ _ H); reflexivity).
  assert (s_current (x_sched x) <> new_task) as Hne by congruence.
  specialize (Hids _ Hne). rewrite Htk in Hids. destruct (s_tasks s' !! s_current (x_sched x)) as [tk'|] eqn:Etk; [|discriminate].
  injection Hids as Hid'. set (x1 := mk_machine s' (x_dev x)).
  destruct (fork_message_shows (s_next_pid (x_sched x)) x1 t tk') as (x' & Em & He' & Hx').
  - cbn [x_sched x1]. now rewrite Hcur.
  - lia.
  - now rewrite Hid'.
  - unfold x_env, x_mem, x1. cbn [x_sched x_dev]. rewrite Hk. now split.
  - exists x1, x'. rewrite <- Hid'. split_and!; [unfold fork_x; rewrite E; reflexivity | exact Em | exact He' | | |].
    + exact (sched_rel_same_tasks x1 x' _ Hx' H').
    + rewrite Hx'. exact Hp.
    + rewrite Hx'. exact Hnew.
Qed.

End Forks.

(** C23: [ret = fork()] and the message of the tasking test, when the address space
    is cloned and the chunks are allocated: the parent reports the child's pid
    and its own, and goes on running; the child, once it runs, gets 0 from the
    same call and reports 0 and its own pid, the one the parent was given. *)
Theorem fork_reports {D : Type} `{PortDevice D} `{!HasCrtc D} (lit : string -> Z) (printf_buf : Z) (fuel : nat)
    (eip esp ebp : Z) (x : machine D) (a : asched) (t : console) (tk : task_t) directory k1 new_task k2 stack k3 :
  let s := x_sched x in
  let pid := s_next_pid s in
  sched_rel s a -> clone_directory fuel (k_current_directory (s_kernel s)) (s_kernel s) = Ok (directory, k1) ->
  kmalloc fuel SIZEOF_task k1 = Ok (new_task, k2) -> kmalloc_a fuel KERNEL_STACK_SIZE k2 = Ok (stack, k3) ->
  new_task <> 0 -> s_tasks s !! new_task = None -> s_tasks s !! s_current s = Some tk ->
  0 <= pid < 0x80000000 -> - 0x80000000 <= t_id tk < 0x80000000 ->
  console_env lit printf_buf fuel boot_texts (k_mem k3) (x_dev x) -> shows (k_mem k3) (x_dev x) t ->
  (exists x1 x', fork_x fuel eip esp ebp x = Ok (pid, x1) /\ fork_message lit printf_buf fuel pid x1 = Ok x' /\
    x_env lit printf_buf fuel boot_texts x' (console_text t (fork_text pid (t_id tk))) /\
    sched_rel (x_sched x') (a_fork new_task a) /\
    s_tasks (x_sched x') !! new_task = Some (mk_task pid esp ebp eip directory stack 0 0)) /\
  (forall (xc : machine D) (tc : console) (c : task_t), s_current (x_sched xc) = new_task ->
    s_tasks (x_sched xc) !! new_task = Some c -> t_id c = pid -> x_env lit printf_buf fuel boot_texts xc tc ->
    fork_return (s_current s) new_task eip esp ebp (x_sched xc) = Ok (0, x_sched xc) /\
    exists xc', fork_message lit printf_buf fuel 0 xc = Ok xc' /\
      x_env lit printf_buf fuel boot_texts xc' (console_text tc (fork_text 0 pid))).
Proof.
  cbv zeta. intros Hrel Ed Ek Ea Hn0 Hfresh Htk Hpid Hid He Ht. split.
  - destruct (fork_parent_ok lit printf_buf fuel eip esp ebp x a t tk directory k1 new_task k2 stack k3 Hrel Ed Ek Ea Hn0 Hfresh Htk Hpid Hid He Ht)
      as (x1 & x' & E1 & E2 & Hs & Hr & _ & Hnew). exists x1, x'. auto.
  - intros xc tc c Hc Hl Hcid Hec. split.
    + unfold fork_return. rewrite Hc. replace (new_task =? s_current (x_sched x)) with false; [reflexivity|].
      symmetry. apply Z.eqb_neq. congruence.
    + destruct (fork_message_shows lit printf_buf fuel 0 xc tc c) as (xc' & E & Hec' & _); [now rewrite Hc | lia | lia | exact Hec |].
      exists xc'. rewrite <- Hcid. auto.
Qed.

(** The first task forks in an empty address space and prints its line. *)
Lemma fork_reports_witness :
  exists x1 x', fork_x 1024 0x444 1 2 (boot_machine example_sched) = Ok (4, x1) /\ fork_message boot_lit 0x8000 1024 4 x1 = Ok x' /\
    load8 (x_mem x') (VIDEO_ADDRESS + 32) = 52 /\ sched_rel (x_sched x') (mk_asched [0x10; 0x20; 0x103004] [(0x30, 8)] 0x10 7).
Proof.
  set (lm := literal_memory boot_texts 0x1000).
  destruct (clone_empty_directory 1024 0x8000 (mk_kernel lm ∅ 0x100000 None 0 0 0x8000 0x8000) 0x101000 0x101000
    (mk_kernel lm ∅ 0x103004 None 0 0 0x8000 0x8000)) as (m & Ec & Hfr);
    [reflexivity | lia | |].
  { intros i Hi. assert (Forall (fun i => dir_table lm 0x8000 i = 0) (seqZ 0 1024)) as Hz by (apply (bool_decide_unpack _); vm_compute; exact I).
    rewrite Forall_forall in Hz. apply Hz, elem_of_seqZ. lia. }
  destruct (boot_env example_sched) as [He Hs].
  change (x_mem (boot_machine example_sched)) with lm in He, Hs. change (x_dev (boot_machine example_sched)) with (mk_crtc 0 0 0) in He, Hs.
  assert (clear_of_console boot_lit boot_texts 0x101000 0x2004) as Hc.
  { split. apply (bool_decide_unpack _); vm_compute; exact I. unfold off_video, VIDEO_ADDRESS, SCREEN_BYTES; lia. }
  destruct (console_env_but boot_lit 0x8000 1024 boot_texts 0x101000 0x2004 lm m (mk_crtc 0 0 0) (0, screen_of lm) Hfr Hc He Hs) as [He' Hs'].
  destruct (fork_reports (D := crtc_device) boot_lit 0x8000 1024 0x444 1 2 (boot_machine example_sched) example_asched
    (0, screen_of lm) (example_task 1 0x111 0 0x20)
    0x101000 (mk_kernel m ∅ 0x103004 None 0 0 0x8000 0x8000) 0x103004 (mk_kernel m ∅ 0x103024 None 0 0 0x8000 0x8000) 0x104000
    (mk_kernel m ∅ 0x105000 None 0 0 0x8000 0x8000) (sched_rel_kernel _ _ _ example_rel)) as [(x1 & x' & E1 & E2 & [_ [_ Hx]] & Hr & _) _];
    [exact Ec | reflexivity | reflexivity | discriminate | reflexivity | reflexivity | simpl; lia | simpl; lia | exact He' | exact Hs' |].
  exists x1, x'. split_and!; [exact E1 | exact E2 | | exact Hr].
  etransitivity; [exact (Hx 32 ltac:(unfold SCREEN_BYTES; lia)) | vm_compute; reflexivity].
Defined.

(** ** What the scheduler leaves alone

    Sleeps and switches touch neither the memory nor the heap's structure nor the
    numbers of the tasks. *)
Definition same_pids (ts ts' : gmap Z task_t) : Prop := forall p, t_id <$> ts' !! p = t_id <$> ts !! p.

Definition keeps (s s' : sched) : Prop :=
  k_mem (s_kernel s') = k_mem (s_kernel s) /\ k_kheap (s_kernel s') = k_kheap (s_kernel s) /\ same_pids (s_tasks s) (s_tasks s').

Lemma keeps_refl s : keeps s s.
Proof. split_and!; try reflexivity. now intros p. Qed.

Lemma keeps_trans s1 s2 s3 : keeps s1 s2 -> keeps s2 s3 -> keeps s1 s3.
Proof. intros (M1 & H1 & P1) (M2 & H2 & P2). split_and!; congruence. Qed.

Lemma assign_pids p f ts ts' : (forall t, t_id (f t) = t_id t) -> assign p f ts = Ok ts' -> same_pids ts ts'.
Proof.
  unfold assign, deref. destruct (ts !! p) as [t|] eqn:E; [|discriminate]. intros Hf [= <-] q.
  destruct (decide (q = p)) as [->|Hq]; [rewrite lookup_insert_eq, E; cbn; now rewrite Hf | now rewrite lookup_insert_ne].
Qed.

Lemma keeps_assign s s1 p f ts : keeps s s1 -> assign p f (s_tasks s1) = Ok ts -> (forall t, t_id (f t) = t_id t) -> keeps s (with_tasks ts s1).
Proof. intros H E Hf. apply (keeps_trans _ _ _ H). split_and!; try reflexivity. exact (assign_pids _ _ _ _ Hf E). Qed.

(** An assignment to a field that is not the number. *)
Ltac keeps_assign := eapply keeps_assign; [|eassumption|reflexivity].

Lemma load_task_keeps next s s' : load_task next s = Ok s' -> keeps s s'.
Proof. unfold load_task, deref. destruct (_ !! next); [|discriminate]. intros [= <-]. exact (keeps_refl s). Qed.

Lemma dequeue_current_keeps s s' : dequeue_current s = Ok s' -> keeps s s'.
Proof.
  unfold dequeue_current. intros H. ok_inv. keeps_assign.
  destruct (_ =? _); ok_inv; [exact (keeps_refl s) | keeps_assign; apply keeps_refl].
Qed.

Lemma switch_task_keeps eip esp ebp s s' : switch_task eip esp ebp s = Ok s' -> keeps s s'.
Proof.
  unfold switch_task. destruct (s_current s =? 0); [intros [= ->]; apply keeps_refl|]. intros H. ok_inv.
  destruct a; [injection H as ->; apply keeps_refl|]. destruct (eip =? 0x12345); [injection H as ->; apply keeps_refl|]. ok_inv.
  refine (keeps_trans _ _ _ _ (load_task_keeps _ _ _ H)). 
  destruct (negb _); [apply dequeue_current_keeps in E2; refine (keeps_trans _ _ _ _ E2) | injection E2 as <-]; (keeps_assign; apply keeps_refl).
Qed.

Lemma sleep_keeps n eip esp ebp s s' : sleep n eip esp ebp s = Ok s' -> keeps s s'.
Proof.
  unfold sleep, sleep_mark, sleep_enqueue. intros H. ok_inv. destruct a0; ok_inv; [apply keeps_refl|].
  refine (keeps_trans _ _ _ _ (switch_task_keeps _ _ _ _ _ H)).
  destruct (s_sleep _ =? 0); ok_inv; [|keeps_assign]; (keeps_assign; apply keeps_refl).
Qed.

(** A turn of the endless loops, in a task that is not the only ready one:
    the message appears, the task sleeps for 50 ticks or 10, and another
    task runs. *)
Theorem test_turn_sleeps {D : Type} `{PortDevice D} `{!HasCrtc D} (lit : string -> Z) (printf_buf : Z) (fuel : nat)
    (ret eip esp ebp : Z) (x : machine D) (a : asched) (t : console) (tk : task_t) :
  let n := if 0 <? ret then 50 else 10 in
  sched_rel (x_sched x) a -> a_ready a <> [a_current a] -> s_tasks (x_sched x) !! s_current (x_sched x) = Some tk ->
  - 0x80000000 <= ret < 0x80000000 -> - 0x80000000 <= t_id tk < 0x80000000 -> eip <> 0x12345 -> u32 (a_tick a + n) <> 0 ->
  x_env lit printf_buf fuel boot_texts x t ->
  exists x', test_turn lit printf_buf fuel ret eip esp ebp x = Ok x' /\
    shows (k_mem (s_kernel (x_sched x'))) (x_dev x') (console_text t (fork_text ret (t_id tk))) /\
    sched_rel (x_sched x') (a_sleep_for n a) /\ running (successor (a_ready a) (a_current a)) (x_sched x').
Proof.
  cbv zeta. intros Hrel Hr Htk Hret Hid Heip Hd He.
  destruct (fork_message_shows lit printf_buf fuel ret x t tk Htk Hret Hid He) as (x1 & E1 & [_ Hs1] & Hx1).
  destruct (sleep_rel (if 0 <? ret then 50 else 10) eip esp ebp (x_sched x1) a) as (s' & E2 & Hrel' & _ & _ & Hrun);
    [exact (sched_rel_same_tasks x x1 a Hx1 Hrel) | exact Heip | rewrite Hx1; rewrite <- (sr_tick _ _ Hrel) in Hd; exact Hd |].
  exists (mk_machine s' (x_dev x1)). unfold test_turn, test_sleep. rewrite E1, bind_ok, E2, bind_ok. cbn [x_sched x_dev].
  rewrite (proj1 (sleep_keeps _ _ _ _ _ _ E2)). split_and!; [reflexivity | exact Hs1 | exact Hrel' | exact (Hrun Hr)].
Qed.

(** The child of pid 1 prints its line and sleeps; the task 0x20 runs. *)
Lemma test_turn_sleeps_witness :
  exists x', test_turn boot_lit 0x8000 1024 0 0x444 1 2 (boot_machine example_sched) = Ok x' /\
    load8 (k_mem (s_kernel (x_sched x'))) (VIDEO_ADDRESS + 32) = 48 /\
    sched_rel (x_sched x') (mk_asched [0x20] [(0x30, 8); (0x10, 17)] 0x20 7) /\ running 0x20 (x_sched x').
Proof.
  destruct (test_turn_sleeps (D := crtc_device) boot_lit 0x8000 1024 0 0x444 1 2 (boot_machine example_sched) example_asched
    (0, screen_of (literal_memory boot_texts 0x1000)) (example_task 1 0x111 0 0x20)
    (sched_rel_kernel _ _ _ example_rel)) as (x' & E & [_ Hs] & Hr & Hrun);
    [discriminate | reflexivity | lia | simpl; lia | discriminate | discriminate | apply boot_env |].
  exists x'. split_and!; [exact E | | exact Hr | exact Hrun].
  etransitivity; [exact (Hs 32 ltac:(unfold SCREEN_BYTES; lia)) | vm_compute; reflexivity].
Defined.
