(* ===== verification/Symbols.v ===== *)
(** * kernel/symbols.c: the kernel's symbol table

    Behind the kernel's image, at [data_end], are the two sizes, the symbol
    table of 16-byte [Elf32_Sym] entries and the string table.  A function that
    is found is called through its address: what the call does is the argument
    [call], as the code at an address is not data of the model. *)

From S2P Require Import Prelude Memory Util Ports Screen Printf Literals.

(** [struct symbol_table_header] and [Elf32_Sym]. *)
Definition SIZEOF_symbol_table_header : Z := 8.

Definition symbol_table_size (m : mem) (header : Z) : Z := load32 m header.

Definition SIZEOF_Elf32_Sym : Z := 16.

Definition st_name (m : mem) (symbol : Z) : Z := load32 m symbol.

Definition st_value (m : mem) (symbol : Z) : Z := load32 m (symbol + 4).

(** Where a header puts the two tables. *)
Definition symbol_table_of (header : Z) : Z := header + SIZEOF_symbol_table_header.

Definition str_table_of (m : mem) (header : Z) : Z := header + SIZEOF_symbol_table_header + symbol_table_size m header.

Definition symnum_of (m : mem) (header : Z) : Z := symbol_table_size m header / SIZEOF_Elf32_Sym.

Section Symbols.
Context {D : Type} `{PortDevice D}.
Context (call : Z -> list Z -> mem -> D -> outcome (mem * D)).

(** The loop of [find_symbol_and_run] from entry [i], with [n] entries to go. *)
Fixpoint find_symbol_from (fuel n : nat) (symbol_table str_table i symname : Z) (params : list Z) (m : mem) (d : D)
    : outcome (bool * mem * D) :=
  match n with
  | O => Ok (false, m, d)
  | S n' =>
      let symbol := symbol_table + SIZEOF_Elf32_Sym * i in
      let symbol_name := str_table + st_name m symbol in
      c ← strcmp fuel m symbol_name symname;
      if c =? 0 then
        let func := st_value m symbol in
        if negb (func =? 0) then r ← call func params m d; Ok (true, r.1, r.2)
        else Ok (false, m, d)
      else find_symbol_from fuel n' symbol_table str_table (i + 1) symname params m d
  end.

Definition find_symbol_and_run (fuel : nat) (symbol_table str_table sym_num symname param1 param2 param3 : Z)
    (m : mem) (d : D) : outcome (bool * mem * D) :=
  find_symbol_from fuel (Z.to_nat sym_num) symbol_table str_table 0 symname [param1; param2; param3] m d.

Context (lit : string -> Z) (printf_buf : Z).

Fixpoint print_symbols_from (fuel n : nat) (symbol_table str_table i : Z) (m : mem) (d : D) : outcome (mem * D) :=
  match n with
  | O => Ok (m, d)
  | S n' =>
      let symbol := symbol_table + SIZEOF_Elf32_Sym * i in
      let symbol_name := str_table + st_name m symbol in
      r ← printf fuel printf_buf (lit ("Symbol info: name: %s, addr: 0x%08x" +:+ nl)) [symbol_name; st_value m symbol] m d;
      print_symbols_from fuel n' symbol_table str_table (i + 1) r.1.2 r.2
  end.

Definition print_symbol_table (fuel : nat) (symbol_table str_table start end_ : Z) (m : mem) (d : D) : outcome (mem * D) :=
  print_symbols_from fuel (Z.to_nat (end_ - start)) symbol_table str_table start m d.

Definition parse_symbol_table (fuel : nat) (data_end : Z) (m : mem) (d : D) : outcome (mem * D) :=
  let header := data_end in
  let symbol_table := symbol_table_of header in
  let str_table := str_table_of m header in
  let symnum := symnum_of m header in
  r ← print_symbol_table fuel symbol_table str_table 0x10 0x20 m d;
  r ← find_symbol_and_run fuel symbol_table str_table symnum (lit "printf") (lit ("LALALA %d %d" +:+ nl)) 3 4 r.1 r.2;
  Ok (r.1.2, r.2).

End Symbols.

(** ** Searching

    The names of the symbols, in order. *)
Definition names_at (m : mem) (symbol_table str_table i : Z) (names : list (list Z)) : Prop :=
  forall (j : nat) l, names !! j = Some l ->
    cstring m (str_table + st_name m (symbol_table + SIZEOF_Elf32_Sym * (i + Z.of_nat j))) l.

Lemma names_at_tail m st str i l names : names_at m st str i (l :: names) -> names_at m st str (i + 1) names.
Proof. intros H j x Hj. specialize (H (S j) x Hj). replace (i + 1 + Z.of_nat j) with (i + Z.of_nat (S j)) by lia. exact H. Qed.

Lemma strcmp_eqb fuel m s1 s2 l1 l2 : cstring m s1 l1 -> cstring m s2 l2 -> (length l1 <= fuel)%nat ->
  exists c, strcmp fuel m s1 s2 = Ok c /\ (c =? 0) = bool_decide (l1 = l2).
Proof.
  intros H1 H2 Hf. exists (lex_cmp l1 l2). split.
  - apply strcmp_from_spec; rewrite ?Z.add_0_r; assumption.
  - apply Bool.eq_iff_eq_true. rewrite Z.eqb_eq, bool_decide_eq_true. apply lex_cmp_zero; [apply H1 | apply H2].
Qed.

Lemma find_symbol_from_spec {D : Type} (call : Z -> list Z -> mem -> D -> outcome (mem * D)) fuel st str symname name params m d names :
  cstring m symname name -> forall i, 0 <= i -> names_at m st str i names -> Forall (fun l => (length l <= fuel)%nat) names ->
  find_symbol_from call fuel (length names) st str i symname params m d =
  match list_find (fun l => l = name) names with
  | Some (j, _) =>
      let v := st_value m (st + SIZEOF_Elf32_Sym * (i + Z.of_nat j)) in
      if v =? 0 then Ok (false, m, d) else r ← call v params m d; Ok (true, r.1, r.2)
  | None => Ok (false, m, d)
  end.
Proof.
  intros Hn. induction names as [|l names IH]; intros i Hi Ha Hf; [reflexivity|].
  apply Forall_cons in Hf as [Hl Hf]. cbn [length find_symbol_from list_find].
  pose proof (Ha 0%nat l eq_refl) as H0. rewrite Z.add_0_r in H0.
  destruct (strcmp_eqb fuel m _ symname l name H0 Hn Hl) as (c & -> & Hc). rewrite bind_ok, Hc.
  destruct (decide (l = name)) as [E|E].
  - rewrite bool_decide_eq_true_2 by exact E. cbv zeta. rewrite Z.add_0_r. destruct (st_value m _ =? 0); reflexivity.
  - rewrite bool_decide_eq_false_2 by exact E. rewrite IH; [| lia | now apply names_at_tail in Ha | exact Hf].
    destruct (list_find (fun l => l = name) names) as [[j y]|]; [|reflexivity]. cbn [fmap option_fmap option_map prod_map fst snd].
    cbv zeta. replace (i + 1 + Z.of_nat j) with (i + Z.of_nat (S j)) by lia. reflexivity.
Qed.

(** [find_symbol_and_run] terminates: it calls the function of the first
    symbol with the given name, with the three parameters, and returns true
    when the call does; it returns false without a call when no symbol has the
    name or the first one that has it has no value. *)
Theorem find_symbol_runs_first {D : Type} (call : Z -> list Z -> mem -> D -> outcome (mem * D)) (fuel : nat)
    (symbol_table str_table symname param1 param2 param3 : Z) (name : list Z) (names : list (list Z)) (m : mem) (d : D) :
  cstring m symname name -> names_at m symbol_table str_table 0 names -> Forall (fun l => (length l <= fuel)%nat) names ->
  let run := find_symbol_and_run call fuel symbol_table str_table (Z.of_nat (length names)) symname param1 param2 param3 m d in
  (name ∉ names -> run = Ok (false, m, d)) /\
  (forall j, names !! j = Some name -> (forall i, (i < j)%nat -> names !! i <> Some name) ->
     let v := st_value m (symbol_table + SIZEOF_Elf32_Sym * Z.of_nat j) in
     (v = 0 -> run = Ok (false, m, d)) /\
     (v <> 0 -> forall m' d', call v [param1; param2; param3] m d = Ok (m', d') -> run = Ok (true, m', d'))).
Proof.
  intros Hn Ha Hf. cbv zeta. unfold find_symbol_and_run. rewrite Nat2Z.id.
  rewrite (find_symbol_from_spec call fuel _ _ symname name _ m d names Hn 0) by (assumption || lia). split.
  - intros Hni. replace (list_find (fun l => l = name) names) with (@None (nat * list Z)); [reflexivity|].
    symmetry. apply list_find_None. apply Forall_forall. intros l Hl ->. contradiction.
  - intros j Hj Hfirst. replace (list_find (fun l => l = name) names) with (Some (j, name)).
    + cbv zeta. rewrite Z.add_0_l. split.
      * intros ->. reflexivity.
      * intros Hv m' d' E. apply Z.eqb_neq in Hv. rewrite Hv, E. reflexivity.
    + symmetry. apply list_find_Some. split_and!; [exact Hj | reflexivity |].
      intros i y Hi Hlt ->. now apply (Hfirst i Hlt).
Qed.

(** Two symbols, "f" at 0x1111 and "g" at 0x2222, and the name "g" at 0x300. *)
Definition sample_table : mem :=
  let m := store_bytes (store_bytes ∅ 0x200 [102; 0; 103; 0]) 0x300 [103; 0] in
  store32 (store32 (store32 (store32 m 0x100 0) 0x104 0x1111) 0x110 2) 0x114 0x2222.

Lemma find_symbol_runs_first_witness :
  find_symbol_and_run (fun f args m (d : list (list Z)) => Ok (m, (f :: args) :: d)) 1 0x100 0x200 2 0x300 5 6 7 sample_table [] =
  Ok (true, sample_table, [[0x2222; 5; 6; 7]]).
Proof.
  apply (find_symbol_runs_first (fun f args m (d : list (list Z)) => Ok (m, (f :: args) :: d)) 1 0x100 0x200 0x300 5 6 7 [103]
    [[102]; [103]] sample_table []) with (j := 1%nat).
  - split; [vm_compute; reflexivity | repeat constructor; lia].
  - intros j l Hj. destruct j as [|[|j]]; simpl in Hj; [injection Hj as <- | injection Hj as <- | discriminate];
      (split; [vm_compute; reflexivity | repeat constructor; lia]).
  - repeat constructor.
  - reflexivity.
  - intros i Hi. replace i with 0%nat by lia. discriminate.
  - vm_compute. discriminate.
  - reflexivity.
Defined.
