(* ===== verification/Shell.v ===== *)
(** * kernel/shell.c: the command line

    A line is one of four words or a call [name(arg, arg, arg)], which is run
    through the symbol table.  The four buffers of [parse_command_and_run] are
    at the addresses of [frame]; the instructions CPUID and RDMSR are arguments
    of [user_input], as they read the processor. *)

From S2P Require Import Prelude Memory Util Ports Screen Printf Literals Ps2 Symbols.

Definition MAX_COMMAND_SIZE : Z := 256.

Inductive stage := COMMAND | PARAM1 | PARAM2 | PARAM3 | END.

#[export] Instance stage_eq_dec : EqDecision stage.
Proof. solve_decision. Defined.

Definition isdigit (c : Z) : Z := if (48 <=? c) && (c <=? 57) then 1 else 0.

Definition skip_atoi (fuel : nat) (m : mem) (s : Z) : outcome Z :=
  st ← while fuel (fun '(_, s) => negb (isdigit (load_char m s) =? 0))
         (fun '(i, s) => Ok (i32 (i * 10 + (load_char m s - 48)), s + 1)) (0, s);
  Ok st.1.

(** The value of a parameter; the closing quote of a string is overwritten. *)
Definition check_param (fuel : nat) (m : mem) (param : Z) : outcome (mem * Z) :=
  i ← while fuel (fun i => load_char m (param + i) =? 32) (fun i => Ok (i + 1)) 0;
  if load_char m (param + i) =? 34 then
    let new_param := param + 1 in
    let i := i + 1 in
    i ← while fuel (fun i => negb (load_char m (new_param + i) =? 34)) (fun i => Ok (i + 1)) i;
    Ok (store8 m (new_param + i) 0, u32 new_param)
  else
    v ← skip_atoi fuel m param;
    Ok (m, u32 v).

Record frame := mk_frame { f_command : Z; f_param1 : Z; f_param2 : Z; f_param3 : Z }.

(** [while (input[i] == ' ') i++]. *)
Definition skip_spaces (fuel : nat) (m : mem) (input i : Z) : outcome Z :=
  while fuel (fun i => load_char m (input + i) =? 32) (fun i => Ok (i + 1)) i.

(** The copy of one part of the line into the buffer [dst], up to a character
    that ends it. *)
Definition copy_part (ends : Z -> bool) (dst input : Z) (m : mem) (i : Z) : outcome (mem * Z) :=
  st ← while (Z.to_nat MAX_COMMAND_SIZE)
    (fun '(m, i, j) => negb (ends (load_char m (input + i))) && (j <? MAX_COMMAND_SIZE))
    (fun '(m, i, j) => Ok (store8 m (dst + j) (load_char m (input + i)), i + 1, j + 1)) (m, i, 0);
  Ok st.1.

(** One turn of the switch. *)
Definition parse_stage (fuel : nat) (fr : frame) (input : Z) (m : mem) (i : Z) (s : stage) : outcome (mem * Z * stage) :=
  match s with
  | COMMAND =>
      i ← skip_spaces fuel m input i;
      r ← copy_part (fun c => c =? 40) (f_command fr) input m i;
      Ok (r.1, r.2 + 1, PARAM1)
  | PARAM1 =>
      i ← skip_spaces fuel m input i;
      r ← copy_part (fun c => (c =? 44) || (c =? 41)) (f_param1 fr) input m i;
      let i := r.2 + 1 in
      Ok (r.1, i, if negb (load_char r.1 (input + i) =? 41) then PARAM2 else END)
  | PARAM2 =>
      i ← skip_spaces fuel m input i;
      r ← copy_part (fun c => (c =? 44) || (c =? 41)) (f_param2 fr) input m i;
      let i := r.2 + 1 in
      Ok (r.1, i, if negb (load_char r.1 (input + i) =? 41) then PARAM3 else END)
  | PARAM3 =>
      i ← skip_spaces fuel m input i;
      r ← copy_part (fun c => c =? 41) (f_param3 fr) input m i;
      Ok (r.1, r.2 + 1, END)
  | END => Ok (m, i, s)
  end.

(** The loop over the stages: each turn goes on to a later stage. *)
Definition parse_line (fuel : nat) (fr : frame) (input : Z) (m : mem) : outcome (mem * Z * stage) :=
  while 4 (fun '(m, i, s) => negb (load_char m (input + i) =? 0) && negb (bool_decide (s = END)))
    (fun '(m, i, s) => parse_stage fuel fr input m i s) (m, 0, COMMAND).

Definition clear_frame_buffers (fr : frame) (m : mem) : mem :=
  let m := memset m (f_command fr) 0 MAX_COMMAND_SIZE in
  let m := memset m (f_param1 fr) 0 MAX_COMMAND_SIZE in
  let m := memset m (f_param2 fr) 0 MAX_COMMAND_SIZE in
  memset m (f_param3 fr) 0 MAX_COMMAND_SIZE.

Section Shell.
Context {D : Type} `{PortDevice D}.
Context (call : Z -> list Z -> mem -> D -> outcome (mem * D)).

Definition parse_command_and_run (fuel : nat) (data_end : Z) (fr : frame) (input : Z) (m : mem) (d : D) : outcome (mem * D) :=
  let m := clear_frame_buffers fr m in
  let header := data_end in
  let symbol_table := symbol_table_of header in
  let str_table := str_table_of m header in
  let symnum := symnum_of m header in
  st ← parse_line fuel fr input m;
  r ← check_param fuel st.1.1 (f_param1 fr);
  let '(m, param1_val) := r in
  r ← check_param fuel m (f_param2 fr);
  let '(m, param2_val) := r in
  r ← check_param fuel m (f_param3 fr);
  let '(m, param3_val) := r in
  r ← find_symbol_and_run call fuel symbol_table str_table symnum (f_command fr) param1_val param2_val param3_val m d;
  Ok (r.1.2, r.2).

Context (lit : string -> Z) (printf_buf : Z).
Context (cpuid : Z -> Z * Z) (cpuGetMSR : Z -> Z * Z).

Definition CPUID_FEAT_EDX_APIC : Z := Z.shiftl 1 9.

Definition CPUID_FLAG_MSR : Z := Z.shiftl 1 5.

Definition show_cpuinfo (fuel : nat) (m : mem) (d : D) : outcome (mem * D) :=
  let '(eax, edx) := cpuid 1 in
  r ← say lit printf_buf fuel ("Cpuid is : eax %x  edx %x" +:+ nl) [eax; edx] m d;
  r ← say lit printf_buf fuel ("apic supported %d" +:+ nl) [if 0 <? Z.land edx CPUID_FEAT_EDX_APIC then 1 else 0] r.1 r.2;
  r ← say lit printf_buf fuel ("msr supported %d" +:+ nl) [if 0 <? Z.land edx CPUID_FLAG_MSR then 1 else 0] r.1 r.2;
  if negb (Z.land edx CPUID_FLAG_MSR =? 0) then
    let '(eax, edx) := cpuGetMSR 0x1B in
    say lit printf_buf fuel ("APIC BASE is 0x%8x" +:+ nl) [Z.land eax 0xfffff000] r.1 r.2
  else Ok r.

(** After HLT the processor waits for an interrupt and goes on behind it. *)
Definition user_input (fuel : nat) (data_end : Z) (fr : frame) (ac input : Z) (m : mem) (d : D) : outcome (mem * D) :=
  c ← strcmp fuel m input (lit "halt");
  if c =? 0 then say lit printf_buf fuel ("Stopping the CPU. Bye!" +:+ nl) [] m d
  else
    c ← strcmp fuel m input (lit "shutdown");
    if c =? 0 then Ok (m, port_word_out 0x604 0x2000 d)
    else
      c ← strcmp fuel m input (lit "reboot");
      if c =? 0 then reboot lit fuel ac m d
      else
        c ← strcmp fuel m input (lit "cpuinfo");
        if c =? 0 then show_cpuinfo fuel m d
        else
          r ← say lit printf_buf fuel ("You said: %s " +:+ nl +:+ ">") [input] m d;
          parse_command_and_run fuel data_end fr input r.1 r.2.

End Shell.
