(* ===== verification/ShellProps.v ===== *)
(** * What the shell runs

    A line [name(arg, arg, arg)] with up to three arguments, each a decimal
    number or a string in quotes, and spaces before each part.  The theorem
    says which function of the symbol table [parse_command_and_run] calls, and
    with which parameters. *)

From S2P Require Import Prelude Memory Util Ports Screen Printf PrintfNumber PrintfProps Literals Ps2 Symbols Shell.

Inductive arg := Num (n : Z) | Str (l : list Z).

(** ** The text of a line *)

Definition arg_text (a : arg) : list Z :=
  match a with Num n => dec_text n | Str l => 34 :: l ++ [34] end.

(** A part with [k] spaces before it. *)
Definition spaced (k : nat) (l : list Z) : list Z := replicate k 32 ++ l.

(** The parts behind the opening bracket. *)
Fixpoint parts_text (parts : list (nat * list Z)) : list Z :=
  match parts with
  | [] => [41]
  | [(k, l)] => spaced k l ++ [41]
  | (k, l) :: parts => spaced k l ++ 44 :: parts_text parts
  end.

Definition arg_parts (args : list (nat * arg)) : list (nat * list Z) := map (fun '(k, a) => (k, arg_text a)) args.

Definition line_text (k : nat) (name : list Z) (args : list (nat * arg)) : list Z :=
  spaced k name ++ 40 :: parts_text (arg_parts args).

(** A character of a name or a string: it is not one that ends a part. *)
Definition plain (c : Z) : Prop := 0 < c < 0x100 /\ c <> 40 /\ c <> 41 /\ c <> 44.

Definition part_ok (l : list Z) : Prop :=
  Forall plain l /\ (length l <= 255)%nat /\ head l <> Some 32.

Definition arg_ok (a : arg) : Prop :=
  match a with
  | Num n => 0 <= n < 0x1000000
  | Str l => Forall (fun c => plain c /\ c <> 34) l /\ l <> [] /\ (length l <= 253)%nat
  end.

(** ** The frame *)

Definition buffers (fr : frame) : list Z := [f_command fr; f_param1 fr; f_param2 fr; f_param3 fr].

Definition pairwise_apart (bs : list Z) : Prop :=
  forall i j a b, bs !! i = Some a -> bs !! j = Some b -> i <> j -> apart a 256 b 256.

(** The buffers overlap neither each other nor the [n] bytes of the line. *)
Definition frame_ok (fr : frame) (input n : Z) : Prop :=
  pairwise_apart (buffers fr) /\ forall a, a ∈ buffers fr -> 0 <= a < 0xFFFFFF00 /\ apart a 256 input n.

(** Everything but the buffers [bs] is as it was. *)
Definition same_outside (bs : list Z) (m m' : mem) : Prop :=
  forall x, (forall a, a ∈ bs -> x < a \/ a + 256 <= x) -> load8 m' x = load8 m x.

Definition zeroed (m : mem) (a : Z) : Prop := forall k, 0 <= k < 256 -> load8 m (a + k) = 0.

(** The buffer at [a] holds the text [l] and a NUL. *)
Definition holds (m : mem) (a : Z) (l : list Z) : Prop := bytes_at m a (l ++ [0]).

Lemma zeroed_same a b m m' : apart a 256 b 256 -> same_but b 256 m m' -> zeroed m a -> zeroed m' a.
Proof. unfold apart. intros Ha H Hz k Hk. rewrite H by lia. now apply Hz. Qed.

Lemma holds_same a b m m' l : (length l <= 255)%nat -> apart a 256 b 256 -> same_but b 256 m m' -> holds m a l -> holds m' a l.
Proof.
  unfold apart, holds. intros Hl Ha H. apply (same_but_bytes_at b 256); [exact H|]. rewrite length_app. simpl. lia.
Qed.

Lemma zeroed_holds m a : zeroed m a -> holds m a [].
Proof. intros H. apply bytes_at_cons. split; [|reflexivity]. rewrite <- (Z.add_0_r a). apply H. lia. Qed.

(** ** The stages *)

Lemma plain_char m a l c : bytes_at m a (c :: l) -> plain c ->
  (load_char m a =? 40) = false /\ (load_char m a =? 41) = false /\ (load_char m a =? 44) = false /\ (load_char m a =? 0) = false.
Proof.
  intros Hb (Hr & H1 & H2 & H3). apply bytes_at_cons in Hb as [E _]. unfold load_char. rewrite E.
  unfold i8. split_and!; apply Z.eqb_neq; zlia.
Qed.

Lemma skip_spaces_spec k : forall fuel m input i l,
  bytes_at m (input + i) (replicate k 32 ++ l) -> (forall c tl, l = c :: tl -> 0 <= c < 0x100 /\ c <> 32) -> l <> [] ->
  (k <= fuel)%nat -> skip_spaces fuel m input i = Ok (i + Z.of_nat k).
Proof.
  unfold skip_spaces. induction k as [|k IH]; intros fuel m input i l Hb Hl Hne Hf; cbn [replicate app] in Hb.
  - destruct l as [|c tl]; [congruence|]. destruct (Hl c tl eq_refl) as [Hr Hc]. rewrite Z.add_0_r. apply while_done.
    apply bytes_at_cons in Hb as [E _]. unfold load_char. rewrite E. apply Z.eqb_neq. unfold i8. zlia.
  - destruct fuel as [|fuel]; [lia|].
    erewrite while_step; [| rewrite (load_char_at _ _ _ _ Hb) by lia; reflexivity | reflexivity].
    apply bytes_at_cons in Hb as [_ Hb]. rewrite <- Z.add_assoc in Hb. rewrite (IH fuel m input (i + 1) l Hb Hl Hne) by lia.
    f_equal. lia.
Qed.

(** The copy of a part, from character [j] of it. *)
Lemma copy_loop_spec ends dst input x l : forall f (m : mem) i j,
  bytes_at m (input + i) (l ++ [x]) -> Forall (fun c => ends (i8 c) = false) l -> ends (i8 x) = true ->
  0 <= j -> j + Z.of_nat (length l) <= 255 -> (length l <= f)%nat ->
  apart (dst + j) (Z.of_nat (length l)) (input + i) (Z.of_nat (length l) + 1) ->
  while f (fun '(m, i, j) => negb (ends (load_char m (input + i))) && (j <? MAX_COMMAND_SIZE))
    (fun '(m, i, j) => Ok (store8 m (dst + j) (load_char m (input + i)), i + 1, j + 1)) (m, i, j) =
  Ok (store_bytes m (dst + j) l, i + Z.of_nat (length l), j + Z.of_nat (length l)).
Proof.
  unfold apart, MAX_COMMAND_SIZE. induction l as [|c l IH]; intros f m i j Hb He Hx Hj Hl Hf Ha; cbn [length app] in *.
  - apply bytes_at_cons in Hb as [E _]. rewrite while_done.
    + cbn [store_bytes]. rewrite !Z.add_0_r. reflexivity.
    + unfold load_char. now rewrite E, Hx.
  - apply Forall_cons in He as [Hc He]. destruct f as [|f]; [lia|]. apply bytes_at_cons in Hb as [E Hb].
    erewrite while_step; [| unfold load_char; rewrite E, Hc; apply Z.ltb_lt; lia | rewrite store8_load_char, E; reflexivity].
    rewrite <- Z.add_assoc in Hb.
    rewrite (IH f _ (i + 1) (j + 1)); [| | exact He | exact Hx | lia | lia | lia | lia].
    + cbn [store_bytes]. rewrite Z.add_assoc. do 2 f_equal; [f_equal|]; lia.
    + eapply same_but_bytes_at; [apply (same_but_store8 (dst + j) 1); lia | rewrite length_app; cbn [length]; lia | exact Hb].
Qed.

(** A part of the line goes into a zeroed buffer. *)
Lemma stage_spec fuel ends dst input (m : mem) i k l x :
  bytes_at m (input + i) (spaced k l ++ [x]) -> part_ok l -> Forall (fun c => ends (i8 c) = false) l -> ends (i8 x) = true ->
  0 < x < 0x80 -> x <> 32 -> (k <= fuel)%nat -> zeroed m dst -> apart dst 256 (input + i) (Z.of_nat (length (spaced k l)) + 1) ->
  exists m', (i ← skip_spaces fuel m input i; copy_part ends dst input m i) = Ok (m', i + Z.of_nat (length (spaced k l))) /\
    holds m' dst l /\ same_but dst 256 m m'.
Proof.
  intros Hb (Hp & Hl & Hh) He Hx Hxr Hx32 Hk Hz Ha. unfold spaced in *. rewrite length_app, length_replicate in *.
  rewrite <- app_assoc in Hb.
  rewrite (skip_spaces_spec k fuel m input i (l ++ [x]) Hb); [| | destruct l; discriminate | exact Hk].
  2:{ intros c tl E. destruct l as [|y l]; [injection E as <- _; lia|]. injection E as <- _.
      apply Forall_cons in Hp as [[Hr _] _]. split; [lia|]. intros ->. now apply Hh. }
  rewrite bind_ok. unfold copy_part. apply bytes_at_app in Hb as [_ Hb]. rewrite length_replicate, <- Z.add_assoc in Hb.
  unfold apart in Ha. rewrite (copy_loop_spec ends dst input x l _ m _ 0); [| exact Hb | exact He | exact Hx | lia | lia | change MAX_COMMAND_SIZE with 256; lia | unfold apart; lia].
  rewrite Z.add_0_r, bind_ok. cbn [fst]. eexists. split; [do 2 f_equal; lia|]. split.
  - unfold holds. apply bytes_at_app. split.
    + apply bytes_at_store_bytes. eapply Forall_impl; [exact Hp|]. unfold plain. simpl. lia.
    + apply bytes_at_cons. split; [|reflexivity]. rewrite load8_store_bytes_out by lia. apply Hz. lia.
  - apply same_but_store_bytes; lia.
Qed.

(** ** The loop over the parameters *)

Definition next_stage (s : stage) : stage :=
  match s with COMMAND => PARAM1 | PARAM1 => PARAM2 | PARAM2 => PARAM3 | _ => END end.

(** The buffers that are still to be filled in stage [s]. *)
Definition stage_buffers (fr : frame) (s : stage) : list Z :=
  match s with
  | COMMAND => buffers fr
  | PARAM1 => [f_param1 fr; f_param2 fr; f_param3 fr]
  | PARAM2 => [f_param2 fr; f_param3 fr]
  | PARAM3 => [f_param3 fr]
  | END => []
  end.

(** What the line has from a part on: nothing behind the last one. *)
Definition rest_text (parts : list (nat * list Z)) : list Z :=
  match parts with [] => [] | _ => parts_text parts end.

(** The character behind a part. *)
Definition delimiter (parts : list (nat * list Z)) : Z := match parts with [] => 41 | _ => 44 end.

Lemma parts_text_cons k l parts : parts_text ((k, l) :: parts) = spaced k l ++ delimiter parts :: rest_text parts.
Proof. destruct parts; reflexivity. Qed.

(** A part behind a comma does not start with the closing bracket. *)
Definition later_part_ok (p : nat * list Z) : Prop := part_ok p.2 /\ p.2 <> [].

Lemma first_char (m : mem) a k l x tl : bytes_at m a ((spaced k l ++ x :: tl)) -> part_ok l -> 0 < x < 0x80 ->
  (load_char m a =? 0) = false /\ (l <> [] \/ (0 < k)%nat -> (load_char m a =? 41) = false).
Proof.
  intros Hb (Hp & _ & _) Hx. unfold spaced in Hb. destruct k as [|k]; cbn [replicate app] in Hb.
  - destruct l as [|c l]; cbn [app] in Hb.
    + rewrite (load_char_at _ _ _ _ Hb) by lia. split; [lia|]. intros [?|?]; [congruence | lia].
    + apply Forall_cons in Hp as [Hc _]. destruct (plain_char _ _ _ _ Hb Hc) as (_ & H1 & _ & H0). auto.
  - rewrite (load_char_at _ _ _ _ Hb) by lia. auto.
Qed.

Lemma after_delimiter (m : mem) a parts : bytes_at m a (rest_text parts ++ [0]) -> Forall later_part_ok parts ->
  (load_char m a =? 41) = false.
Proof.
  intros Hb Hp. destruct parts as [|[k l] parts].
  - rewrite (load_char_at _ _ _ _ Hb) by lia. reflexivity.
  - apply Forall_cons in Hp as [[Hl Hne] _]. cbn [rest_text] in Hb. rewrite parts_text_cons, <- app_assoc in Hb.
    cbn [app snd] in *. eapply (first_char m a k l); [exact Hb | exact Hl | | now left]. destruct parts; simpl; lia.
Qed.

Lemma delimiter_ends parts : (i8 (delimiter parts) =? 44) || (i8 (delimiter parts) =? 41) = true.
Proof. destruct parts; reflexivity. Qed.

Lemma plain_ends l : Forall plain l ->
  Forall (fun c => ((i8 c =? 44) || (i8 c =? 41)) = false) l /\ Forall (fun c => (i8 c =? 41) = false) l /\
  Forall (fun c => (i8 c =? 40) = false) l.
Proof.
  intros H. split_and!; (eapply Forall_impl; [exact H|]); intros c (Hr & H1 & H2 & H3); unfold i8;
    try apply orb_false_iff; try split; apply Z.eqb_neq; zlia.
Qed.

Lemma param_step fuel fr input (m : mem) i s b bs k l parts :
  s <> COMMAND -> stage_buffers fr s = b :: bs -> (bs = [] -> parts = []) ->
  bytes_at m (input + i) (parts_text ((k, l) :: parts) ++ [0]) -> part_ok l -> Forall later_part_ok parts ->
  (k <= fuel)%nat -> zeroed m b -> apart b 256 (input + i) (Z.of_nat (length (parts_text ((k, l) :: parts))) + 1) ->
  exists m', parse_stage fuel fr input m i s = Ok (m', i + Z.of_nat (length (spaced k l)) + 1, next_stage s) /\
    holds m' b l /\ same_but b 256 m m'.
Proof.
  intros Hs Hbs Hlast Hb Hl Hparts Hk Hz Ha. rewrite parts_text_cons, length_app in *. cbn [length] in Ha.
  rewrite <- app_assoc in Hb. cbn [app] in Hb. pose proof Hb as Hb1. rewrite cons_middle, app_assoc in Hb1. rewrite cons_middle, app_assoc in Hb.
  apply bytes_at_app in Hb as [Hb Hb']. rewrite length_app in Hb'. cbn [length] in Hb'.
  destruct (plain_ends l ltac:(apply Hl)) as (He1 & He2 & _). unfold apart in Ha.
  assert (0 < delimiter parts < 0x80 /\ delimiter parts <> 32) as [Hd1 Hd2] by (destruct parts; simpl; lia).
  assert (forall ends, Forall (fun c => ends (i8 c) = false) l -> ends (i8 (delimiter parts)) = true ->
    exists m', (i ← skip_spaces fuel m input i; copy_part ends b input m i) = Ok (m', i + Z.of_nat (length (spaced k l))) /\
      holds m' b l /\ same_but b 256 m m') as Hst.
  { intros ends He Hx. apply (stage_spec fuel ends b input m i k l (delimiter parts)); try assumption. unfold apart. lia. }
  destruct s; try congruence; try discriminate; injection Hbs as <- <-.
  1,2: destruct (Hst (fun c => (c =? 44) || (c =? 41)) He1 (delimiter_ends parts)) as (m' & E & Hm & Hfr); exists m'; split_and!; try assumption;
    cbn [parse_stage next_stage]; 
    destruct (skip_spaces fuel m input i) as [i1| | |]; try discriminate; cbn [mbind outcome_bind] in *; rewrite E;
    cbn [mbind outcome_bind fst snd];
    assert (bytes_at m' (input + (i + Z.of_nat (length (spaced k l)) + 1)) (rest_text parts ++ [0])) as Hr
      by (eapply same_but_bytes_at; [exact Hfr | rewrite length_app; cbn [length]; lia |];
          replace (input + (i + Z.of_nat (length (spaced k l)) + 1)) with (input + i + Z.of_nat (length (spaced k l) + 1)) by lia; exact Hb');
    rewrite (after_delimiter _ _ _ Hr Hparts); reflexivity.
  rewrite (Hlast eq_refl) in Hst. destruct (Hst (fun c => c =? 41) He2 eq_refl) as (m' & E & Hm & Hfr).
  exists m'. split_and!; try assumption. cbn [parse_stage next_stage].
  destruct (skip_spaces fuel m input i) as [i1| | |]; try discriminate. cbn [mbind outcome_bind] in *. rewrite E. reflexivity.
Qed.

Lemma stage_buffers_next fr s b bs : stage_buffers fr s = b :: bs -> stage_buffers fr (next_stage s) = bs.
Proof. destruct s; intros [= <- <-]; reflexivity. Qed.

Lemma pairwise_tail b bs : pairwise_apart (b :: bs) -> pairwise_apart bs /\ forall a, a ∈ bs -> apart a 256 b 256.
Proof.
  intros H. split.
  - intros i j x y Hi Hj Hne. apply (H (S i) (S j) x y Hi Hj). lia.
  - intros a Ha. apply list_elem_of_lookup in Ha as [i Hi]. apply (H (S i) 0%nat a b Hi eq_refl). lia.
Qed.

(** The text that goes into the [j]-th buffer. *)
Definition part_at (parts : list (nat * list Z)) (j : nat) : list Z :=
  match parts !! j with Some (_, l) => l | None => [] end.

Definition parse_loop (f fuel : nat) (fr : frame) (input : Z) : mem * Z * stage -> outcome (mem * Z * stage) :=
  while f (fun '(m, i, s) => negb (load_char m (input + i) =? 0) && negb (bool_decide (s = END)))
    (fun '(m, i, s) => parse_stage fuel fr input m i s).

Lemma parse_parts fuel fr input parts : forall f (m : mem) i s,
  s <> COMMAND -> (length parts <= length (stage_buffers fr s))%nat -> (length parts <= f)%nat ->
  bytes_at m (input + i) (rest_text parts ++ [0]) ->
  Forall (fun p => part_ok p.2 /\ (p.1 <= fuel)%nat) parts -> Forall later_part_ok (tail parts) ->
  pairwise_apart (stage_buffers fr s) ->
  (forall b, b ∈ stage_buffers fr s -> zeroed m b /\ apart b 256 (input + i) (Z.of_nat (length (rest_text parts)) + 1)) ->
  exists m' i' s', parse_loop f fuel fr input (m, i, s) = Ok (m', i', s') /\
    (forall j b, stage_buffers fr s !! j = Some b -> holds m' b (part_at parts j)) /\
    same_outside (stage_buffers fr s) m m'.
Proof.
  induction parts as [|[k l] parts IH]; intros f m i s Hs Hlen Hf Hb Hok Hlater Hpw Hz.
  - exists m, i, s. split; [|split].
    + unfold parse_loop. apply while_done. cbn [rest_text app] in Hb. rewrite (load_char_at _ _ _ _ Hb) by lia. reflexivity.
    + intros j b Hj. apply zeroed_holds, Hz. now apply list_elem_of_lookup_2 in Hj.
    + intros x _. reflexivity.
  - destruct (stage_buffers fr s) as [|b bs] eqn:Ebs; [simpl in Hlen; lia|]. destruct f as [|f]; [simpl in Hf; lia|].
    apply Forall_cons in Hok as [[Hl Hk] Hok]. cbn [tail fst snd length rest_text] in *.
    destruct (Hz b ltac:(left)) as [Hzb Hab]. destruct (pairwise_tail _ _ Hpw) as [Hpw' Hpb].
    destruct (param_step fuel fr input m i s b bs k l parts Hs Ebs) as (m1 & E1 & Hm1 & Hfr1); try assumption.
    { intros ->. destruct parts; [reflexivity | simpl in Hlen; lia]. }
    pose proof (parts_text_cons k l parts) as Et. rewrite Et in Hb, Hab, Hz. rewrite length_app in *. cbn [length] in *.
    rewrite <- app_assoc in Hb. cbn [app] in Hb.
    assert (parse_loop (S f) fuel fr input (m, i, s) = parse_loop f fuel fr input (m1, i + Z.of_nat (length (spaced k l)) + 1, next_stage s)) as Estep.
    { unfold parse_loop. apply while_step; [|exact E1]. destruct (first_char _ _ _ _ _ _ Hb Hl) as [-> _]; [destruct parts; simpl; lia|].
      cbn [negb andb]. rewrite bool_decide_eq_false_2; [reflexivity|]. intros ->. discriminate. }
    assert (apart b 256 (input + (i + Z.of_nat (length (spaced k l)) + 1)) (Z.of_nat (length (rest_text parts)) + 1)) as Hab'
      by (unfold apart in *; lia).
    rewrite cons_middle, app_assoc in Hb. apply bytes_at_app in Hb as [_ Hb]. rewrite length_app in Hb. cbn [length] in Hb.
    destruct (IH f m1 (i + Z.of_nat (length (spaced k l)) + 1) (next_stage s)) as (m' & i' & s' & E' & Hh & Hfr'); try assumption.
    + destruct s; simpl; congruence.
    + rewrite (stage_buffers_next fr s b bs Ebs). lia.
    + lia.
    + eapply same_but_bytes_at; [exact Hfr1 | rewrite length_app; cbn [length]; unfold apart in Hab'; lia |].
      replace (input + (i + Z.of_nat (length (spaced k l)) + 1)) with (input + i + Z.of_nat (length (spaced k l) + 1)) by lia. exact Hb.
    + destruct Hlater; [constructor | assumption].
    + now rewrite (stage_buffers_next fr s b bs Ebs).
    + rewrite (stage_buffers_next fr s b bs Ebs). intros a Ha. destruct (Hz a ltac:(now right)) as [Hza Haa]. split.
      * eapply zeroed_same; [now apply Hpb | exact Hfr1 | exact Hza].
      * unfold apart in *. lia.
    + rewrite (stage_buffers_next fr s b bs Ebs) in Hh, Hfr'. exists m', i', s'. split_and!; [now rewrite Estep | |].
      * intros [|j] a Ha; cbn [lookup list_lookup] in Ha.
        -- injection Ha as <-. unfold part_at. cbn [lookup list_lookup]. unfold holds in *.
           assert (forall x, b <= x < b + 256 -> load8 m' x = load8 m1 x) as Hsame.
           { intros x Hx. apply Hfr'. intros a Ha. specialize (Hpb a Ha). unfold apart in Hpb. lia. }
           destruct Hl as (_ & Hll & _). apply bytes_at_lookup. intros j x Hj. rewrite bytes_at_lookup in Hm1.
           rewrite Hsame; [now apply Hm1|]. apply lookup_lt_Some in Hj. rewrite length_app in Hj. cbn [length] in Hj. lia.
        -- apply (Hh j a Ha).
      * intros x Hx. rewrite Hfr'; [|intros a Ha; apply Hx; now right]. apply Hfr1. apply Hx. left.
Qed.

(** ** Whole lines *)

Lemma clear_frame_buffers_spec fr m : pairwise_apart (buffers fr) ->
  (forall b, b ∈ buffers fr -> zeroed (clear_frame_buffers fr m) b) /\
  same_outside (buffers fr) m (clear_frame_buffers fr m).
Proof.
  intros Hpw. unfold clear_frame_buffers, MAX_COMMAND_SIZE.
  assert (forall i j a b, buffers fr !! i = Some a -> buffers fr !! j = Some b -> i <> j -> apart a 256 b 256) as Hap by exact Hpw.
  pose proof (Hap 0%nat 1%nat _ _ eq_refl eq_refl ltac:(lia)) as A01. pose proof (Hap 0%nat 2%nat _ _ eq_refl eq_refl ltac:(lia)) as A02.
  pose proof (Hap 0%nat 3%nat _ _ eq_refl eq_refl ltac:(lia)) as A03. pose proof (Hap 1%nat 2%nat _ _ eq_refl eq_refl ltac:(lia)) as A12.
  pose proof (Hap 1%nat 3%nat _ _ eq_refl eq_refl ltac:(lia)) as A13. pose proof (Hap 2%nat 3%nat _ _ eq_refl eq_refl ltac:(lia)) as A23.
  assert (forall m a, zeroed (memset m a 0 256) a /\ same_but a 256 m (memset m a 0 256)) as Hms.
  { intros m0 a. destruct (memset_spec m0 a 0 256) as [H1 H2]; [lia|]. split; [|exact H2]. intros k Hk. now apply H1. }
  destruct (Hms m (f_command fr)) as [Z0 S0]. set (m0 := memset m (f_command fr) 0 256) in *.
  destruct (Hms m0 (f_param1 fr)) as [Z1 S1]. set (m1 := memset m0 (f_param1 fr) 0 256) in *.
  destruct (Hms m1 (f_param2 fr)) as [Z2 S2]. set (m2 := memset m1 (f_param2 fr) 0 256) in *.
  destruct (Hms m2 (f_param3 fr)) as [Z3 S3]. set (m3 := memset m2 (f_param3 fr) 0 256) in *. clearbody m0 m1 m2 m3. split.
  - intros b Hb. unfold buffers in Hb. rewrite !elem_of_cons in Hb.
    destruct Hb as [->|[->|[->|[->|Hb]]]]; [| | | exact Z3 | now apply not_elem_of_nil in Hb];
      repeat (eapply zeroed_same; [| eassumption |]; [assumption|]); assumption.
  - intros x Hx. rewrite S3, S2, S1, S0; [reflexivity | | | |]; apply Hx; unfold buffers; rewrite !elem_of_cons; tauto.
Qed.

(** The parts that are parsed: [name()] has one empty part. *)
Definition line_parts (args : list (nat * arg)) : list (nat * list Z) :=
  match args with [] => [(0%nat, [])] | _ => arg_parts args end.

Lemma line_parts_text args : rest_text (line_parts args) = parts_text (arg_parts args).
Proof. destruct args; reflexivity. Qed.

Lemma arg_text_ok a : arg_ok a -> later_part_ok (0%nat, arg_text a).
Proof.
  intros Ha. unfold later_part_ok, part_ok. cbn [snd]. destruct a as [n|l]; cbn [arg_text arg_ok] in *.
  - destruct (dec_text_spec n Ha) as (_ & Hd & Hlen). pose proof (dec_le_length 8 n).
    assert (Forall is_digit (dec_text n)) as Hd' by (now apply Forall_rev).
    assert (dec_text n <> []) as Hne by (unfold dec_text; cbn [dec_le rev]; intros E; now apply app_eq_nil in E as [_ E]).
    split_and!; [| lia | | exact Hne].
    + eapply Forall_impl; [exact Hd'|]. unfold is_digit, plain. simpl. lia.
    + destruct (dec_text n) as [|d t]; [congruence|]. apply Forall_cons in Hd' as [Hd' _]. unfold is_digit in Hd'. simpl.
      intros [= ->]. lia.
  - destruct Ha as (Hl & Hne & Hlen). split_and!; [| simpl; rewrite length_app; simpl; lia | simpl; intros [=] | discriminate].
    constructor; [unfold plain; lia|]. apply Forall_app. split; [|repeat constructor; lia].
    eapply Forall_impl; [exact Hl|]. simpl. tauto.
Qed.

(** The line of a command: its name, the arguments, and enough fuel. *)
Definition line_ok (fuel k : nat) (name : list Z) (args : list (nat * arg)) : Prop :=
  part_ok name /\ (k <= fuel)%nat /\ (length args <= 3)%nat /\ Forall (fun p => arg_ok p.2 /\ (p.1 <= fuel)%nat) args.

Lemma line_parts_ok fuel k name args : line_ok fuel k name args ->
  Forall (fun p => part_ok p.2 /\ (p.1 <= fuel)%nat) (line_parts args) /\ Forall later_part_ok (tail (line_parts args)) /\
  (length (line_parts args) <= 3)%nat.
Proof.
  intros (_ & _ & Hlen & Ha). destruct args as [|p args].
  - cbn [line_parts tail length]. split_and!; [|constructor | lia]. constructor; [|constructor].
    split; [|cbn [fst]; lia]. unfold part_ok. split_and!; [constructor | simpl; lia | discriminate].
  - assert (Forall later_part_ok (arg_parts (p :: args)) /\ Forall (fun p => part_ok p.2 /\ (p.1 <= fuel)%nat) (arg_parts (p :: args))) as [H1 H2].
    { unfold arg_parts. rewrite !Forall_map. split; (eapply Forall_impl; [exact Ha|]); intros [j a] [Hok Hj];
        pose proof (arg_text_ok a Hok) as [H1 H2]; cbn [fst snd] in *; [split; assumption | split; assumption]. }
    cbn [line_parts]. split_and!; [exact H2 | now inversion H1 | unfold arg_parts; rewrite length_map; exact Hlen].
Qed.

Lemma parse_line_spec fuel fr input k name args m :
  line_ok fuel k name args -> frame_ok fr input (Z.of_nat (length (line_text k name args)) + 1) ->
  cstring m input (line_text k name args) -> (forall b, b ∈ buffers fr -> zeroed m b) ->
  exists m' st, parse_line fuel fr input m = Ok (m', st.1, st.2) /\ holds m' (f_command fr) name /\
    (forall j b, stage_buffers fr PARAM1 !! j = Some b -> holds m' b (part_at (line_parts args) j)) /\
    same_outside (buffers fr) m m'.
Proof.
  intros Hok [Hpw Hin] [Hb _] Hz. destruct (line_parts_ok fuel k name args Hok) as (Hp1 & Hp2 & Hp3).
  destruct Hok as (Hname & Hk & _ & _). unfold line_text in *. rewrite <- line_parts_text, length_app in *. cbn [length] in *.
  set (T := rest_text (line_parts args)) in *.
  destruct (Hin (f_command fr) ltac:(left)) as [_ Hac]. unfold apart in Hac.
  destruct (plain_ends name ltac:(apply Hname)) as (_ & _ & He).
  rewrite <- app_assoc in Hb. cbn [app] in Hb. pose proof Hb as Hb0. rewrite cons_middle, app_assoc in Hb.
  apply bytes_at_app in Hb as [Hb1 Hb2]. rewrite length_app in Hb2. cbn [length] in Hb2.
  rewrite <- (Z.add_0_r input) in Hb1.
  destruct (stage_spec fuel (fun c => c =? 40) (f_command fr) input m 0 k name 40 Hb1 Hname He eq_refl) as (m1 & E1 & Hh1 & Hfr1);
    [lia | lia | exact Hk | apply Hz; left | unfold apart; lia |].
  destruct (pairwise_tail _ _ Hpw) as [Hpw' Hpb].
  destruct (parse_parts fuel fr input (line_parts args) 3 m1 (0 + Z.of_nat (length (spaced k name)) + 1) PARAM1)
    as (m' & i' & s' & E' & Hh & Hfr'); try assumption.
  - discriminate.
  - eapply same_but_bytes_at; [exact Hfr1 | rewrite length_app; cbn [length]; fold T; lia |]. fold T.
    replace (input + (0 + Z.of_nat (length (spaced k name)) + 1)) with (input + Z.of_nat (length (spaced k name) + 1)) by lia. exact Hb2.
  - intros b Hb. assert (b ∈ buffers fr) as Hbb by (right; exact Hb). destruct (Hin b Hbb) as [_ Hab].
    split; [eapply zeroed_same; [apply Hpb; exact Hb | exact Hfr1 | now apply Hz]|]. fold T. unfold apart in *. lia.
  - exists m', (i', s'). cbn [fst snd]. split_and!.
    + rewrite <- E'. unfold parse_line, parse_loop. apply while_step.
      * rewrite Z.add_0_r. destruct (first_char m input k name 40 (T ++ [0]) Hb0 Hname ltac:(lia)) as [-> _]. reflexivity.
      * cbn [parse_stage]. destruct (skip_spaces fuel m input 0) as [i0| | |]; try discriminate.
        cbn [mbind outcome_bind] in *. rewrite E1. reflexivity.
    + destruct Hname as (_ & Hl & _). unfold holds in *. rewrite bytes_at_lookup in Hh1 |- *. intros j x Hj.
      pose proof (lookup_lt_Some _ _ _ Hj) as Hlt. rewrite length_app in Hlt. cbn [length] in Hlt.
      rewrite Hfr'; [now apply Hh1|]. intros a Ha. specialize (Hpb a Ha). unfold apart in Hpb. lia.
    + exact Hh.
    + intros x Hx. rewrite Hfr'; [|intros a Ha; apply Hx; now right]. apply Hfr1. apply Hx. left.
Qed.

(** ** The values of parameters *)

Lemma while_ext {S : Type} f c c' b b' (s : S) :
  (forall s, c s = c' s) -> (forall s, b s = b' s) -> while f c b s = while f c' b' s.
Proof.
  intros Hc Hb. revert s. induction f as [|f IH]; intros s; simpl; rewrite Hc; [reflexivity|].
  destruct (c' s); [|reflexivity]. rewrite Hb. destruct (b' s) as [s'| | |]; simpl; auto.
Qed.

Lemma skip_atoi_printf fuel m s : Shell.skip_atoi fuel m s = (r ← Printf.skip_atoi fuel m s; Ok r.1).
Proof.
  unfold Shell.skip_atoi, Printf.skip_atoi. f_equal. apply while_ext; [intros [i p]; reflexivity|].
  intros [i p]. do 3 f_equal. lia.
Qed.

(** The argument in a buffer at [a]: no argument leaves it empty. *)
Definition param_text (o : option (nat * arg)) : list Z := match o with Some (_, a) => arg_text a | None => [] end.

Definition param_value (a : Z) (o : option (nat * arg)) : Z :=
  match o with Some (_, Num n) => n | Some (_, Str _) => a + 1 | None => 0 end.

(** The string that a parameter points to. *)
Definition param_holds (m : mem) (a : Z) (o : option (nat * arg)) : Prop :=
  match o with Some (_, Str l) => cstring m (a + 1) l | _ => True end.

Lemma quote_loop l : forall f (m : mem) p i, bytes_at m (p + i) (l ++ [34]) ->
  Forall (fun c => 0 <= c < 0x100 /\ c <> 34) l -> (length l <= f)%nat ->
  while f (fun i => negb (load_char m (p + i) =? 34)) (fun i => Ok (i + 1)) i = Ok (i + Z.of_nat (length l)).
Proof.
  induction l as [|c l IH]; intros f m p i Hb Hl Hf; cbn [app length] in *.
  - rewrite Z.add_0_r. apply while_done. rewrite (load_char_at _ _ _ _ Hb) by lia. reflexivity.
  - apply Forall_cons in Hl as [[Hr Hc] Hl]. destruct f as [|f]; [lia|]. apply bytes_at_cons in Hb as [E Hb].
    erewrite while_step; [| unfold load_char; rewrite E; unfold i8; apply negb_true_iff, Z.eqb_neq; zlia | reflexivity].
    rewrite <- Z.add_assoc in Hb. rewrite IH by (assumption || lia). f_equal. lia.
Qed.

Lemma check_param_string fuel m a l : (256 <= fuel)%nat -> holds m a (34 :: l ++ [34]) -> 0 <= a < 0xFFFFFF00 ->
  Forall (fun c => plain c /\ c <> 34) l -> l <> [] -> (length l <= 253)%nat ->
  exists m', check_param fuel m a = Ok (m', a + 1) /\ same_but a 256 m m' /\ cstring m' (a + 1) l.
Proof.
  intros Hf Hh Ha Hl Hne Hlen. unfold holds in Hh. unfold check_param.
  rewrite while_done by (rewrite Z.add_0_r, (load_char_at _ _ _ _ Hh) by lia; reflexivity). rewrite bind_ok.
  rewrite Z.add_0_r, (load_char_at _ _ _ _ Hh) by lia. cbn [Z.eqb Pos.eqb].
  destruct l as [|c l]; [congruence|]. cbn [app length] in *. apply Forall_cons in Hl as [Hc Hl].
  rewrite <- app_assoc in Hh. cbn [app] in Hh. apply bytes_at_cons in Hh as [_ Hh]. pose proof Hh as Hh'.
  apply bytes_at_cons in Hh' as [E Hh'].
  change (l ++ [34; 0]) with (l ++ [34] ++ [0]) in Hh'. rewrite app_assoc in Hh'. apply bytes_at_app in Hh' as [Hq _].
  rewrite (quote_loop l fuel m (a + 1) (0 + 1)); [| exact Hq | eapply Forall_impl; [exact Hl|]; unfold plain; simpl; lia | lia]. rewrite bind_ok, u32_small by lia.
  eexists. split; [reflexivity|]. split; [apply same_but_store8; lia|]. split.
  - apply bytes_at_app. split.
    + change (c :: l ++ [34; 0]) with ((c :: l) ++ [34; 0]) in Hh. apply bytes_at_app in Hh as [Hh _].
      eapply same_but_bytes_at; [apply (same_but_store8 (a + 1 + (0 + 1 + Z.of_nat (length l))) 1); lia | cbn [length]; lia | exact Hh].
    + apply bytes_at_cons. split; [|reflexivity]. cbn [length].
      replace (a + 1 + Z.of_nat (S (length l))) with (a + 1 + (0 + 1 + Z.of_nat (length l))) by lia. rewrite load8_store8_eq. reflexivity.
  - constructor; [destruct Hc as [[Hr _] _]; exact Hr|]. eapply Forall_impl; [exact Hl|]. intros x [[Hr _] _]. exact Hr.
Qed.

Lemma check_param_spec fuel m a o : (256 <= fuel)%nat -> 0 <= a < 0xFFFFFF00 ->
  (forall p, o = Some p -> arg_ok p.2) -> holds m a (param_text o) ->
  exists m', check_param fuel m a = Ok (m', param_value a o) /\ same_but a 256 m m' /\ param_holds m' a o.
Proof.
  intros Hf Ha Hok Hh. destruct o as [[k [n|l]]|]; cbn [param_text arg_text param_value param_holds] in *.
  - specialize (Hok _ eq_refl). cbn [snd arg_ok] in Hok. unfold holds in Hh.
    pose proof (digit_head n m a 0 [] Hok Hh) as Hd. unfold check_param.
    assert (48 <= load_char m a <= 57) as Hc.
    { unfold isdigit, Printf.isdigit in Hd. destruct ((48 <=? load_char m a) && (load_char m a <=? 57)) eqn:E; [lia | discriminate]. }
    rewrite while_done by (rewrite Z.add_0_r; lia). rewrite bind_ok, Z.add_0_r. replace (load_char m a =? 34) with false by lia.
    pose proof (dec_le_length 8 n). destruct (dec_text_spec n Hok) as (_ & _ & Hlen).
    rewrite skip_atoi_printf, (skip_atoi_spec n fuel m a 0 []) by (assumption || lia || reflexivity). rewrite !bind_ok. cbn [fst].
    rewrite u32_small by lia. exists m. split_and!; [reflexivity | apply same_but_refl | exact I].
  - specialize (Hok _ eq_refl). destruct Hok as (Hl & Hne & Hlen). now apply check_param_string.
  - unfold holds in Hh. cbn [app] in Hh. unfold check_param.
    rewrite while_done by (rewrite Z.add_0_r, (load_char_at _ _ _ _ Hh) by lia; reflexivity). rewrite bind_ok, Z.add_0_r.
    rewrite (load_char_at _ _ _ _ Hh) by lia. cbn [Z.eqb]. unfold Shell.skip_atoi.
    rewrite while_done by (rewrite (load_char_at _ _ _ _ Hh) by lia; reflexivity). exists m.
    split_and!; [reflexivity | apply same_but_refl | exact I].
Qed.

Lemma part_at_param args j : part_at (line_parts args) j = param_text (args !! j).
Proof.
  unfold part_at. destruct args as [|p args].
  - destruct j as [|j]; reflexivity.
  - cbn [line_parts]. unfold arg_parts. rewrite list_lookup_fmap. destruct ((p :: args) !! j) as [[k a]|]; reflexivity.
Qed.

Lemma param_text_length o : (forall p, o = Some p -> arg_ok p.2) -> (length (param_text o) <= 255)%nat.
Proof.
  intros Hok. destruct o as [[k a]|]; [|simpl; lia]. destruct (arg_text_ok a (Hok _ eq_refl)) as [(_ & Hl & _) _]. exact Hl.
Qed.

Lemma param_holds_same m m' a b o : (forall p, o = Some p -> arg_ok p.2) -> apart a 256 b 256 -> same_but b 256 m m' ->
  param_holds m a o -> param_holds m' a o.
Proof.
  intros Hok Ha Hfr Hh. destruct o as [[k [n|l]]|]; [exact I | | exact I]. cbn [param_holds] in *.
  destruct (Hok _ eq_refl) as (_ & _ & Hl). cbn [snd] in *. unfold apart in Ha.
  eapply cstring_frame; [exact Hfr | lia | exact Hh].
Qed.

Lemma same_outside_but bs m m' b : b ∈ bs -> same_but b 256 m m' -> same_outside bs m m'.
Proof. intros Hb H x Hx. apply H. now apply Hx. Qed.

Lemma same_outside_trans bs m1 m2 m3 : same_outside bs m1 m2 -> same_outside bs m2 m3 -> same_outside bs m1 m3.
Proof. intros H1 H2 x Hx. rewrite H2, H1 by exact Hx. reflexivity. Qed.

(** The three calls of [check_param]. *)
Lemma check_params_spec fuel m a1 a2 a3 (o1 o2 o3 : option (nat * arg)) :
  (256 <= fuel)%nat -> apart a1 256 a2 256 -> apart a1 256 a3 256 -> apart a2 256 a3 256 ->
  Forall (fun a => 0 <= a < 0xFFFFFF00) [a1; a2; a3] -> Forall (fun o => forall p, o = Some p -> arg_ok p.2) [o1; o2; o3] ->
  holds m a1 (param_text o1) -> holds m a2 (param_text o2) -> holds m a3 (param_text o3) ->
  exists m1 m2 m3, check_param fuel m a1 = Ok (m1, param_value a1 o1) /\ check_param fuel m1 a2 = Ok (m2, param_value a2 o2) /\
    check_param fuel m2 a3 = Ok (m3, param_value a3 o3) /\
    param_holds m3 a1 o1 /\ param_holds m3 a2 o2 /\ param_holds m3 a3 o3 /\
    same_but a1 256 m m1 /\ same_but a2 256 m1 m2 /\ same_but a3 256 m2 m3.
Proof.
  intros Hf A12 A13 A23 Hr Ho H1 H2 H3. repeat (apply Forall_cons in Hr as [? Hr]). repeat (apply Forall_cons in Ho as [? Ho]).
  assert (forall a b, apart a 256 b 256 -> apart b 256 a 256) as Hsym by (unfold apart; lia).
  destruct (check_param_spec fuel m a1 o1) as (m1 & E1 & F1 & P1); try assumption.
  destruct (check_param_spec fuel m1 a2 o2) as (m2 & E2 & F2 & P2); try assumption.
  { eapply holds_same; [now apply param_text_length | apply Hsym, A12 | exact F1 | exact H2]. }
  destruct (check_param_spec fuel m2 a3 o3) as (m3 & E3 & F3 & P3); try assumption.
  { eapply holds_same; [now apply param_text_length | apply Hsym, A23 | exact F2 |].
    eapply holds_same; [now apply param_text_length | apply Hsym, A13 | exact F1 | exact H3]. }
  exists m1, m2, m3. split_and!; try assumption.
  - eapply param_holds_same; [assumption | exact A13 | exact F3 |].
    eapply param_holds_same; [assumption | exact A12 | exact F2 | exact P1].
  - eapply param_holds_same; [assumption | exact A23 | exact F3 | exact P2].
Qed.

(** ** Theorems *)

(** [parse_command_and_run] on a line [name(arg, arg, arg)] with at most three
    arguments terminates in the call of [find_symbol_and_run] for the name in
    the command buffer and the values of the arguments: a number, the address
    of a string that is there, 0 for an argument that is missing.  No memory
    but the four buffers is changed before the call. *)
Theorem shell_calls_function {D : Type} `{PortDevice D} (call : Z -> list Z -> mem -> D -> outcome (mem * D))
    (fuel : nat) (data_end : Z) (fr : frame) (input : Z) (k : nat) (name : list Z) (args : list (nat * arg)) (m : mem) (d : D) :
  line_ok fuel k name args -> (256 <= fuel)%nat ->
  frame_ok fr input (Z.of_nat (length (line_text k name args)) + 1) -> cstring m input (line_text k name args) ->
  exists m',
    let m0 := clear_frame_buffers fr m in
    parse_command_and_run call fuel data_end fr input m d =
      (r ← find_symbol_and_run call fuel (symbol_table_of data_end) (str_table_of m0 data_end) (symnum_of m0 data_end)
             (f_command fr) (param_value (f_param1 fr) (args !! 0%nat)) (param_value (f_param2 fr) (args !! 1%nat))
             (param_value (f_param3 fr) (args !! 2%nat)) m' d;
       Ok (r.1.2, r.2)) /\
    cstring m' (f_command fr) name /\ param_holds m' (f_param1 fr) (args !! 0%nat) /\
    param_holds m' (f_param2 fr) (args !! 1%nat) /\ param_holds m' (f_param3 fr) (args !! 2%nat) /\
    same_outside (buffers fr) m m'.
Proof.
  intros Hok Hf Hfr Hs. pose proof Hfr as [Hpw Hin]. cbv zeta.
  destruct (clear_frame_buffers_spec fr m Hpw) as [Hz Hsame0]. unfold parse_command_and_run.
  set (m0 := clear_frame_buffers fr m) in *. clearbody m0.
  assert (cstring m0 input (line_text k name args)) as Hs0.
  { destruct Hs as [Hb Hnz]. split; [|exact Hnz]. rewrite bytes_at_lookup in Hb |- *. intros i x Hi.
    rewrite Hsame0; [exact (Hb _ _ Hi)|]. intros a Ha. destruct (Hin a Ha) as [_ Hap].
    apply lookup_lt_Some in Hi. rewrite length_app in Hi. cbn [length] in Hi. unfold apart in Hap. lia. }
  destruct (parse_line_spec fuel fr input k name args m0 Hok Hfr Hs0 Hz) as (m1 & st & E1 & Hc & Hp & Hsame1).
  rewrite E1, bind_ok. cbn [fst].
  pose proof (Hp 0%nat _ eq_refl) as H1. pose proof (Hp 1%nat _ eq_refl) as H2. pose proof (Hp 2%nat _ eq_refl) as H3.
  rewrite part_at_param in H1, H2, H3.
  assert (forall j p, args !! j = Some p -> arg_ok p.2) as Hargs.
  { destruct Hok as (_ & _ & _ & Ha). intros j p Hj. now destruct (Forall_lookup_1 _ _ _ _ Ha Hj). }
  assert (forall a, a ∈ buffers fr -> 0 <= a < 0xFFFFFF00) as Hr by (intros a Ha; now destruct (Hin a Ha)).
  destruct (check_params_spec fuel m1 (f_param1 fr) (f_param2 fr) (f_param3 fr) (args !! 0%nat) (args !! 1%nat) (args !! 2%nat))
    as (m2 & m3 & m4 & E2 & E3 & E4 & P1 & P2 & P3 & F2 & F3 & F4); try assumption;
    [exact (Hpw 1%nat 2%nat _ _ eq_refl eq_refl ltac:(lia)) | exact (Hpw 1%nat 3%nat _ _ eq_refl eq_refl ltac:(lia)) |
     exact (Hpw 2%nat 3%nat _ _ eq_refl eq_refl ltac:(lia)) | repeat (constructor; [apply Hr; unfold buffers; rewrite !elem_of_cons; tauto|]); constructor |
     repeat (constructor; [exact (Hargs _)|]); constructor |].
  rewrite E2, bind_ok. cbv iota beta. rewrite E3, bind_ok. cbv iota beta. rewrite E4, bind_ok. cbv iota beta.
  exists m4. split_and!; [reflexivity | | exact P1 | exact P2 | exact P3 |].
  - destruct Hok as ((Hn & Hl & _) & _).
    split; [|eapply Forall_impl; [exact Hn|]; intros x [Hx _]; exact Hx].
    change (holds m4 (f_command fr) name).
    eapply holds_same; [exact Hl | exact (Hpw 0%nat 3%nat _ _ eq_refl eq_refl ltac:(lia)) | exact F4 |].
    eapply holds_same; [exact Hl | exact (Hpw 0%nat 2%nat _ _ eq_refl eq_refl ltac:(lia)) | exact F3 |].
    eapply holds_same; [exact Hl | exact (Hpw 0%nat 1%nat _ _ eq_refl eq_refl ltac:(lia)) | exact F2 | exact Hc].
  - eapply same_outside_trans; [exact Hsame0|]. eapply same_outside_trans; [exact Hsame1|].
    eapply same_outside_trans; [eapply same_outside_but; [|exact F2]; unfold buffers; rewrite !elem_of_cons; tauto|].
    eapply same_outside_trans; [eapply same_outside_but; [|exact F3]; unfold buffers; rewrite !elem_of_cons; tauto|].
    eapply same_outside_but; [|exact F4]; unfold buffers; rewrite !elem_of_cons; tauto.
Qed.

(** The line [f(7, "ab")]. *)
Definition sample_args : list (nat * arg) := [(0%nat, Num 7); (1%nat, Str [97; 98])].

Definition sample_frame : frame := mk_frame 0x1000 0x1100 0x1200 0x1300.

Definition sample_line : mem := store_bytes ∅ 0x100 (line_text 0 [102] sample_args ++ [0]).

Lemma sample_frame_ok : frame_ok sample_frame 0x100 11.
Proof.
  split.
  - intros i j a b Hi Hj Hne. unfold apart.
    destruct i as [|[|[|[|i]]]]; simpl in Hi; try discriminate; injection Hi as <-;
      destruct j as [|[|[|[|j]]]]; simpl in Hj; try discriminate; injection Hj as <-; lia.
  - intros a Ha. unfold buffers, apart in *. rewrite !elem_of_cons in Ha.
    destruct Ha as [->|[->|[->|[->|Ha]]]]; [simpl; lia | simpl; lia | simpl; lia | simpl; lia | now apply not_elem_of_nil in Ha].
Qed.

Lemma shell_calls_function_witness :
  exists m', parse_command_and_run (D := crtc_device) (fun f args m d => Ok (m, d)) 256 0x8000 sample_frame 0x100 sample_line (mk_crtc 0 0 0) =
    (r ← find_symbol_and_run (fun f args m d => Ok (m, d)) 256 (symbol_table_of 0x8000)
       (str_table_of (clear_frame_buffers sample_frame sample_line) 0x8000)
       (symnum_of (clear_frame_buffers sample_frame sample_line) 0x8000) 0x1000 7 0x1201 0 m' (mk_crtc 0 0 0);
     Ok (r.1.2, r.2)) /\ cstring m' 0x1201 [97; 98].
Proof.
  destruct (shell_calls_function (D := crtc_device) (fun f args m d => Ok (m, d)) 256 0x8000 sample_frame 0x100 0 [102] sample_args
    sample_line (mk_crtc 0 0 0)) as (m' & E & _ & _ & Hp & _).
  - split_and!; [split_and!; [repeat constructor; lia | simpl; lia | discriminate] | lia | simpl; lia |].
    repeat constructor; simpl; try lia; discriminate.
  - lia.
  - exact sample_frame_ok.
  - split; [vm_compute; reflexivity | repeat constructor; simpl; lia].
  - exists m'. split; [exact E | exact Hp].
Defined.

(** [check_param] on the empty string in quotes takes the first character
    after the opening quote for part of the text: it goes on to the next quote
    in memory, however far away, and overwrites that. *)
Theorem empty_string_overruns (fuel : nat) (m : mem) (a : Z) (l : list Z) :
  bytes_at m a ([34; 34] ++ l ++ [34]) -> Forall (fun c => 0 <= c < 0x100 /\ c <> 34) l -> (length l <= fuel)%nat ->
  0 <= a < 0xFFFFFF00 ->
  check_param fuel m a = Ok (store8 m (a + 2 + Z.of_nat (length l)) 0, a + 1).
Proof.
  intros Hb Hl Hf Ha. unfold check_param. cbn [app] in Hb.
  rewrite while_done by (rewrite Z.add_0_r, (load_char_at _ _ _ _ Hb) by lia; reflexivity). rewrite bind_ok.
  rewrite Z.add_0_r, (load_char_at _ _ _ _ Hb) by lia. cbn [Z.eqb Pos.eqb].
  apply bytes_at_cons in Hb as [_ Hb]. apply bytes_at_cons in Hb as [_ Hb].
  rewrite (quote_loop l fuel m (a + 1) (0 + 1)); [| exact Hb | exact Hl | exact Hf]. rewrite bind_ok, u32_small by lia.
  do 3 f_equal. lia.
Qed.

Lemma empty_string_overruns_witness :
  check_param 300 (store8 (store_bytes ∅ 0x1100 [34; 34]) 0x1200 34) 0x1100 =
  Ok (store8 (store8 (store_bytes ∅ 0x1100 [34; 34]) 0x1200 34) 0x1200 0, 0x1101).
Proof.
  apply (empty_string_overruns 300 _ 0x1100 (replicate 254 0)); [vm_compute; reflexivity | | rewrite length_replicate; lia | lia].
  apply Forall_replicate. lia.
Defined.
