(* ===== verification/Keyboard.v ===== *)
(** * drivers/keyboard.c: the keyboard interrupt

    [keyboard_callback] edits the line in [key_buffer] and hands it to the
    shell on Enter.  The two static flags are the record [keys]; the address of
    [key_buffer] and of the two-byte string on the stack are [key_buffer] and
    [str]. *)

From S2P Require Import Prelude Memory Util Ports Screen Printf Literals Ps2 Symbols Shell.

Definition BACKSPACE : Z := 0x0E.

Definition ENTER : Z := 0x1C.

Definition LEFT_SHIFT : Z := 0x2A.

Definition CAPS_LOCK : Z := 0x3A.

Definition SC_MAX : Z := 58.

Definition REL_KEY_DIFF : Z := 0x80.

Record keys := mk_keys { is_shift_pressed : bool; is_caps_locked : bool }.

Definition sc_ascii_shift : list Z :=
  [63; 63; 33; 64; 35; 36; 37; 94; 38; 42; 40; 41; 95; 43; 63; 63; 81; 87; 69; 82; 84; 89;
   85; 73; 79; 80; 91; 93; 63; 63; 65; 83; 68; 70; 71; 72; 74; 75; 76; 58; 34; 96; 63; 92; 90; 88; 67; 86;
   66; 78; 77; 60; 62; 63; 63; 63; 63; 32; 63; 63].

Definition sc_ascii : list Z :=
  [63; 63; 49; 50; 51; 52; 53; 54; 55; 56; 57; 48; 45; 61; 63; 63; 113; 119; 101; 114; 116; 121;
   117; 105; 111; 112; 123; 125; 63; 63; 97; 115; 100; 102; 103; 104; 106; 107; 108; 59; 39; 96; 63; 92; 122; 120; 99; 118;
   98; 110; 109; 44; 46; 47; 63; 63; 63; 32; 63; 63].

Section Keyboard.
Context {D : Type} `{PortDevice D}.
Context (call : Z -> list Z -> mem -> D -> outcome (mem * D)).
Context (lit : string -> Z) (printf_buf : Z) (cpuid cpuGetMSR : Z -> Z * Z).
Context (fuel : nat) (data_end : Z) (fr : frame) (ac key_buffer str : Z).

(** The part of the handler for a key that is pressed and not shift. *)
Definition key_pressed (scancode : Z) (ks : keys) (m : mem) (d : D) : outcome (keys * mem * D) :=
  if scancode =? CAPS_LOCK then Ok (mk_keys (is_shift_pressed ks) (negb (is_caps_locked ks)), m, d)
  else if scancode =? BACKSPACE then
    m ← backspace fuel m key_buffer;
    let '(m, d) := kprint_backspace m d in
    Ok (ks, m, d)
  else if scancode =? ENTER then
    r ← kprint fuel (lit nl) m d;
    r ← user_input call lit printf_buf cpuid cpuGetMSR fuel data_end fr ac key_buffer r.1 r.2;
    Ok (ks, store8 r.1 key_buffer 0, r.2)
  else
    let ascii_table := if xorb (is_caps_locked ks) (is_shift_pressed ks) then sc_ascii_shift else sc_ascii in
    match ascii_table !! Z.to_nat scancode with
    | Some letter =>
        let m := store8 (store8 m str letter) (str + 1) 0 in
        m ← append fuel m key_buffer letter;
        r ← kprint fuel str m d;
        Ok (ks, r.1, r.2)
    | None => Undef "index"
    end.

Definition keyboard_callback (ks : keys) (m : mem) (d : D) : outcome (keys * mem * D) :=
  let '(scancode, d) := port_byte_in REG_DATA d in
  if REL_KEY_DIFF + SC_MAX <? scancode then Ok (ks, m, d)
  else
    let '(scancode, is_rel_key, ignored) :=
      if REL_KEY_DIFF <=? scancode then (u8 (scancode - REL_KEY_DIFF), true, false)
      else if SC_MAX <? scancode then (scancode, false, true)
      else (scancode, false, false) in
    if (ignored : bool) then Ok (ks, m, d)
    else if scancode =? LEFT_SHIFT then
      Ok (mk_keys (if (is_rel_key : bool) then false else true) (is_caps_locked ks), m, d)
    else if (is_rel_key : bool) then Ok (ks, m, d)
    else key_pressed scancode ks m d.

End Keyboard.

(** ** The line editor

    What a scancode means, and what it does to the flags and the line. *)

Inductive key := KNone | KShift (pressed : bool) | KCaps | KBackspace | KEnter | KChar (index : Z).

Definition decode (scancode : Z) : key :=
  if scancode <? 0x80 then
    if 58 <? scancode then KNone
    else if scancode =? 0x2A then KShift true
    else if scancode =? 0x3A then KCaps
    else if scancode =? 0x0E then KBackspace
    else if scancode =? 0x1C then KEnter
    else KChar scancode
  else if scancode =? 0xAA then KShift false
  else KNone.

(** The character of a key: shift and caps lock cancel each other. *)
Definition letter_of (ks : keys) (index : Z) : Z :=
  nth (Z.to_nat index) (if xorb (is_caps_locked ks) (is_shift_pressed ks) then sc_ascii_shift else sc_ascii) 0.

Definition edit (k : key) (ks : keys) (line : list Z) : keys * list Z :=
  match k with
  | KShift b => (mk_keys b (is_caps_locked ks), line)
  | KCaps => (mk_keys (is_shift_pressed ks) (negb (is_caps_locked ks)), line)
  | KBackspace => (ks, removelast line)
  | KChar i => (ks, line ++ [letter_of ks i])
  | KNone | KEnter => (ks, line)
  end.

(** The keys that the line and the cursor have room for. *)
Definition key_fits (k : key) (line : list Z) (cursor : Z) : Prop :=
  match k with
  | KBackspace => line <> [] /\ 2 <= cursor
  | KChar _ => (length line < 255)%nat
  | KEnter => False
  | _ => True
  end.

Lemma all_letters : forallb (fun l => (0 <? l) && (l <? 0x100)) (sc_ascii ++ sc_ascii_shift) = true.
Proof. vm_compute. reflexivity. Qed.

Lemma letter_of_spec ks i : 0 <= i < 60 ->
  (if xorb (is_caps_locked ks) (is_shift_pressed ks) then sc_ascii_shift else sc_ascii) !! Z.to_nat i = Some (letter_of ks i) /\
  0 < letter_of ks i < 0x100.
Proof.
  intros Hi. unfold letter_of. pose proof all_letters as Hall. rewrite forallb_forall in Hall.
  set (t := if xorb _ _ then sc_ascii_shift else sc_ascii).
  assert (length t = 60%nat) as Hlen by (subst t; destruct (xorb _ _); reflexivity).
  destruct (lookup_lt_is_Some_2 t (Z.to_nat i)) as [l Hl]; [lia|]. rewrite Hl.
  rewrite (nth_lookup_Some t _ 0 l Hl). split; [reflexivity|].
  specialize (Hall l). rewrite andb_true_iff, !Z.ltb_lt in Hall. apply Hall. apply in_or_app.
  apply list_elem_of_lookup_2, list_elem_of_In in Hl. subst t. destruct (xorb _ _); [now right | now left].
Qed.

Section Editor.
Context {D : Type} `{HP : PortDevice D} `{!HasCrtc D}.
Context (call : Z -> list Z -> mem -> D -> outcome (mem * D)).
Context (lit : string -> Z) (printf_buf : Z) (cpuid cpuGetMSR : Z -> Z * Z).
Context (fuel : nat) (data_end : Z) (fr : frame) (ac key_buffer str : Z).

(** The bytes that are set aside for the line: 256 in the source. *)
Context (room : Z).

(** The line is in the buffer, the cursor on the screen. *)
Definition editing (line : list Z) (m : mem) (d : D) : Prop :=
  cstring m key_buffer line /\ Z.of_nat (length line) < room /\ on_screen (cursor d) /\ cursor_bytes d.

(** Nothing but the buffer, the string on the stack and the screen changes. *)
Definition edit_frame (m m' : mem) : Prop :=
  forall x, (x < key_buffer \/ key_buffer + room <= x) -> (x < str \/ str + 2 <= x) ->
    (x < VIDEO_ADDRESS \/ VIDEO_ADDRESS + SCREEN_BYTES <= x) -> load8 m' x = load8 m x.

(** The buffer, the string and the screen are apart. *)
Definition layout_ok : Prop :=
  (key_buffer + room <= str \/ str + 2 <= key_buffer) /\ off_video key_buffer room /\ off_video str 2.

Let press := key_pressed call lit printf_buf cpuid cpuGetMSR fuel data_end fr ac key_buffer str.

Lemma press_backspace ks line m d : room <= Z.of_nat fuel -> layout_ok -> editing line m d -> line <> [] -> 2 <= cursor d ->
  exists m' d', press BACKSPACE ks m d = Ok (ks, m', d') /\ editing (removelast line) m' d' /\ edit_frame m m' /\
    cursor d - 2 <= cursor d' /\ only_screen d d'.
Proof.
  intros Hf (_ & Hv & _) (Hs & Hlen & Ho & Hd) Hne H2. unfold off_video in Hv.
  assert (line = removelast line ++ [List.last line 0]) as E by (now apply app_removelast_last).
  pose proof Hs as Hs'. rewrite E in Hs', Hlen. rewrite length_app in Hlen. cbn [length] in Hlen.
  destruct (backspace_spec fuel m key_buffer _ _ Hs') as (m1 & E1 & Hs1 & Hfr1); [lia|].
  destruct (kprint_backspace_spec m1 d Ho H2 Hd) as (m2 & d2 & E2 & Hc & Hd2 & Hfr2).
  exists m2, d2. split_and!.
  - unfold press, key_pressed. cbn [BACKSPACE CAPS_LOCK Z.eqb Pos.eqb]. rewrite E1, bind_ok, E2. reflexivity.
  - split_and!; [| lia | | exact Hd2].
    + eapply cstring_frame; [exact Hfr2 | lia | exact Hs1].
    + destruct Ho as [Hr He]. destruct Hc as [-> | ->]; [split; [lia | now rewrite Z.even_sub, He] | split; [lia | exact He]].
  - intros x H1 _ H3. rewrite Hfr2 by exact H3. apply Hfr1. lia.
  - lia.
  - exact (kprint_backspace_only _ _ _ _ E2).
Qed.

Lemma press_char ks line m d i : room <= Z.of_nat fuel -> layout_ok -> editing line m d -> Z.of_nat (length line) + 1 < room ->
  0 <= i < 60 -> i <> CAPS_LOCK -> i <> BACKSPACE -> i <> ENTER ->
  exists m' d', press i ks m d = Ok (ks, m', d') /\ editing (line ++ [letter_of ks i]) m' d' /\ edit_frame m m' /\
    cursor d' = settle (advance (cursor d) (letter_of ks i)) /\ only_screen d d'.
Proof.
  intros Hf (Ha & Hv & Hvs) (Hs & Hlen & Ho & Hd) Hlt Hi Hn1 Hn2 Hn3. unfold off_video in *.
  destruct (letter_of_spec ks i Hi) as [Hl Hlr]. set (c := letter_of ks i) in *.
  unfold press, key_pressed. replace (i =? CAPS_LOCK) with false by lia. replace (i =? BACKSPACE) with false by lia.
  replace (i =? ENTER) with false by lia. cbv zeta. rewrite Hl.
  set (m1 := store8 (store8 m str c) (str + 1) 0).
  assert (same_but str 2 m m1) as Hfr1 by (subst m1; eapply same_but_trans; apply same_but_store8; lia).
  assert (cstring m1 str [c]) as Hstr by (apply (cstring_store_bytes m str [c]); repeat constructor; lia). clearbody m1.
  destruct (append_spec fuel m1 key_buffer line c) as (m2 & E2 & Hs2 & Hfr2); [eapply cstring_frame; [exact Hfr1 | lia | exact Hs] | lia | lia |].
  rewrite E2, bind_ok.
  destruct (kprint_spec fuel str [c] m2 d) as (m3 & d3 & E3 & Hc3 & Ho3 & Hd3 & Hfr3 & _);
    [eapply cstring_frame; [exact Hfr2 | simpl; lia | exact Hstr] | exact Hvs | exact Ho | exact Hd | simpl; lia |].
  rewrite E3, bind_ok. exists m3, d3. split_and!; [reflexivity | | | exact Hc3 | exact (kprint_only _ _ _ _ _ _ E3)].
  - split_and!; [| rewrite length_app; cbn [length]; lia | exact Ho3 | exact Hd3].
    eapply cstring_frame; [exact Hfr3 | rewrite length_app; cbn [length]; lia | exact Hs2].
  - intros x H1 H2 H3. rewrite Hfr3 by exact H3. rewrite Hfr2 by lia. apply Hfr1. exact H2.
Qed.

(** The cursor has moved along with the line. *)
Definition moves_with (line line' : list Z) (d d' : D) : Prop :=
  2 + 2 * Z.of_nat (length line) <= cursor d -> 2 + 2 * Z.of_nat (length line') <= cursor d'.

Lemma letter_moves ks i line (d d' : D) : 0 <= i < 60 -> (length line < 255)%nat ->
  cursor d' = settle (advance (cursor d) (letter_of ks i)) -> moves_with line (line ++ [letter_of ks i]) d d'.
Proof.
  intros Hi Hl Hc Hm. rewrite Hc, length_app. cbn [length]. unfold settle, advance, SCREEN_BYTES.
  assert (letter_of ks i <> 10) as Hne.
  { destruct (letter_of_spec ks i Hi) as [Hk _]. apply list_elem_of_lookup_2 in Hk.
    assert (Forall (fun c => c <> 10) (sc_ascii_shift ++ sc_ascii)) as Ha by (apply (bool_decide_unpack _); vm_compute; exact I).
    rewrite Forall_forall in Ha. apply Ha. apply elem_of_app. destruct (xorb _ _); auto. }
  replace (letter_of ks i =? 10) with false by lia. destruct (Z.leb_spec 4000 (cursor d + 2)); lia.
Qed.

Let callback := keyboard_callback call lit printf_buf cpuid cpuGetMSR fuel data_end fr ac key_buffer str.

(** A keyboard interrupt that is not Enter. *)
Lemma callback_edits scancode ks line m d d1 : room = 256 -> (256 <= fuel)%nat -> layout_ok ->
  port_byte_in REG_DATA d = (scancode, d1) -> 0 <= scancode < 0x100 -> editing line m d1 -> key_fits (decode scancode) line (cursor d1) ->
  let e := edit (decode scancode) ks line in
  exists m' d', callback ks m d = Ok (e.1, m', d') /\ editing e.2 m' d' /\ edit_frame m m' /\ moves_with line e.2 d1 d' /\ only_screen d1 d'.
Proof.
  cbv zeta. intros Hroom Hf Hlay Hin Hsc Hed Hfit. unfold callback, keyboard_callback. rewrite Hin.
  assert (forall k : keys, exists m' d', Ok (k, m, d1) = Ok (k, m', d') /\ editing line m' d' /\ edit_frame m m' /\ moves_with line line d1 d' /\ only_screen d1 d')
    as Hsame by (intros k; exists m, d1; split_and!; [reflexivity | exact Hed | intros x _ _ _; reflexivity | intros Hm; exact Hm | apply touches_none]).
  unfold decode, REL_KEY_DIFF, SC_MAX, LEFT_SHIFT in *.
  destruct (scancode <? 0x80) eqn:E80.
  - replace (0x80 + 58 <? scancode) with false by lia. replace (0x80 <=? scancode) with false by lia.
    destruct (58 <? scancode) eqn:E58; [apply Hsame|]. destruct (scancode =? 0x2A) eqn:E2A; [apply Hsame|].
    destruct (scancode =? 0x3A) eqn:E3A; [apply Z.eqb_eq in E3A as ->; apply Hsame|].
    destruct (scancode =? 0x0E) eqn:E0E.
    + apply Z.eqb_eq in E0E as ->. destruct Hfit as [Hne H2].
      destruct (press_backspace ks line m d1) as (m' & d' & E & He & Hfr & Hc & Ho); try (assumption || lia).
      exists m', d'. split_and!; [exact E | exact He | exact Hfr | | exact Ho].
      intros Hm. cbn [edit snd]. rewrite (app_removelast_last 0 Hne), length_app in Hm. cbn [length] in Hm. lia.
    + destruct (scancode =? 0x1C) eqn:E1C; [now destruct Hfit|]. cbn [key_fits] in Hfit.
      destruct (press_char ks line m d1 scancode) as (m' & d' & E & He & Hfr & Hc & Ho); unfold CAPS_LOCK, BACKSPACE, ENTER; try (assumption || lia).
      exists m', d'. split_and!; [exact E | exact He | exact Hfr | apply letter_moves; (assumption || lia) | exact Ho].
  - destruct (0x80 + 58 <? scancode) eqn:Ebig.
    + replace (scancode =? 0xAA) with false by lia. apply Hsame.
    + replace (0x80 <=? scancode) with true by lia. rewrite (u8_small (scancode - 0x80)) by lia.
      replace (scancode - 0x80 =? 0x2A) with (scancode =? 0xAA) by lia.
      destruct (scancode =? 0xAA); apply Hsame.
Qed.

End Editor.

(** ** Theorems *)

(** C16: A keyboard interrupt that is not Enter, with the scancode in the data
    port: the handler returns, the flags and the line in the buffer are those
    of the line editor, the cursor stays on the screen, and no memory but the
    buffer, the echoed string and the screen changes. *)
Theorem keyboard_edits_line {D : Type} `{PortDevice D} `{!HasCrtc D} (call : Z -> list Z -> mem -> D -> outcome (mem * D))
    (lit : string -> Z) (printf_buf : Z) (cpuid cpuGetMSR : Z -> Z * Z) (fuel : nat) (data_end : Z) (fr : frame)
    (ac key_buffer str scancode : Z) (ks : keys) (line : list Z) (m : mem) (d d1 : D) :
  (256 <= fuel)%nat -> layout_ok key_buffer str 256 ->
  port_byte_in REG_DATA d = (scancode, d1) -> 0 <= scancode < 0x100 ->
  editing key_buffer 256 line m d1 -> key_fits (decode scancode) line (cursor d1) ->
  exists m' d',
    keyboard_callback call lit printf_buf cpuid cpuGetMSR fuel data_end fr ac key_buffer str ks m d =
      Ok ((edit (decode scancode) ks line).1, m', d') /\
    editing key_buffer 256 (edit (decode scancode) ks line).2 m' d' /\ edit_frame key_buffer str 256 m m'.
Proof.
  intros Hf Hlay Hin Hsc Hed Hfit.
  destruct (callback_edits call lit printf_buf cpuid cpuGetMSR fuel data_end fr ac key_buffer str 256 scancode ks line m d d1 eq_refl Hf Hlay Hin Hsc Hed Hfit)
    as (m' & d' & E & He & Hfr & _). eauto.
Qed.

(** A machine with a byte in the keyboard's data port and a display. *)
Definition keyed_device : Type := Z * crtc_device.

#[export] Instance keyed_ports : PortDevice keyed_device := {
  dev_in port d := if port =? 0x60 then (d.1, d) else let '(v, c) := dev_in port d.2 in (v, (d.1, c));
  dev_out port v d := (d.1, dev_out port v d.2);
  dev_in_word port d := (0, d);
  dev_out_word port v d := d;
}.

#[export] Instance keyed_crtc : HasCrtc keyed_device.
Proof. refine {| crtc_of := fun d => crtc_of d.2 |}; [reflexivity | intros [v c]; reflexivity]. Defined.

(** "h" in the buffer at 0x1000, the cursor behind a prompt. *)
Definition one_letter : mem := store_bytes ∅ 0x1000 [104; 0].

Definition pressed (scancode : Z) : keyed_device := (scancode, mk_crtc 0 0 5).

Lemma sample_layout n : 0 <= n <= 0x800 -> layout_ok 0x1000 0x2000 n.
Proof. intros Hn. unfold layout_ok, off_video, VIDEO_ADDRESS, SCREEN_BYTES. lia. Qed.

Lemma pressed_on_screen sc : on_screen (cursor (pressed sc)) /\ cursor_bytes (pressed sc).
Proof.
  change (cursor (pressed sc)) with 10. unfold on_screen, SCREEN_BYTES, cursor_bytes.
  change (crtc_of (pressed sc)) with (mk_crtc 0 0 5). cbn [crtc_high crtc_low]. split; [split; [lia | reflexivity] | lia].
Qed.

(** Shift, then the key of "i": the line is "hI". *)
Lemma keyboard_edits_line_witness :
  exists m' d', keyboard_callback (D := keyed_device) (fun _ _ m d => Ok (m, d)) (fun _ => 0) 0x3000 (fun _ => (0, 0)) (fun _ => (0, 0))
    256 0 (mk_frame 0 0 0 0) 0 0x1000 0x2000 (mk_keys true false) one_letter (pressed 23) = Ok (mk_keys true false, m', d') /\
    cstring m' 0x1000 [104; 73].
Proof.
  destruct (pressed_on_screen 23) as [Hs Hb].
  destruct (keyboard_edits_line (D := keyed_device) (fun _ _ m d => Ok (m, d)) (fun _ => 0) 0x3000 (fun _ => (0, 0)) (fun _ => (0, 0))
    256 0 (mk_frame 0 0 0 0) 0 0x1000 0x2000 23 (mk_keys true false) [104] one_letter (pressed 23) (pressed 23))
    as (m' & d' & E & (Hl & _) & _);
    [lia | apply sample_layout; lia | reflexivity | lia |
     split; [split; [vm_compute; reflexivity | repeat constructor; lia] | split; [simpl; lia | split; [exact Hs | exact Hb]]] | simpl; lia |].
  exists m', d'. split; [exact E | exact Hl].
Defined.

(** Neither end of the line is guarded.  Backspace on an empty line clears the
    byte in front of the buffer, and the character after the 255th puts its
    NUL behind the buffer's 256 bytes. *)
Theorem line_leaves_buffer {D : Type} `{PortDevice D} `{!HasCrtc D} (call : Z -> list Z -> mem -> D -> outcome (mem * D))
    (lit : string -> Z) (printf_buf : Z) (cpuid cpuGetMSR : Z -> Z * Z) (fuel : nat) (data_end : Z) (fr : frame)
    (ac key_buffer str scancode : Z) (ks : keys) (line : list Z) (m : mem) (d d1 : D) :
  (257 <= fuel)%nat -> layout_ok key_buffer str 257 -> off_video (key_buffer - 1) 1 ->
  port_byte_in REG_DATA d = (scancode, d1) -> editing key_buffer 257 line m d1 -> 2 <= cursor d1 ->
  let run := keyboard_callback call lit printf_buf cpuid cpuGetMSR fuel data_end fr ac key_buffer str ks m d in
  (scancode = BACKSPACE -> line = [] ->
    exists m' d', run = Ok (ks, m', d') /\ load8 m' (key_buffer - 1) = 0) /\
  (forall i, 0 <= scancode < 0x80 -> decode scancode = KChar i -> length line = 255%nat ->
    exists m' d', run = Ok (ks, m', d') /\ load8 m' (key_buffer + 256) = 0).
Proof.
  intros Hf Hlay Hv1 Hin Hed H2. cbv zeta. unfold keyboard_callback. rewrite Hin.
  unfold REL_KEY_DIFF, SC_MAX, LEFT_SHIFT. split.
  - intros -> ->. cbn [BACKSPACE Z.ltb Z.leb Z.eqb Z.compare Pos.compare Pos.compare_cont Pos.eqb].
    destruct Hed as (Hs & _ & Ho & Hd). unfold key_pressed. cbn [CAPS_LOCK Z.eqb Pos.eqb BACKSPACE].
    unfold backspace. rewrite (strlen_spec fuel m key_buffer [] Hs) by (simpl; lia). rewrite !bind_ok. cbn [length].
    destruct (kprint_backspace_spec (store8 m (key_buffer + 0 - 1) 0) d1 Ho H2 Hd) as (m2 & d2 & E2 & _ & _ & Hfr2).
    change (Z.of_nat 0) with 0. rewrite E2. exists m2, d2. split; [reflexivity|].
    unfold off_video in Hv1. rewrite Hfr2 by lia. replace (key_buffer - 1) with (key_buffer + 0 - 1) by lia. apply load8_store8_eq.
  - intros i Hr Hdec Hlen. unfold decode in Hdec. replace (scancode <? 0x80) with true in Hdec by lia.
    destruct (58 <? scancode) eqn:E58; [discriminate|]. destruct (scancode =? 0x2A) eqn:E2A; [discriminate|].
    destruct (scancode =? 0x3A) eqn:E3A; [discriminate|]. destruct (scancode =? 0x0E) eqn:E0E; [discriminate|].
    destruct (scancode =? 0x1C) eqn:E1C; [discriminate|]. injection Hdec as <-.
    replace (0x80 + 58 <? scancode) with false by lia. replace (0x80 <=? scancode) with false by lia.
    destruct (press_char call lit printf_buf cpuid cpuGetMSR fuel data_end fr ac key_buffer str 257 ks line m d1 scancode)
      as (m' & d' & E & (Hs' & _) & _); unfold CAPS_LOCK, BACKSPACE, ENTER; try (assumption || lia).
    exists m', d'. split; [rewrite E2A; exact E|]. rewrite <- (cstring_nul m' key_buffer _ Hs'). f_equal. rewrite length_app, Hlen. reflexivity.
Qed.

Lemma line_leaves_buffer_witness :
  exists m' d', keyboard_callback (D := keyed_device) (fun _ _ m d => Ok (m, d)) (fun _ => 0) 0x3000 (fun _ => (0, 0)) (fun _ => (0, 0))
    257 0 (mk_frame 0 0 0 0) 0 0x1000 0x2000 (mk_keys false false) (store8 ∅ 0xFFF 7) (pressed BACKSPACE) = Ok (mk_keys false false, m', d') /\
    load8 m' 0xFFF = 0.
Proof.
  destruct (pressed_on_screen BACKSPACE) as [Hs Hb].
  apply (line_leaves_buffer (D := keyed_device) (fun _ _ m d => Ok (m, d)) (fun _ => 0) 0x3000 (fun _ => (0, 0)) (fun _ => (0, 0))
    257 0 (mk_frame 0 0 0 0) 0 0x1000 0x2000 BACKSPACE (mk_keys false false) [] (store8 ∅ 0xFFF 7) (pressed BACKSPACE) (pressed BACKSPACE));
    [lia | apply sample_layout; lia | left; unfold VIDEO_ADDRESS; lia | reflexivity |
     split; [split; [vm_compute; reflexivity | constructor] | split; [simpl; lia | split; [exact Hs | exact Hb]]] |
     change (cursor (pressed BACKSPACE)) with 10; lia | reflexivity | reflexivity].
Defined.
