(* ===== verification/CommandLine.v ===== *)
(** * From the keys to the call

    The keyboard interrupt and the command line together: keys typed on the
    keyboard of the 8042 controller, an interrupt for each, edit the line in
    [key_buffer]; Enter hands it to the shell, which looks up the function in
    the symbol table and calls it.  [written] lists all the memory that this
    may change. *)

From S2P Require Import Prelude Memory Util Ports Interrupts Screen Printf PrintfNumber PrintfProps Literals Ps2 Kbc Console Clock Board Ps2Props Faults.
From S2P Require Import Symbols Shell ShellProps Keyboard.

Definition said : string := "You said: %s " +:+ nl +:+ ">".

Definition shell_texts : list string := [nl; "halt"; "shutdown"; "reboot"; "cpuinfo"; said]%string.

(** ** Typing

    What a sequence of scancodes makes of the flags and the line. *)

Fixpoint typed (scs : list Z) (ks : keys) (line : list Z) : keys * list Z :=
  match scs with
  | [] => (ks, line)
  | sc :: scs => let e := edit (decode sc) ks line in typed scs e.1 e.2
  end.

(** No Enter, no character beyond the 255th, no backspace on an empty line. *)
Definition key_ok (k : key) (line : list Z) : bool :=
  match k with
  | KEnter => false
  | KBackspace => negb (bool_decide (line = []))
  | KChar _ => (length line <? 255)%nat
  | _ => true
  end.

Fixpoint keys_ok (scs : list Z) (ks : keys) (line : list Z) : bool :=
  match scs with
  | [] => true
  | sc :: scs => let e := edit (decode sc) ks line in key_ok (decode sc) line && keys_ok scs e.1 e.2
  end.

(** ** The machine of the keyboard interrupt

    The driver's flags, the memory and the devices. *)

Record keyboard_machine (D : Type) := mk_keyboard_machine { km_keys : keys; km_mem : mem; km_dev : D }.
Arguments mk_keyboard_machine {D}.
Arguments km_keys {D}.
Arguments km_mem {D}.
Arguments km_dev {D}.

#[export] Instance keyboard_machine_ports {D} `{PortDevice D} : PortDevice (keyboard_machine D) := {
  dev_in port x := let '(v, d) := dev_in port (km_dev x) in (v, mk_keyboard_machine (km_keys x) (km_mem x) d);
  dev_out port v x := mk_keyboard_machine (km_keys x) (km_mem x) (dev_out port v (km_dev x));
  dev_in_word port x := let '(v, d) := dev_in_word port (km_dev x) in (v, mk_keyboard_machine (km_keys x) (km_mem x) d);
  dev_out_word port v x := mk_keyboard_machine (km_keys x) (km_mem x) (dev_out_word port v (km_dev x));
}.

(** The end of the interrupt of the keyboard's vector, at the controllers. *)
Definition eoi {D : Type} `{PortDevice D} (d : D) : D := PIC_sendEOI 33 d.

Section Written.
Context (lit : string -> Z) (printf_buf : Z) (fuel : nat) (data_end : Z) (fr : frame) (key_buffer str : Z).

(** The memory that the interrupt and the shell write. *)
Definition written : list (Z * Z) :=
  [(key_buffer, 256); (str, 2); (printf_buf, PRINTF_BUF_SIZE); (VIDEO_ADDRESS, SCREEN_BYTES);
   (f_command fr, 256); (f_param1 fr, 256); (f_param2 fr, 256); (f_param3 fr, 256)].

Definition clear_of_written (a n : Z) : Prop := Forall (fun p => apart a n p.1 p.2) written.

Definition only_written (m m' : mem) : Prop := forall x, clear_of_written x 1 -> load8 m' x = load8 m x.

Lemma clear_of a n p : clear_of_written a n -> p ∈ written -> apart a n p.1 p.2.
Proof. unfold clear_of_written. rewrite Forall_forall. auto. Qed.

(** The areas are apart, the literals are clear of them, and the addresses of
    the buffers are addresses. *)
Record layout : Prop := {
  la_apart : forall i j p q, written !! i = Some p -> written !! j = Some q -> i <> j -> apart p.1 p.2 q.1 q.2;
  la_literals : Forall (fun s => clear_of_written (lit s) (Z.of_nat (length (str_bytes s)) + 1)) shell_texts;
  la_frame : Forall (fun a => 0 <= a < 0xFFFFFF00) (buffers fr);
  la_line : 0 <= key_buffer < 0x100000000;
  la_fuel : (1024 <= fuel)%nat;
}.

(** The symbols behind the kernel, in [tn] bytes. *)
Record symbols (tn : Z) (names : list (list Z)) (m : mem) : Prop := {
  sy_size : symbol_table_size m data_end = SIZEOF_Elf32_Sym * Z.of_nat (length names);
  sy_room : SIZEOF_symbol_table_header + SIZEOF_Elf32_Sym * Z.of_nat (length names) <= tn;
  sy_name : forall (j : nat) l, names !! j = Some l ->
    let a := str_table_of m data_end + st_name m (symbol_table_of data_end + SIZEOF_Elf32_Sym * Z.of_nat j) in
    cstring m a l /\ data_end <= a /\ a + Z.of_nat (length l) + 1 <= data_end + tn /\ (length l <= fuel)%nat;
}.

Lemma only_written_trans m1 m2 m3 : only_written m1 m2 -> only_written m2 m3 -> only_written m1 m3.
Proof. intros H1 H2 x Hx. rewrite H2, H1; auto. Qed.

Lemma only_written_area p m m' : p ∈ written -> same_but p.1 p.2 m m' -> only_written m m'.
Proof.
  intros Hp Hs x Hx. pose proof (clear_of _ _ _ Hx Hp) as Ha. unfold apart in Ha. apply Hs. lia.
Qed.

(** What is clear of [written] is kept. *)
Lemma kept_byte a n m m' x : clear_of_written a n -> only_written m m' -> a <= x < a + n -> load8 m' x = load8 m x.
Proof.
  intros Hc Hw Hx. apply Hw. apply (Forall_impl _ _ _ Hc). intros p. unfold apart. lia.
Qed.

Lemma kept_string a l m m' : clear_of_written a (Z.of_nat (length l) + 1) -> only_written m m' -> cstring m a l -> cstring m' a l.
Proof.
  intros Hc Hw [Hb Hn]. split; [|exact Hn]. rewrite bytes_at_lookup in *. intros i x Hi. rewrite <- (Hb i x Hi).
  pose proof (lookup_lt_Some _ _ _ Hi) as Hlt. rewrite length_app in Hlt. cbn [length] in Hlt. eapply kept_byte; [exact Hc | exact Hw | lia].
Qed.

(** An edit changes only what is written. *)
Lemma edit_frame_written m m' : edit_frame key_buffer str 256 m m' -> only_written m m'.
Proof.
  intros H x Hx. unfold clear_of_written, written in Hx. repeat (apply Forall_cons in Hx as [? Hx]). unfold apart in *. cbn [fst snd] in *.
  apply H; lia.
Qed.

Lemma buffers_written m m' : same_outside (buffers fr) m m' -> only_written m m'.
Proof.
  intros H x Hx. apply H. intros a Ha.
  assert ((a, 256) ∈ written) as Hw.
  { unfold buffers in Ha. rewrite !elem_of_cons, elem_of_nil in Ha. unfold written. rewrite !elem_of_cons.
    destruct Ha as [->|[->|[->|[->|[]]]]]; tauto. }
  pose proof (clear_of _ _ _ Hx Hw) as Hap. unfold apart in Hap. cbn [fst snd] in Hap. lia.
Qed.

(** The symbol table is kept. *)
Lemma symbols_kept tn names m m' : clear_of_written data_end tn -> only_written m m' -> symbols tn names m ->
  symbols tn names m' /\ str_table_of m' data_end = str_table_of m data_end /\ symnum_of m' data_end = Z.of_nat (length names) /\
  (forall j, (j < length names)%nat -> let a := symbol_table_of data_end + SIZEOF_Elf32_Sym * Z.of_nat j in
     st_value m' a = st_value m a /\ st_name m' a = st_name m a).
Proof.
  intros Hc Hw [Hs Hr Hn]. unfold symbol_table_of, symnum_of, SIZEOF_symbol_table_header, SIZEOF_Elf32_Sym in Hs, Hr, Hn |- *.
  assert (forall b, data_end <= b -> b + 4 <= data_end + tn -> load32 m' b = load32 m b) as H32.
  { intros b Hb1 Hb2. unfold load32. rewrite !(kept_byte data_end tn m m' _ Hc Hw) by lia. reflexivity. }
  assert (symbol_table_size m' data_end = symbol_table_size m data_end) as Es by (unfold symbol_table_size; apply H32; lia).
  assert (str_table_of m' data_end = str_table_of m data_end) as Est by (unfold str_table_of; now rewrite Es).
  assert (forall j, (j < length names)%nat -> st_value m' (data_end + 8 + 16 * Z.of_nat j) = st_value m (data_end + 8 + 16 * Z.of_nat j) /\
    st_name m' (data_end + 8 + 16 * Z.of_nat j) = st_name m (data_end + 8 + 16 * Z.of_nat j)) as Hv
    by (intros j Hj; unfold st_value, st_name; split; apply H32; lia).
  split_and!; [| exact Est | rewrite Es, Hs; zlia | exact Hv].
  split; [now rewrite Es | exact Hr |]. intros j l Hj. pose proof (lookup_lt_Some _ _ _ Hj) as Hlt. cbv zeta.
  unfold symbol_table_of, SIZEOF_symbol_table_header, SIZEOF_Elf32_Sym. rewrite Est, (proj2 (Hv j Hlt)). destruct (Hn j l Hj) as (H1 & H2 & H3 & H4). split_and!; try assumption.
  apply (kept_string _ _ m); [|exact Hw | exact H1]. apply (Forall_impl _ _ _ Hc). intros p. unfold apart. lia.
Qed.

Context (HL : layout).

Lemma placed_kept m m' : only_written m m' -> placed lit m shell_texts -> placed lit m' shell_texts.
Proof.
  unfold placed. rewrite !Forall_forall. intros Hw Hp s Hs. pose proof (la_literals HL) as Hl. rewrite Forall_forall in Hl.
  exact (kept_string _ _ _ _ (Hl s Hs) Hw (Hp s Hs)).
Qed.

Lemma layout_editor : layout_ok key_buffer str 256.
Proof.
  pose proof (la_apart HL 0%nat 1%nat _ _ eq_refl eq_refl ltac:(lia)). pose proof (la_apart HL 0%nat 3%nat _ _ eq_refl eq_refl ltac:(lia)).
  pose proof (la_apart HL 1%nat 3%nat _ _ eq_refl eq_refl ltac:(lia)). unfold layout_ok, off_video, apart in *. cbn [fst snd] in *. tauto.
Qed.

Lemma layout_frame n : n <= 256 -> frame_ok fr key_buffer n.
Proof.
  intros Hn. split.
  - intros i j a b Hi Hj Hne.
    assert (forall i a, buffers fr !! i = Some a -> written !! (4 + i)%nat = Some (a, 256)) as Hw
      by (intros [|[|[|[|i']]]] a'; cbn; (discriminate || (intros [= <-]; reflexivity))).
    exact (la_apart HL _ _ _ _ (Hw i a Hi) (Hw j b Hj) ltac:(lia)).
  - intros a Ha. pose proof (la_frame HL) as Hf. rewrite Forall_forall in Hf. split; [exact (Hf a Ha)|].
    assert (exists j, written !! S j = Some (a, 256)) as [j Hj].
    { apply list_elem_of_lookup in Ha as [i Hi]. exists (3 + i)%nat. destruct i as [|[|[|[|i]]]]; cbn in Hi |- *; (discriminate || (injection Hi as <-; reflexivity)). }
    pose proof (la_apart HL (S j) 0%nat _ _ Hj eq_refl ltac:(lia)) as H. unfold apart in *. cbn [fst snd] in H. lia.
Qed.

(** A step that changes one area other than the line. *)
Lemma line_kept line i p m m' : (length line <= 255)%nat -> written !! S i = Some p -> same_but p.1 p.2 m m' ->
  cstring m key_buffer line -> cstring m' key_buffer line.
Proof.
  intros Hl Hp Hs. apply (cstring_frame p.1 p.2); [exact Hs|]. pose proof (la_apart HL 0%nat (S i) _ _ eq_refl Hp ltac:(lia)) as H.
  unfold apart in H. cbn [fst snd] in H. lia.
Qed.

End Written.

Arguments la_apart {lit printf_buf fuel fr key_buffer str} _.
Arguments la_literals {lit printf_buf fuel fr key_buffer str} _.
Arguments la_frame {lit printf_buf fuel fr key_buffer str} _.
Arguments la_line {lit printf_buf fuel fr key_buffer str} _.
Arguments la_fuel {lit printf_buf fuel fr key_buffer str} _.
Arguments clear_of {printf_buf fr key_buffer str}.
Arguments only_written_trans {printf_buf fr key_buffer str}.
Arguments only_written_area {printf_buf fr key_buffer str}.
Arguments edit_frame_written {printf_buf fr key_buffer str}.
Arguments buffers_written {printf_buf fr key_buffer str}.
Arguments symbols_kept {printf_buf fuel data_end fr key_buffer str}.
Arguments placed_kept {lit printf_buf fuel fr key_buffer str} _.
Arguments layout_editor {lit printf_buf fuel fr key_buffer str} _.
Arguments layout_frame {lit printf_buf fuel fr key_buffer str} _.
Arguments line_kept {lit printf_buf fuel fr key_buffer str} _.

Section CommandLine.
Context {D : Type} `{HP : PortDevice D} `{!HasCrtc D} `{!HasKbc D} `{!Unread kbd_ins (crtc_of (D := D))}.
Context (call : Z -> list Z -> mem -> D -> outcome (mem * D)).
Context (lit : string -> Z) (printf_buf : Z) (cpuid cpuGetMSR : Z -> Z * Z).
Context (fuel : nat) (data_end : Z) (fr : frame) (ac key_buffer str : Z).

Let written := written printf_buf fr key_buffer str.
Let clear_of_written := clear_of_written printf_buf fr key_buffer str.
Let only_written := only_written printf_buf fr key_buffer str.
Let symbols := symbols fuel data_end.
Context (HL : layout lit printf_buf fuel fr key_buffer str).

Let callback := keyboard_callback call lit printf_buf cpuid cpuGetMSR fuel data_end fr ac key_buffer str.

(** The handlers: the keyboard's is the driver's. *)
Context (other : isr_t -> registers_t -> keyboard_machine D -> outcome (registers_t * keyboard_machine D)).

Definition run_keyboard (h : isr_t) (regs : registers_t) (x : keyboard_machine D) : outcome (registers_t * keyboard_machine D) :=
  match h with
  | keyboard_callback_isr => r ← callback (km_keys x) (km_mem x) (km_dev x); Ok (regs, mk_keyboard_machine r.1.1 r.1.2 r.2)
  | _ => other h regs x
  end.

Context (hs : list (option isr_t)) (regs : registers_t).

(** The interrupts of [n] keys, one after the other. *)
Fixpoint key_interrupts (n : nat) (x : keyboard_machine D) : outcome (keyboard_machine D) :=
  match n with
  | O => Ok x
  | S n => r ← irq_handler run_keyboard hs regs x; key_interrupts n r.2
  end.

Context (Hhs : hs !! 33%nat = Some (Some keyboard_callback_isr)) (Hregs : r_int_no regs = 33).

Lemma key_interrupt n ks m d : key_interrupts (S n) (mk_keyboard_machine ks m d) =
  (r ← callback ks m (eoi d); key_interrupts n (mk_keyboard_machine r.1.1 r.1.2 r.2)).
Proof.
  cbn [key_interrupts]. unfold irq_handler. rewrite Hregs. change (Z.to_nat 33) with 33%nat. rewrite Hhs. unfold run_keyboard.
  change (PIC_sendEOI (u8 33) (mk_keyboard_machine ks m d)) with (mk_keyboard_machine ks m (eoi d)). cbn [km_keys km_mem km_dev].
  destruct (callback ks m (eoi d)) as [r| | |]; reflexivity.
Qed.

Lemma eoi_apart d : kbc_of (eoi d) = kbc_of d /\ crtc_of (eoi d) = crtc_of d.
Proof. unfold eoi, PIC_sendEOI, port_byte_out. cbn [Z.leb Z.compare Pos.compare Pos.compare_cont]. now rewrite kbc_out, crtc_out. Qed.

(** The scancode of an interrupt, and the keyboard's ports leave the console. *)
Lemma next_scancode d sc q : kbc_queue (kbc_of d) = sc :: q -> 0 <= sc < 0x100 ->
  exists d1, port_byte_in REG_DATA d = (sc, d1) /\ kbc_queue (kbc_of d1) = q /\ crtc_of d1 = crtc_of d.
Proof.
  intros Hq Hsc. destruct (read_step d) as (d1 & E & Hs). unfold kbc_read in *. rewrite Hq in *. cbn [fst snd] in *.
  rewrite u8_small in E by exact Hsc. exists d1. split_and!; [exact E | rewrite (proj1 Hs); reflexivity | exact (kbc_step_crtc _ _ _ Hs)].
Qed.

Lemma editing_crtc line m (d d1 : D) : crtc_of d1 = crtc_of d -> editing key_buffer 256 line m d -> editing key_buffer 256 line m d1 /\ cursor d1 = cursor d.
Proof.
  intros Hc (H1 & H2 & H3 & H4). assert (cursor d1 = cursor d) as Hcur by (unfold cursor; now rewrite Hc). unfold editing, cursor_bytes in *.
  rewrite Hcur, Hc. auto.
Qed.

Lemma key_fits_of k line c : key_ok k line = true -> 2 + 2 * Z.of_nat (length line) <= c -> key_fits k line c.
Proof.
  destruct k; cbn; intros H Hc; try exact I; try discriminate; [|apply Nat.leb_le in H; lia].
  apply negb_true_iff, bool_decide_eq_false in H. split; [exact H|]. lia.
Qed.

(** The interrupt up to the read of the scancode. *)
Lemma interrupt_scancode d sc q : kbc_queue (kbc_of d) = sc :: q -> 0 <= sc < 0x100 ->
  exists d1, port_byte_in REG_DATA (eoi d) = (sc, d1) /\ kbc_queue (kbc_of d1) = q /\ crtc_of d1 = crtc_of d.
Proof.
  destruct (eoi_apart d) as [Ek Ec]. intros Hq Hsc. destruct (next_scancode (eoi d) sc q) as (d1 & E & Hq1 & Hc); [now rewrite Ek | exact Hsc |].
  exists d1. rewrite Hc, Ec. auto.
Qed.

(** The keys before Enter. *)
Lemma typing scs : forall q ks line m d, Forall is_byte scs -> keys_ok scs ks line = true -> kbc_queue (kbc_of d) = scs ++ q ->
  editing key_buffer 256 line m d -> 2 + 2 * Z.of_nat (length line) <= cursor d ->
  exists m' d', (forall n, key_interrupts (length scs + n) (mk_keyboard_machine ks m d) =
      key_interrupts n (mk_keyboard_machine (typed scs ks line).1 m' d')) /\
    editing key_buffer 256 (typed scs ks line).2 m' d' /\ kbc_queue (kbc_of d') = q /\ only_written m m'.
Proof.
  induction scs as [|sc scs IH]; intros q ks line m d Hb Hok Hq He Hc.
  - exists m, d. split_and!; [reflexivity | exact He | exact Hq | intros x _; reflexivity].
  - apply Forall_cons in Hb as [Hsc Hb]. cbn [keys_ok] in Hok. cbv zeta in Hok. apply andb_prop in Hok as [Hk Hok].
    destruct (interrupt_scancode d sc (scs ++ q) Hq Hsc) as (d1 & E1 & Hq1 & Hc1). destruct (editing_crtc line m d d1 Hc1 He) as [He1 Hcur].
    pose proof (la_fuel HL) as Hf.
    destruct (callback_edits call lit printf_buf cpuid cpuGetMSR fuel data_end fr ac key_buffer str 256 sc ks line m (eoi d) d1 eq_refl ltac:(lia)
      (layout_editor HL) E1 Hsc He1) as (m2 & d2 & E2 & He2 & Hfr2 & Hm2 & Ho2); [apply key_fits_of; [exact Hk | lia]|].
    assert (kbc_queue (kbc_of d2) = scs ++ q) as Hq2
      by (rewrite (only_screen_kbc _ _ Ho2); [exact Hq1 | intros x; now rewrite crtc_in]).
    destruct (IH q _ _ m2 d2 Hb Hok Hq2 He2) as (m' & d' & E' & He' & Hq' & Hw'); [apply Hm2; lia|].
    exists m', d'. split_and!; [| exact He' | exact Hq' | exact (only_written_trans _ _ _ (edit_frame_written _ _ Hfr2) Hw')].
    intros n. cbn [length Nat.add]. rewrite key_interrupt. change (callback ks m (eoi d)) with
      (keyboard_callback call lit printf_buf cpuid cpuGetMSR fuel data_end fr ac key_buffer str ks m (eoi d)). rewrite E2, bind_ok. apply E'.
Qed.

(** ** Enter *)

Lemma said_line line m d : cstring m key_buffer line -> (length line <= 255)%nat -> placed lit m shell_texts ->
  on_screen (cursor d) -> cursor_bytes d ->
  exists m' d', say lit printf_buf fuel said [key_buffer] m d = Ok (m', d') /\ only_written m m' /\ cstring m' key_buffer line /\
    only_screen d d'.
Proof.
  intros Hs Hlen Hp Ho Hb. pose proof (la_fuel HL) as Hf. pose proof (la_line HL) as Hkb.
  set (out := str_bytes "You said: " ++ line ++ str_bytes (" " +:+ nl +:+ ">")).
  assert (length out = (length line + 13)%nat) as Hout by (unfold out; rewrite !length_app; simpl; lia).
  assert (said ∈ shell_texts) as Hin by (apply (bool_decide_unpack _); vm_compute; exact I).
  pose proof (la_literals HL) as Hl. rewrite Forall_forall in Hl. pose proof (Hl _ Hin) as Hcl.
  assert (apart (lit said) 16 printf_buf PRINTF_BUF_SIZE) as Hap
    by exact (clear_of _ _ (printf_buf, PRINTF_BUF_SIZE) Hcl ltac:(right; right; left)).
  pose proof (la_apart HL 0%nat 2%nat _ _ eq_refl eq_refl ltac:(lia)) as A02. pose proof (la_apart HL 2%nat 3%nat _ _ eq_refl eq_refl ltac:(lia)) as A23.
  cbn [fst snd] in A02, A23. unfold apart, PRINTF_BUF_SIZE in Hap, A02, A23.
  destruct (printf_spec (fun a => if a =? key_buffer then Some line else None) fuel m d printf_buf (lit said)
    (lits "You said: " ++ string_piece :: lits (" " +:+ nl +:+ ">")) [key_buffer] out) as (m' & d' & E & _ & _ & _ & _ & Hfr).
  - repeat constructor; vm_compute; (discriminate || auto).
  - exact (placed_in _ _ _ _ Hp Hin).
  - vm_compute format_text. simpl. lia.
  - rewrite render_lits, (render_string _ _ _ line), <- (app_nil_r (lits (" " +:+ nl +:+ ">"))), render_lits
      by (rewrite u32_small, Z.eqb_refl by exact Hkb; reflexivity). cbn. now rewrite app_nil_r.
  - lia.
  - unfold out. rewrite !Forall_app. split_and!; [repeat constructor | apply Hs | repeat constructor].
  - intros a l Ha. destruct (Z.eqb_spec a key_buffer) as [->|]; [|discriminate]. injection Ha as <-.
    split_and!; [exact Hs | lia | unfold apart; lia].
  - change (Z.of_nat (length (format_text _)) + 1) with 16. unfold apart. lia.
  - unfold off_video. lia.
  - exact Ho.
  - exact Hb.
  - lia.
  - assert (same_but printf_buf PRINTF_BUF_SIZE m (store_bytes m printf_buf (out ++ [0]))) as Hst.
    { intros x Hx. unfold PRINTF_BUF_SIZE in Hx. apply load8_store_bytes_out. rewrite length_app. cbn [length]. lia. }
    assert (say lit printf_buf fuel said [key_buffer] m d = Ok (m', d')) as Es by (unfold say; rewrite E; reflexivity).
    exists m', d'. split_and!; [exact Es | | | exact (say_only_screen _ _ _ _ _ _ _ _ _ Es)].
    + apply (only_written_trans _ (store_bytes m printf_buf (out ++ [0]))).
      * apply (only_written_area (printf_buf, PRINTF_BUF_SIZE)); [right; right; left | exact Hst].
      * apply (only_written_area (VIDEO_ADDRESS, SCREEN_BYTES)); [right; right; right; left | exact Hfr].
    + apply (line_kept HL line 2 (VIDEO_ADDRESS, SCREEN_BYTES) _ _ Hlen eq_refl Hfr).
      apply (line_kept HL line 1 (printf_buf, PRINTF_BUF_SIZE) _ _ Hlen eq_refl Hst). exact Hs.
Qed.

(** A line with an opening bracket is not one of the four words. *)
Lemma not_a_word line w m : cstring m key_buffer line -> (length line <= 255)%nat -> 40 ∈ line -> placed lit m shell_texts ->
  w ∈ ["halt"; "shutdown"; "reboot"; "cpuinfo"]%string -> exists c, strcmp fuel m key_buffer (lit w) = Ok c /\ (c =? 0) = false.
Proof.
  intros Hs Hl Hin Hp Hw. pose proof (la_fuel HL) as Hf.
  assert (w ∈ shell_texts /\ 40 ∉ str_bytes w) as [Hw1 Hw2].
  { rewrite !elem_of_cons, elem_of_nil in Hw. destruct Hw as [->|[->|[->|[->|[]]]]]; split; apply (bool_decide_unpack _); vm_compute; exact I. }
  destruct (strcmp_eqb fuel m key_buffer (lit w) line (str_bytes w) Hs (placed_in _ _ _ _ Hp Hw1) ltac:(lia)) as (c & E & Hc).
  exists c. split; [exact E|]. rewrite Hc. apply bool_decide_eq_false. intros ->. contradiction.
Qed.

Lemma user_input_runs line m d : cstring m key_buffer line -> (length line <= 255)%nat -> 40 ∈ line -> placed lit m shell_texts ->
  on_screen (cursor d) -> cursor_bytes d ->
  exists m' d', user_input call lit printf_buf cpuid cpuGetMSR fuel data_end fr ac key_buffer m d =
      parse_command_and_run call fuel data_end fr key_buffer m' d' /\
    only_written m m' /\ cstring m' key_buffer line /\ only_screen d d'.
Proof.
  intros Hs Hl Hin Hp Ho Hb. unfold user_input. pose proof (not_a_word line) as Hw.
  destruct (Hw "halt"%string m Hs Hl Hin Hp ltac:(by left)) as (c1 & -> & E1). rewrite bind_ok, E1.
  destruct (Hw "shutdown"%string m Hs Hl Hin Hp ltac:(by right; left)) as (c2 & -> & E2). rewrite bind_ok, E2.
  destruct (Hw "reboot"%string m Hs Hl Hin Hp ltac:(by right; right; left)) as (c3 & -> & E3). rewrite bind_ok, E3.
  destruct (Hw "cpuinfo"%string m Hs Hl Hin Hp ltac:(by right; right; right; left)) as (c4 & -> & E4). rewrite bind_ok, E4.
  destruct (said_line line m d Hs Hl Hp Ho Hb) as (m' & d' & E & H1 & H2 & H3). fold said. rewrite E, bind_ok. exists m', d'. auto.
Qed.

(** The call of the first symbol with the name. *)
Lemma symbol_call tn names m0 m d name j (ps : list Z) : let v := st_value m (symbol_table_of data_end + SIZEOF_Elf32_Sym * Z.of_nat j) in
  symbols tn names m -> str_table_of m0 data_end = str_table_of m data_end -> symnum_of m0 data_end = Z.of_nat (length names) ->
  cstring m (f_command fr) name -> names !! j = Some name -> (forall i, (i < j)%nat -> names !! i <> Some name) -> v <> 0 ->
  find_symbol_from call fuel (Z.to_nat (symnum_of m0 data_end)) (symbol_table_of data_end) (str_table_of m0 data_end) 0 (f_command fr) ps m d =
    (r ← call v ps m d; Ok (true, r.1, r.2)).
Proof.
  cbv zeta. intros [_ _ Hn] Est Esn Hname Hj Hfirst Hv. rewrite Est, Esn, Nat2Z.id.
  rewrite (find_symbol_from_spec call fuel _ _ (f_command fr) name ps m d names Hname 0); [| lia | |].
  - replace (list_find (fun l => l = name) names) with (Some (j, name)); [cbv zeta; rewrite Z.add_0_l; now apply Z.eqb_neq in Hv as -> |].
    symmetry. apply list_find_Some. split_and!; [exact Hj | reflexivity | intros i y Hi Hlt ->; now apply (Hfirst i Hlt)].
  - intros i l Hi. rewrite Z.add_0_l. apply (Hn i l Hi).
  - apply Forall_lookup. intros i l Hi. apply (Hn i l Hi).
Qed.

(** Enter on the line of a command. *)
Lemma enter_calls tn names q ks k name args j m d : let v := st_value m (symbol_table_of data_end + SIZEOF_Elf32_Sym * Z.of_nat j) in
  clear_of_written data_end tn -> symbols tn names m -> placed lit m shell_texts -> editing key_buffer 256 (line_text k name args) m d ->
  kbc_queue (kbc_of d) = ENTER :: q -> line_ok fuel k name args ->
  names !! j = Some name -> (forall i, (i < j)%nat -> names !! i <> Some name) -> v <> 0 ->
  exists m' d', callback ks m (eoi d) =
      (r ← call v [param_value (f_param1 fr) (args !! 0%nat); param_value (f_param2 fr) (args !! 1%nat); param_value (f_param3 fr) (args !! 2%nat)] m' d';
       Ok (ks, store8 r.1 key_buffer 0, r.2)) /\
    param_holds m' (f_param1 fr) (args !! 0%nat) /\ param_holds m' (f_param2 fr) (args !! 1%nat) /\ param_holds m' (f_param3 fr) (args !! 2%nat) /\
    only_written m m' /\ kbc_queue (kbc_of d') = q.
Proof.
  cbv zeta. intros Hct Hsy Hp He Hq Hok Hj Hfirst Hv. set (line := line_text k name args) in *.
  destruct (interrupt_scancode d ENTER q Hq ltac:(unfold ENTER; lia)) as (d1 & E1 & Hq1 & Hc1).
  destruct (editing_crtc line m d d1 Hc1 He) as [(Hs & Hlen & Ho & Hb) _]. pose proof (la_fuel HL) as Hf.
  pose proof (la_literals HL) as Hl. rewrite Forall_forall in Hl. assert (nl ∈ shell_texts) as Hnl by left.
  destruct (kprint_spec fuel (lit nl) (str_bytes nl) m d1 (placed_in _ _ _ _ Hp Hnl)) as (m2 & d2 & E2 & _ & Ho2 & Hb2 & Hfr2 & _);
    [| exact Ho | exact Hb | simpl; lia |].
  { exact (clear_of _ _ (VIDEO_ADDRESS, SCREEN_BYTES) (Hl _ Hnl) ltac:(right; right; right; left)). }
  assert (only_written m m2) as W2 by (apply (only_written_area (VIDEO_ADDRESS, SCREEN_BYTES)); [right; right; right; left | exact Hfr2]).
  pose proof (line_kept HL line 2 _ _ _ ltac:(lia) eq_refl Hfr2 Hs) as Hs2.
  assert (40 ∈ line) as H40 by (unfold line, line_text; rewrite elem_of_app, elem_of_cons; auto).
  destruct (user_input_runs line m2 d2 Hs2 ltac:(lia) H40 (placed_kept HL _ _ W2 Hp) Ho2 Hb2) as (m3 & d3 & E3 & W3 & Hs3 & O3).
  destruct (shell_calls_function call fuel data_end fr key_buffer k name args m3 d3 Hok ltac:(lia) (layout_frame HL (Z.of_nat (length line) + 1) ltac:(lia)) Hs3)
    as (m4 & E4 & Hname & P1 & P2 & P3 & W4). apply (buffers_written (printf_buf := printf_buf) (key_buffer := key_buffer) (str := str)) in W4.
  assert (only_written m3 (clear_frame_buffers fr m3)) as W0
    by exact (buffers_written _ _ (proj2 (clear_frame_buffers_spec fr m3 (proj1 (layout_frame HL 0 ltac:(lia)))))).
  set (m0 := clear_frame_buffers fr m3) in *.
  pose proof (only_written_trans _ _ _ W2 W3) as W. pose proof (only_written_trans _ _ _ W W4) as W'. pose proof (only_written_trans _ _ _ W W0) as W0'.
  destruct (symbols_kept tn names m m4 Hct W' Hsy) as (Hsy4 & Est4 & _ & Hv4). destruct (symbols_kept tn names m m0 Hct W0' Hsy) as (_ & Est0 & Esn0 & _).
  pose proof (lookup_lt_Some _ _ _ Hj) as Hjl. destruct (Hv4 j Hjl) as [Ev _]. rewrite <- Ev in Hv.
  exists m4, d3. split_and!; [| exact P1 | exact P2 | exact P3 | exact W' |].
  - unfold callback, keyboard_callback. rewrite E1. change (REL_KEY_DIFF + SC_MAX <? ENTER) with false. change (REL_KEY_DIFF <=? ENTER) with false.
    change (SC_MAX <? ENTER) with false. cbv iota. change (ENTER =? LEFT_SHIFT) with false. cbv iota.
    unfold key_pressed. change (ENTER =? CAPS_LOCK) with false. change (ENTER =? BACKSPACE) with false. change (ENTER =? ENTER) with true. cbv iota.
    rewrite E2, bind_ok. cbn [fst snd]. rewrite E3, E4. unfold find_symbol_and_run.
    rewrite (symbol_call tn names m0 m4 d3 name j _ Hsy4 ltac:(congruence) Esn0 Hname Hj Hfirst Hv), Ev.
    destruct (call _ _ m4 d3) as [[m5 d5]| | |]; reflexivity.
  - rewrite <- Hq1. f_equal. rewrite (only_screen_kbc _ _ O3) by (intros x; now rewrite crtc_in).
    apply (only_screen_kbc _ _ (kprint_only _ _ _ _ _ _ E2)). intros x. now rewrite crtc_in.
Qed.

End CommandLine.

(** C17: What is typed is what runs.  The keyboard holds the scancodes of some keys
    and of Enter, and the keys, with shift, caps lock and backspace, make a line
    [name(arg, arg, arg)] of numbers and quoted strings.  Then the interrupts, one for
    each scancode, through the dispatch and the end of the interrupt, come to
    the call of the function of the first symbol with that name, with the numbers
    and the addresses of the strings, which are there; when it returns the line
    is cleared.  Before the call no memory changes but the line, the screen and the
    buffers of [printf] and of the shell. *)
Theorem typed_command_runs {D : Type} `{PortDevice D} `{!HasCrtc D} `{!HasKbc D} `{!Unread kbd_ins (crtc_of (D := D))}
    (call : Z -> list Z -> mem -> D -> outcome (mem * D)) (lit : string -> Z) (printf_buf : Z) (cpuid cpuGetMSR : Z -> Z * Z)
    (fuel : nat) (data_end : Z) (fr : frame) (ac key_buffer str : Z)
    (other : isr_t -> registers_t -> keyboard_machine D -> outcome (registers_t * keyboard_machine D))
    (hs : list (option isr_t)) (regs : registers_t) (tn : Z) (names : list (list Z)) (scs q : list Z)
    (ks : keys) (k : nat) (name : list Z) (args : list (nat * arg)) (j : nat) (m : mem) (d : D) :
  let v := st_value m (symbol_table_of data_end + SIZEOF_Elf32_Sym * Z.of_nat j) in
  let areas := clear_of_written printf_buf fr key_buffer str in
  layout lit printf_buf fuel fr key_buffer str -> areas data_end tn -> symbols fuel data_end tn names m -> placed lit m shell_texts ->
  hs !! 33%nat = Some (Some keyboard_callback_isr) -> r_int_no regs = 33 ->
  editing key_buffer 256 [] m d -> 2 <= cursor d -> kbc_queue (kbc_of d) = scs ++ ENTER :: q -> Forall is_byte scs ->
  keys_ok scs ks [] = true -> (typed scs ks []).2 = line_text k name args -> line_ok fuel k name args ->
  names !! j = Some name -> (forall i, (i < j)%nat -> names !! i <> Some name) -> v <> 0 ->
  exists m' d',
    key_interrupts call lit printf_buf cpuid cpuGetMSR fuel data_end fr ac key_buffer str other hs regs (length scs + 1) (mk_keyboard_machine ks m d) =
      (r ← call v [param_value (f_param1 fr) (args !! 0%nat); param_value (f_param2 fr) (args !! 1%nat); param_value (f_param3 fr) (args !! 2%nat)] m' d';
       Ok (mk_keyboard_machine (typed scs ks []).1 (store8 r.1 key_buffer 0) r.2)) /\
    param_holds m' (f_param1 fr) (args !! 0%nat) /\ param_holds m' (f_param2 fr) (args !! 1%nat) /\ param_holds m' (f_param3 fr) (args !! 2%nat) /\
    (forall x, areas x 1 -> load8 m' x = load8 m x) /\ kbc_queue (kbc_of d') = q.
Proof.
  cbv zeta. intros HL Hct Hsy Hp Hhs Hregs He Hc Hq Hb Hok Hline Hlok Hj Hfirst Hv.
  destruct (typing call lit printf_buf cpuid cpuGetMSR fuel data_end fr ac key_buffer str HL other hs regs Hhs Hregs scs (ENTER :: q) ks [] m d Hb Hok Hq He)
    as (m1 & d1 & E1 & He1 & Hq1 & W1); [simpl; lia|]. rewrite Hline in He1.
  destruct (symbols_kept tn names m m1 Hct W1 Hsy) as (Hsy1 & _ & _ & Hv1).
  destruct (Hv1 j (lookup_lt_Some _ _ _ Hj)) as [Ev _].
  destruct (enter_calls call lit printf_buf cpuid cpuGetMSR fuel data_end fr ac key_buffer str HL tn names q (typed scs ks []).1 k name args j m1 d1 Hct Hsy1
    (placed_kept HL m m1 W1 Hp) He1 Hq1 Hlok Hj Hfirst ltac:(rewrite Ev; exact Hv))
    as (m2 & d2 & E2 & P1 & P2 & P3 & W2 & Hq2).
  exists m2, d2. split_and!; [| exact P1 | exact P2 | exact P3 | exact (only_written_trans _ _ _ W1 W2) | exact Hq2].
  rewrite E1, (key_interrupt call lit printf_buf cpuid cpuGetMSR fuel data_end fr ac key_buffer str other hs regs Hhs Hregs 0), E2, Ev.
  lazymatch goal with |- _ = (?c ≫= _) => destruct c as [[m3 d3]| | |] end; reflexivity.
Qed.

(** Keys for [f(7,"ab")], with shift for the brackets and the quotes, releases
    of keys and a character taken back; two symbols, "g" and "f". *)
Definition sample_keys : list Z := [33; 161; 42; 10; 170; 8; 51; 42; 40; 170; 30; 45; 14; 48; 42; 40; 11; 170].

Definition typed_args : list (nat * arg) := [(0%nat, Num 7); (0%nat, Str [97; 98])].

Definition shell_lit : string -> Z := laid_out shell_texts 0x4000.

Definition shell_memory : mem :=
  let m := store32 (store_bytes (literal_memory shell_texts 0x4000) 0x8028 [103; 0; 102; 0]) 0x8000 32 in
  store32 (store32 (store32 (store32 m 0x8008 0) 0x800C 0x1111) 0x8018 2) 0x801C 0x2222.

Definition shell_board : board :=
  mk_board (mk_crtc 0 0 5) fresh_pics (mk_pit 0 None 0) (mk_kbc 0x45 0xDF (sample_keys ++ [ENTER]) 0 0 [] [] sample_parts).

Definition shell_handlers : list (option isr_t) := replicate 33 None ++ [Some keyboard_callback_isr].

Definition keyboard_registers : registers_t := mk_registers 0 0 0 0 0 0 0 0 0 33 0 0 0 0 0 0.

Lemma shell_layout : layout shell_lit 0x2000 1024 sample_frame 0x100 0x300.
Proof.
  split.
  - intros i j p q Hi Hj Hne. unfold apart.
    do 8 (destruct i as [|i]; [cbn in Hi; injection Hi as <-; do 8 (destruct j as [|j];
      [cbn in Hj; injection Hj as <-; unfold PRINTF_BUF_SIZE, VIDEO_ADDRESS, SCREEN_BYTES; cbn [fst snd f_command f_param1 f_param2 f_param3 sample_frame]; lia|]); discriminate|]). discriminate.
  - apply (bool_decide_unpack _). vm_compute. exact I.
  - repeat constructor; simpl; lia.
  - lia.
  - lia.
Qed.

Lemma shell_symbols : symbols 1024 0x8000 64 [[103]; [102]] shell_memory.
Proof.
  split; [vm_compute; reflexivity | vm_compute; discriminate |].
  intros [|[|j]] l Hj; cbn in Hj; try discriminate; injection Hj as <-; cbv zeta; (split_and!; [split; [vm_compute; reflexivity | repeat constructor; lia] | | | simpl; lia]);
    vm_compute; discriminate.
Qed.

(** The call of the function at 0x2222 with 7 and the address of "ab". *)
Lemma typed_command_runs_witness :
  exists m' d', key_interrupts (D := board) (fun f ps m d => if f =? 0x2222 then Ok (store8 m 0x9000 (hd 0 ps), d) else Undef "no function here")
    shell_lit 0x2000 (fun _ => (0, 0)) (fun _ => (0, 0)) 1024 0x8000 sample_frame 0 0x100 0x300 (fun _ regs x => Ok (regs, x))
    shell_handlers keyboard_registers 19 (mk_keyboard_machine (mk_keys false false) shell_memory shell_board) =
      Ok (mk_keyboard_machine (mk_keys false false) (store8 (store8 m' 0x9000 7) 0x100 0) d') /\
    cstring m' 0x1201 [97; 98].
Proof.
  destruct (typed_command_runs (D := board) (fun f ps m d => if f =? 0x2222 then Ok (store8 m 0x9000 (hd 0 ps), d) else Undef "no function here")
    shell_lit 0x2000 (fun _ => (0, 0)) (fun _ => (0, 0)) 1024 0x8000 sample_frame 0 0x100 0x300 (fun _ regs x => Ok (regs, x))
    shell_handlers keyboard_registers 64 [[103]; [102]] sample_keys [] (mk_keys false false) 0 [102] typed_args 1 shell_memory shell_board)
    as (m' & d' & E & _ & P & _).
  - exact shell_layout.
  - apply (bool_decide_unpack _). vm_compute. exact I.
  - exact shell_symbols.
  - apply (bool_decide_unpack _). vm_compute. exact I.
  - reflexivity.
  - reflexivity.
  - split; [split; [vm_compute; reflexivity | apply Forall_nil; exact I] | split; [simpl; lia | split; [vm_compute; split; [split; [discriminate | reflexivity] | reflexivity] | unfold cursor_bytes; simpl; lia]]].
  - vm_compute. discriminate.
  - reflexivity.
  - apply (bool_decide_unpack _). vm_compute. exact I.
  - vm_compute. reflexivity.
  - vm_compute. reflexivity.
  - split_and!; [split_and!; [repeat constructor; lia | simpl; lia | discriminate] | lia | simpl; lia |].
    repeat constructor; simpl; try lia; discriminate.
  - reflexivity.
  - intros [|i] Hi; [discriminate | lia].
  - vm_compute. discriminate.
  - exists m', d'. split; [exact E | exact P].
Defined.
