(* ===== verification/MainRun.v ===== *)
(** * [main] on a machine

    The whole of [main], from power-on to where the first task gives the
    processor away, on the board of Board.v: the start, the fork, its message,
    the second fork and the sleep; then the older child, which the switch of
    the sleep gave the processor, as it leaves [fork] and says its line.  What
    the devices and the memory do is computed ([trace]); the scheduler is
    followed with the lemmas of TaskInv.v, for any registers that the tasks are
    in.  What the forks leave of the heap is shown at the end.  Nothing is said
    of the children from there on: the older one goes to user mode, and neither
    privilege nor the interrupt flag is modelled. *)

From S2P Require Import Prelude Memory Util OrderedArray Kernel Paging KHeap KHeapInv Directories Ports Descriptors Interrupts Screen Literals Ps2 Kbc Clock Board.
From S2P Require Import Task TaskInv TaskProps Faults Console Boot BootProps A20Props Startup Cleared.

(** ** The heap's index *)

(** A hole that the index names ends within the heap. *)
Lemma heap_inv_index_end m h bs (i : nat) a :
  heap_inv m h bs -> Z.of_nat i < oa_size (h_index h) -> lookup_ordered_array m (Z.of_nat i) (h_index h) = Ok a ->
  a + hdr_size m a <= h_end_address h.
Proof.
  intros Hi Hlt E. destruct (hi_index _ _ _ Hi) as (l & Hrep & Hp). destruct (lookup_lt_is_Some_2 l i) as [x Hx]; [rewrite (proj1 Hrep) in Hlt; lia|].
  rewrite (lookup_ordered_array_spec m _ l i x Hrep Hx) in E. injection E as <-.
  apply list_elem_of_lookup_2 in Hx. rewrite Hp in Hx. apply hole_addrs_in in Hx as (b & Hb & _ & <-).
  destruct (hi_blocks _ _ _ Hi b Hb) as [(_ & Hs & _) _]. destruct (tiled_in _ _ _ _ (hi_tiled _ _ _ Hi) Hb) as (_ & _ & He).
  rewrite Hs. exact He.
Qed.

(** ** What a fork takes *)

Definition fork_memory (fuel : nat) (k : kernel) : outcome (Z * Z * Z * kernel) :=
  dir ← clone_directory fuel (k_current_directory k) k;
  task ← kmalloc fuel SIZEOF_task dir.2;
  stack ← kmalloc_a fuel KERNEL_STACK_SIZE task.2;
  Ok (dir.1, task.1, stack.1, stack.2).

Lemma fork_from_memory fuel eip esp ebp s a directory task stack k' :
  sched_rel s a -> fork_memory fuel (s_kernel s) = Ok (directory, task, stack, k') -> task <> 0 -> s_tasks s !! task = None ->
  exists s', fork fuel eip esp ebp s = Ok (s_next_pid s, s') /\ sched_rel s' (a_fork task a) /\
    s_next_pid s' = u32 (s_next_pid s + 1) /\ s_kernel s' = k' /\
    s_tasks s' !! task = Some (mk_task (s_next_pid s) esp ebp eip directory stack 0 0) /\
    (forall p, p <> task -> t_id <$> s_tasks s' !! p = t_id <$> s_tasks s !! p).
Proof.
  intros Hr E Hn Hf. unfold fork_memory in E.
  apply bind_inv in E as ([d k1] & E1 & E). apply bind_inv in E as ([t k2] & E2 & E). apply bind_inv in E as ([st k3] & E3 & E).
  injection E as -> -> -> ->. exact (fork_rel fuel eip esp ebp s a _ _ _ _ _ _ Hr E1 E2 E3 Hn Hf).
Qed.

(** A scheduler with one task. *)
Lemma one_task_rel s p : s_ready s = p -> s_current s = p -> s_sleep s = 0 -> p <> 0 ->
  (fun t => (t_next t, t_end_of_sleep t)) <$> s_tasks s !! p = Some (0, 0) -> sched_rel s (mk_asched [p] [] p (s_tick s)).
Proof.
  intros Hr Hc Hs Hp Ht. destruct (s_tasks s !! p) as [t|] eqn:E; [|discriminate]. injection Ht as Hn He.
  split; cbn [a_ready a_sleep a_current a_tick fmap list_fmap app].
  - rewrite Hr. split_and!; [reflexivity | exact Hp | exists t; now rewrite Hn].
  - exact Hs.
  - apply NoDup_singleton.
  - exact Hc.
  - left.
  - intros q t' Hq Ht'. apply list_elem_of_singleton in Hq as ->. congruence.
  - intros q d t' Hq. now apply elem_of_nil in Hq.
  - reflexivity.
Qed.

(** Of three ready tasks the first sleeps. *)
Lemma parent_sleeps n p t2 t3 tick : t2 <> p -> t3 <> p ->
  a_sleep_for n (mk_asched [p; t2; t3] [] p tick) = mk_asched [t2; t3] [(p, u32 (tick + n))] t2 tick /\ successor [p; t2; t3] p = t2.
Proof.
  intros H2 H3. assert (successor [p; t2; t3] p = t2) as Hs.
  { unfold successor. cbn [after]. now rewrite Z.eqb_refl. }
  split; [|exact Hs]. unfold a_sleep_for. cbn [a_ready a_current a_sleep a_tick app]. rewrite decide_False by discriminate. rewrite Hs. f_equal.
  rewrite filter_cons_False by tauto. now rewrite !filter_cons_True by assumption.
Qed.

(** ** The path of the first task

    From a start that succeeds, when the two forks get their memory: the
    message of the parent, the second fork, and the sleep. *)
Lemma main_path {D : Type} `{PortDevice D} (lit : string -> Z) (printf_buf : Z) (fuel : nat)
    (other : isr_t -> registers_t -> machine D -> outcome (registers_t * machine D)) (im : image) (n : nat) (a20 : bool)
    (eax ac ad sp bp : Z) (c : cpu_t) (eip esp ebp eax' : Z) (regs : registers_t) (x : machine D) (b : booted) (p tick : Z) (tk : task_t)
    dir2 t2 st2 k2 m d dir3 t3 st3 k3 :
  let s := x_sched (b_machine b) in
  let pid := s_next_pid s in
  start lit printf_buf fuel im n a20 eax ac ad sp bp c x = Ok b ->
  sched_rel s (mk_asched [p] [] p tick) -> s_tasks s !! p = Some tk -> 0 < pid < 0xFFFFFFFF ->
  fork_memory fuel (s_kernel s) = Ok (dir2, t2, st2, k2) -> t2 <> 0 -> s_tasks s !! t2 = None ->
  say lit printf_buf fuel fork_format [pid; t_id tk] (k_mem k2) (x_dev (b_machine b)) = Ok (m, d) ->
  fork_memory fuel (with_mem m k2) = Ok (dir3, t3, st3, k3) -> t3 <> 0 -> t3 <> t2 -> s_tasks s !! t3 = None ->
  eip <> 0x12345 -> u32 (tick + 50) <> 0 ->
  exists x', main lit printf_buf fuel other im n a20 eax ac ad sp bp c eip esp ebp eax' regs x = Ok (b_handlers b, x') /\
    sched_rel (x_sched x') (mk_asched [t2; t3] [(p, u32 (tick + 50))] t2 tick) /\ running t2 (x_sched x') /\
    s_next_pid (x_sched x') = u32 (u32 (pid + 1) + 1) /\ x_mem x' = k_mem k3 /\ k_kheap (s_kernel (x_sched x')) = k_kheap k3 /\
    x_dev x' = d /\ t_id <$> s_tasks (x_sched x') !! t2 = Some pid /\ t_id <$> s_tasks (x_sched x') !! t3 = Some (u32 (pid + 1)).
Proof.
  cbv zeta. set (s := x_sched (b_machine b)). intros Eb Hrel Htk Hpid E1 H2 Hn2 Em E2 H3 H32 Hn3 Heip Hd.
  assert (t2 <> p /\ t3 <> p) as [H2p H3p] by (split; congruence).
  destruct (fork_from_memory fuel eip esp ebp s _ _ _ _ _ Hrel E1 H2 Hn2) as (s1 & F1 & Hrel1 & Hp1 & Hk1 & Ht1 & Hid1).
  assert (getpid s1 = Ok (t_id tk)) as Hget.
  { unfold getpid, deref. rewrite (sr_current _ _ Hrel1). cbn [a_fork a_current]. specialize (Hid1 p (not_eq_sym H2p)).
    rewrite Htk in Hid1. destruct (s_tasks s1 !! p); [|discriminate]. injection Hid1 as Hid1. cbn. now rewrite Hid1. }
  set (x1 := mk_machine (with_kernel (with_mem m k2) s1) d).
  assert (fork_message lit printf_buf fuel (s_next_pid s) (mk_machine s1 (x_dev (b_machine b))) = Ok x1) as Emsg.
  { unfold fork_message. cbn [x_sched]. rewrite Hget, bind_ok. unfold say_x, x_mem, with_x_mem. cbn [x_sched x_dev]. now rewrite Hk1, Em, bind_ok. }
  assert (s_tasks s1 !! t3 = None) as Hn3' by (specialize (Hid1 t3 H32); rewrite Hn3 in Hid1; now apply fmap_None in Hid1).
  destruct (fork_from_memory fuel eip esp ebp (x_sched x1) _ _ _ _ _ (sched_rel_kernel _ _ _ Hrel1) E2 H3 Hn3')
    as (s2 & F2 & Hrel2 & Hp2 & Hk2 & Ht2 & Hid2).
  change (s_next_pid (x_sched x1)) with (s_next_pid s1) in Hp2, Ht2. rewrite Hp1 in Hp2, Ht2.
  destruct (sleep_rel 50 eip esp ebp s2 _ Hrel2 Heip) as (s3 & F3 & Hrel3 & Hp3 & _ & Hrun); [rewrite (sr_tick _ _ Hrel2); exact Hd|].
  destruct (sleep_keeps _ _ _ _ _ _ F3) as (Hmem & Hheap & Hids). rewrite Hk2 in Hmem, Hheap.
  change (a_fork t3 _) with (mk_asched [p; t2; t3] [] p tick) in Hrel3, Hrun. destruct (parent_sleeps 50 p t2 t3 tick H2p H3p) as [Hsl Hsu].
  rewrite Hsl in Hrel3. cbn [a_ready a_current] in Hrun. rewrite Hsu in Hrun.
  exists (mk_machine s3 d). split_and!; [| | | cbn [x_sched]; congruence | exact Hmem | exact Hheap | reflexivity | |].
  - unfold main. rewrite Eb, bind_ok. unfold do_tasking_test, fork_x. fold s. rewrite F1, !bind_ok. cbn [fst snd].
    unfold do_tasking_test_from. rewrite Emsg, bind_ok. replace (0 <? s_next_pid s) with true by lia.
    unfold fork_x. rewrite F2, !bind_ok. cbn [fst snd]. unfold test_sleep. cbn [x_sched x_dev x1].
    change (s_next_pid (with_kernel _ s1)) with (s_next_pid s1). rewrite Hp1, u32_small by lia. replace (0 <? s_next_pid s + 1) with true by lia.
    now rewrite F3, !bind_ok.
  - exact Hrel3.
  - apply Hrun. discriminate.
  - cbn [x_sched]. rewrite Hids, (Hid2 t2 (not_eq_sym H32)). cbn [x_sched x1 with_kernel s_tasks]. now rewrite Ht1.
  - cbn [x_sched]. now rewrite Hids, Ht2.
Qed.

(** ** The older child

    The switch of the sleep lands behind [read_eip] in [fork]. *)

Lemma getpid_of s a c pid : sched_rel s a -> a_current a = c -> t_id <$> s_tasks s !! c = Some pid -> getpid s = Ok pid.
Proof.
  intros H <- Hp. unfold getpid, deref. rewrite (sr_current _ _ H). destruct (s_tasks s !! a_current a); [|discriminate]. now injection Hp as <-.
Qed.

Lemma fork_in_child parent c eip esp ebp s a : sched_rel s a -> a_current a = c -> c <> parent -> fork_return parent c eip esp ebp s = Ok (0, s).
Proof. intros H Hc Hn. unfold fork_return. rewrite (sr_current _ _ H), Hc, (proj2 (Z.eqb_neq _ _) Hn). reflexivity. Qed.

Lemma fork_message_said {D : Type} `{PortDevice D} (lit : string -> Z) (printf_buf : Z) (fuel : nat) ret (x : machine D) a c pid m d :
  sched_rel (x_sched x) a -> a_current a = c -> t_id <$> s_tasks (x_sched x) !! c = Some pid ->
  say lit printf_buf fuel fork_format [ret; pid] (x_mem x) (x_dev x) = Ok (m, d) ->
  fork_message lit printf_buf fuel ret x = Ok (with_x_mem m d x).
Proof. intros Hr Hc Hp E. unfold fork_message, say_x. rewrite (getpid_of _ _ _ _ Hr Hc Hp), bind_ok, E, bind_ok. reflexivity. Qed.

(** ** A start that is quick to evaluate

    [start] with another function in place of the [memset] that clears the index of
    the heap. *)
Section Quick.
Context {D : Type} `{PortDevice D} (lit : string -> Z) (printf_buf : Z) (fuel : nat).

Definition start_with (clear : mem -> Z -> Z -> Z -> mem) (im : image) (n : nat) (a20 : bool) (eax ac ad esp ebp : Z) (c : cpu_t) (x : machine D)
    : outcome booted :=
  ltac:(let t := eval cbv beta delta [start initialise_paging create_heap place_ordered_array] in
          (start lit printf_buf fuel im n a20 eax ac ad esp ebp c x) in
        let p := eval pattern memset in t in
        lazymatch p with ?f _ => let r := eval cbv beta in (f clear) in exact r end).

Lemma bind_cong {A B} (o o' : outcome A) (f g : A -> outcome B) : o = o' -> (forall a, f a = g a) -> (a ← o; f a) = (a ← o'; g a).
Proof. intros <- E. destruct o; [apply E | reflexivity ..]. Qed.

Lemma start_is_quick im n a20 eax ac ad esp ebp c x :
  start lit printf_buf fuel im n a20 eax ac ad esp ebp c x = start_with memset_quick im n a20 eax ac ad esp ebp c x.
Proof.
  change (start_with memset im n a20 eax ac ad esp ebp c x = start_with memset_quick im n a20 eax ac ad esp ebp c x).
  unfold start_with.
  repeat lazymatch goal with
  | |- ?o = ?o => reflexivity
  | |- (_ ≫= _) = (_ ≫= _) => apply bind_cong; [|intros ?]
  | |- match ?e with _ => _ end = _ => destruct e
  | |- insert_ordered_array _ _ _ = _ => rewrite memset_is_quick; reflexivity
  end.
Qed.

End Quick.

(** ** The machine *)

Definition test_texts : list string := start_texts ++ boot_texts.

Definition test_lit : string -> Z := laid_out test_texts 0x1000.

Definition test_machine : machine board :=
  mk_machine (mk_sched (mk_kernel (literal_memory test_texts 0x1000) ∅ 0x100000 None 0 0 0 0) ∅ 0 0 0 1 0
    (mk_tss 0 0x10 0x13 0x0B 0x13 0x13 0x13 0x13) (mk_context 0 0 0 0 0)) a20_board.

(** The memory and the devices on the way: the start, the first fork, the line
    of the parent, the second fork, the line of the older child. *)
Record trace := mk_trace {
  tr_start : booted (D := board);
  tr_fork : Z * Z * Z * kernel;
  tr_parent : mem * board;
  tr_fork' : Z * Z * Z * kernel;
  tr_older : mem * board;
}.

Definition test_say (text : string) (args : list Z) (m : mem) (d : board) : outcome (mem * board) := say test_lit 0x8000 1024 text args m d.

Definition test_run (st : outcome (booted (D := board))) : outcome trace :=
  b ← st;
  f1 ← fork_memory 1024 (s_kernel (x_sched (b_machine b)));
  m ← test_say fork_format [2; 1] (k_mem f1.2) (x_dev (b_machine b));
  f2 ← fork_memory 1024 (with_mem m.1 f1.2);
  o ← test_say fork_format [0; 2] (k_mem f2.2) m.2;
  Ok (mk_trace b f1 m f2 o).

Lemma test_run_inv st r : test_run st = Ok r ->
  st = Ok (tr_start r) /\ fork_memory 1024 (s_kernel (x_sched (b_machine (tr_start r)))) = Ok (tr_fork r) /\
  test_say fork_format [2; 1] (k_mem (tr_fork r).2) (x_dev (b_machine (tr_start r))) = Ok (tr_parent r) /\
  fork_memory 1024 (with_mem (tr_parent r).1 (tr_fork r).2) = Ok (tr_fork' r) /\
  test_say fork_format [0; 2] (k_mem (tr_fork' r).2) (tr_parent r).2 = Ok (tr_older r).
Proof.
  intros E. apply bind_inv in E as (b' & Eb & E). apply bind_inv in E as (f1' & E1 & E). apply bind_inv in E as (m' & Em & E).
  apply bind_inv in E as (f2' & E2 & E). apply bind_inv in E as (o & Eo & E).
  injection E as <-. auto 10.
Qed.

(** [n] characters of row [r] of the screen. *)
Definition screen_text (m : mem) (r n : Z) : list Z := map (fun c => load8 m (VIDEO_ADDRESS + 2 * (80 * r + c))) (seqZ 0 n).

Definition row_shows (m : mem) (r : Z) (s : string) : Prop := screen_text m r (Z.of_nat (length (str_bytes s)) + 1) = str_bytes s ++ [0].

Definition task1 : Z := 0xC008000C.
Definition task2 : Z := 0xC0080040.
Definition task3 : Z := 0xC0095018.

Definition stack3 : Z := 0xC009A000.

(** The hole behind the second child's stack. *)
Definition last_hole : Z := 0xC009B008.

Definition test_rows : list (Z * string) :=
  [(0, "output port status before: 0x1c"); (1, "Not Equal addresses"); (2, "A20_on"); (3, "STATUS is 250");
   (5, "> fork() returned 2, and getpid() returned 1")]%string.

(** The line of the older child, below. *)
Definition older_row : Z * string := (6, "fork() returned 0, and getpid() returned 2"%string).

#[local] Instance outcome_eq_dec `{EqDecision A} : EqDecision (outcome A).
Proof. solve_decision. Defined.

(** What the run comes to: the scheduler at the start and the number of handlers,
    the tasks and the stack of the second fork, the screen, and the heap. *)
Definition test_facts (s : sched) (handlers : nat) (task task' stack' : Z) (k : kernel) (m : mem) : Prop :=
  ((s_ready s, s_current s, s_sleep s, s_tick s, s_next_pid s, handlers) = (task1, task1, 0, 0, 2, 256%nat) /\
    (fun t => (t_next t, t_end_of_sleep t, t_id t)) <$> s_tasks s !! task1 = Some (0, 0, 1) /\
    t_id <$> s_tasks s !! task2 = None /\ t_id <$> s_tasks s !! task3 = None) /\
  (task, task', stack') = (task2, task3, stack3) /\
  Forall (fun p => row_shows (k_mem k) p.1 p.2) test_rows /\
  ((fun h => (oa_size (h_index h), lookup_ordered_array (k_mem k) 12 (h_index h))) <$> k_kheap k = Some (13, Ok last_hole) /\
    hdr_size (k_mem k) last_hole = 0xFFFFF014 /\ load32 (k_mem k) (stack3 + 0x14) = HEAP_MAGIC) /\
  Forall (fun p => row_shows m p.1 p.2) (test_rows ++ [older_row]).

#[local] Instance test_facts_dec s n task task' stack' k m : Decision (test_facts s n task task' stack' k m).
Proof. unfold test_facts, row_shows. apply _. Defined.

Definition test_ends (r : trace) : Prop :=
  test_facts (x_sched (b_machine (tr_start r))) (length (b_handlers (tr_start r))) (tr_fork r).1.1.2 (tr_fork' r).1.1.2 (tr_fork' r).1.2
    (tr_fork' r).2 (tr_older r).1.

#[local] Instance test_ends_dec r : Decision (test_ends r).
Proof. apply test_facts_dec. Defined.

(** A decidable property of a result, by evaluation. *)
Lemma evaluates {A} (o : outcome A) (P : A -> Prop) {dec : forall a, Decision (P a)} :
  match o with Ok a => bool_decide (P a) | _ => false end = true -> exists a, o = Ok a /\ P a.
Proof. destruct o as [a| | |]; try discriminate. intros Ha%bool_decide_eq_true. eauto. Qed.

Lemma test_run_ok : exists r,
  test_run (start test_lit 0x8000 1024 start_image 1024 true 7 0x9010 0x9000 0x80F00 0x80F10 (mk_cpu 0x11 0 0) test_machine) = Ok r /\ test_ends r.
Proof. rewrite start_is_quick. apply (evaluates _ test_ends). vm_compute. reflexivity. Qed.

(** [main] with what is computed. *)
Lemma main_sleeps (other : isr_t -> registers_t -> machine board -> outcome (registers_t * machine board)) (eip esp ebp eax : Z) (regs : registers_t) :
  eip <> 0x12345 ->
  exists r x', test_run (start test_lit 0x8000 1024 start_image 1024 true 7 0x9010 0x9000 0x80F00 0x80F10 (mk_cpu 0x11 0 0) test_machine) = Ok r /\
    test_ends r /\ main test_lit 0x8000 1024 other start_image 1024 true 7 0x9010 0x9000 0x80F00 0x80F10 (mk_cpu 0x11 0 0)
      eip esp ebp eax regs test_machine = Ok (b_handlers (tr_start r), x') /\
    sched_rel (x_sched x') (mk_asched [task2; task3] [(task1, 50)] task2 0) /\ running task2 (x_sched x') /\ s_next_pid (x_sched x') = 4 /\
    x_mem x' = k_mem (tr_fork' r).2 /\ k_kheap (s_kernel (x_sched x')) = k_kheap (tr_fork' r).2 /\ x_dev x' = (tr_parent r).2 /\
    t_id <$> s_tasks (x_sched x') !! task2 = Some 2 /\ t_id <$> s_tasks (x_sched x') !! task3 = Some 3.
Proof.
  intros Heip. destruct test_run_ok as (r & Er & He). pose proof He as ((Hs & Ht & Hn2 & Hn3) & Hf & _).
  pose proof (test_run_inv _ _ Er) as (Eb & E1 & Em & E2 & _). destruct r as [b [[[dir2 t2] st2] k2] [m d] [[[dir3 t3] st3] k3] o].
  cbn [tr_start tr_fork tr_parent tr_fork' fst snd] in *. injection Hf as -> -> ->.
  injection Hs as Hr Hc Hsl Htk Hpid _. apply fmap_None in Hn2, Hn3.
  destruct (s_tasks (x_sched (b_machine b)) !! task1) as [tk|] eqn:Et; [|discriminate Ht]. injection Ht as Hnx Hend Hid.
  assert (sched_rel (x_sched (b_machine b)) (mk_asched [task1] [] task1 0)) as Hrel
    by (rewrite <- Htk; apply one_task_rel; [assumption | assumption | assumption | discriminate | rewrite Et; cbn; now rewrite Hnx, Hend]).
  assert (test_say fork_format [s_next_pid (x_sched (b_machine b)); t_id tk] (k_mem k2) (x_dev (b_machine b)) = Ok (m, d)) as Em' by (rewrite Hpid, Hid; exact Em).
  destruct (main_path test_lit 0x8000 1024 other start_image 1024 true 7 0x9010 0x9000 0x80F00 0x80F10 (mk_cpu 0x11 0 0) eip esp ebp eax regs
    test_machine b task1 0 tk _ _ _ _ _ _ _ _ _ _ Eb Hrel Et ltac:(lia) E1 ltac:(discriminate) Hn2 Em' E2 ltac:(discriminate)
    ltac:(discriminate) Hn3 Heip ltac:(discriminate)) as (x' & Ex & Hrel' & Hrun & Hpid' & Hmem & Hheap & Hdev & Hp2 & Hp3).
  rewrite Hpid in Hpid', Hp2, Hp3. eexists _, x'. split_and!; [exact Er | exact He | exact Ex | assumption ..].
Qed.

(** C14: [main], up to where the first task gives the processor away, in whatever
    registers the task forks and sleeps: it returns.  The reports of the start
    and the line of the parent are on the screen; the first task sleeps for 50
    ticks, the children are ready, and the older one runs.  That one leaves
    [fork] with 0 and says its line, below the others.  But the heap is not well
    formed: the hole behind the stack of the last child has a size of
    2^32 - 4076 bytes, and its footer is in that stack. *)
Theorem main_runs (other : isr_t -> registers_t -> machine board -> outcome (registers_t * machine board))
    (eip esp ebp eax : Z) (regs : registers_t) :
  eip <> 0x12345 ->
  exists hs x', main test_lit 0x8000 1024 other start_image 1024 true 7 0x9010 0x9000 0x80F00 0x80F10 (mk_cpu 0x11 0 0)
      eip esp ebp eax regs test_machine = Ok (hs, x') /\
    Forall (fun p => row_shows (x_mem x') p.1 p.2) test_rows /\
    sched_rel (x_sched x') (mk_asched [task2; task3] [(task1, 50)] task2 0) /\ running task2 (x_sched x') /\
    (forall eip' esp' ebp', exists x'', fork_return task1 task2 eip' esp' ebp' (x_sched x') = Ok (0, x_sched x') /\
       fork_message test_lit 0x8000 1024 0 x' = Ok x'' /\ Forall (fun p => row_shows (x_mem x'') p.1 p.2) (test_rows ++ [older_row])) /\
    exists h, k_kheap (s_kernel (x_sched x')) = Some h /\ lookup_ordered_array (x_mem x') 12 (h_index h) = Ok last_hole /\
      hdr_size (x_mem x') last_hole = 0xFFFFF014 /\ stack3 <= u32 (last_hole + 0xFFFFF014 - SIZEOF_footer) < stack3 + KERNEL_STACK_SIZE /\
      load32 (x_mem x') (u32 (last_hole + 0xFFFFF014 - SIZEOF_footer)) = HEAP_MAGIC /\
      (forall bs, ~ heap_inv (x_mem x') h bs).
Proof.
  intros Heip. destruct (main_sleeps other eip esp ebp eax regs Heip) as (r & x' & Er & He & Ex & Hrel & Hrun & Hpid & Hmem & Hheap & Hdev & Hp2 & Hp3).
  destruct He as (_ & _ & Hrows & (Hi & Hsz & Hm) & Hall). exists (b_handlers (tr_start r)), x'.
  split_and!; [exact Ex | rewrite Hmem; exact Hrows | exact Hrel | exact Hrun | |].
  - intros eip' esp' ebp'. apply test_run_inv in Er as (_ & _ & _ & _ & Eo). rewrite <- Hmem, <- Hdev in Eo.
    destruct (tr_older r) as [m1 d1]. exists (with_x_mem m1 d1 x'). split_and!.
    + exact (fork_in_child task1 task2 _ _ _ _ _ Hrel eq_refl ltac:(discriminate)).
    + exact (fork_message_said test_lit 0x8000 1024 0 x' _ task2 2 m1 d1 Hrel eq_refl Hp2 Eo).
    + exact Hall.
  - rewrite Hmem, Hheap. destruct (k_kheap (tr_fork' r).2) as [h|]; [|discriminate Hi]. injection Hi as Hsize Hlook.
    exists h. split_and!; [reflexivity | exact Hlook | exact Hsz | discriminate | reflexivity | exact Hm |].
    intros bs Hinv. pose proof (heap_inv_index_end _ _ _ 12 _ Hinv ltac:(lia) Hlook) as Hend'. pose proof (hi_end _ _ _ Hinv).
    rewrite Hsz in Hend'. unfold last_hole in Hend'. lia.
Qed.

(** With the registers of a task that reads 0x444 as its instruction pointer. *)
Lemma main_runs_witness : exists hs x',
  main test_lit 0x8000 1024 (fun _ r x => Ok (r, x)) start_image 1024 true 7 0x9010 0x9000 0x80F00 0x80F10 (mk_cpu 0x11 0 0)
    0x444 1 2 0 (mk_registers 0 0 0 0 0 0 0 0 0 0 0 0 0 0 0 0) test_machine = Ok (hs, x') /\
  row_shows (x_mem x') 5 "> fork() returned 2, and getpid() returned 1" /\ running task2 (x_sched x').
Proof.
  destruct (main_runs (fun _ r x => Ok (r, x)) 0x444 1 2 0 (mk_registers 0 0 0 0 0 0 0 0 0 0 0 0 0 0 0 0) ltac:(discriminate)) as (hs & x' & E & Hrows & _ & Hrun & _).
  exists hs, x'. split_and!; [exact E | | exact Hrun].
  rewrite Forall_forall in Hrows. exact (Hrows (5, "> fork() returned 2, and getpid() returned 1"%string) ltac:(do 4 right; left)).
Defined.
